(* ===== verification/_CoqProject ===== *)
-Q . S2P
Prelude.v
GoStrings.v
GoTime.v
GoDuration.v
Codec.v
Base64.v
Sha256.v
Json.v
Http.v
Storage.v
Sql.v
SQLite.v
StoreSpec.v
SQLiteRefines.v
Patterns.v
Replay.v
Crypto.v
Mailbox.v
MailboxSpec.v
Pairflow.v
JsonUtf8.v
Float64.v
JsonText.v
JsonTextSpec.v
JsonRead.v
JsonAny.v
PairflowKeys.v
PairflowSpec.v
Sweep.v
Sched.v
Concurrent.v
Inbox.v
Samples.v
StorageTheorems.v
MailboxTheorems.v
Reader.v
PairingTheorems.v
Session.v
RelayTheorems.v
Wire.v
Trim.v
Schema.v
Flag.v
CommandLine.v
Inspect.v
InspectTheorems.v
SchemaTheorems.v
CommandLineTheorems.v
Edge.v
Gateway.v
GatewayMain.v
Settings.v
Startup.v
GatewaySpec.v
Platform.v
GatewayTheorems.v
StartupTheorems.v
Middleware.v
MiddlewareTheorems.v
Recovery.v
Mux.v
MuxSpec.v
Ingress.v
Drain.v
Document.v
Discovery.v
DiscoverySpec.v
DiscoveryTheorems.v
Effects.v
Relay.v
Listeners.v
Routes.v
Landing.v
LandingTheorems.v
ListenerTheorems.v
Contract.v
Process.v
ProcessSpec.v
Shutdown.v
ProcessTheorems.v
