(* ===== verification/Prelude.v ===== *)
(** * interchange: a verification library

    The repository holds two programs and a tool.  The relay (cmd/interchange) is an
    end-to-end encrypted mailbox between pairs of users: it stores envelopes it
    cannot read, checks who signed them, and lets an owner approve pairing
    requests.  The gateway (cmd/interchange-gateway) is the reverse proxy in front
    of a platform's services: it verifies bearer tokens and passes the verified
    identity on.  The inspector (cmd/db-inspect) prints the relay's tables.

    ** Files and the code they model

    The language and the libraries: [Prelude] (results, tactics, lists),
    [GoStrings] and [Trim] (package strings), [GoTime] (package time: the civil
    calendar, RFC 3339, 64-bit durations with saturating subtraction),
    [GoDuration] (time.ParseDuration, fractions in binary64), [Codec]
    (hex, base64url), [Base64] (package base64 with what it decodes before an error),
    [Sha256], [Json] and [JsonUtf8] (encoding/json: scanner,
    unquoting, struct decoding, string encoding; decoded strings are UTF-8),
    [JsonText] (encoding/json: Marshal, compaction, MarshalIndent, the bytes of a
    response), [JsonTextSpec] and [JsonRead] (every text it writes reads back as the
    value, down to the depth the scanner allows), [Float64] (numbers
    of JSON as float64s: exact rounding, the shortest decimal, and that the text reads
    as the float64 again), [JsonAny] (decoding into an interface value, and that what
    was read survives being written), [Flag] (package flag), [Http] (requests, headers, query
    strings, responses).

    The relay:
    - internal/storage/storage.go: [Storage] (data, errors, the class [Storage] of
      the interface, programs over statements) and [StoreSpec] (a store of three
      finite maps, what each method does to it ([performed]), the class
      [StorageLaws] the handlers are verified against, and what the comments of the
      interface say of each method ([documented]), with the states in which the two
      part ([deviates])).
    - internal/storage/sqlite.go: [Sql] (what each statement does to the tables)
      and [SQLite] (every method as a program over statements); [SQLiteRefines]
      relates tables to stores ([encode_db]) and proves [StorageLaws]; [Schema] (the
      schema script, its splitting, [OpenSQLite] and [CreateSchema] over a driver).
    - internal/mailbox/mailbox.go: [Mailbox] (dispatch, put, get, ack), with
      [Patterns] (the regular expressions), [Replay] ([tsInWindow]), and
      [MailboxSpec] (outcome of each handler on every branch); [Inbox] (pages and
      cursors).
    - internal/crypto/crypto.go: [Crypto] ([EdVerifier]; ed25519.Verify is the
      class [Ed25519]).
    - internal/pairflow/pairflow.go: [Pairflow] (both muxes, create, poll, list,
      approve, deny, halves, preimages, path ids), [PairflowKeys] (encodings) and
      [PairflowSpec] (outcomes).
    - internal/sweep/sweep.go: [Sweep].
    - all of them at once: [Sched] (programs interleaved statement by statement)
      and [Concurrent] (the invariant and the guarantee every handler keeps);
      [Effects] (which statements a program may execute and how many, and how a
      pool drains); [Reader] (a client that reads its mailbox dry); [Wire] (what a
      client decodes from the bytes of a page); [Session] (two users from the pairing
      request to the first message); [Samples] holds concrete worlds for witnesses.
    - internal/middleware/middleware.go: [Middleware] (rules, buckets, eviction;
      the token bucket of golang.org/x/time/rate is the class [TokenBucket]) and
      [Recovery] (handlers on an http.ResponseWriter that may panic, and [Recover]).
    - internal/discovery: [Document] (the structs and their JSON names, marshalled by
      the class [Marshal]), [Discovery] (the whole document, the example values it is
      computed from, its handler; keys, ECDH, HKDF and AES-GCM are the classes
      [Ed25519Keys] and [AeadSuite] with their laws), [DiscoverySpec] (encodings
      and lemmas); [Contract] compares what it publishes with what is served.
    - internal/landing/landing.go: [Landing] (the page, and a reader of its tags,
      attributes, style URLs and content security policy).
    - cmd/interchange/main.go: [CommandLine] (the flags, main up to the schema);
      [Relay] (the muxes,
      the small handlers, the rate limits, what each listener runs), on [Mux] (the
      part of http.ServeMux the patterns need) with its lemmas in [MuxSpec];
      [Listeners] (what requests of each listener may do to the tables) and
      [Routes] (which handler answers a path); [Process] (the running process as a
      step relation: two servers with their connections, the sweeper, the eviction
      loop, the signal and main's way out), with its lemmas in [ProcessSpec] and
      [Shutdown].

    The gateway:
    - internal/edge/edge.go: [Edge] (identity, entitlement, metadata, dialing; gRPC's
      metadata map is the class [Metadata], files, certificates and clients are
      the class [Transport]).
    - internal/gateway/gateway.go: [Gateway]; [GatewaySpec] has its lemmas.
    - cmd/interchange-gateway/main.go: [GatewayMain] (the edges, parsing of
      settings), [Settings] (settings as text) and [Startup] (main up to the server
      that listens); [Platform] puts these together; [Ingress] is the mux of the
      gateway's Handler, on [Mux]; [Drain] is the running process: the goroutine that
      listens, connections, the select of main, the signal and the bounded drain.

    The inspector:
    - cmd/db-inspect/main.go: [Inspect] (the flag, the two queries, what is printed).

    ** How state and operations correspond

    A handler of the relay is a program ([Storage.Prog]): it executes SQL statements,
    reads the clock, draws request ids and returns a response.  [Sql.run] runs a
    program alone in a world (tables, clock readings, ids, driver faults);
    [Sched.pool_step] lets any number of programs take statements in turn, as
    goroutines on one database do.  Each statement is atomic; nothing larger is.
    [Process.Process] is the state of the whole relay, with main's position, the
    connections of both servers (idle, or busy with a program), the contexts of the
    two drains, the buckets and the tables; [Process.step] lets main and each
    goroutine take its next step.  A handler that may panic is a [Recovery.Handling],
    a program on the writer that says how it ended.
    The rate limiter's state is the two-level map of buckets; its mutex makes a
    run a sequence of requests and ticks.  A gateway handler maps a request and
    the identity of its context to an effect: an answer, a request forwarded to a
    backend, or a call of a pillar.  [Drain.GProcess] is the state of the running
    gateway and [Drain.step] a step of main or one of its goroutines.
    A response carries a Go value ([Http.gojson]); [JsonText.wire] is what is sent.

    ** What the theorems show

    - [RelayTheorems]: invariants of every interleaving of all handlers and the
      sweeper (an approved request has an active pair with its requester's key,
      every envelope an active pair; requests and pairs move one way only), the
      verifier on stored pairs, the sweep.
    - [ListenerTheorems]: no pair comes about without the owner's secret on the
      tailnet listener, in any interleaving; every request and sweep ends, and a
      drain of any number of them, in a bounded number of statements; the handler
      of every path on both listeners, escapes included.
    - [ProcessTheorems]: the same invariants in every state of the running process,
      its limiter and tickers included; the order of a shutdown, and that it ends.
      [CommandLineTheorems]: what the flags mean and when the relay starts.
      [Recovery]: what the client gets when a handler panics.
    - [Contract]: the text of the discovery document parses to the document, and the
      endpoints and limits it advertises are the ones the public listener serves and
      enforces, but for the size of a body and the query of an ack.
      [LandingTheorems]: the landing page is inert, fits its own policy, is the same
      everywhere and names no path but that of the document.
    - [StorageTheorems]: SQLite does what [performed] says or fails without a trace,
      and where that is what the interface documents; times survive storage and
      keep their order as TEXT; paging by cursor reads every envelope once.
      [SchemaTheorems]: the schema script declares the tables of the model.
    - [MailboxTheorems]: put, get and ack on every branch; delivery to the other
      half only; what a signature covers; the replay window exactly.  [Reader]:
      fetching and acknowledging pages empties an inbox, each message read once.
      [Wire]: the bytes of a page decode to the posted bodies, and a body that nests
      as deeply as the scanner allows makes the page unreadable.
      [Session]: the handlers compose: a request, its approval, a poll, a signed PUT
      and a signed GET carry the first message from requester to owner.
    - [DiscoveryTheorems]: the published examples pass the relay's own checks, and
      the published AEAD vector opens.
    - [PairingTheorems]: create, approve and deny on every branch; stored halves
      decode to themselves; path ids; signature preimages; ids.  Several state
      defects: an approval of an existing pair loses the owner's half, a denial
      between an approval's two writes leaves the pair active, a driver failure may
      leave a pair without its request, a preimage does not pin a Diffie-Hellman key
      with newlines around it.
    - [GatewayTheorems]: no forged identity passes, and none without the product of
      the pillar or route (and the audience of the pillar); every branch of routes and
      edges; longest prefix; independence of the order of routes.  [Ingress]: what
      gets through the front door, and how an escaped dot segment leaves a public
      subtree.
    - [StartupTheorems]: with which settings the gateway starts, over which
      connections, and how long it drains; route lists read back as written.
      [Drain]: what the running gateway serves is vouched for, when it shuts down, what
      its exit status says, and that the drain ends.
    - [MiddlewareTheorems]: isolation of clients, bounds, eviction.
    - [InspectTheorems]: the dump has every row once; the JSON it shows is the stored
      value; of some padded ciphertexts it shows the first bytes only.

    ** Bounds and fuel

    Recursions are structural except five.  [Inbox.walk] reads one page per unit
    of fuel; as many units as the inbox has pages are enough, and completeness is
    proved for such fuel; so it is with the rounds of [Reader.read_dry].
    [Trim.trim_pieces] drops leading pieces; each has a byte at least, so the
    length of the string is enough.  [GoDuration.parse_terms] takes a byte at least
    for each term, and more fuel than bytes changes nothing.  [Float64.shortest] tries
    forty powers of ten; one of them is fine enough for every exponent.  JSON nesting is limited
    to 10000 levels, for reading, and has no limit for writing, as in the package;
    bodies, pages and batches are limited to the constants of the source.  Lengths and times
    are integers; durations wrap and saturate at 64 bits where the code can see it.

    ** Choices

    The SQLite driver is the environment of a run: it may fail at any statement,
    and it writes the text of UNIQUE violations, whose documented substring is a
    hypothesis.  ORDER BY ties are broken by the primary key.  Error texts leave
    out values the code quotes into them; no branch depends on these.  A struct is
    encoded in the order of its fields, a Go map with sorted keys.
    [Mux.ServeMux] takes the escaped path of a request beside its path; a redirect
    keeps the query.  sort.Slice is not stable and Go maps have no order, so the
    order of routes with prefixes of one length is the class [SortSlice].

    ** Not modelled

    Sockets and the bytes on them, generated gRPC code, the reverse proxy past the
    request handed to it, and logging are I/O; the version string is set by the
    linker.  What the driver does for the inspector is a record, and its columns are
    never NULL, as the schema has it.  In [Process] and [Drain] handlers do not panic, a
    connection carries one request at a time, and a statement takes no time of its own.
    What is left of the sources is imports, comments and log lines. *)

From Stdlib Require Export ZArith Lia Ascii.
From stdpp Require Export base tactics option list strings gmap sorting.

#[global] Set Default Proof Using "Type*".

(** ** Results of fallible operations

    Go functions return [(value, error)]; the model returns one of the two.
    The three sentinel errors of internal/storage/storage.go are constructors of
    their own, every other error carries its text. *)
Inductive error : Type :=
| ErrNotFound
| ErrDuplicate
| ErrConflict
| ErrOther (msg : string).

#[export] Instance error_eq_dec : EqDecision error.
Proof. solve_decision. Defined.

Inductive result (A : Type) : Type :=
| Ok (a : A)
| Err (e : error).
Arguments Ok {A} a.
Arguments Err {A} e.

(** The next call runs when the last one had no error. *)
#[export] Instance result_bind : MBind result := λ A B k r,
  match r with Ok a => k a | Err e => Err e end.

Lemma bind_Ok {A B} (r : result A) (k : A → result B) b :
  (r ≫= k) = Ok b ↔ ∃ a, r = Ok a ∧ k a = Ok b.
Proof. destruct r; simpl; naive_solver. Qed.

#[export] Instance result_eq_dec {A} `{EqDecision A} : EqDecision (result A).
Proof. solve_decision. Defined.

(** ** Shared tactics *)

(** Case analysis on every [match]/[if] of the goal, keeping the equations. *)
Ltac case_goal :=
  repeat match goal with
  | |- context [match ?x with _ => _ end] =>
      lazymatch x with
      | context [match _ with _ => _ end] => fail
      | _ => let E := fresh "E" in destruct x eqn:E
      end
  end.

(** Case analysis on a [match]/[if] of a hypothesis. *)
Ltac case_hyp H :=
  match type of H with
  | context [match ?x with _ => _ end] =>
      lazymatch x with
      | context [match _ with _ => _ end] => fail
      | _ => let E := fresh "E" in destruct x eqn:E
      end
  end.

(** Two answers of one call are the same. *)
Ltac same_result :=
  repeat match goal with
  | H : ?t = Ok _, H' : ?t = Ok _ |- _ => rewrite H in H'; injection H' as ?; subst
  end.

(** Membership in a list that shows the element. *)
Ltac mem := repeat first [by left | right].

(** Linear arithmetic with divisions by constants. *)
Ltac div_lia := Z.to_euclidean_division_equations; lia.

(** Turn boolean tests into propositions. *)
Ltac bool_prop :=
  repeat match goal with
  | H : andb _ _ = true |- _ => apply andb_true_iff in H; destruct H
  | H : orb _ _ = false |- _ => apply orb_false_iff in H; destruct H
  | H : negb _ = true |- _ => apply negb_true_iff in H
  | H : negb _ = false |- _ => apply negb_false_iff in H
  | H : (_ =? _)%Z = true |- _ => apply Z.eqb_eq in H
  | H : (_ =? _)%Z = false |- _ => apply Z.eqb_neq in H
  | H : (_ <? _)%Z = true |- _ => apply Z.ltb_lt in H
  | H : (_ <? _)%Z = false |- _ => apply Z.ltb_ge in H
  | H : (_ <=? _)%Z = true |- _ => apply Z.leb_le in H
  | H : (_ <=? _)%Z = false |- _ => apply Z.leb_gt in H
  | H : (_ =? _)%string = true |- _ => apply String.eqb_eq in H
  | H : (_ =? _)%string = false |- _ => apply String.eqb_neq in H
  | H : bool_decide _ = true |- _ => apply bool_decide_eq_true in H
  | H : bool_decide _ = false |- _ => apply bool_decide_eq_false in H
  end.

Create HintDb interchange discriminated.

(** ** Sorting *)

(** Sorting commutes with a map that respects the orders. *)
Lemma merge_sort_fmap {A B} (R : relation A) (S : relation B)
    `{!RelDecision R, !RelDecision S, !Total R, !Transitive R, !Total S, !Transitive S}
    (f : A → B) (l : list A) :
  (∀ x y, x ∈ l → y ∈ l → R x y → S (f x) (f y)) →
  (∀ x y, x ∈ l → y ∈ l → S (f x) (f y) → S (f y) (f x) → f x = f y) →
  merge_sort S (f <$> l) = f <$> merge_sort R l.
Proof.
  intros Hmono Hanti.
  apply (StronglySorted_unique_strong S).
  - intros x1 x2 H1 H2.
    rewrite merge_sort_Permutation in H1. apply list_elem_of_fmap in H1 as (a & -> & Ha).
    apply list_elem_of_fmap in H2 as (b & -> & Hb). rewrite merge_sort_Permutation in Hb.
    intros ??. by apply Hanti.
  - apply StronglySorted_merge_sort; apply _.
  - assert (Hl : ∀ l', l' ⊆ l → StronglySorted R l' → StronglySorted S (f <$> l')).
    { intros l' Hsub Hs. induction Hs as [|a l' Hs IH Hall]; csimpl; constructor.
      - apply IH. intros x Hx. apply Hsub. by right.
      - rewrite Forall_fmap. rewrite Forall_forall in Hall |- *. intros y Hy. simpl.
        apply Hmono; [apply Hsub; by left|apply Hsub; by right|by apply Hall]. }
    apply Hl; [intros x; by rewrite merge_sort_Permutation|].
    apply StronglySorted_merge_sort; apply _.
  - by rewrite !merge_sort_Permutation.
Qed.

(** Sorting looks at the order only. *)
Section natural.
Context {A B} (R : relation A) (S : relation B) `{!∀ x y, Decision (R x y), !∀ x y, Decision (S x y)}.
Context (f : A → B) (Hf : ∀ x y, R x y ↔ S (f x) (f y)).

Lemma list_merge_natural l1 l2 : list_merge S (f <$> l1) (f <$> l2) = f <$> list_merge R l1 l2.
Proof.
  revert l2. induction l1 as [|x l1 IH1]; intros l2; [by destruct l2|].
  induction l2 as [|y l2 IH2]; [done|]. csimpl. rewrite (decide_ext _ _ _ _ (iff_sym (Hf x y))).
  case_decide; csimpl; f_equal; [apply (IH1 (y :: l2))|apply IH2].
Qed.

Definition map_stack : list (option (list A)) → list (option (list B)) := map (option_map (map f)).

Lemma merge_list_to_stack_natural st l :
  merge_list_to_stack S (map_stack st) (f <$> l) = map_stack (merge_list_to_stack R st l).
Proof.
  revert l. induction st as [|[l'|] st IH]; intros l; [done| |done].
  cbn [map_stack map option_map merge_list_to_stack]. f_equal. rewrite <- IH. f_equal.
  apply list_merge_natural.
Qed.

Lemma merge_stack_natural st : merge_stack S (map_stack st) = f <$> merge_stack R st.
Proof.
  induction st as [|[l|] st IH]; [done| |done].
  cbn [map_stack map option_map merge_stack]. rewrite <- list_merge_natural. by f_equal.
Qed.

Lemma merge_sort_natural l : merge_sort S (f <$> l) = f <$> merge_sort R l.
Proof.
  unfold merge_sort. change (merge_sort_aux S [] (f <$> l)) with (merge_sort_aux S (map_stack []) (f <$> l)).
  generalize ([] : list (option (list A))). induction l as [|x l IH]; intros st; [apply merge_stack_natural|].
  cbn [merge_sort_aux fmap list_fmap]. rewrite <- IH. f_equal. apply (merge_list_to_stack_natural st [x]).
Qed.
End natural.

(** ** Maps *)

Lemma lookup_insert_fresh {A} (m : gmap string A) k v k' x :
  m !! k = None → m !! k' = Some x → <[k := v]> m !! k' = Some x.
Proof. intros Hk Hx. rewrite lookup_insert_ne; [done|]. intros ->. congruence. Qed.
#[export] Hint Resolve lookup_insert_fresh : interchange.
