(* ===== verification/GoStrings.v ===== *)
(** * Go strings

    Go's [string] and [[]byte] are byte sequences; both are modelled by
    [string] (a sequence of 8-bit [ascii]).  This file holds the functions of the
    [strings] and [bytes] packages the program calls, Go's string ordering (which
    is also SQLite's BINARY collation on TEXT), and their lemmas. *)

From S2P Require Import Prelude.

Local Open Scope string_scope.

(** Lengths are byte counts; they are compared with large limits, so they are
    binary integers. *)
Definition len (s : string) : Z := Z.of_nat (String.length s).

Definition code (c : ascii) : Z := Z.of_N (Ascii.N_of_ascii c).

Definition chr (z : Z) : ascii := Ascii.ascii_of_N (Z.to_N z).

Fixpoint drop_bytes (n : nat) (s : string) : string :=
  match n, s with
  | S n, String _ s => drop_bytes n s
  | _, _ => s
  end.

Fixpoint take_bytes (n : nat) (s : string) : string :=
  match n, s with
  | S n, String c s => String c (take_bytes n s)
  | _, _ => ""
  end.

(** ** package strings *)

Fixpoint HasPrefix (s p : string) : bool :=
  match p, s with
  | "", _ => true
  | String a p, String b s => Ascii.eqb a b && HasPrefix s p
  | String _ _, "" => false
  end.

Definition TrimPrefix (s p : string) : string :=
  if HasPrefix s p then drop_bytes (String.length p) s else s.

(** [strings.Split(s, sep)] for a separator of one byte. *)
Fixpoint Split (s : string) (sep : ascii) : list string :=
  match s with
  | "" => [""]
  | String c s =>
      if Ascii.eqb c sep then "" :: Split s sep
      else match Split s sep with
           | [] => [String c ""]
           | w :: ws => String c w :: ws
           end
  end.

Fixpoint Join (ws : list string) (sep : string) : string :=
  match ws with
  | [] => ""
  | [w] => w
  | w :: ws => w +:+ sep +:+ Join ws sep
  end.

Fixpoint Repeat (s : string) (n : nat) : string :=
  match n with
  | O => ""
  | S n => s +:+ Repeat s n
  end.

Fixpoint Contains (s sub : string) : bool :=
  HasPrefix s sub ||
  match s with
  | "" => false
  | String _ s => Contains s sub
  end.

(** [strings.IndexByte], as the text before and after the first occurrence. *)
Fixpoint CutByte (s : string) (c : ascii) : option (string * string) :=
  match s with
  | "" => None
  | String a s =>
      if Ascii.eqb a c then Some ("", s)
      else '(before, after) ← CutByte s c; Some (String a before, after)
  end.

(** [s < t] on Go strings, and [<] on SQLite TEXT values. *)
Definition str_ltb (s t : string) : bool := String.ltb s t.

(** Whether every byte of [s] satisfies [p]. *)
Fixpoint all_bytes (p : ascii → bool) (s : string) : bool :=
  match s with
  | "" => true
  | String c s => p c && all_bytes p s
  end.

Definition no_byte (c : ascii) (s : string) : bool := all_bytes (λ a, negb (Ascii.eqb a c)) s.

(** ** Lemmas *)

Create Rewrite HintDb strings.

Lemma app_assoc_s (a b c : string) : (a +:+ b) +:+ c = a +:+ b +:+ c.
Proof. induction a as [|x a IH]; [done|]. unfold String.append; fold String.append. by f_equal. Qed.

Lemma app_nil_r_s (a : string) : a +:+ "" = a.
Proof. induction a as [|x a IH]; [done|]. unfold String.append; fold String.append. by f_equal. Qed.

Lemma app_cons_s x (a b : string) : String x a +:+ b = String x (a +:+ b).
Proof. done. Qed.

Lemma app_nil_l_s (b : string) : "" +:+ b = b.
Proof. done. Qed.

#[export] Hint Rewrite app_assoc_s app_nil_r_s app_cons_s app_nil_l_s : strings.

Lemma length_app_s (a b : string) :
  String.length (a +:+ b) = (String.length a + String.length b)%nat.
Proof. induction a as [|x a IH]; [done|]. rewrite app_cons_s. simpl. by rewrite IH. Qed.

Lemma len_app (a b : string) : len (a +:+ b) = (len a + len b)%Z.
Proof. unfold len. rewrite length_app_s. lia. Qed.

Lemma app_inj_len (a a' b b' : string) :
  String.length a = String.length a' → a +:+ b = a' +:+ b' → a = a' ∧ b = b'.
Proof.
  revert a'. induction a as [|x a IH]; intros [|y a'] Hl H; [done..|].
  rewrite !app_cons_s in H. injection Hl as Hl. injection H as -> H.
  destruct (IH a' Hl H) as [-> ->]; auto.
Qed.

Lemma drop_bytes_app (a b : string) : drop_bytes (String.length a) (a +:+ b) = b.
Proof. induction a as [|x a IH]; [by destruct b|]. rewrite app_cons_s. done. Qed.

Lemma code_range (c : ascii) : (0 <= code c < 256)%Z.
Proof. unfold code. pose proof (Ascii.N_ascii_bounded c). lia. Qed.

Lemma chr_code (c : ascii) : chr (code c) = c.
Proof. unfold chr, code. rewrite N2Z.id. apply Ascii.ascii_N_embedding. Qed.

Lemma code_chr (z : Z) : (0 <= z < 256)%Z → code (chr z) = z.
Proof. intros. unfold chr, code. rewrite Ascii.N_ascii_embedding; lia. Qed.

Lemma chr_eq (z : Z) (c : ascii) : z = code c → chr z = c.
Proof. intros ->. apply chr_code. Qed.

Lemma code_inj (a b : ascii) : code a = code b → a = b.
Proof. intros H. by rewrite <- (chr_code a), H, chr_code. Qed.

Lemma HasPrefix_spec (s p : string) : HasPrefix s p = true ↔ ∃ r, s = p +:+ r.
Proof.
  revert s. induction p as [|a p IH]; intros s.
  - destruct s; simpl; naive_solver.
  - destruct s as [|b s]; simpl.
    + split; [done|]. intros [r Hr]. done.
    + rewrite andb_true_iff, Ascii.eqb_eq, IH. split.
      * intros [-> [r ->]]. by exists r.
      * intros [r Hr]. rewrite app_cons_s in Hr. simplify_eq. eauto.
Qed.

Lemma HasPrefix_app (p r : string) : HasPrefix (p +:+ r) p = true.
Proof. apply HasPrefix_spec. by exists r. Qed.

Lemma TrimPrefix_app (p r : string) : TrimPrefix (p +:+ r) p = r.
Proof. unfold TrimPrefix. by rewrite HasPrefix_app, drop_bytes_app. Qed.

Lemma Split_nonempty s sep : Split s sep ≠ [].
Proof. destruct s as [|c s]; simpl; [done|]. case_goal; done. Qed.

Lemma Split_no_sep s sep : no_byte sep s = true → Split s sep = [s].
Proof.
  unfold no_byte. induction s as [|c s IH]; simpl; [done|].
  intros [Hc Hs]%andb_true_iff. apply negb_true_iff in Hc. rewrite Hc.
  by rewrite IH.
Qed.

Lemma Split_app s sep t :
  no_byte sep s = true → Split (s +:+ String sep t) sep = s :: Split t sep.
Proof.
  unfold no_byte. induction s as [|c s IH]; intros H.
  - rewrite app_nil_l_s. simpl. by rewrite Ascii.eqb_refl.
  - apply andb_true_iff in H as [Hc Hs]. apply negb_true_iff in Hc.
    rewrite app_cons_s. simpl. by rewrite Hc, IH.
Qed.

(** Joining with a separator no part contains loses nothing. *)
Lemma Split_Join (ws : list string) (sep : ascii) :
  ws ≠ [] → Forall (λ w, no_byte sep w = true) ws →
  Split (Join ws (String sep "")) sep = ws.
Proof.
  intros Hne H. induction H as [|w ws Hw Hws IH]; [done|].
  destruct ws as [|w' ws]; simpl; [by apply Split_no_sep|].
  rewrite app_cons_s, app_nil_l_s, Split_app by done.
  f_equal. by apply IH.
Qed.

Lemma Join_Split (s : string) (sep : ascii) : Join (Split s sep) (String sep "") = s.
Proof.
  induction s as [|c s IH]; [done|]. simpl. pose proof (Split_nonempty s sep) as Hne.
  destruct (Split s sep) as [|w ws]; [done|]. destruct (Ascii.eqb_spec c sep) as [->|Hc].
  - change (String sep (Join (w :: ws) (String sep "")) = String sep s). by rewrite IH.
  - rewrite <- IH. by destruct ws.
Qed.

Lemma Split_app_any (a b : string) (sep : ascii) :
  Split (a +:+ String sep b) sep = (Split a sep ++ Split b sep)%list.
Proof.
  induction a as [|c a IH].
  - rewrite app_nil_l_s. simpl. by rewrite Ascii.eqb_refl.
  - rewrite app_cons_s. simpl. destruct (Ascii.eqb c sep); [by rewrite IH|].
    rewrite IH. pose proof (Split_nonempty a sep). by destruct (Split a sep).
Qed.

Lemma Join_inj (ws ws' : list string) (sep : ascii) :
  ws ≠ [] → ws' ≠ [] →
  Forall (λ w, no_byte sep w = true) ws → Forall (λ w, no_byte sep w = true) ws' →
  Join ws (String sep "") = Join ws' (String sep "") → ws = ws'.
Proof.
  intros Hne Hne' H H' E. rewrite <- (Split_Join ws sep), <- (Split_Join ws' sep) by done.
  by rewrite E.
Qed.

Lemma all_bytes_app p (a b : string) : all_bytes p (a +:+ b) = all_bytes p a && all_bytes p b.
Proof.
  induction a as [|x a IH]; [done|]. rewrite app_cons_s. simpl. by rewrite IH, andb_assoc.
Qed.

Lemma all_bytes_impl (p q : ascii → bool) s :
  (∀ c, p c = true → q c = true) → all_bytes p s = true → all_bytes q s = true.
Proof. intros Hpq. induction s; simpl; [done|]. intros []%andb_true_iff. rewrite andb_true_iff. auto. Qed.

(** ** The order of strings *)

Lemma str_ltb_leb (s t : string) : str_ltb s t = negb (String.leb t s).
Proof.
  unfold str_ltb, String.ltb, String.leb. rewrite (String.compare_antisym t s).
  by destruct (s ?= t)%string.
Qed.

Lemma str_ltb_irrefl s : str_ltb s s = false.
Proof. rewrite str_ltb_leb. by destruct (String.leb_total s s) as [-> | ->]. Qed.

Lemma str_ltb_le s t : str_ltb s t = true → String.le s t.
Proof.
  rewrite str_ltb_leb. intros H%negb_true_iff. unfold String.le.
  destruct (String.leb_total s t) as [->|E]; [done|congruence].
Qed.

Lemma str_ltb_false s t : str_ltb s t = false ↔ String.le t s.
Proof. rewrite str_ltb_leb, negb_false_iff. unfold String.le. by rewrite Is_true_true. Qed.

Lemma str_ltb_lt s t : str_ltb s t = true ↔ String.le s t ∧ s ≠ t.
Proof.
  split.
  - intros H. split; [by apply str_ltb_le|]. intros ->. by rewrite str_ltb_irrefl in H.
  - intros [Hle Hne]. destruct (str_ltb s t) eqn:E; [done|].
    apply str_ltb_false in E. exfalso. apply Hne. by apply (anti_symm String.le).
Qed.

Lemma str_ltb_trans s t u : str_ltb s t = true → str_ltb t u = true → str_ltb s u = true.
Proof.
  rewrite !str_ltb_lt. intros [H1 N1] [H2 N2]. split; [by etrans|].
  intros ->. apply N1. by apply (anti_symm String.le).
Qed.

Lemma str_ltb_nil s : str_ltb "" s = true ↔ s ≠ "".
Proof. destruct s; unfold str_ltb, String.ltb; simpl; naive_solver. Qed.

Lemma str_compare_cons a b s t :
  (String a s ?= String b t)%string =
  match (code a ?= code b)%Z with Eq => (s ?= t)%string | c => c end.
Proof.
  simpl. unfold Ascii.compare, code. rewrite N2Z.inj_compare. done.
Qed.

Lemma str_ltb_cons a b s t :
  str_ltb (String a s) (String b t) =
  if (code a =? code b)%Z then str_ltb s t else (code a <? code b)%Z.
Proof.
  unfold str_ltb, String.ltb. rewrite str_compare_cons.
  destruct (Z.compare_spec (code a) (code b)) as [E|E|E].
  - rewrite E, Z.eqb_refl. done.
  - destruct (code a =? code b)%Z eqn:?; bool_prop; [lia|]. symmetry. apply Z.ltb_lt. lia.
  - destruct (code a =? code b)%Z eqn:?; bool_prop; [lia|]. symmetry. apply Z.ltb_ge. lia.
Qed.

Lemma str_ltb_app_same p s t : str_ltb (p +:+ s) (p +:+ t) = str_ltb s t.
Proof.
  induction p as [|c p IH]; [done|]. by rewrite !app_cons_s, str_ltb_cons, Z.eqb_refl.
Qed.

#[export] Hint Resolve str_ltb_le str_ltb_trans HasPrefix_app : interchange.
