(* ===== verification/GoTime.v ===== *)
(** * Go times

    [time.Time] as the program uses it: an instant, in nanoseconds since the Unix
    epoch (locations never matter: every formatted time is first brought to UTC).
    [time.Duration] is a signed 64-bit count of nanoseconds, with its saturating
    subtraction and its wrapping negation.  The civil calendar, [Time.Format] and
    [time.Parse] for the layouts of the program are executable definitions. *)

From S2P Require Import Prelude GoStrings.
From stdpp Require Import pretty.

Local Open Scope Z_scope.

(** ** The civil (proleptic Gregorian) calendar *)

(** Days from 1970-01-01 to a civil date. *)
Definition days_from_civil (y m d : Z) : Z :=
  let y' := if m <=? 2 then y - 1 else y in
  let era := y' / 400 in
  let yoe := y' mod 400 in
  let mp := (m + 9) mod 12 in
  let doy := (153 * mp + 2) / 5 + d - 1 in
  let doe := yoe * 365 + yoe / 4 - yoe / 100 + doy in
  era * 146097 + doe - 719468.

(** Days from the start of an era to 1 March of its year [yoe]. *)
Definition era_days (yoe : Z) : Z := 365 * yoe + yoe / 4 - yoe / 100.

(** Year of the 400-year era (from 1 March) of a day of the era: whole
    centuries, whole 4-year cycles, whole years. *)
Definition year_of_era (doe : Z) : Z :=
  let c := Z.min (doe / 36524) 3 in
  let r := doe - c * 36524 in
  let q := r / 1461 in
  100 * c + 4 * q + Z.min ((r - q * 1461) / 365) 3.

(** Month and day of a day of the year that starts on 1 March. *)
Definition month_day (doy : Z) : Z * Z :=
  let mp := (5 * doy + 2) / 153 in
  (if mp <? 10 then mp + 3 else mp - 9, doy - (153 * mp + 2) / 5 + 1).

Definition civil_of_doe (doe : Z) : Z * Z * Z :=
  let yoe := year_of_era doe in
  let '(m, d) := month_day (doe - era_days yoe) in
  (yoe + (if m <=? 2 then 1 else 0), m, d).

Definition civil_from_days (z : Z) : Z * Z * Z :=
  let z := z + 719468 in
  let '(yoe, m, d) := civil_of_doe (z mod 146097) in
  (z / 146097 * 400 + yoe, m, d).

Definition is_leap (y : Z) : bool :=
  (y mod 4 =? 0) && (negb (y mod 100 =? 0) || (y mod 400 =? 0)).

(** [daysIn] of package time. *)
Definition days_in (m y : Z) : Z :=
  if (m =? 2) && is_leap y then 29
  else if m =? 2 then 28
  else if (m =? 4) || (m =? 6) || (m =? 9) || (m =? 11) then 30
  else 31.

Definition valid_date (y m d : Z) : bool :=
  (1 <=? m) && (m <=? 12) && (1 <=? d) && (d <=? days_in m y).

(** *** The conversions are inverse, and monotone *)

Ltac div_lia := Z.to_euclidean_division_equations; lia.

(** The year from 1 March [y] ends with a leap day. *)
Definition leap_end (y : Z) : Z := if is_leap (y + 1) then 1 else 0.

Lemma is_leap_spec y :
  is_leap y = true ↔ y mod 4 = 0 ∧ (y mod 100 ≠ 0 ∨ y mod 400 = 0).
Proof.
  unfold is_leap. rewrite andb_true_iff, orb_true_iff, negb_true_iff, !Z.eqb_eq, Z.eqb_neq. done.
Qed.

Lemma leap_end_cases y :
  (leap_end y = 1 ∧ (y + 1) mod 4 = 0 ∧ ((y + 1) mod 100 ≠ 0 ∨ (y + 1) mod 400 = 0)) ∨
  (leap_end y = 0 ∧ ¬ ((y + 1) mod 4 = 0 ∧ ((y + 1) mod 100 ≠ 0 ∨ (y + 1) mod 400 = 0))).
Proof.
  unfold leap_end. destruct (is_leap (y + 1)) eqn:E.
  - left. apply is_leap_spec in E. done.
  - right. split; [done|]. intros H%is_leap_spec. congruence.
Qed.

Lemma year_of_era_spec doe :
  0 <= doe < 146097 →
  0 <= year_of_era doe < 400 ∧
  era_days (year_of_era doe) <= doe <= era_days (year_of_era doe) + 364 + leap_end (year_of_era doe).
Proof.
  intros H. unfold year_of_era.
  set (c := Z.min (doe / 36524) 3). set (r := doe - c * 36524). set (q := r / 1461).
  set (k := Z.min ((r - q * 1461) / 365) 3).
  assert (Hc : 0 <= c <= 3) by (subst c; div_lia).
  assert (Hr : 0 <= r < 36524 ∨ (c = 3 ∧ r = 36524)) by (subst r c; div_lia).
  assert (Hq : 0 <= q <= 24) by (subst q; div_lia).
  assert (Hk : 0 <= k <= 3 ∧ q * 1461 + k * 365 <= r) by (subst k q; div_lia).
  assert (Hk' : r <= q * 1461 + k * 365 + 364 + (if k =? 3 then 1 else 0)).
  { subst k q. destruct (Z.min _ 3 =? 3) eqn:E; bool_prop; div_lia. }
  assert (Hy4 : (100 * c + 4 * q + k) / 4 = 25 * c + q) by div_lia.
  assert (Hy100 : (100 * c + 4 * q + k) / 100 = c) by div_lia.
  unfold era_days. rewrite Hy4, Hy100. split; [lia|].
  destruct (leap_end_cases (100 * c + 4 * q + k)) as [(->&?&?)|(->&Hn)].
  - destruct (k =? 3) eqn:E; bool_prop; subst r; lia.
  - split; [subst r; lia|]. destruct (k =? 3) eqn:E; bool_prop; [|subst r; lia].
    assert (q = 24 ∧ c ≠ 3); [|subst r; lia].
    split; [|intros ->].
    + destruct (Z.eq_dec q 24); [done|]. exfalso. apply Hn. subst k. split; [div_lia|].
      left. rewrite E. div_lia.
    + destruct (Z.eq_dec q 24) as [->|]; apply Hn; (split; [div_lia|]); [right|left]; rewrite E; div_lia.
Qed.

(** Days of the 1 March of year [y], on a scale where 0 is 0000-03-01. *)
Definition march_days (y : Z) : Z := 365 * y + y / 4 - y / 100 + y / 400.

Lemma march_days_next y : march_days (y + 1) = march_days y + 365 + leap_end y.
Proof.
  unfold march_days. destruct (leap_end_cases y) as [(->&?&?)|(->&?)]; div_lia.
Qed.

Lemma march_days_mono y y' : y < y' → march_days y + 365 + leap_end y <= march_days y'.
Proof.
  intros H. rewrite <- march_days_next. unfold march_days.
  assert (∃ k, 0 <= k ∧ y' = y + 1 + k) as (k & Hk & ->) by (exists (y' - y - 1); lia).
  div_lia.
Qed.

Lemma march_days_era era yoe :
  0 <= yoe < 400 → march_days (era * 400 + yoe) = era * 146097 + era_days yoe.
Proof. intros. unfold march_days, era_days. div_lia. Qed.

(** Days before the month [m] in a year that starts on 1 March. *)
Definition month_start (m : Z) : Z := (153 * ((m + 9) mod 12) + 2) / 5.

(** A day count from the March-based fields. *)
Lemma days_from_civil_march y m d :
  days_from_civil y m d =
  march_days (y - (if m <=? 2 then 1 else 0)) + month_start m + d - 1 - 719468.
Proof.
  unfold days_from_civil, march_days, month_start.
  destruct (m <=? 2); [|rewrite Z.sub_0_r]; div_lia.
Qed.

(** A valid date of the year from 1 March [y]: the bounds that matter. *)
Lemma valid_date_bounds y m d :
  valid_date y m d = true ↔
  1 <= m <= 12 ∧ 1 <= d ∧
  month_start m + d <=
    (if m =? 2 then 365 + leap_end (y - 1) else month_start (if m =? 12 then 1 else m + 1)).
Proof.
  unfold valid_date, days_in, month_start, leap_end.
  rewrite !andb_true_iff, !Z.leb_le.
  replace (y - 1 + 1) with y by lia.
  assert (m < 1 ∨ 12 < m ∨ m = 1 ∨ m = 2 ∨ m = 3 ∨ m = 4 ∨ m = 5 ∨ m = 6 ∨ m = 7 ∨ m = 8 ∨
          m = 9 ∨ m = 10 ∨ m = 11 ∨ m = 12) as Hm by lia.
  destruct Hm as [?|[?|Hm]]; [split; intros; destruct_and?; exfalso; lia..|].
  destruct (is_leap y); destruct_or! Hm; subst m; cbn; split; intros; destruct_and?; repeat split; div_lia.
Qed.

(** Every valid date is at least 1 March and before the next 1 March. *)
Lemma valid_date_doy y m d :
  valid_date y m d = true →
  1 <= month_start m + d <= 365 + leap_end (y - (if m <=? 2 then 1 else 0)).
Proof.
  intros (Hm & Hd & H)%valid_date_bounds.
  assert (0 <= leap_end (y - (if m <=? 2 then 1 else 0)))
    by (unfold leap_end; destruct (is_leap _); lia).
  destruct (m =? 2) eqn:E2; bool_prop.
  - subst m. change (if 2 <=? 2 then 1 else 0) with 1 in *.
    change (month_start 2) with 337 in *. lia.
  - unfold month_start in *. destruct (m =? 12) eqn:E12; bool_prop; div_lia.
Qed.

(** *** Dates are ordered as their day counts *)

Definition date_lt (a b : Z * Z * Z) : Prop :=
  let '(y, m, d) := a in let '(y', m', d') := b in
  y < y' ∨ (y = y' ∧ (m < m' ∨ (m = m' ∧ d < d'))).

Lemma days_from_civil_lt y m d y' m' d' :
  valid_date y m d = true → valid_date y' m' d' = true →
  date_lt (y, m, d) (y', m', d') → days_from_civil y m d < days_from_civil y' m' d'.
Proof.
  intros V V' Hlt. rewrite !days_from_civil_march.
  pose proof (valid_date_doy _ _ _ V) as B. pose proof (valid_date_doy _ _ _ V') as B'.
  apply valid_date_bounds in V as (Hm & Hd & HV).
  apply valid_date_bounds in V' as (Hm' & Hd' & HV').
  set (Y := y - (if m <=? 2 then 1 else 0)) in *.
  set (Y' := y' - (if m' <=? 2 then 1 else 0)) in *.
  assert (Y < Y' ∨ (Y = Y' ∧ ((m + 9) mod 12 < (m' + 9) mod 12 ∨ (m = m' ∧ d < d')))) as HY.
  { subst Y Y'. unfold date_lt in Hlt.
    destruct (m <=? 2) eqn:?, (m' <=? 2) eqn:?; bool_prop; div_lia. }
  destruct HY as [HY|[-> [Hmp|[-> ?]]]].
  - pose proof (march_days_mono _ _ HY). lia.
  - enough (month_start m + d <= month_start m') by lia.
    destruct (m =? 2) eqn:E2; bool_prop; [subst; div_lia|].
    etrans; [exact HV|]. unfold month_start. destruct (m =? 12) eqn:?; bool_prop; div_lia.
  - lia.
Qed.

Lemma civil_of_doe_spec doe :
  0 <= doe < 146097 →
  let '(y, m, d) := civil_of_doe doe in
  valid_date y m d = true ∧ days_from_civil y m d = doe - 719468.
Proof.
  intros H. unfold civil_of_doe. pose proof (year_of_era_spec doe H) as (Hy & Hdoy).
  set (yoe := year_of_era doe) in *. set (doy := doe - era_days yoe).
  assert (0 <= leap_end yoe <= 1) by (unfold leap_end; destruct (is_leap _); lia).
  unfold month_day. set (mp := (5 * doy + 2) / 153).
  assert (Hmp : 0 <= mp <= 11) by (subst mp; div_lia).
  assert (Hms : month_start (if mp <? 10 then mp + 3 else mp - 9) = (153 * mp + 2) / 5).
  { unfold month_start. destruct (mp <? 10) eqn:?; bool_prop; do 2 f_equal; div_lia. }
  set (m := if mp <? 10 then mp + 3 else mp - 9) in *.
  assert (Hm : 1 <= m <= 12 ∧ ((m =? 2) = true ↔ mp = 11) ∧ (mp + 1) mod 12 = ((if m =? 12 then 1 else m + 1) + 9) mod 12).
  { subst m. destruct (mp <? 10) eqn:?; bool_prop; (split; [lia|]); (split; [rewrite Z.eqb_eq; lia|]).
    - destruct (_ =? 12) eqn:?; bool_prop; div_lia.
    - destruct (_ =? 12) eqn:?; bool_prop; div_lia. }
  destruct Hm as (Hm & Hm2 & Hm12).
  assert (Hy' : yoe + (if m <=? 2 then 1 else 0) - (if m <=? 2 then 1 else 0) = yoe) by lia.
  split.
  - apply valid_date_bounds. rewrite Hms. split; [done|]. split; [subst mp; div_lia|].
    destruct (m =? 2) eqn:E.
    + bool_prop. rewrite E. cbn. replace (yoe + 1 - 1) with yoe by lia. lia.
    + unfold month_start. rewrite <- Hm12.
      assert (mp ≠ 11) by (intros E11; apply Hm2 in E11; congruence). rewrite Z.mod_small by lia. subst mp. div_lia.
  - rewrite days_from_civil_march, Hy', Hms.
    pose proof (march_days_era 0 yoe Hy) as E. rewrite Z.mul_0_l, !Z.add_0_l in E.
    rewrite E. lia.
Qed.

Lemma valid_date_era k y m d : valid_date (k * 400 + y) m d = valid_date y m d.
Proof.
  unfold valid_date, days_in. enough (is_leap (k * 400 + y) = is_leap y) as -> by done.
  unfold is_leap.
  replace ((k * 400 + y) mod 4) with (y mod 4) by div_lia.
  replace ((k * 400 + y) mod 100) with (y mod 100) by div_lia.
  by replace ((k * 400 + y) mod 400) with (y mod 400) by div_lia.
Qed.

Lemma civil_from_days_spec z :
  let '(y, m, d) := civil_from_days z in
  valid_date y m d = true ∧ days_from_civil y m d = z.
Proof.
  unfold civil_from_days.
  pose proof (civil_of_doe_spec ((z + 719468) mod 146097)) as H.
  destruct (civil_of_doe _) as [[y m] d].
  destruct H as [V E]; [apply Z.mod_pos_bound; lia|].
  rewrite valid_date_era. split; [done|].
  rewrite days_from_civil_march in *.
  set (b := if m <=? 2 then 1 else 0) in *.
  enough (march_days ((z + 719468) / 146097 * 400 + y - b) =
          (z + 719468) / 146097 * 146097 + march_days (y - b)) by div_lia.
  unfold march_days. div_lia.
Qed.

Lemma date_lt_total a b : date_lt a b ∨ a = b ∨ date_lt b a.
Proof.
  destruct a as [[y m] d], b as [[y' m'] d']. unfold date_lt.
  destruct (Z.lt_total y y') as [?|[->|?]], (Z.lt_total m m') as [?|[->|?]],
    (Z.lt_total d d') as [?|[->|?]]; auto 8.
Qed.

Lemma civil_from_days_lt z z' :
  z < z' → date_lt (civil_from_days z) (civil_from_days z').
Proof.
  intros Hlt. pose proof (civil_from_days_spec z) as H. pose proof (civil_from_days_spec z') as H'.
  destruct (date_lt_total (civil_from_days z) (civil_from_days z')) as [?|[E|E]]; [done| |].
  - rewrite E in H. destruct (civil_from_days z') as [[y m] d]. lia.
  - destruct (civil_from_days z) as [[y m] d], (civil_from_days z') as [[y' m'] d'].
    destruct H as [V <-], H' as [V' <-].
    pose proof (days_from_civil_lt _ _ _ _ _ _ V' V E). lia.
Qed.

Lemma civil_from_days_of_civil y m d :
  valid_date y m d = true → civil_from_days (days_from_civil y m d) = (y, m, d).
Proof.
  intros V. pose proof (civil_from_days_spec (days_from_civil y m d)) as H.
  destruct (civil_from_days _) as [[y' m'] d']. destruct H as [V' E].
  destruct (date_lt_total (y', m', d') (y, m, d)) as [Hlt|[?|Hlt]]; [|done|];
    apply days_from_civil_lt in Hlt; (done || lia).
Qed.

(** ** Instants and durations *)

Abbreviation Time := Z (only parsing).
Abbreviation Duration := Z (only parsing).

Definition Second : Duration := 1000000000.
Definition Minute : Duration := 60 * Second.
Definition Hour : Duration := 60 * Minute.

Definition minDuration : Duration := - 2 ^ 63.
Definition maxDuration : Duration := 2 ^ 63 - 1.

(** The value of an int64 computation. *)
Definition wrap64 (z : Z) : Z := (z + 2 ^ 63) mod 2 ^ 64 - 2 ^ 63.

(** [Time.Sub] saturates at the smallest and largest duration. *)
Definition Sub (t u : Time) : Duration :=
  let d := t - u in
  if (minDuration <=? d) && (d <=? maxDuration) then d
  else if t <? u then minDuration else maxDuration.

(** Negation of an int64. *)
Definition Neg (d : Duration) : Duration := wrap64 (- d).

(** [Time.Add]: no overflow arises within the years of the model. *)
Definition Add (t : Time) (d : Duration) : Time := t + d.

Lemma wrap64_small z : - 2 ^ 63 <= z < 2 ^ 63 → wrap64 z = z.
Proof. intros. unfold wrap64. rewrite Z.mod_small; lia. Qed.

Lemma Neg_min : Neg minDuration = minDuration.
Proof. reflexivity. Qed.

Lemma Sub_exact t u : minDuration <= t - u <= maxDuration → Sub t u = t - u.
Proof.
  intros H. unfold Sub.
  destruct ((minDuration <=? t - u) && (t - u <=? maxDuration)) eqn:E; [done|].
  apply andb_false_iff in E as [E|E]; bool_prop; lia.
Qed.

Lemma Sub_underflow t u : t - u < minDuration → Sub t u = minDuration.
Proof.
  intros H. unfold Sub. unfold minDuration, maxDuration in *.
  destruct (- 2 ^ 63 <=? t - u) eqn:E; bool_prop; [lia|]. cbn [andb].
  destruct (t <? u) eqn:E'; bool_prop; lia.
Qed.

(** ** Formatting *)

Definition digit (n : Z) : ascii := chr (48 + n).

Definition pad2 (n : Z) (s : string) : string :=
  String (digit (n / 10)) (String (digit (n mod 10)) s).

Definition pad4 (n : Z) (s : string) : string := pad2 (n / 100) (pad2 (n mod 100) s).

(** [appendInt(year, 4)] *)
Definition fmt_year (y : Z) (s : string) : string :=
  if (0 <=? y) && (y <=? 9999) then pad4 y s
  else if (-9999 <=? y) && (y <? 0) then String "-" (pad4 (- y) s)
  else pretty y +:+ s.

(** [t.UTC().Format("2006-01-02T15:04:05Z")], also the result of
    [t.UTC().Format(time.RFC3339)]. *)
Definition FormatUTC (t : Time) : string :=
  let sec := t / Second in
  let '(y, m, d) := civil_from_days (sec / 86400) in
  let sod := sec mod 86400 in
  fmt_year y (String "-" (pad2 m (String "-" (pad2 d (String "T"
    (pad2 (sod / 3600) (String ":" (pad2 (sod / 60 mod 60) (String ":"
      (pad2 (sod mod 60) "Z")))))))))).

(** ** Parsing *)

Definition isDigit (c : ascii) : bool := (48 <=? code c) && (code c <=? 57).

Definition dval (c : ascii) : Z := code c - 48.

(** [getnum] of package time: one or two digits, two if [fixed]. *)
Definition getnum (s : string) (fixed : bool) : option (Z * string) :=
  match s with
  | String a s1 =>
      if isDigit a then
        match s1 with
        | String b s2 =>
            if isDigit b then Some (dval a * 10 + dval b, s2)
            else if fixed then None else Some (dval a, s1)
        | EmptyString => if fixed then None else Some (dval a, s1)
        end
      else None
  | EmptyString => None
  end.

(** The year field: exactly four digits. *)
Definition getyear (s : string) : option (Z * string) :=
  '(hi, s) ← getnum s true;
  '(lo, s) ← getnum s true;
  Some (hi * 100 + lo, s).

Definition skip (c : ascii) (s : string) : option string :=
  match s with
  | String a s => if Ascii.eqb a c then Some s else None
  | EmptyString => None
  end.

(** Fractional digits; those after the ninth are read and dropped. *)
Fixpoint getfrac (k : nat) (s : string) : Z * string :=
  match s with
  | String c r =>
      if isDigit c then
        let '(v, rest) := getfrac (Nat.pred k) r in
        (match k with O => v | S k => dval c * 10 ^ Z.of_nat k + v end, rest)
      else (0, s)
  | EmptyString => (0, s)
  end.

(** A fraction may follow the seconds although the layout has none. *)
Definition opt_frac (s : string) : Z * string :=
  match s with
  | String c (String d _ as r) =>
      if (Ascii.eqb c "." || Ascii.eqb c ",") && isDigit d then getfrac 9 r else (0, s)
  | _ => (0, s)
  end.

(** The zone: [Z] or [±hh:mm], in seconds east of UTC.  Hour 24 and minute 60
    are accepted, as in the source of package time. *)
Definition getzone (s : string) : option (Z * string) :=
  match s with
  | String "Z" r => Some (0, r)
  | String sign (String h1 (String h2 (String colon (String m1 (String m2 r))))) =>
      if Ascii.eqb colon ":" then
        '(hr, _) ← getnum (String h1 (String h2 EmptyString)) true;
        '(mm, _) ← getnum (String m1 (String m2 EmptyString)) true;
        if (24 <? hr) || (60 <? mm) then None
        else if Ascii.eqb sign "+" then Some ((hr * 60 + mm) * 60, r)
        else if Ascii.eqb sign "-" then Some (- ((hr * 60 + mm) * 60), r)
        else None
      else None
  | _ => None
  end.

(** The layout ends in a literal [Z]. *)
Definition literalZ (s : string) : option (Z * string) :=
  match s with
  | String "Z" r => Some (0, r)
  | _ => None
  end.

Definition parse_with (zone : string → option (Z * string)) (s : string) : option Time :=
  '(y, s) ← getyear s;
  s ← skip "-" s;
  '(mo, s) ← getnum s true;
  if negb ((1 <=? mo) && (mo <=? 12)) then None else
  s ← skip "-" s;
  '(d, s) ← getnum s true;
  s ← skip "T" s;
  '(h, s) ← getnum s false;
  if 24 <=? h then None else
  s ← skip ":" s;
  '(mi, s) ← getnum s true;
  if 60 <=? mi then None else
  s ← skip ":" s;
  '(se, s) ← getnum s true;
  if 60 <=? se then None else
  let '(ns, s) := opt_frac s in
  '(off, s) ← zone s;
  if negb (String.eqb s "") then None
  else if negb ((1 <=? d) && (d <=? days_in mo y)) then None
  else Some ((days_from_civil y mo d * 86400 + h * 3600 + mi * 60 + se - off) * Second + ns).

(** [time.Parse(time.RFC3339, s)]; [time.Parse(time.RFC3339Nano, s)] accepts the
    same texts with the same result. *)
Definition ParseRFC3339 (s : string) : option Time := parse_with getzone s.

(** [time.Parse("2006-01-02T15:04:05Z", s)] *)
Definition ParseZ (s : string) : option Time := parse_with literalZ s.

(** ** Format and parse lemmas *)

Lemma code_digit n : 0 <= n <= 9 → code (digit n) = 48 + n.
Proof. intros. unfold digit. rewrite code_chr; lia. Qed.

Lemma isDigit_digit n : 0 <= n <= 9 → isDigit (digit n) = true.
Proof. intros. unfold isDigit. rewrite code_digit by done. apply andb_true_iff. rewrite !Z.leb_le. lia. Qed.

Lemma dval_digit n : 0 <= n <= 9 → dval (digit n) = n.
Proof. intros. unfold dval. rewrite code_digit by done. lia. Qed.

Lemma getnum_pad2 n s fixed : 0 <= n <= 99 → getnum (pad2 n s) fixed = Some (n, s).
Proof.
  intros. unfold pad2, getnum.
  rewrite !isDigit_digit, !dval_digit by div_lia. do 2 f_equal. div_lia.
Qed.

Lemma getyear_pad4 n s : 0 <= n <= 9999 → getyear (pad4 n s) = Some (n, s).
Proof.
  intros. unfold getyear, pad4. rewrite getnum_pad2 by div_lia. cbn [mbind option_bind].
  rewrite getnum_pad2 by div_lia. cbn [mbind option_bind]. do 2 f_equal. div_lia.
Qed.

Lemma ltb_iff_eq (a b c d : Z) : (a < b ↔ c < d) → (a <? b) = (c <? d).
Proof. intros. destruct (a <? b) eqn:?, (c <? d) eqn:?; bool_prop; (done || lia). Qed.

Lemma str_ltb_pad2 a b s t :
  0 <= a <= 99 → 0 <= b <= 99 →
  str_ltb (pad2 a s) (pad2 b t) = if a =? b then str_ltb s t else a <? b.
Proof.
  intros. unfold pad2. rewrite !str_ltb_cons, !code_digit by div_lia.
  destruct (a =? b) eqn:E; bool_prop.
  - subst. by rewrite !Z.eqb_refl.
  - destruct (48 + a / 10 =? 48 + b / 10) eqn:?, (48 + a mod 10 =? 48 + b mod 10) eqn:?; bool_prop;
      [div_lia| apply ltb_iff_eq; div_lia ..].
Qed.

Lemma str_ltb_pad4 a b s t :
  0 <= a <= 9999 → 0 <= b <= 9999 →
  str_ltb (pad4 a s) (pad4 b t) = if a =? b then str_ltb s t else a <? b.
Proof.
  intros. unfold pad4. rewrite !str_ltb_pad2 by div_lia.
  destruct (a / 100 =? b / 100) eqn:?, (a mod 100 =? b mod 100) eqn:?, (a =? b) eqn:?; bool_prop;
    try done; try div_lia; apply ltb_iff_eq; div_lia.
Qed.

Lemma str_ltb_sep c s t : str_ltb (String c s) (String c t) = str_ltb s t.
Proof. by rewrite str_ltb_cons, Z.eqb_refl. Qed.

(** The instants whose UTC year has four digits, the range of the wire format. *)
Definition wire_time (t : Time) : Prop :=
  days_from_civil 0 1 1 * 86400 * Second <= t < days_from_civil 10000 1 1 * 86400 * Second.

#[export] Instance wire_time_dec t : Decision (wire_time t).
Proof. unfold wire_time. apply _. Defined.

Lemma year_range z y m d :
  civil_from_days z = (y, m, d) →
  days_from_civil 0 1 1 <= z < days_from_civil 10000 1 1 → 0 <= y <= 9999.
Proof.
  intros E H. pose proof (civil_from_days_spec z) as S. rewrite E in S. destruct S as [V <-].
  assert (V0 : valid_date 0 1 1 = true) by done.
  assert (V1 : valid_date 10000 1 1 = true) by done.
  split.
  - destruct (Z.lt_ge_cases y 0); [|done].
    pose proof (days_from_civil_lt y m d 0 1 1 V V0 ltac:(left; lia)). lia.
  - destruct (Z.lt_ge_cases 9999 y); [|lia].
    destruct (date_lt_total (10000, 1, 1) (y, m, d)) as [L|[[= <- <- <-]|L]].
    + pose proof (days_from_civil_lt _ _ _ _ _ _ V1 V L). lia.
    + lia.
    + unfold date_lt in L. apply valid_date_bounds in V. lia.
Qed.

Lemma wire_time_fields t :
  wire_time t →
  days_from_civil 0 1 1 <= t / Second / 86400 < days_from_civil 10000 1 1 ∧
  0 <= t / Second mod 86400 < 86400.
Proof. unfold wire_time, Second. intros. change (days_from_civil 0 1 1) with (-719528) in *.
  change (days_from_civil 10000 1 1) with 2932897 in *. div_lia. Qed.

Lemma fmt_year_pad4 y s : 0 <= y <= 9999 → fmt_year y s = pad4 y s.
Proof. intros. unfold fmt_year. destruct (0 <=? y) eqn:?, (y <=? 9999) eqn:?; bool_prop; (done || lia). Qed.

(** Parsing what was formatted gives the instant, cut to the second. *)
Lemma parse_with_FormatUTC zone t :
  wire_time t → zone "Z" = Some (0, ""%string) →
  parse_with zone (FormatUTC t) = Some (t / Second * Second).
Proof.
  intros W Hz. destruct (wire_time_fields t W) as [Hd Hs].
  unfold FormatUTC. set (z := t / Second / 86400) in *. set (sod := t / Second mod 86400) in *.
  destruct (civil_from_days z) as [[y m] d] eqn:E.
  pose proof (year_range _ _ _ _ E Hd) as Hy.
  pose proof (civil_from_days_spec z) as S. rewrite E in S. destruct S as [V Ez].
  unfold valid_date in V. assert (days_in m y <= 31) by (unfold days_in; case_goal; lia). bool_prop.
  unfold parse_with. rewrite fmt_year_pad4, getyear_pad4 by done. cbn [mbind option_bind skip].
  rewrite Ascii.eqb_refl. cbn [mbind option_bind].
  rewrite getnum_pad2 by lia. cbn [mbind option_bind].
  rewrite (proj2 (Z.leb_le 1 m)), (proj2 (Z.leb_le m 12)) by lia. cbn [andb negb skip].
  rewrite Ascii.eqb_refl. cbn [mbind option_bind].
  rewrite getnum_pad2 by lia. cbn [mbind option_bind skip].
  rewrite Ascii.eqb_refl. cbn [mbind option_bind].
  rewrite getnum_pad2 by div_lia. cbn [mbind option_bind].
  rewrite (proj2 (Z.leb_gt 24 (sod / 3600))) by div_lia. cbn [skip].
  rewrite Ascii.eqb_refl. cbn [mbind option_bind].
  rewrite getnum_pad2 by div_lia. cbn [mbind option_bind].
  rewrite (proj2 (Z.leb_gt 60 (sod / 60 mod 60))) by div_lia. cbn [skip].
  rewrite Ascii.eqb_refl. cbn [mbind option_bind].
  rewrite getnum_pad2 by div_lia. cbn [mbind option_bind].
  rewrite (proj2 (Z.leb_gt 60 (sod mod 60))) by div_lia. cbn [opt_frac].
  rewrite Hz. cbn [mbind option_bind String.eqb negb].
  rewrite (proj2 (Z.leb_le 1 d)), (proj2 (Z.leb_le d (days_in m y))) by lia. cbn [andb negb].
  rewrite Ez, Z.add_0_r. do 2 f_equal. subst z sod. generalize (t / Second). intros. div_lia.
Qed.

(** The formatted texts are ordered as the instants, at the second. *)
Lemma FormatUTC_lt_true t u :
  wire_time t → wire_time u → t / Second < u / Second →
  str_ltb (FormatUTC t) (FormatUTC u) = true.
Proof.
  intros W W' Hlt.
  destruct (wire_time_fields t W) as [Hd Hs], (wire_time_fields u W') as [Hd' Hs'].
  unfold FormatUTC. generalize dependent (t / Second). generalize dependent (u / Second).
  intros su Hdu Hsu st Hlt Hdt Hst.
  destruct (civil_from_days (st / 86400)) as [[y m] d] eqn:E.
  destruct (civil_from_days (su / 86400)) as [[y' m'] d'] eqn:E'.
  pose proof (year_range _ _ _ _ E Hdt). pose proof (year_range _ _ _ _ E' Hdu).
  pose proof (civil_from_days_spec (st / 86400)) as S. rewrite E in S. destruct S as [V _].
  pose proof (civil_from_days_spec (su / 86400)) as S'. rewrite E' in S'. destruct S' as [V' _].
  unfold valid_date in V, V'.
  assert (days_in m y <= 31) by (unfold days_in; case_goal; lia).
  assert (days_in m' y' <= 31) by (unfold days_in; case_goal; lia). bool_prop.
  rewrite !fmt_year_pad4, str_ltb_pad4 by done.
  assert (Hcase : date_lt (y, m, d) (y', m', d') ∨
          ((y, m, d) = (y', m', d') ∧ st mod 86400 < su mod 86400)).
  { destruct (Z.lt_trichotomy (st / 86400) (su / 86400)) as [L|[L|L]].
    - left. rewrite <- E, <- E'. by apply civil_from_days_lt.
    - right. split; [by rewrite <- E, <- E', L|]. div_lia.
    - div_lia. }
  rewrite str_ltb_sep, str_ltb_pad2, str_ltb_sep, str_ltb_pad2 by lia.
  destruct Hcase as [Hlex|[[= <- <- <-] Hsod]].
  - unfold date_lt in Hlex.
    destruct (y =? y') eqn:?, (m =? m') eqn:?, (d =? d') eqn:?; bool_prop; try (apply Z.ltb_lt); lia.
  - rewrite !Z.eqb_refl, str_ltb_sep, str_ltb_pad2, str_ltb_sep, str_ltb_pad2, str_ltb_sep,
      str_ltb_pad2 by div_lia.
    destruct (st mod 86400 / 3600 =? su mod 86400 / 3600) eqn:?,
      (st mod 86400 / 60 mod 60 =? su mod 86400 / 60 mod 60) eqn:?,
      (st mod 86400 mod 60 =? su mod 86400 mod 60) eqn:?; bool_prop;
      try (apply Z.ltb_lt); div_lia.
Qed.

Lemma FormatUTC_lt t u :
  wire_time t → wire_time u →
  str_ltb (FormatUTC t) (FormatUTC u) = true ↔ t / Second < u / Second.
Proof.
  intros W W'. split; [|by apply FormatUTC_lt_true].
  intros L. destruct (Z.lt_trichotomy (t / Second) (u / Second)) as [|[E|G]]; [done| |].
  - unfold FormatUTC in L. rewrite E, str_ltb_irrefl in L. done.
  - pose proof (FormatUTC_lt_true u t W' W G) as L'.
    pose proof (str_ltb_trans _ _ _ L L') as C. by rewrite str_ltb_irrefl in C.
Qed.

Lemma FormatUTC_trunc t : FormatUTC (t / Second * Second) = FormatUTC t.
Proof. unfold FormatUTC. by rewrite Z.div_mul by done. Qed.

Lemma FormatUTC_inj t u :
  wire_time t → wire_time u → FormatUTC t = FormatUTC u → t / Second = u / Second.
Proof.
  intros W W' E.
  pose proof (parse_with_FormatUTC literalZ t W eq_refl) as P.
  rewrite E, (parse_with_FormatUTC literalZ u W' eq_refl) in P.
  injection P as P. unfold Second in *. lia.
Qed.

Lemma wire_time_trunc t : wire_time t → wire_time (t / Second * Second).
Proof. unfold wire_time, Second. intros. split; div_lia. Qed.
