(* ===== verification/GoDuration.v ===== *)
(** * Durations as text

    [time.ParseDuration] of Go's standard library: a sign, then numbers with units,
    summed in 64 bits.  A fraction of a unit is computed in binary64, which is
    [SpecFloat] of the Standard Library. *)

From Stdlib Require Import Floats.SpecFloat.
From S2P Require Import Prelude GoStrings GoTime.

Local Open Scope Z_scope.

(** ** Binary64 *)

Definition float64 (z : Z) : spec_float := binary_normalize 53 1024 z 0 false.
Definition fmul : spec_float → spec_float → spec_float := SFmul 53 1024.
Definition fdiv : spec_float → spec_float → spec_float := SFdiv 53 1024.

(** [uint64(x)] of a finite [x >= 0]. *)
Definition trunc64 (x : spec_float) : Z :=
  match x with
  | S754_finite false m e => Z.shiftl (Zpos m) e
  | _ => 0
  end.

(** ** Numbers *)

(** [leadingInt]: the digits in front; [None] above 2^63. *)
Fixpoint leadingInt_from (x : Z) (s : string) : option (Z * string) :=
  match s with
  | String c r =>
      if isDigit c then
        if 2 ^ 63 / 10 <? x then None
        else
          let x := x * 10 + dval c in
          if 2 ^ 63 <? x then None else leadingInt_from x r
      else Some (x, s)
  | EmptyString => Some (x, s)
  end.

Definition leadingInt : string → option (Z * string) := leadingInt_from 0.

(** [leadingFraction]: the digits, the power of ten they stand over, the rest;
    digits that do not fit are dropped. *)
Fixpoint leadingFraction_from (x : Z) (scale : spec_float) (overflow : bool) (s : string)
    : Z * spec_float * string :=
  match s with
  | String c r =>
      if isDigit c then
        if overflow || ((2 ^ 63 - 1) / 10 <? x) then leadingFraction_from x scale true r
        else
          let y := x * 10 + dval c in
          if 2 ^ 63 <? y then leadingFraction_from x scale true r
          else leadingFraction_from y (fmul scale (float64 10)) false r
      else (x, scale, s)
  | EmptyString => (x, scale, s)
  end.

Definition leadingFraction : string → Z * spec_float * string := leadingFraction_from 0 (float64 1) false.

(** ** Units *)

(** The two spellings of micro are U+00B5 and U+03BC. *)
Definition unitMap : list (string * Z) := [
  ("ns"%string, 1); ("us"%string, 1000);
  (String (chr 194) (String (chr 181) "s"), 1000); (String (chr 206) (String (chr 188) "s"), 1000);
  ("ms"%string, 1000000); ("s"%string, Second); ("m"%string, Minute); ("h"%string, Hour)].

Fixpoint assoc {A} (k : string) (l : list (string * A)) : option A :=
  match l with
  | [] => None
  | (k', a) :: l => if String.eqb k' k then Some a else assoc k l
  end.

(** The bytes up to the next digit or period. *)
Fixpoint unit_text (s : string) : string * string :=
  match s with
  | String c r =>
      if Ascii.eqb c "." || isDigit c then (EmptyString, s)
      else let '(u, rest) := unit_text r in (String c u, rest)
  | EmptyString => (EmptyString, EmptyString)
  end.

(** ** The parser *)

(** One number with its unit. *)
Definition parse_term (s : string) : option (Z * string) :=
  '(v, s1) ← leadingInt s;
  let pre := negb (String.eqb s s1) in
  let '(f, scale, s2, post) :=
    match s1 with
    | String c s1' =>
        if Ascii.eqb c "." then
          let '(f, scale, s2) := leadingFraction s1' in (f, scale, s2, negb (String.eqb s1' s2))
        else (0, float64 1, s1, false)
    | EmptyString => (0, float64 1, s1, false)
    end in
  if negb pre && negb post then None
  else
  let '(u, rest) := unit_text s2 in
  if String.eqb u "" then None
  else
  unit ← assoc u unitMap;
  if 2 ^ 63 / unit <? v then None
  else
  let v := v * unit in
  if f <=? 0 then Some (v, rest)
  else
  let v := v + trunc64 (fmul (float64 f) (fdiv (float64 unit) scale)) in
  if 2 ^ 63 <? v then None else Some (v, rest).

(** The loop over the terms; the sum is a uint64. *)
Fixpoint parse_terms (fuel : nat) (d : Z) (s : string) : option Z :=
  if String.eqb s "" then Some d
  else
  match fuel with
  | O => None
  | S fuel =>
      match s with
      | String c _ =>
          if negb (Ascii.eqb c "." || isDigit c) then None
          else
          '(v, rest) ← parse_term s;
          let d := (d + v) mod 2 ^ 64 in
          if 2 ^ 63 <? d then None else parse_terms fuel d rest
      | EmptyString => None
      end
  end.

Definition sign (s : string) : bool * string :=
  match s with
  | String c r => if Ascii.eqb c "-" then (true, r) else if Ascii.eqb c "+" then (false, r) else (false, s)
  | EmptyString => (false, s)
  end.

Definition ParseDuration (s : string) : option Duration :=
  let '(neg, s) := sign s in
  if String.eqb s "0" then Some 0
  else if String.eqb s "" then None
  else
  d ← parse_terms (String.length s) 0 s;
  if (neg : bool) then Some (wrap64 (- wrap64 d))
  else if 2 ^ 63 - 1 <? d then None else Some d.

(** ** What the parser does *)

Definition digits (ds : string) : Prop := ds ≠ ""%string ∧ all_bytes isDigit ds = true.

(** The number a string of digits stands for, after [x]. *)
Fixpoint decimal_from (x : Z) (ds : string) : Z :=
  match ds with
  | String c r => decimal_from (x * 10 + dval c) r
  | EmptyString => x
  end.

Definition decimal : string → Z := decimal_from 0.

(** What follows a number or a term: nothing, or no digit. *)
Definition no_digit (s : string) : Prop :=
  match s with String c _ => isDigit c = false | EmptyString => True end.

Lemma dval_nonneg c : isDigit c = true → 0 <= dval c <= 9.
Proof. unfold isDigit, dval. intros H. bool_prop. lia. Qed.

Lemma decimal_from_le x ds : 0 <= x → all_bytes isDigit ds = true → x <= decimal_from x ds.
Proof.
  revert x. induction ds as [|c ds IH]; intros x Hx Hd; simpl in *; [lia|]. bool_prop.
  pose proof (dval_nonneg c H). pose proof (IH (x * 10 + dval c) ltac:(lia) H0). lia.
Qed.

Lemma leadingInt_digits x ds s :
  0 <= x → all_bytes isDigit ds = true → no_digit s → decimal_from x ds <= 2 ^ 63 →
  leadingInt_from x (ds +:+ s) = Some (decimal_from x ds, s).
Proof.
  revert x. induction ds as [|c ds IH]; intros x Hx Hd Hs Hle.
  - destruct s as [|c s]; [done|]. simpl in *. by rewrite Hs.
  - simpl in *. bool_prop. rewrite H. pose proof (dval_nonneg c H).
    pose proof (decimal_from_le (x * 10 + dval c) ds ltac:(lia) H0).
    destruct (Z.ltb_spec (2 ^ 63 / 10) x) as [E|E].
    { pose proof (Z.div_mod (2 ^ 63) 10 ltac:(lia)). pose proof (Z.mod_pos_bound (2 ^ 63) 10 ltac:(lia)). lia. }
    destruct (Z.ltb_spec (2 ^ 63) (x * 10 + dval c)) as [E'|E']; [lia|]. apply IH; [lia|done..].
Qed.

(** Units have no digits or periods, and one nanosecond at least. *)
Definition unit_byte (c : ascii) : bool := negb (Ascii.eqb c "." || isDigit c).

Lemma unit_text_app u s :
  all_bytes unit_byte u = true → (s = ""%string ∨ ∃ c r, s = String c r ∧ unit_byte c = false) →
  unit_text (u +:+ s) = (u, s).
Proof.
  intros Hu Hs. induction u as [|c u IH].
  - destruct Hs as [->|(c & r & -> & Hc)]; [done|]. simpl. unfold unit_byte in Hc. by apply negb_false_iff in Hc as ->.
  - simpl in *. apply andb_true_iff in Hu as [Hc Hu]. unfold unit_byte in Hc. apply negb_true_iff in Hc as ->.
    by rewrite IH.
Qed.

Lemma unitMap_spec u k : (u, k) ∈ unitMap →
  u ≠ ""%string ∧ all_bytes unit_byte u = true ∧ assoc u unitMap = Some k ∧ 1 <= k.
Proof.
  intros Hin. unfold unitMap in Hin. repeat (apply elem_of_cons in Hin as [Hin|Hin];
    [injection Hin as -> ->; split_and!; [discriminate|reflexivity|reflexivity|done]|]).
  by apply elem_of_nil in Hin.
Qed.

(** A whole number of a unit. *)
Record term : Type := MkTerm { t_digits : string; t_unit : string; t_size : Z }.

Definition term_ok (t : term) : Prop := digits (t_digits t) ∧ (t_unit t, t_size t) ∈ unitMap.
Definition term_text (t : term) : string := t_digits t +:+ t_unit t.
Definition term_value (t : term) : Z := decimal (t_digits t) * t_size t.
Definition terms_text (ts : list term) : string := foldr (λ t s, term_text t +:+ s) ""%string ts.
Definition terms_value (ts : list term) : Z := foldr (λ t n, term_value t + n) 0 ts.

Lemma term_value_nonneg t : term_ok t → 0 <= term_value t.
Proof.
  intros [[_ Hd] Hu]. apply unitMap_spec in Hu as (_ & _ & _ & Hk). unfold term_value, decimal.
  pose proof (decimal_from_le 0 (t_digits t) ltac:(lia) Hd). nia.
Qed.

Lemma terms_value_nonneg ts : Forall term_ok ts → 0 <= terms_value ts.
Proof. induction 1 as [|t ts Ht _ IH]; simpl; [lia|]. pose proof (term_value_nonneg t Ht). lia. Qed.

(** The text of terms starts with a digit, unless it is empty. *)
Lemma terms_text_head ts : Forall term_ok ts →
  terms_text ts = ""%string ∨ ∃ c r, terms_text ts = String c r ∧ isDigit c = true.
Proof.
  destruct 1 as [|t ts [[Hne Hd] _] _]; [by left|]. right. simpl. unfold term_text.
  destruct (t_digits t) as [|c ds]; [done|]. simpl in *. bool_prop. eauto.
Qed.

Lemma parse_term_whole t ts :
  term_ok t → Forall term_ok ts → term_value t <= 2 ^ 63 →
  parse_term (term_text t +:+ terms_text ts) = Some (term_value t, terms_text ts).
Proof.
  intros [[Hne Hd] Hu] Hts Hle. apply unitMap_spec in Hu as (Hune & Hub & Has & Hk).
  unfold term_value in Hle. pose proof (decimal_from_le 0 (t_digits t) ltac:(lia) Hd) as Hn.
  fold (decimal (t_digits t)) in Hn. unfold parse_term, term_text. rewrite app_assoc_s. set (rest := terms_text ts).
  destruct (t_unit t) as [|c u] eqn:Eu; [done|].
  pose proof Hub as Hc. simpl in Hc. apply andb_true_iff in Hc as [Hc _]. unfold unit_byte in Hc.
  apply negb_true_iff, orb_false_iff in Hc as [Hdot Hdig].
  unfold leadingInt. rewrite leadingInt_digits; [|lia|done|exact Hdig|fold (decimal (t_digits t)); nia].
  fold (decimal (t_digits t)). cbn [mbind option_bind]. rewrite app_cons_s, Hdot.
  assert (E : String.eqb (t_digits t +:+ String c (u +:+ rest)) (String c (u +:+ rest)) = false).
  { apply String.eqb_neq. intros E. apply (f_equal String.length) in E. rewrite length_app_s in E.
    destruct (t_digits t); [done|]. simpl in E. lia. }
  rewrite E. cbn [negb andb]. rewrite <- app_cons_s, unit_text_app; [|done|].
  2:{ subst rest. destruct (terms_text_head ts Hts) as [->|(d & r & -> & Hd')]; [by left|]. right.
      exists d, r. split; [done|]. unfold unit_byte. by rewrite Hd', orb_true_r. }
  cbn [String.eqb]. rewrite Has. cbn [mbind option_bind].
  destruct (Z.ltb_spec (2 ^ 63 / t_size t) (decimal (t_digits t))) as [El|El].
  { pose proof (Z.div_mod (2 ^ 63) (t_size t) ltac:(lia)). pose proof (Z.mod_pos_bound (2 ^ 63) (t_size t) ltac:(lia)). nia. }
  reflexivity.
Qed.

Lemma parse_terms_sum fuel d ts :
  Forall term_ok ts → (String.length (terms_text ts) <= fuel)%nat → 0 <= d → d + terms_value ts <= 2 ^ 63 →
  parse_terms fuel d (terms_text ts) = Some (d + terms_value ts).
Proof.
  revert d ts. induction fuel as [|fuel IH]; intros d ts Hts Hf Hd Hle.
  - destruct (terms_text_head ts Hts) as [E|(c & r & E & _)]; [|rewrite E in Hf; simpl in Hf; lia].
    destruct Hts as [|t ts [[Hne _] _] _]; [simpl; f_equal; lia|]. exfalso.
    simpl in E. unfold term_text in E. by destruct (t_digits t).
  - destruct Hts as [|t ts Ht Hts]; [simpl; f_equal; lia|]. simpl in Hle.
    pose proof (term_value_nonneg t Ht). pose proof (terms_value_nonneg ts Hts).
    pose proof (parse_term_whole t ts Ht Hts ltac:(lia)) as Hp.
    destruct (terms_text_head (t :: ts) (Forall_cons_2 _ _ _ Ht Hts)) as [E|(c & r & E & Hc)].
    { exfalso. destruct Ht as [[Hne _] _]. simpl in E. unfold term_text in E. by destruct (t_digits t). }
    assert (Hl : (String.length (terms_text ts) <= fuel)%nat).
    { assert (String.length (terms_text (t :: ts)) = String.length (term_text t) + String.length (terms_text ts))%nat
        as El by (simpl; apply length_app_s).
      destruct Ht as [[Hne _] _]. unfold term_text in El. rewrite length_app_s in El.
      destruct (t_digits t); [done|]. simpl in El, Hf. simpl in *. lia. }
    change (term_text t +:+ terms_text ts) with (terms_text (t :: ts)) in Hp. rewrite E in *.
    cbn [parse_terms String.eqb]. rewrite Hc, orb_true_r. cbn [negb]. rewrite Hp. cbn [mbind option_bind].
    rewrite Z.mod_small by lia. destruct (Z.ltb_spec (2 ^ 63) (d + term_value t)); [lia|].
    rewrite IH by (done || lia). simpl. f_equal. lia.
Qed.

(** A sum of whole terms that fits is the duration they name. *)
Lemma ParseDuration_terms ts :
  ts ≠ [] → Forall term_ok ts → terms_value ts <= maxDuration →
  ParseDuration (terms_text ts) = Some (terms_value ts).
Proof.
  intros Hne Hts Hle. unfold maxDuration in Hle. pose proof (terms_value_nonneg ts Hts).
  destruct (terms_text_head ts Hts) as [E|(c & r & E & Hc)].
  { exfalso. destruct Hts as [|t ts [[Hd _] _] _]; [done|]. simpl in E. unfold term_text in E. by destruct (t_digits t). }
  pose proof (parse_terms_sum (String.length (terms_text ts)) 0 ts Hts ltac:(lia) ltac:(lia) ltac:(lia)) as Hp.
  assert (Hsign : sign (terms_text ts) = (false, terms_text ts)).
  { rewrite E. unfold sign.
    destruct (Ascii.eqb_spec c "-") as [->|_]; [done|]. by destruct (Ascii.eqb_spec c "+") as [->|_]. }
  assert (Hz : String.eqb (terms_text ts) "0" = false).
  { apply String.eqb_neq. intros E0. pose proof Hp as Hp'. rewrite E0 in Hp'. done. }
  assert (Hn : String.eqb (terms_text ts) "" = false) by (by rewrite E).
  unfold ParseDuration. rewrite Hsign, Hz, Hn, Hp. cbn [mbind option_bind].
  destruct (Z.ltb_spec (2 ^ 63 - 1) (0 + terms_value ts)); [lia|]. done.
Qed.

Lemma ParseDuration_max s d : ParseDuration s = Some d → d <= maxDuration.
Proof.
  unfold ParseDuration, maxDuration. destruct (sign s) as [neg s']. destruct (String.eqb s' "0"); [by intros [= <-]|].
  destruct (String.eqb s' ""); [done|]. destruct (parse_terms _ _ _) as [x|]; [|done]. cbn [mbind option_bind].
  destruct neg.
  - intros [= <-]. unfold wrap64 at 1. pose proof (Z.mod_pos_bound (- wrap64 x + 2 ^ 63) (2 ^ 64) ltac:(lia)). lia.
  - destruct (Z.ltb_spec (2 ^ 63 - 1) x); [done|]. by intros [= <-].
Qed.

(** The fuel is enough: every term takes a byte at least, so more fuel than bytes
    changes nothing. *)
Lemma leadingInt_shorter x s v r : leadingInt_from x s = Some (v, r) → (String.length r <= String.length s)%nat.
Proof.
  revert x. induction s as [|c s IH]; intros x H; simpl in H; [by injection H as <- <-|].
  destruct (isDigit c); [|by injection H as <- <-].
  destruct (_ <? _); [done|]. destruct (_ <? _); [done|]. apply IH in H. simpl. lia.
Qed.

Lemma leadingFraction_shorter x scale o s v k r :
  leadingFraction_from x scale o s = (v, k, r) → (String.length r <= String.length s)%nat.
Proof.
  revert x scale o. induction s as [|c s IH]; intros x scale o H; simpl in H; [by injection H as <- <- <-|].
  destruct (isDigit c); [|by injection H as <- <- <-].
  destruct (_ || _); [|destruct (_ <? _)]; apply IH in H; simpl; lia.
Qed.

Lemma unit_text_split s u r : unit_text s = (u, r) → s = u +:+ r.
Proof.
  revert u. induction s as [|c s IH]; intros u H; simpl in H; [by injection H as <- <-|].
  destruct (_ || _); [by injection H as <- <-|]. destruct (unit_text s) as [u' r'].
  injection H as <- <-. by rewrite (IH u').
Qed.

Lemma parse_term_shorter s v r : parse_term s = Some (v, r) → (String.length r < String.length s)%nat.
Proof.
  unfold parse_term. destruct (leadingInt s) as [[n s1]|] eqn:E1; [|done]. apply leadingInt_shorter in E1.
  cbn [mbind option_bind].
  match goal with |- context [match ?x with (_, _) => _ end = Some _] => destruct x as [[[f scale] s2] post] eqn:E2 end.
  assert (Hl : (String.length s2 <= String.length s1)%nat).
  { destruct s1 as [|c s1]; [by injection E2 as <- <- <- <-|].
    destruct (Ascii.eqb c "."); [|by injection E2 as <- <- <- <-].
    destruct (leadingFraction s1) as [[f' k] s2'] eqn:E3. apply leadingFraction_shorter in E3.
    injection E2 as <- <- <- <-. simpl. lia. }
  destruct (_ && _); [done|]. destruct (unit_text s2) as [u rest] eqn:E4. apply unit_text_split in E4.
  destruct (String.eqb_spec u "") as [|Hu]; [done|].
  destruct (assoc u unitMap); [|done]. cbn [mbind option_bind]. destruct (_ <? _); [done|].
  assert (String.length rest < String.length s)%nat.
  { apply (f_equal String.length) in E4. rewrite length_app_s in E4. destruct u; [done|]. simpl in E4. lia. }
  destruct (_ <=? _); [by intros [= <- <-]|]. destruct (_ <? _); [done|]. by intros [= <- <-].
Qed.

Lemma parse_terms_fuel n m d s :
  (String.length s <= n)%nat → (String.length s <= m)%nat → parse_terms n d s = parse_terms m d s.
Proof.
  revert m d s. induction n as [|n IH]; intros m d s Hn Hm.
  - destruct s; [by destruct m|simpl in Hn; lia].
  - destruct s as [|c s]; [by destruct m|]. destruct m as [|m]; [simpl in Hm; lia|]. cbn [parse_terms String.eqb].
    destruct (negb _); [done|]. destruct (parse_term (String c s)) as [[v r]|] eqn:E; [|done].
    apply parse_term_shorter in E. cbn [mbind option_bind]. destruct (_ <? _); [done|]. apply IH; lia.
Qed.
