(* ===== verification/Codec.v ===== *)
(** * Text encodings of binary data

    [encoding/hex] and [encoding/base64] as the program uses them, and the
    program's own lenient base64url decoder, which occurs three times in the
    source (internal/crypto/crypto.go [decodeB64URL], internal/mailbox/mailbox.go
    [base64urlDecode], internal/pairflow/pairflow.go [decodeB64URL]). *)

From S2P Require Import Prelude GoStrings.

Local Open Scope Z_scope.

(** ** hex.EncodeToString *)

Definition hex_digit (n : Z) : ascii := if n <? 10 then chr (48 + n) else chr (87 + n).

Fixpoint hex_encode (s : string) : string :=
  match s with
  | EmptyString => EmptyString
  | String c s => String (hex_digit (code c / 16)) (String (hex_digit (code c mod 16)) (hex_encode s))
  end.

(** ** base64, URL alphabet *)

Definition b64_chr (v : Z) : ascii :=
  if v <? 26 then chr (65 + v)
  else if v <? 52 then chr (71 + v)
  else if v <? 62 then chr (v - 4)
  else if v =? 62 then "-" else "_".

Definition b64_val (c : ascii) : option Z :=
  let n := code c in
  if (65 <=? n) && (n <=? 90) then Some (n - 65)
  else if (97 <=? n) && (n <=? 122) then Some (n - 71)
  else if (48 <=? n) && (n <=? 57) then Some (n + 4)
  else if n =? 45 then Some 62
  else if n =? 95 then Some 63
  else None.

(** [base64.RawURLEncoding.EncodeToString]: groups of three bytes, no padding. *)
Fixpoint RawURLEncode (s : string) : string :=
  match s with
  | String a (String b (String c r)) =>
      let v := code a * 65536 + code b * 256 + code c in
      String (b64_chr (v / 262144)) (String (b64_chr (v / 4096 mod 64))
        (String (b64_chr (v / 64 mod 64)) (String (b64_chr (v mod 64)) (RawURLEncode r))))
  | String a (String b EmptyString) =>
      let v := code a * 65536 + code b * 256 in
      String (b64_chr (v / 262144)) (String (b64_chr (v / 4096 mod 64))
        (String (b64_chr (v / 64 mod 64)) EmptyString))
  | String a EmptyString =>
      let v := code a * 65536 in
      String (b64_chr (v / 262144)) (String (b64_chr (v / 4096 mod 64)) EmptyString)
  | EmptyString => EmptyString
  end.

(** The decoder ignores carriage returns and newlines anywhere. *)
Fixpoint strip_newlines (s : string) : string :=
  match s with
  | EmptyString => EmptyString
  | String c s =>
      if Ascii.eqb c "010" || Ascii.eqb c "013" then strip_newlines s
      else String c (strip_newlines s)
  end.

(** Four characters at a time; [=] only as the padding of the last group.
    The decoder is not strict: unused low bits may be set. *)
Fixpoint decode_quanta (s : string) : option string :=
  match s with
  | EmptyString => Some EmptyString
  | String a (String b (String c (String d r))) =>
      va ← b64_val a; vb ← b64_val b;
      if Ascii.eqb d "=" then
        if negb (String.eqb r "") then None
        else if Ascii.eqb c "=" then
          Some (String (chr ((va * 262144 + vb * 4096) / 65536)) EmptyString)
        else
          vc ← b64_val c;
          let v := va * 262144 + vb * 4096 + vc * 64 in
          Some (String (chr (v / 65536)) (String (chr (v / 256 mod 256)) EmptyString))
      else
        vc ← b64_val c; vd ← b64_val d;
        let v := va * 262144 + vb * 4096 + vc * 64 + vd in
        rest ← decode_quanta r;
        Some (String (chr (v / 65536)) (String (chr (v / 256 mod 256))
          (String (chr (v mod 256)) rest)))
  | _ => None
  end.

(** [base64.URLEncoding.DecodeString] *)
Definition URLDecode (s : string) : option string := decode_quanta (strip_newlines s).

(** The program's decoder: missing padding is added first. *)
Definition decodeB64URL (s : string) : option string :=
  let pad := (String.length s mod 4)%nat in
  if (pad =? 0)%nat then URLDecode s
  else URLDecode (s +:+ Repeat "=" (4 - pad)).

(** ** Lemmas *)

(** Letters, digits, [-] and [_]: the alphabet of base64url. *)
Definition b64_char (c : ascii) : bool := bool_decide (is_Some (b64_val c)).


Lemma b64_val_chr v : 0 <= v < 64 → b64_val (b64_chr v) = Some v.
Proof.
  intros H. unfold b64_val, b64_chr.
  destruct (v <? 26) eqn:?; bool_prop; [rewrite code_chr by lia; case_goal; bool_prop; f_equal; lia|].
  destruct (v <? 52) eqn:?; bool_prop; [rewrite code_chr by lia; case_goal; bool_prop; f_equal; lia|].
  destruct (v <? 62) eqn:?; bool_prop; [rewrite code_chr by lia; case_goal; bool_prop; f_equal; lia|].
  destruct (v =? 62) eqn:?; bool_prop; [by subst|].
  assert (v = 63) as -> by lia. done.
Qed.

Lemma b64_chr_char v : 0 <= v < 64 → b64_char (b64_chr v) = true.
Proof. intros. unfold b64_char. rewrite b64_val_chr by done. by apply bool_decide_eq_true. Qed.

Lemma b64_char_plain c :
  b64_char c = true → c ≠ "="%char ∧ Ascii.eqb c "010" = false ∧ Ascii.eqb c "013" = false.
Proof.
  unfold b64_char. intros [v Hv]%bool_decide_eq_true.
  split; [|split]; [intros ->; done| |];
    (destruct (Ascii.eqb_spec c "010"), (Ascii.eqb_spec c "013"); subst; done).
Qed.

Lemma strip_newlines_id s :
  all_bytes (λ c, b64_char c || Ascii.eqb c "=") s = true → strip_newlines s = s.
Proof.
  induction s as [|c s IH]; simpl; [done|]. intros [Hc Hs]%andb_true_iff.
  apply orb_true_iff in Hc as [Hc|Hc%Ascii.eqb_eq].
  - apply b64_char_plain in Hc as (_ & -> & ->). simpl. by rewrite IH.
  - subst c. simpl. by rewrite IH.
Qed.

(** Induction on a string three bytes at a time. *)
Lemma string_ind3 (P : string → Prop) :
  P "" → (∀ a, P (String a "")) → (∀ a b, P (String a (String b ""))) →
  (∀ a b c r, P r → P (String a (String b (String c r)))) → ∀ s, P s.
Proof.
  intros H0 H1 H2 H3 s.
  enough (P s ∧ (∀ a, P (String a s)) ∧ (∀ a b, P (String a (String b s)))) by tauto.
  induction s as [|c s (IH0 & IH1 & IH2)]; [tauto|]. auto.
Qed.

Lemma RawURLEncode_alphabet s : all_bytes b64_char (RawURLEncode s) = true.
Proof.
  induction s using string_ind3; simpl; [done|..];
    rewrite !b64_chr_char by
      (pose proof (code_range a); try pose proof (code_range b); try pose proof (code_range c);
       div_lia); done.
Qed.

Lemma RawURLEncode_length s :
  Z.of_nat (String.length (RawURLEncode s)) = (4 * len s + 2) / 3.
Proof.
  unfold len. induction s using string_ind3; simpl; [done..|].
  rewrite !Nat2Z.inj_succ, IHs. div_lia.
Qed.

Lemma length_Repeat_eq n : String.length (Repeat "=" n) = n.
Proof. induction n as [|n IH]; [done|]. simpl. rewrite length_app_s, IH. done. Qed.

Lemma decode_quanta_pad s :
  decode_quanta (RawURLEncode s +:+ Repeat "=" ((4 - String.length (RawURLEncode s) mod 4) mod 4))
  = Some s.
Proof.
  induction s as [|a|a b|a b c r IH] using string_ind3; [done|..].
  - pose proof (code_range a). cbn [RawURLEncode String.length].
    change ((4 - 2 mod 4) mod 4)%nat with 2%nat. rewrite !app_cons_s, app_nil_l_s.
    change (Repeat "=" 2) with "=="%string. cbn [decode_quanta]. rewrite !b64_val_chr by div_lia.
    cbn -[Z.mul Z.add Z.div Z.modulo]. do 2 f_equal. apply chr_eq. div_lia.
  - pose proof (code_range a). pose proof (code_range b). cbn [RawURLEncode String.length].
    change ((4 - 3 mod 4) mod 4)%nat with 1%nat. rewrite !app_cons_s, app_nil_l_s.
    change (Repeat "=" 1) with "="%string. cbn [decode_quanta]. rewrite !b64_val_chr by div_lia.
    cbn -[Z.mul Z.add Z.div Z.modulo].
    rewrite (proj2 (Ascii.eqb_neq _ _)) by (apply b64_char_plain, b64_chr_char; div_lia).
    do 3 f_equal; apply chr_eq; div_lia.
  - pose proof (code_range a). pose proof (code_range b). pose proof (code_range c).
    cbn [RawURLEncode String.length].
    replace (S (S (S (S (String.length (RawURLEncode r))))) mod 4)%nat
      with (String.length (RawURLEncode r) mod 4)%nat
      by (rewrite <- (Nat.Div0.mod_add (String.length (RawURLEncode r)) 1 4); f_equal; lia).
    rewrite !app_cons_s. cbn [decode_quanta]. rewrite !b64_val_chr by div_lia.
    cbn -[Z.mul Z.add Z.div Z.modulo Nat.modulo Nat.sub].
    rewrite (proj2 (Ascii.eqb_neq _ _)) by (apply b64_char_plain, b64_chr_char; div_lia).
    rewrite IH. cbn -[Z.mul Z.add Z.div Z.modulo].
    do 4 f_equal; apply chr_eq; div_lia.
Qed.

Lemma all_bytes_Repeat p n : p "="%char = true → all_bytes p (Repeat "=" n) = true.
Proof. intros Hp. induction n as [|n IH]; [done|]. simpl. rewrite all_bytes_app, IH. simpl. by rewrite Hp. Qed.

(** Decoding what the unpadded encoder wrote gives the bytes back. *)
Lemma decodeB64URL_encode s : decodeB64URL (RawURLEncode s) = Some s.
Proof.
  pose proof (decode_quanta_pad s) as D. unfold decodeB64URL, URLDecode.
  set (e := RawURLEncode s) in *.
  assert (He : all_bytes (λ c, b64_char c || Ascii.eqb c "=") e = true).
  { eapply all_bytes_impl; [|apply RawURLEncode_alphabet]. intros c ->. done. }
  destruct (String.length e mod 4)%nat as [|k] eqn:E.
  - cbn [Nat.eqb]. change ((4 - 0) mod 4)%nat with 0%nat in D. simpl Repeat in D.
    rewrite app_nil_r_s in D. by rewrite strip_newlines_id.
  - cbn [Nat.eqb]. pose proof (Nat.mod_upper_bound (String.length e) 4 ltac:(lia)).
    rewrite Nat.mod_small in D by lia. rewrite strip_newlines_id; [done|].
    rewrite all_bytes_app, He, all_bytes_Repeat; done.
Qed.

(** Two texts that differ can still name the same bytes: the decoder ignores
    padding, newlines and unused low bits. *)
Example decodeB64URL_lenient :
  decodeB64URL "QQ" = Some "A"%string ∧ decodeB64URL "QQ==" = Some "A"%string ∧
  decodeB64URL "QR" = Some "A"%string ∧ decodeB64URL "Q" = None ∧ decodeB64URL "Q+" = None.
Proof. vm_compute. auto. Qed.
