(* ===== verification/Base64.v ===== *)
(** * Package base64, errors included

    [Encoding.DecodeString] with the bytes it returns beside an error, for the
    unpadded URL encoding and the padded standard one, and how they read the texts
    the program's own decoder ([Codec.decodeB64URL]) accepts. *)

From S2P Require Import Prelude GoStrings Codec.

Local Open Scope Z_scope.

(** ** Encodings *)

Record Encoding : Type := MkEncoding {
  decodeMap : ascii → option Z;
  padded : bool
}.

(** The standard alphabet ends in [+] and [/]. *)
Definition std_val (c : ascii) : option Z :=
  if Ascii.eqb c "+" then Some 62
  else if Ascii.eqb c "/" then Some 63
  else if Ascii.eqb c "-" || Ascii.eqb c "_" then None
  else b64_val c.

Definition RawURLEncoding : Encoding := MkEncoding b64_val false.
Definition StdEncoding : Encoding := MkEncoding std_val true.

(** The first bytes of a quantum. *)
Definition one (v : Z) : string := String (chr (v / 65536)) EmptyString.
Definition two (v : Z) : string := String (chr (v / 65536)) (String (chr (v / 256 mod 256)) EmptyString).
Definition three (v : Z) (r : string) : string :=
  String (chr (v / 65536)) (String (chr (v / 256 mod 256)) (String (chr (v mod 256)) r)).

Section Decode.
Context (enc : Encoding).

(** Quantum by quantum, newlines gone: the bytes, and whether there was no error.
    What stands before the error stays, the last quantum too when only something
    behind its padding is wrong. *)
Fixpoint Decode (s : string) : string * bool :=
  match s with
  | EmptyString => (EmptyString, true)
  | String a (String b r) =>
      match decodeMap enc a, decodeMap enc b with
      | Some va, Some vb =>
          let v := va * 262144 + vb * 4096 in
          match r with
          | EmptyString => if padded enc then (EmptyString, false) else (one v, true)
          | String c r =>
              match decodeMap enc c with
              | Some vc =>
                  let v := v + vc * 64 in
                  match r with
                  | EmptyString => if padded enc then (EmptyString, false) else (two v, true)
                  | String d r =>
                      match decodeMap enc d with
                      | Some vd => let '(rest, ok) := Decode r in (three (v + vd) rest, ok)
                      | None =>
                          if padded enc && Ascii.eqb d "=" then (two v, String.eqb r "") else (EmptyString, false)
                      end
                  end
              | None =>
                  match r with
                  | String d r =>
                      if padded enc && Ascii.eqb c "=" && Ascii.eqb d "=" then (one v, String.eqb r "")
                      else (EmptyString, false)
                  | EmptyString => (EmptyString, false)
                  end
              end
          end
      | _, _ => (EmptyString, false)
      end
  | _ => (EmptyString, false)
  end.

Definition DecodeString (s : string) : string * bool := Decode (strip_newlines s).
End Decode.

(** ** Against the program's decoder *)

Lemma string_ind4 (P : string → Prop) :
  P "" → (∀ a, P (String a "")) → (∀ a b, P (String a (String b ""))) →
  (∀ a b c, P (String a (String b (String c "")))) →
  (∀ a b c d r, P r → P (String a (String b (String c (String d r))))) → ∀ s, P s.
Proof.
  intros H0 H1 H2 H3 H4 s.
  enough (P s ∧ (∀ a, P (String a s)) ∧ (∀ a b, P (String a (String b s))) ∧
    (∀ a b c, P (String a (String b (String c s))))) by tauto.
  induction s as [|x s (IH0 & IH1 & IH2 & IH3)]; [tauto|]. auto.
Qed.

Definition no_pad : string → bool := no_byte "=".

Lemma eqb_no_pad c : negb (Ascii.eqb c "=") = true → Ascii.eqb c "=" = false.
Proof. by intros H%negb_true_iff. Qed.

(** A quantum without padding. *)
Lemma decode_quanta_4 a b c d r x :
  Ascii.eqb d "=" = false → decode_quanta (String a (String b (String c (String d r)))) = Some x →
  ∃ va vb vc vd rest, b64_val a = Some va ∧ b64_val b = Some vb ∧ b64_val c = Some vc ∧ b64_val d = Some vd ∧
    decode_quanta r = Some rest ∧ x = three (va * 262144 + vb * 4096 + vc * 64 + vd) rest.
Proof.
  intros Hd. cbn [decode_quanta]. rewrite Hd. intros (va & Ha & (vb & Hb & H)%bind_Some)%bind_Some.
  apply bind_Some in H as (vc & Hc & (vd & Hvd & H)%bind_Some). apply bind_Some in H as (rest & Hr & [= <-]).
  by exists va, vb, vc, vd, rest.
Qed.

(** An unpadded text is read whole. *)
Lemma Decode_raw t n x :
  no_pad t = true → decode_quanta (t +:+ Repeat "=" n) = Some x → Decode RawURLEncoding t = (x, true).
Proof.
  revert x. induction t as [|a|a b|a b c|a b c d r IH] using string_ind4; intros x Hp H.
  - destruct n as [|[|[|[|n]]]]; try done. by injection H as <-.
  - destruct n as [|[|[|n]]]; try done. cbn [Repeat] in H.
    rewrite !app_cons_s, !app_nil_l_s in H. cbn [decode_quanta] in H. by destruct (b64_val a).
  - destruct n as [|[|n]]; try done.
    cbn [Repeat] in H. rewrite !app_cons_s, !app_nil_l_s in H. cbn [decode_quanta] in H.
    change (Ascii.eqb "=" "=") with true in H. cbv iota in H. cbn [Decode decodeMap RawURLEncoding padded].
    destruct (b64_val a) as [va|]; [|done]. destruct (b64_val b) as [vb|]; [|done]. cbn [mbind option_bind] in H.
    destruct (negb _); [done|]. by injection H as <-.
  - unfold no_pad, no_byte in Hp. cbn [all_bytes] in Hp.
    rewrite !andb_true_iff in Hp. destruct Hp as (_ & _ & Hc & _). destruct n as [|n]; [done|].
    cbn [Repeat] in H. rewrite !app_cons_s, !app_nil_l_s in H. cbn [decode_quanta] in H.
    change (Ascii.eqb "=" "=") with true in H. cbv iota in H. cbn [Decode decodeMap RawURLEncoding padded].
    destruct (b64_val a) as [va|]; [|done]. destruct (b64_val b) as [vb|]; [|done]. cbn [mbind option_bind] in H.
    destruct (negb (String.eqb _ _)); [done|]. rewrite (eqb_no_pad c Hc) in H.
    destruct (b64_val c) as [vc|]; [|done]. by injection H as <-.
  - unfold no_pad, no_byte in Hp. cbn [all_bytes] in Hp. rewrite !andb_true_iff in Hp. destruct Hp as (Ha & Hb & Hc & Hd & Hr).
    rewrite !app_cons_s in H. apply decode_quanta_4 in H as (va & vb & vc & vd & rest & E1 & E2 & E3 & E4 & E5 & ->);
      [|by apply eqb_no_pad].
    cbn [Decode decodeMap RawURLEncoding]. by rewrite E1, E2, E3, E4, (IH rest).
Qed.

(** A padded one is not. *)
Lemma Decode_raw_padded t : no_pad t = false → snd (Decode RawURLEncoding t) = false.
Proof.
  assert (He : ∀ c v, b64_val c = Some v → negb (Ascii.eqb c "=") = true).
  { intros c v Hc. apply negb_true_iff, Ascii.eqb_neq. intros ->. done. }
  induction t as [|a|a b|a b c|a b c d r IH] using string_ind4; unfold no_pad, no_byte; cbn [all_bytes Decode decodeMap RawURLEncoding padded];
    try done.
  - destruct (b64_val a) eqn:Ea; [|done]. destruct (b64_val b) eqn:Eb; [|done]. by rewrite (He _ _ Ea), (He _ _ Eb).
  - destruct (b64_val a) eqn:Ea; [|done]. destruct (b64_val b) eqn:Eb; [|done]. destruct (b64_val c) eqn:Ec; [|done].
    by rewrite (He _ _ Ea), (He _ _ Eb), (He _ _ Ec).
  - destruct (b64_val a) eqn:Ea; [|done]. destruct (b64_val b) eqn:Eb; [|done]. destruct (b64_val c) eqn:Ec; [|done].
    destruct (b64_val d) eqn:Ed; [|done]. rewrite (He _ _ Ea), (He _ _ Eb), (He _ _ Ec), (He _ _ Ed). cbn [andb].
    intros H. specialize (IH H). by destruct (Decode _ r).
Qed.

(** The standard alphabet agrees where it has the letter. *)
Lemma std_val_b64 c v : b64_val c = Some v → std_val c = Some v ∨ std_val c = None ∧ (c = "-" ∨ c = "_")%char.
Proof.
  intros H. unfold std_val. destruct (Ascii.eqb_spec c "+") as [->|]; [done|]. destruct (Ascii.eqb_spec c "/") as [->|]; [done|].
  destruct (Ascii.eqb_spec c "-") as [->|]; [by right; split; [|left]|].
  destruct (Ascii.eqb_spec c "_") as [->|]; [by right; split; [|right]|]. by left.
Qed.

(** Of a text the program's decoder accepts, a prefix is read. *)
Definition starts (x y : string) : Prop := ∃ z, y = x +:+ z.

Lemma starts_nil y : starts "" y.
Proof. by exists y. Qed.

Lemma starts_refl y : starts y y.
Proof. exists "". by rewrite app_nil_r_s. Qed.

Lemma starts_three v x y : starts x y → starts (three v x) (three v y).
Proof. intros [z ->]. by exists z. Qed.

Lemma Decode_std t n x :
  decode_quanta (t +:+ Repeat "=" n) = Some x → starts (fst (Decode StdEncoding t)) x.
Proof.
  revert x. induction t as [|a|a b|a b c|a b c d r IH] using string_ind4; intros x H; cbn [Decode decodeMap StdEncoding padded].
  - apply starts_nil.
  - apply starts_nil.
  - destruct (std_val a), (std_val b); apply starts_nil.
  - destruct (std_val a), (std_val b); try apply starts_nil. destruct (std_val c); apply starts_nil.
  - rewrite !app_cons_s in H. destruct (Ascii.eqb d "=") eqn:Hd.
    + cbn [decode_quanta] in H. rewrite Hd in H.
      destruct (b64_val a) as [va|] eqn:Ea; [|done]. destruct (b64_val b) as [vb|] eqn:Eb; [|done]. cbn [mbind option_bind] in H.
      destruct (negb _); [done|]. apply Ascii.eqb_eq in Hd. subst d.
      destruct (std_val_b64 a va Ea) as [-> |[-> _]]; [|apply starts_nil].
      destruct (std_val_b64 b vb Eb) as [-> |[-> _]]; [|apply starts_nil].
      destruct (Ascii.eqb_spec c "=") as [->|Hc]; [injection H as <-; apply starts_refl|].
      destruct (b64_val c) as [vc|] eqn:Ec; [|done]. injection H as <-.
      destruct (std_val_b64 c vc Ec) as [-> |[-> _]]; [apply starts_refl|].
      apply starts_nil.
    + apply decode_quanta_4 in H as (va & vb & vc & vd & rest & E1 & E2 & E3 & E4 & E5 & ->); [|done].
      destruct (std_val_b64 a va E1) as [-> |[-> _]]; [|apply starts_nil].
      destruct (std_val_b64 b vb E2) as [-> |[-> _]]; [|apply starts_nil].
      destruct (std_val_b64 c vc E3) as [-> |[-> Hc]].
      * destruct (std_val_b64 d vd E4) as [-> |[-> _]].
        -- specialize (IH rest E5). destruct (Decode StdEncoding r) as [y ok]. by apply starts_three.
        -- apply starts_nil.
      * destruct Hc as [-> | ->]; apply starts_nil.
Qed.

(** Properly padded and without the letters of the URL alphabet, all of it is. *)
Definition std_letter (c : ascii) : bool := negb (Ascii.eqb c "-" || Ascii.eqb c "_").

Lemma std_val_letter c v : std_letter c = true → b64_val c = Some v → std_val c = Some v.
Proof.
  intros Hc H. destruct (std_val_b64 c v H) as [|[_ [-> | ->]]]; done.
Qed.

Lemma Decode_std_whole t x :
  all_bytes std_letter t = true → decode_quanta t = Some x → Decode StdEncoding t = (x, true).
Proof.
  revert x. induction t as [|a|a b|a b c|a b c d r IH] using string_ind4; intros x Hl H; try done; [by injection H as <-|].
  cbn [all_bytes] in Hl. rewrite !andb_true_iff in Hl. destruct Hl as (La & Lb & Lc & Ld & Lr).
  cbn [Decode decodeMap StdEncoding padded]. destruct (Ascii.eqb d "=") eqn:Hd.
  - cbn [decode_quanta] in H. rewrite Hd in H.
    destruct (b64_val a) as [va|] eqn:Ea; [|done]. destruct (b64_val b) as [vb|] eqn:Eb; [|done]. cbn [mbind option_bind] in H.
    destruct (String.eqb_spec r "") as [->|]; [|done]. cbn [negb] in H. apply Ascii.eqb_eq in Hd. subst d.
    rewrite (std_val_letter a va), (std_val_letter b vb) by done.
    destruct (Ascii.eqb_spec c "=") as [->|Hc]; [by injection H as <-|].
    destruct (b64_val c) as [vc|] eqn:Ec; [|done]. injection H as <-. by rewrite (std_val_letter c vc).
  - apply decode_quanta_4 in H as (va & vb & vc & vd & rest & E1 & E2 & E3 & E4 & E5 & ->); [|done].
    rewrite (std_val_letter a va), (std_val_letter b vb), (std_val_letter c vc), (std_val_letter d vd) by done.
    by rewrite (IH rest).
Qed.
