(* ===== verification/Sha256.v ===== *)
(** * SHA-256

    [crypto/sha256] as an executable function on byte strings, following FIPS
    180-4: words are integers below 2^32, sums wrap. *)

From S2P Require Import Prelude GoStrings Codec.

Local Open Scope Z_scope.

Definition w32 (z : Z) : Z := Z.land z 4294967295.

Definition rotr (n x : Z) : Z := Z.lor (Z.shiftr x n) (w32 (Z.shiftl x (32 - n))).

Definition sha_ch (x y z : Z) : Z := Z.lxor (Z.land x y) (Z.land (Z.lxor x 4294967295) z).
Definition sha_maj (x y z : Z) : Z := Z.lxor (Z.lxor (Z.land x y) (Z.land x z)) (Z.land y z).
Definition big_s0 (x : Z) : Z := Z.lxor (Z.lxor (rotr 2 x) (rotr 13 x)) (rotr 22 x).
Definition big_s1 (x : Z) : Z := Z.lxor (Z.lxor (rotr 6 x) (rotr 11 x)) (rotr 25 x).
Definition small_s0 (x : Z) : Z := Z.lxor (Z.lxor (rotr 7 x) (rotr 18 x)) (Z.shiftr x 3).
Definition small_s1 (x : Z) : Z := Z.lxor (Z.lxor (rotr 17 x) (rotr 19 x)) (Z.shiftr x 10).

Definition sha_k : list Z := [
  1116352408; 1899447441; 3049323471; 3921009573; 961987163; 1508970993; 2453635748;
  2870763221; 3624381080; 310598401; 607225278; 1426881987; 1925078388; 2162078206;
  2614888103; 3248222580; 3835390401; 4022224774; 264347078; 604807628; 770255983;
  1249150122; 1555081692; 1996064986; 2554220882; 2821834349; 2952996808; 3210313671;
  3336571891; 3584528711; 113926993; 338241895; 666307205; 773529912; 1294757372;
  1396182291; 1695183700; 1986661051; 2177026350; 2456956037; 2730485921; 2820302411;
  3259730800; 3345764771; 3516065817; 3600352804; 4094571909; 275423344; 430227734;
  506948616; 659060556; 883997877; 958139571; 1322822218; 1537002063; 1747873779;
  1955562222; 2024104815; 2227730452; 2361852424; 2428436474; 2756734187; 3204031479;
  3329325298].

(** The eight words of the running hash. *)
Record sha_state := ShaState {
  sa : Z; sb : Z; sc : Z; sd : Z; se : Z; sf : Z; sg : Z; sh : Z }.

Definition sha_init : sha_state :=
  ShaState 1779033703 3144134277 1013904242 2773480762 1359893119 2600822924 528734635 1541459225.

(** The message schedule; the list is kept with its latest word first. *)
Fixpoint extend (n : nat) (w : list Z) : list Z :=
  match n with
  | O => w
  | S n =>
      extend n (w32 (small_s1 (nth 1 w 0) + nth 6 w 0 + small_s0 (nth 14 w 0) + nth 15 w 0) :: w)
  end.

Definition sha_round (st : sha_state) (kw : Z * Z) : sha_state :=
  let '(k, w) := kw in
  let t1 := sh st + big_s1 (se st) + sha_ch (se st) (sf st) (sg st) + k + w in
  let t2 := big_s0 (sa st) + sha_maj (sa st) (sb st) (sc st) in
  ShaState (w32 (t1 + t2)) (sa st) (sb st) (sc st) (w32 (sd st + t1)) (se st) (sf st) (sg st).

Definition sha_block (st : sha_state) (words : list Z) : sha_state :=
  let w := reverse (extend 48 (reverse words)) in
  let r := fold_left sha_round (combine sha_k w) st in
  ShaState (w32 (sa st + sa r)) (w32 (sb st + sb r)) (w32 (sc st + sc r)) (w32 (sd st + sd r))
           (w32 (se st + se r)) (w32 (sf st + sf r)) (w32 (sg st + sg r)) (w32 (sh st + sh r)).

(** Big-endian 32-bit words of a byte list. *)
Fixpoint be_words (l : list Z) : list Z :=
  match l with
  | a :: b :: c :: d :: r => (a * 16777216 + b * 65536 + c * 256 + d) :: be_words r
  | _ => []
  end.

Fixpoint sha_blocks (n : nat) (st : sha_state) (words : list Z) : sha_state :=
  match n with
  | O => st
  | S n => sha_blocks n (sha_block st (firstn 16 words)) (skipn 16 words)
  end.

Fixpoint byte_list (s : string) : list Z :=
  match s with
  | EmptyString => []
  | String c s => code c :: byte_list s
  end.

Fixpoint be_bytes (n : nat) (z : Z) : list Z :=
  match n with
  | O => []
  | S n => be_bytes n (z / 256) ++ [z mod 256]
  end.

(** 0x80, zeros up to 56 modulo 64, the bit length in eight bytes. *)
Definition sha_pad (n : Z) : list Z :=
  0x80 :: replicate (Z.to_nat ((55 - n) mod 64)) 0 ++ be_bytes 8 (8 * n).

Fixpoint of_bytes (l : list Z) : string :=
  match l with
  | [] => EmptyString
  | z :: l => String (chr z) (of_bytes l)
  end.

(** [sha256.Sum256], and [h.Sum(nil)] after the writes. *)
Definition sha256 (s : string) : string :=
  let m := byte_list s ++ sha_pad (len s) in
  let words := be_words m in
  let st := sha_blocks (Nat.div (length words) 16) sha_init words in
  of_bytes (concat (map (be_bytes 4) [sa st; sb st; sc st; sd st; se st; sf st; sg st; sh st])).

Lemma length_of_bytes l : String.length (of_bytes l) = length l.
Proof. induction l as [|z l IH]; simpl; [done|]. by rewrite IH. Qed.

Lemma length_be_bytes n z : length (be_bytes n z) = n.
Proof. revert z. induction n as [|n IH]; intros z; simpl; [done|]. rewrite length_app, IH. simpl. lia. Qed.

Lemma length_sha256 s : String.length (sha256 s) = 32%nat.
Proof.
  unfold sha256. rewrite length_of_bytes. cbn [map concat].
  rewrite !length_app, !length_be_bytes. done.
Qed.

(** The test vectors of FIPS 180-4: one block, no byte, two blocks. *)
Example sha256_abc :
  hex_encode (sha256 "abc") = "ba7816bf8f01cfea414140de5dae2223b00361a396177a9cb410ff61f20015ad"%string.
Proof. vm_compute. reflexivity. Qed.

Example sha256_empty :
  hex_encode (sha256 "") = "e3b0c44298fc1c149afbf4c8996fb92427ae41e4649b934ca495991b7852b855"%string.
Proof. vm_compute. reflexivity. Qed.

Example sha256_two_blocks :
  hex_encode (sha256 "abcdbcdecdefdefgefghfghighijhijkijkljklmklmnlmnomnopnopq") =
  "248d6a61d20638b8e5c026930c3e6039a33ce45964ff2167f6ecedd419db06c1"%string.
Proof. vm_compute. reflexivity. Qed.
