(* ===== verification/Json.v ===== *)
(** * encoding/json

    The part of Go's [encoding/json] the program relies on: the scanner (a
    push-down automaton over bytes, the same states as in the package), string
    unquoting with its repair of invalid UTF-8, decoding into structs of strings,
    and the encoder of string fields.  Everything is structural on the input, so
    no fuel is needed. *)

From S2P Require Import Prelude GoStrings.

Local Open Scope Z_scope.

#[local] Set Warnings "-register-all".

(** A JSON value as [Unmarshal] sees it; members in the order of the text. *)
Inductive json : Type :=
| JNull
| JBool (b : bool)
| JNum (text : string)
| JStr (s : string)
| JArr (vs : list json)
| JObj (ms : list (string * json)).

(** ** UTF-8 *)

Definition in_range (lo hi : Z) (c : ascii) : bool := (lo <=? code c) && (code c <=? hi).

Definition cont (c : ascii) : bool := in_range 128 191 c.

(** Valid encodings of a rune in two, three and four bytes. *)
Definition utf8_2 (a b : ascii) : bool := in_range 194 223 a && cont b.

Definition utf8_3 (a b c : ascii) : bool :=
  cont c &&
  ((in_range 224 224 a && in_range 160 191 b)
   || ((in_range 225 236 a || in_range 238 239 a) && cont b)
   || (in_range 237 237 a && in_range 128 159 b)).

Definition utf8_4 (a b c d : ascii) : bool :=
  cont c && cont d &&
  ((in_range 240 240 a && in_range 144 191 b)
   || (in_range 241 243 a && cont b)
   || (in_range 244 244 a && in_range 128 143 b)).

(** The encoding of U+FFFD, which replaces what is not UTF-8. *)
Definition repl (r : string) : string :=
  String (chr 239) (String (chr 191) (String (chr 189) r)).

(** [utf8.EncodeRune] for a code point that is not a surrogate. *)
Definition encode_rune (u : Z) (r : string) : string :=
  if u <? 128 then String (chr u) r
  else if u <? 2048 then String (chr (192 + u / 64)) (String (chr (128 + u mod 64)) r)
  else if u <? 65536 then
    String (chr (224 + u / 4096)) (String (chr (128 + u / 64 mod 64))
      (String (chr (128 + u mod 64)) r))
  else
    String (chr (240 + u / 262144)) (String (chr (128 + u / 4096 mod 64))
      (String (chr (128 + u / 64 mod 64)) (String (chr (128 + u mod 64)) r))).

(** ** Strings *)

Definition hex_val (c : ascii) : option Z :=
  let n := code c in
  if (48 <=? n) && (n <=? 57) then Some (n - 48)
  else if (97 <=? n) && (n <=? 102) then Some (n - 87)
  else if (65 <=? n) && (n <=? 70) then Some (n - 55)
  else None.

Definition hex4 (a b c d : ascii) : Z :=
  let v x := default 0 (hex_val x) in
  v a * 4096 + v b * 256 + v c * 16 + v d.

Definition is_high (u : Z) : bool := (55296 <=? u) && (u <=? 56319).
Definition is_low (u : Z) : bool := (56320 <=? u) && (u <=? 57343).

(** The character a simple escape stands for. *)
Definition unescape (e : ascii) : ascii :=
  if Ascii.eqb e "b" then "008"
  else if Ascii.eqb e "f" then "012"
  else if Ascii.eqb e "n" then "010"
  else if Ascii.eqb e "r" then "013"
  else if Ascii.eqb e "t" then "009"
  else e.

(** [unquote], on the text between the quotes (which the scanner accepted). *)
Fixpoint unquote (s : string) : string :=
  match s with
  | EmptyString => EmptyString
  | String a r =>
      if Ascii.eqb a "\" then
        match r with
        | EmptyString => EmptyString
        | String e r1 =>
            if Ascii.eqb e "u" then
              match r1 with
              | String h1 (String h2 (String h3 (String h4 r2))) =>
                  let u := hex4 h1 h2 h3 h4 in
                  if is_high u || is_low u then
                    match r2 with
                    | String b (String f (String g1 (String g2 (String g3 (String g4 r3))))) =>
                        let u1 := hex4 g1 g2 g3 g4 in
                        if Ascii.eqb b "\" && Ascii.eqb f "u" && is_high u && is_low u1 then
                          encode_rune ((u - 55296) * 1024 + (u1 - 56320) + 65536) (unquote r3)
                        else repl (unquote r2)
                    | _ => repl (unquote r2)
                    end
                  else encode_rune u (unquote r2)
              | _ => EmptyString
              end
            else String (unescape e) (unquote r1)
        end
      else if code a <? 128 then String a (unquote r)
      else
        match r with
        | String b r2 =>
            if utf8_2 a b then String a (String b (unquote r2)) else
            match r2 with
            | String c r3 =>
                if utf8_3 a b c then String a (String b (String c (unquote r3))) else
                match r3 with
                | String d r4 =>
                    if utf8_4 a b c d then String a (String b (String c (String d (unquote r4))))
                    else repl (unquote r)
                | EmptyString => repl (unquote r)
                end
            | EmptyString => repl (unquote r)
            end
        | EmptyString => repl (unquote r)
        end
  end.

(** ** The scanner *)

(** What encloses the value being read: an array, an object whose key is being
    read, an object whose value for a key is being read (elements latest first). *)
Inductive frame : Type :=
| FArr (acc : list json)
| FKey (acc : list (string * json))
| FVal (acc : list (string * json)) (key : string).

Inductive mode : Type :=
| MBeginValue
| MBeginValueOrEmpty
| MBeginStringOrEmpty
| MBeginString
| MEndKey (key : string)
| MEndValue (v : json)
| MInString (raw : string)
| MInStringEsc (raw : string)
| MInStringEscU (n : nat) (raw : string)
| MLit (rest : string) (v : json)
| MNeg (raw : string)
| M0 (raw : string)
| M1 (raw : string)
| MDot (raw : string)
| MDot0 (raw : string)
| ME (raw : string)
| MESign (raw : string)
| ME0 (raw : string).

Definition config : Type := mode * list frame.

Definition maxNestingDepth : Z := 10000.

Definition is_space (c : ascii) : bool :=
  Ascii.eqb c " " || Ascii.eqb c "009" || Ascii.eqb c "013" || Ascii.eqb c "010".

Definition digit19 (c : ascii) : bool := in_range 49 57 c.
Definition digit09 (c : ascii) : bool := in_range 48 57 c.

Definition push (f : frame) (m : mode) (st : list frame) : option config :=
  if Z.of_nat (length st) + 1 <=? maxNestingDepth then Some (m, f :: st) else None.

Definition snoc (s : string) (c : ascii) : string := s +:+ String c EmptyString.

Definition begin_value (st : list frame) (c : ascii) : option config :=
  if Ascii.eqb c "{" then push (FKey []) MBeginStringOrEmpty st
  else if Ascii.eqb c "[" then push (FArr []) MBeginValueOrEmpty st
  else if Ascii.eqb c "034" then Some (MInString EmptyString, st)
  else if Ascii.eqb c "-" then Some (MNeg "-", st)
  else if Ascii.eqb c "0" then Some (M0 "0", st)
  else if Ascii.eqb c "t" then Some (MLit "rue" (JBool true), st)
  else if Ascii.eqb c "f" then Some (MLit "alse" (JBool false), st)
  else if Ascii.eqb c "n" then Some (MLit "ull" JNull, st)
  else if digit19 c then Some (M1 (String c EmptyString), st)
  else None.

Definition begin_string (st : list frame) (c : ascii) : option config :=
  if Ascii.eqb c "034" then Some (MInString EmptyString, st) else None.

Definition end_value (v : json) (st : list frame) (c : ascii) : option config :=
  if is_space c then Some (MEndValue v, st)
  else match st with
  | FVal acc k :: st =>
      if Ascii.eqb c "," then Some (MBeginString, FKey ((k, v) :: acc) :: st)
      else if Ascii.eqb c "}" then Some (MEndValue (JObj (rev ((k, v) :: acc))), st)
      else None
  | FArr acc :: st =>
      if Ascii.eqb c "," then Some (MBeginValue, FArr (v :: acc) :: st)
      else if Ascii.eqb c "]" then Some (MEndValue (JArr (rev (v :: acc))), st)
      else None
  | _ => None
  end.

Definition step (cfg : config) (c : ascii) : option config :=
  let '(m, st) := cfg in
  match m with
  | MBeginValue => if is_space c then Some cfg else begin_value st c
  | MBeginValueOrEmpty =>
      if is_space c then Some cfg
      else if Ascii.eqb c "]" then Some (MEndValue (JArr []), tail st)
      else begin_value st c
  | MBeginStringOrEmpty =>
      if is_space c then Some cfg
      else if Ascii.eqb c "}" then Some (MEndValue (JObj []), tail st)
      else begin_string st c
  | MBeginString => if is_space c then Some cfg else begin_string st c
  | MEndKey k =>
      if is_space c then Some cfg
      else if Ascii.eqb c ":" then
        match st with
        | FKey acc :: st => Some (MBeginValue, FVal acc k :: st)
        | _ => None
        end
      else None
  | MEndValue v => end_value v st c
  | MInString raw =>
      if Ascii.eqb c "034" then
        match st with
        | FKey _ :: _ => Some (MEndKey (unquote raw), st)
        | _ => Some (MEndValue (JStr (unquote raw)), st)
        end
      else if Ascii.eqb c "\" then Some (MInStringEsc (snoc raw c), st)
      else if code c <? 32 then None
      else Some (MInString (snoc raw c), st)
  | MInStringEsc raw =>
      if Ascii.eqb c "u" then Some (MInStringEscU 4 (snoc raw c), st)
      else if existsb (Ascii.eqb c) ["b"; "f"; "n"; "r"; "t"; "\"; "/"; "034"]%char
      then Some (MInString (snoc raw c), st)
      else None
  | MInStringEscU n raw =>
      match hex_val c, n with
      | Some _, S (S n) => Some (MInStringEscU (S n) (snoc raw c), st)
      | Some _, _ => Some (MInString (snoc raw c), st)
      | None, _ => None
      end
  | MLit rest v =>
      match rest with
      | String a EmptyString => if Ascii.eqb c a then Some (MEndValue v, st) else None
      | String a rest => if Ascii.eqb c a then Some (MLit rest v, st) else None
      | EmptyString => None
      end
  | MNeg raw =>
      if Ascii.eqb c "0" then Some (M0 (snoc raw c), st)
      else if digit19 c then Some (M1 (snoc raw c), st)
      else None
  | M1 raw =>
      if digit09 c then Some (M1 (snoc raw c), st)
      else if Ascii.eqb c "." then Some (MDot (snoc raw c), st)
      else if Ascii.eqb c "e" || Ascii.eqb c "E" then Some (ME (snoc raw c), st)
      else end_value (JNum raw) st c
  | M0 raw =>
      if Ascii.eqb c "." then Some (MDot (snoc raw c), st)
      else if Ascii.eqb c "e" || Ascii.eqb c "E" then Some (ME (snoc raw c), st)
      else end_value (JNum raw) st c
  | MDot raw => if digit09 c then Some (MDot0 (snoc raw c), st) else None
  | MDot0 raw =>
      if digit09 c then Some (MDot0 (snoc raw c), st)
      else if Ascii.eqb c "e" || Ascii.eqb c "E" then Some (ME (snoc raw c), st)
      else end_value (JNum raw) st c
  | ME raw =>
      if Ascii.eqb c "+" || Ascii.eqb c "-" then Some (MESign (snoc raw c), st)
      else if digit09 c then Some (ME0 (snoc raw c), st) else None
  | MESign raw => if digit09 c then Some (ME0 (snoc raw c), st) else None
  | ME0 raw =>
      if digit09 c then Some (ME0 (snoc raw c), st)
      else end_value (JNum raw) st c
  end.

Fixpoint run (cfg : config) (s : string) : option config :=
  match s with
  | EmptyString => Some cfg
  | String c s => cfg ← step cfg c; run cfg s
  end.

(** The whole text is one value; the end of the text counts as a blank. *)
Definition Parse (s : string) : option json :=
  cfg ← run (MBeginValue, []) s;
  cfg ← step cfg " ";
  match cfg with
  | (MEndValue v, []) => Some v
  | _ => None
  end.

(** ** Decoding into structs *)

(** [foldName]: keys match field names up to case.  Beyond ASCII only U+017F
    (long s) and U+212A (Kelvin sign) fold to ASCII letters. *)
Fixpoint foldName (s : string) : string :=
  match s with
  | EmptyString => EmptyString
  | String a r =>
      if in_range 97 122 a then String (chr (code a - 32)) (foldName r)
      else match r with
      | String b r2 =>
          if (code a =? 197) && (code b =? 191) then String "S" (foldName r2)
          else match r2 with
          | String c r3 =>
              if (code a =? 226) && (code b =? 132) && (code c =? 170)
              then String "K" (foldName r3)
              else String a (foldName r)
          | EmptyString => String a (foldName r)
          end
      | EmptyString => String a (foldName r)
      end
  end.

Section decode.
Context {T : Type}.

(** How a field takes a value; the flag is off after a type error, which
    decoding remembers and goes on. *)
Definition setter : Type := json → T → T * bool.

Definition str_field (set : string → T → T) : setter := λ v t,
  match v with
  | JStr s => (set s t, true)
  | JNull => (t, true)
  | _ => (t, false)
  end.

(** The exact name first, then the first field equal up to case. *)
Definition find_field (fields : list (string * setter)) (key : string) : option setter :=
  match find (λ f, String.eqb (fst f) key) fields with
  | Some f => Some (snd f)
  | None => snd <$> find (λ f, String.eqb (foldName (fst f)) (foldName key)) fields
  end.

Definition decode_member (fields : list (string * setter)) (acc : T * bool)
    (m : string * json) : T * bool :=
  match find_field fields (fst m) with
  | Some set => let '(t, ok) := set (snd m) (fst acc) in (t, ok && snd acc)
  | None => acc
  end.

Definition decode_struct (fields : list (string * setter)) : setter := λ v t,
  match v with
  | JObj ms => fold_left (decode_member fields) ms (t, true)
  | JNull => (t, true)
  | _ => (t, false)
  end.

(** [json.Unmarshal]: [None] is any error. *)
Definition Unmarshal (set : setter) (zero : T) (s : string) : option T :=
  v ← Parse s;
  let '(t, ok) := set v zero in
  if (ok : bool) then Some t else None.
End decode.
Arguments setter : clear implicits.

(** A struct inside a struct. *)
Definition sub_field {T U : Type} (get : T → U) (put : U → T → T) (set : setter U) : setter T :=
  λ v t, let '(u, ok) := set v (get t) in (put u t, ok).

(** A slice of strings: decoding reuses the elements of the slice it fills, so
    [null] elements keep what an earlier duplicate key left there. *)
Record slice : Type := Slice { backing : list string; slen : nat }.

Definition elems (s : slice) : list string := firstn (slen s) (backing s).

Fixpoint decode_elems (vs : list json) (old : list string) : list string * bool :=
  match vs with
  | [] => (old, true)
  | v :: vs =>
      let '(e, ok) := str_field (λ s _, s) v (default EmptyString (head old)) in
      let '(es, oks) := decode_elems vs (tail old) in
      (e :: es, ok && oks)
  end.

Definition slice_field : setter slice := λ v t,
  match v with
  | JArr [] => (Slice [] 0, true)
  | JArr vs => let '(b, ok) := decode_elems vs (backing t) in (Slice b (length vs), ok)
  | JNull => (Slice [] 0, true)
  | _ => (t, false)
  end.

(** ** Encoding strings *)

Definition lower_hex (n : Z) : ascii := if n <? 10 then chr (48 + n) else chr (87 + n).

Definition u00 (n : Z) (r : string) : string :=
  String "\" (String "u" (String "0" (String "0"
    (String (lower_hex (n / 16)) (String (lower_hex (n mod 16)) r))))).

(** One ASCII byte, as [appendString] writes it. *)
Definition escape_ascii (html : bool) (a : ascii) (r : string) : string :=
  if Ascii.eqb a "\" || Ascii.eqb a "034" then String "\" (String a r)
  else if Ascii.eqb a "008" then String "\" (String "b" r)
  else if Ascii.eqb a "012" then String "\" (String "f" r)
  else if Ascii.eqb a "010" then String "\" (String "n" r)
  else if Ascii.eqb a "013" then String "\" (String "r" r)
  else if Ascii.eqb a "009" then String "\" (String "t" r)
  else if code a <? 32 then u00 (code a) r
  else if html && (Ascii.eqb a "<" || Ascii.eqb a ">" || Ascii.eqb a "&") then u00 (code a) r
  else String a r.

Definition ufffd (r : string) : string := "\ufffd" +:+ r.

(** The text between the quotes. *)
Fixpoint escape (html : bool) (s : string) : string :=
  match s with
  | EmptyString => EmptyString
  | String a r =>
      if code a <? 128 then escape_ascii html a (escape html r)
      else
        match r with
        | String b r2 =>
            if utf8_2 a b then String a (String b (escape html r2)) else
            match r2 with
            | String c r3 =>
                if utf8_3 a b c then
                  if (code a =? 226) && (code b =? 128) && ((code c =? 168) || (code c =? 169))
                  then "\u202" +:+ String (lower_hex (code c mod 16)) (escape html r3)
                  else String a (String b (String c (escape html r3)))
                else
                match r3 with
                | String d r4 =>
                    if utf8_4 a b c d then
                      String a (String b (String c (String d (escape html r4))))
                    else ufffd (escape html r)
                | EmptyString => ufffd (escape html r)
                end
            | EmptyString => ufffd (escape html r)
            end
        | EmptyString => ufffd (escape html r)
        end
  end.

Definition quote_to (html : bool) (s : string) (r : string) : string :=
  String "034" (escape html s +:+ String "034" r).

(** The members of an object of strings, in the order given. *)
Fixpoint members_to (html : bool) (kvs : list (string * string)) (r : string) : string :=
  match kvs with
  | [] => r
  | [(k, v)] => quote_to html k (String ":" (quote_to html v r))
  | (k, v) :: kvs => quote_to html k (String ":" (quote_to html v (String "," (members_to html kvs r))))
  end.

(** A struct whose fields are strings, in declaration order. *)
Definition encode_object (html : bool) (kvs : list (string * string)) : string :=
  String "{" (members_to html kvs "}").

(** ** Round trips *)

(** Valid UTF-8, rune by rune. *)
Inductive utf8 : string → Prop :=
| utf8_nil : utf8 EmptyString
| utf8_one a r : code a < 128 → utf8 r → utf8 (String a r)
| utf8_two a b r : utf8_2 a b = true → utf8 r → utf8 (String a (String b r))
| utf8_three a b c r :
    utf8_3 a b c = true → utf8 r → utf8 (String a (String b (String c r)))
| utf8_four a b c d r :
    utf8_4 a b c d = true → utf8 r → utf8 (String a (String b (String c (String d r)))).
#[export] Hint Constructors utf8 : interchange.

Lemma utf8_ascii s : all_bytes (λ c, code c <? 128) s = true → utf8 s.
Proof.
  induction s as [|c s IH]; simpl; [constructor|].
  intros [Hc Hs]%andb_true_iff. apply Z.ltb_lt in Hc. constructor; auto.
Qed.

Lemma in_range_spec lo hi c : in_range lo hi c = true ↔ lo <= code c <= hi.
Proof. unfold in_range. rewrite andb_true_iff, !Z.leb_le. done. Qed.

Lemma utf8_2_bytes a b : utf8_2 a b = true → 194 <= code a <= 223 ∧ 128 <= code b <= 191.
Proof. unfold utf8_2, cont. rewrite andb_true_iff, !in_range_spec. done. Qed.

Lemma utf8_3_bytes a b c :
  utf8_3 a b c = true → 224 <= code a <= 239 ∧ 128 <= code b <= 191 ∧ 128 <= code c <= 191.
Proof.
  unfold utf8_3, cont. rewrite !andb_true_iff, !orb_true_iff, !andb_true_iff, !orb_true_iff, !in_range_spec.
  lia.
Qed.

Lemma utf8_4_bytes a b c d :
  utf8_4 a b c d = true →
  240 <= code a <= 244 ∧ 128 <= code b <= 191 ∧ 128 <= code c <= 191 ∧ 128 <= code d <= 191.
Proof.
  unfold utf8_4, cont. rewrite !andb_true_iff, !orb_true_iff, !andb_true_iff, !in_range_spec.
  lia.
Qed.

Lemma eqb_code a b : code a ≠ code b → Ascii.eqb a b = false.
Proof. intros H. apply Ascii.eqb_neq. by intros ->. Qed.

Lemma utf8_2_not3 a b : 224 <= code a → utf8_2 a b = false.
Proof.
  intros. destruct (utf8_2 a b) eqn:E; [|done]. apply utf8_2_bytes in E. lia.
Qed.

Lemma utf8_3_not4 a b c : 240 <= code a → utf8_3 a b c = false.
Proof.
  intros. destruct (utf8_3 a b c) eqn:E; [|done]. apply utf8_3_bytes in E. lia.
Qed.

(** [w] is read by the scanner inside a string as part of that string. *)
Definition body (w : string) : Prop :=
  ∀ raw st rest, run (MInString raw, st) (w +:+ rest) = run (MInString (raw +:+ w), st) rest.

Lemma body_nil : body "".
Proof. intros raw st rest. by rewrite app_nil_r_s. Qed.

Lemma body_app w1 w2 : body w1 → body w2 → body (w1 +:+ w2).
Proof. intros H1 H2 raw st rest. by rewrite app_assoc_s, H1, H2, app_assoc_s. Qed.

Lemma body_high a : 128 <= code a → body (String a "").
Proof.
  intros H raw st rest. rewrite app_cons_s. cbn [run step].
  rewrite (eqb_code a "034") by (change (code "034") with 34; lia).
  rewrite (eqb_code a "\") by (change (code "\") with 92; lia).
  rewrite (proj2 (Z.ltb_ge _ _)) by lia. done.
Qed.

Lemma body_cons a w : body (String a "") → body w → body (String a w).
Proof. intros Ha Hw. exact (body_app (String a "") w Ha Hw). Qed.

(** Evaluate the byte tests on literal characters. *)
Ltac byte_tests :=
  repeat match goal with
  | |- context [escape_ascii ?h ?a EmptyString] =>
      let v := eval vm_compute in (escape_ascii h a EmptyString) in
      change (escape_ascii h a EmptyString) with v
  | |- context [code (Ascii.Ascii ?b0 ?b1 ?b2 ?b3 ?b4 ?b5 ?b6 ?b7) <? ?n] =>
      let t := constr:(code (Ascii.Ascii b0 b1 b2 b3 b4 b5 b6 b7) <? n) in
      let v := eval vm_compute in t in change t with v
  | |- context [hex_val (Ascii.Ascii ?b0 ?b1 ?b2 ?b3 ?b4 ?b5 ?b6 ?b7)] =>
      let t := constr:(hex_val (Ascii.Ascii b0 b1 b2 b3 b4 b5 b6 b7)) in
      let v := eval vm_compute in t in change t with v
  end.

Ltac run_literal :=
  byte_tests; rewrite !app_cons_s; do 8 (cbn -[String.append code hex_val]; byte_tests);
  unfold snoc; rewrite ?app_assoc_s; reflexivity.

Lemma body_u2028 : body "\u2028".
Proof. intros raw st rest. run_literal. Qed.

Lemma body_u2029 : body "\u2029".
Proof. intros raw st rest. run_literal. Qed.

Lemma body_escape_ascii html a : code a < 128 → body (escape_ascii html a "").
Proof.
  intros H raw st rest.
  destruct html, a as [[] [] [] [] [] [] [] []]; try (exfalso; vm_compute in H; discriminate);
    run_literal.
Qed.

Lemma escape_ascii_app html a r : escape_ascii html a r = escape_ascii html a "" +:+ r.
Proof. unfold escape_ascii, u00. case_goal; rewrite ?app_cons_s, ?app_nil_l_s; reflexivity. Qed.

Lemma lower_hex_high n : 0 <= n <= 15 → 48 <= code (lower_hex n) <= 102.
Proof. intros. unfold lower_hex. destruct (n <? 10) eqn:?; bool_prop; rewrite code_chr; lia. Qed.

Ltac body_bytes := repeat (apply body_cons; [apply body_high; lia|]); assumption.

(** What [escape] writes stays inside the string. *)
Lemma body_escape html s : utf8 s → body (escape html s).
Proof.
  induction 1 as [|a r Ha _ IH|a b r Hab _ IH|a b c r Habc _ IH|a b c d r Habcd _ IH]; simpl.
  - apply body_nil.
  - rewrite (proj2 (Z.ltb_lt _ _) Ha), escape_ascii_app.
    apply body_app; [by apply body_escape_ascii|done].
  - pose proof (utf8_2_bytes _ _ Hab). rewrite (proj2 (Z.ltb_ge _ _)) by lia. rewrite Hab.
    body_bytes.
  - pose proof (utf8_3_bytes _ _ _ Habc). rewrite (proj2 (Z.ltb_ge _ _)) by lia.
    rewrite utf8_2_not3, Habc by lia.
    destruct ((code a =? 226) && (code b =? 128) && ((code c =? 168) || (code c =? 169))) eqn:E.
    + bool_prop. rewrite !orb_true_iff, !Z.eqb_eq in *.
      match goal with H : _ ∨ _ |- _ => destruct H as [->| ->] end.
      * apply (body_app "\u2028"); [apply body_u2028|done].
      * apply (body_app "\u2029"); [apply body_u2029|done].
    + body_bytes.
  - pose proof (utf8_4_bytes _ _ _ _ Habcd). rewrite (proj2 (Z.ltb_ge _ _)) by lia.
    rewrite utf8_2_not3, utf8_3_not4, Habcd by lia.
    body_bytes.
Qed.

Lemma unquote_simple e w :
  Ascii.eqb e "u" = false → unquote (String "\" (String e w)) = String (unescape e) (unquote w).
Proof. intros H. cbn [unquote]. by rewrite Ascii.eqb_refl, H. Qed.

Lemma unquote_plain a w :
  Ascii.eqb a "\" = false → code a < 128 → unquote (String a w) = String a (unquote w).
Proof. intros H Ha. cbn [unquote]. by rewrite H, (proj2 (Z.ltb_lt _ _) Ha). Qed.

Lemma hex_val_lower n : 0 <= n <= 15 → hex_val (lower_hex n) = Some n.
Proof.
  intros H. unfold hex_val, lower_hex.
  destruct (n <? 10) eqn:?; bool_prop; rewrite code_chr by lia; case_goal; bool_prop; f_equal; lia.
Qed.

Lemma unquote_u00 n w : 0 <= n < 128 → unquote (u00 n w) = String (chr n) (unquote w).
Proof.
  intros H. unfold u00. cbn [unquote]. rewrite !Ascii.eqb_refl. unfold hex4.
  rewrite !hex_val_lower by (Z.to_euclidean_division_equations; lia).
  change (hex_val "0") with (Some 0). cbn [default from_option id].
  replace (0 * 4096 + 0 * 256 + n / 16 * 16 + n mod 16) with n
    by (Z.to_euclidean_division_equations; lia).
  unfold is_high, is_low, encode_rune.
  rewrite (proj2 (Z.leb_gt 55296 n)), (proj2 (Z.leb_gt 56320 n)), (proj2 (Z.ltb_lt n 128)) by lia.
  done.
Qed.

Lemma unquote_escape_ascii html a w :
  code a < 128 → unquote (escape_ascii html a w) = String a (unquote w).
Proof.
  intros H. pose proof (code_range a). unfold escape_ascii.
  repeat match goal with
  | |- context [if ?b then _ else _] => destruct b eqn:?
  end;
    repeat match goal with
    | H : (_ || _) = true |- _ => apply orb_true_iff in H
    | H : (_ || _) = false |- _ => apply orb_false_iff in H as [? ?]
    | H : _ ∨ _ |- _ => destruct H
    | H : Ascii.eqb a _ = true |- _ => apply Ascii.eqb_eq in H; subst a
    end;
    first [ by rewrite unquote_simple | by rewrite unquote_plain
          | rewrite unquote_u00 by lia; by rewrite chr_code ].
Qed.

Lemma unquote_byte (a : ascii) : 128 <= code a → Ascii.eqb a "\" = false ∧ (code a <? 128) = false.
Proof.
  intros. split; [|apply Z.ltb_ge; lia]. apply eqb_code. change (code "\") with 92. lia.
Qed.

Lemma unquote_two a b r :
  utf8_2 a b = true → unquote (String a (String b r)) = String a (String b (unquote r)).
Proof.
  intros H. pose proof (utf8_2_bytes _ _ H).
  destruct (unquote_byte a ltac:(lia)) as [E1 E2]. simpl. by rewrite E1, E2, H.
Qed.

Lemma unquote_three a b c r :
  utf8_3 a b c = true →
  unquote (String a (String b (String c r))) = String a (String b (String c (unquote r))).
Proof.
  intros H. pose proof (utf8_3_bytes _ _ _ H).
  destruct (unquote_byte a ltac:(lia)) as [E1 E2]. simpl.
  by rewrite E1, E2, utf8_2_not3, H by lia.
Qed.

Lemma unquote_four a b c d r :
  utf8_4 a b c d = true →
  unquote (String a (String b (String c (String d r)))) =
  String a (String b (String c (String d (unquote r)))).
Proof.
  intros H. pose proof (utf8_4_bytes _ _ _ _ H).
  destruct (unquote_byte a ltac:(lia)) as [E1 E2]. simpl.
  by rewrite E1, E2, utf8_2_not3, utf8_3_not4, H by lia.
Qed.

(** Unquoting what was escaped gives the string back. *)
Lemma unquote_escape html s : utf8 s → unquote (escape html s) = s.
Proof.
  induction 1 as [|a r Ha _ IH|a b r Hab _ IH|a b c r Habc _ IH|a b c d r Habcd _ IH];
    cbn [escape].
  - done.
  - by rewrite (proj2 (Z.ltb_lt _ _) Ha), unquote_escape_ascii, IH.
  - pose proof (utf8_2_bytes _ _ Hab). rewrite (proj2 (Z.ltb_ge _ _)) by lia.
    by rewrite Hab, unquote_two, IH.
  - pose proof (utf8_3_bytes _ _ _ Habc). rewrite (proj2 (Z.ltb_ge _ _)) by lia.
    rewrite utf8_2_not3, Habc by lia.
    destruct ((code a =? 226) && (code b =? 128) && ((code c =? 168) || (code c =? 169))) eqn:E.
    + bool_prop. rewrite !orb_true_iff, !Z.eqb_eq in *.
      assert (a = chr 226) as -> by (apply code_inj; rewrite code_chr; lia).
      assert (b = chr 128) as -> by (apply code_inj; rewrite code_chr; lia).
      assert (c = chr 168 ∨ c = chr 169) as [-> | ->]
        by (match goal with H : _ ∨ _ |- _ => destruct H; [left|right] end;
            apply code_inj; rewrite code_chr; lia);
        rewrite <- IH at 2; reflexivity.
    + by rewrite unquote_three, IH.
  - pose proof (utf8_4_bytes _ _ _ _ Habcd). rewrite (proj2 (Z.ltb_ge _ _)) by lia.
    rewrite utf8_2_not3, utf8_3_not4, Habcd by lia. by rewrite unquote_four, IH.
Qed.

(** Reading a quoted string as a value, and as a key. *)
Lemma run_quoted_value html s st r :
  utf8 s → (∀ acc, head st ≠ Some (FKey acc)) →
  run (MBeginValue, st) (quote_to html s r) = run (MEndValue (JStr s), st) r.
Proof.
  intros Hs Hst. unfold quote_to. cbn [run step is_space begin_value Ascii.eqb Bool.eqb mbind option_bind].
  pose proof (body_escape html s Hs EmptyString st (String "034" r)) as B.
  rewrite app_nil_l_s in B. etransitivity; [exact B|].
  cbn [run step Ascii.eqb Bool.eqb]. rewrite unquote_escape by done.
  destruct st as [|[| |] st]; simpl; try done. exfalso. by eapply Hst.
Qed.

Lemma run_quoted_key html k m acc st r :
  utf8 k → m = MBeginString ∨ m = MBeginStringOrEmpty →
  run (m, FKey acc :: st) (quote_to html k (String ":" r)) = run (MBeginValue, FVal acc k :: st) r.
Proof.
  intros Hk Hm. unfold quote_to.
  assert (step (m, FKey acc :: st) "034" = Some (MInString EmptyString, FKey acc :: st)) as E
    by (destruct Hm as [-> | ->]; reflexivity).
  cbn [run]. rewrite E. cbn [mbind option_bind].
  pose proof (body_escape html k Hk EmptyString (FKey acc :: st) (String "034" (String ":" r))) as B.
  rewrite app_nil_l_s in B. etransitivity; [exact B|].
  cbn [run step Ascii.eqb Bool.eqb]. rewrite unquote_escape by done. reflexivity.
Qed.

Definition str_member (kv : string * string) : string * json := (fst kv, JStr (snd kv)).

Lemma run_members html kvs m acc st r :
  kvs ≠ [] → Forall (λ kv, utf8 (fst kv) ∧ utf8 (snd kv)) kvs →
  m = MBeginString ∨ m = MBeginStringOrEmpty →
  run (m, FKey acc :: st) (members_to html kvs (String "}" r)) =
  run (MEndValue (JObj (rev acc ++ map str_member kvs)), st) r.
Proof.
  intros Hne H. revert m acc Hne. induction H as [|[k v] kvs [Hk Hv] H IH]; intros m acc Hne Hm; [done|].
  simpl in Hk, Hv. destruct kvs as [|kv kvs].
  - cbn [members_to]. rewrite run_quoted_key, run_quoted_value by (done || (intros ? [=])).
    cbn. unfold rev at 1. fold (@rev (string * json)). done.
  - change (members_to html ((k, v) :: kv :: kvs) (String "}" r)) with
      (quote_to html k (String ":" (quote_to html v (String "," (members_to html (kv :: kvs) (String "}" r)))))).
    rewrite run_quoted_key, run_quoted_value by (done || (intros ? [=])).
    cbn [run step end_value is_space Ascii.eqb Bool.eqb orb mbind option_bind].
    rewrite IH by (done || by left). cbn [map rev]. by rewrite <- app_assoc.
Qed.

(** The text the encoder writes for a struct of strings parses to its members. *)
Lemma Parse_encode_object html kvs :
  Forall (λ kv, utf8 (fst kv) ∧ utf8 (snd kv)) kvs →
  Parse (encode_object html kvs) = Some (JObj (map str_member kvs)).
Proof.
  intros H. unfold Parse, encode_object.
  destruct kvs as [|kv kvs]; [reflexivity|].
  pose proof (run_members html (kv :: kvs) MBeginStringOrEmpty [] [] EmptyString ltac:(done) H
                ltac:(by right)) as R.
  cbn [run step is_space begin_value Ascii.eqb Bool.eqb orb mbind option_bind].
  change (push (FKey []) MBeginStringOrEmpty []) with (Some (MBeginStringOrEmpty, [FKey []])).
  cbn [mbind option_bind]. rewrite R. reflexivity.
Qed.
