(* ===== verification/Http.v ===== *)
(** * net/http and net/url

    Requests and responses as the handlers see them: the parsed path, the raw
    query, canonical headers, and a body whose reader may fail.  JSON responses
    keep the Go value handed to the encoder. *)

From Stdlib Require Import Floats.SpecFloat.
From S2P Require Import Prelude GoStrings.

Local Open Scope Z_scope.

(** ** Headers *)

(** [http.Header]: canonical key to values.  The server canonicalises the keys
    of a request when it reads them. *)
Abbreviation Headers := (gmap string (list string)).

Definition between (lo hi : Z) (c : ascii) : bool := (lo <=? code c) && (code c <=? hi).
Definition is_lower : ascii → bool := between 97 122.
Definition is_upper : ascii → bool := between 65 90.

(** [validHeaderFieldByte]: the token characters of RFC 7230. *)
Definition token_byte (c : ascii) : bool :=
  is_lower c || is_upper c || between 48 57 c ||
  existsb (Ascii.eqb c)
    ["!"; "#"; "$"; "%"; "&"; "'"; "*"; "+"; "-"; "."; "^"; "_"; "`"; "|"; "~"]%char.

Fixpoint canon_go (upper : bool) (s : string) : string :=
  match s with
  | EmptyString => EmptyString
  | String c s =>
      let c' := if upper && is_lower c then chr (code c - 32)
                else if negb upper && is_upper c then chr (code c + 32) else c in
      String c' (canon_go (Ascii.eqb c' "-") s)
  end.

(** [textproto.CanonicalMIMEHeaderKey] *)
Definition CanonicalHeaderKey (s : string) : string :=
  if all_bytes token_byte s then canon_go true s else s.

Definition HeaderGet (h : Headers) (k : string) : string :=
  match h !! CanonicalHeaderKey k with
  | Some (v :: _) => v
  | _ => ""
  end.

Definition HeaderDel (h : Headers) (k : string) : Headers := delete (CanonicalHeaderKey k) h.

Definition HeaderSet (h : Headers) (k v : string) : Headers := <[CanonicalHeaderKey k := [v]]> h.

(** ** Requests *)

Record Request : Type := MkRequest {
  Method : string;
  Path : string;          (* r.URL.Path *)
  RawQuery : string;      (* r.URL.RawQuery *)
  Header : Headers;
  BodyData : string;      (* what the body's reader delivers ... *)
  BodyErr : bool          (* ... and whether it then fails instead of ending *)
}.

Definition MethodGet := "GET"%string.
Definition MethodPost := "POST"%string.
Definition MethodPut := "PUT"%string.

(** [io.ReadAll(io.LimitReader(r.Body, n))]: at the limit the reader is not
    asked again, so a later failure is not seen. *)
Definition ReadAllLimited (r : Request) (n : Z) : option string :=
  if n <=? len (BodyData r) then Some (take_bytes (Z.to_nat n) (BodyData r))
  else if BodyErr r then None else Some (BodyData r).

Lemma ReadAllLimited_short r n :
  len (BodyData r) < n → BodyErr r = false → ReadAllLimited r n = Some (BodyData r).
Proof.
  intros H E. unfold ReadAllLimited. rewrite (proj2 (Z.leb_gt _ _)) by lia. by rewrite E.
Qed.

(** ** Query strings *)

Definition hex_nibble (c : ascii) : option Z :=
  if between 48 57 c then Some (code c - 48)
  else if between 97 102 c then Some (code c - 87)
  else if between 65 70 c then Some (code c - 55)
  else None.

(** [url.QueryUnescape] *)
Fixpoint QueryUnescape (s : string) : option string :=
  match s with
  | EmptyString => Some EmptyString
  | String c r =>
      if Ascii.eqb c "%" then
        match r with
        | String a (String b r) =>
            va ← hex_nibble a; vb ← hex_nibble b;
            rest ← QueryUnescape r;
            Some (String (chr (va * 16 + vb)) rest)
        | _ => None
        end
      else
        rest ← QueryUnescape r;
        Some (String (if Ascii.eqb c "+" then " "%char else c) rest)
  end.

(** One [key=value] part of a query; a part with a semicolon is dropped. *)
Definition query_part (part : string) : option (string * string) :=
  if negb (no_byte ";" part) || String.eqb part "" then None
  else
    let '(k, v) := match CutByte part "=" with Some kv => kv | None => (part, ""%string) end in
    k ← QueryUnescape k; v ← QueryUnescape v; Some (k, v).

Definition ParseQuery (q : string) : list (string * string) := omap query_part (Split q "&").

(** [r.URL.Query().Get(key)] *)
Definition QueryGet (r : Request) (key : string) : string :=
  match find (λ kv, String.eqb (fst kv) key) (ParseQuery (RawQuery r)) with
  | Some kv => snd kv
  | None => ""
  end.

(** ** Responses *)

#[local] Set Warnings "-register-all".

(** The Go values the program encodes. *)
Inductive gojson : Type :=
| GStr (s : string)
| GBool (b : bool)
| GInt (n : Z)
| GFloat (x : spec_float)
| GNull
| GRaw (s : string)                       (* json.RawMessage *)
| GList (vs : list gojson)
| GStruct (fields : list (string * gojson))  (* in declaration order *)
| GMap (kvs : list (string * gojson)).        (* the encoder sorts the keys *)

Inductive Body : Type :=
| BText (s : string)
| BJson (v : gojson).

Record Response : Type := MkResponse {
  Status : Z;
  RespHeader : list (string * string);
  RespBody : Body
}.

Definition StatusOK := 200.
Definition StatusCreated := 201.
Definition StatusAccepted := 202.
Definition StatusBadRequest := 400.
Definition StatusUnauthorized := 401.
Definition StatusForbidden := 403.
Definition StatusNotFound := 404.
Definition StatusMethodNotAllowed := 405.
Definition StatusConflict := 409.
Definition StatusTooManyRequests := 429.
Definition StatusInternalServerError := 500.

(** [http.Error], after the headers [hs] were set. *)
Definition HttpErrorWith (hs : list (string * string)) (msg : string) (status : Z) : Response :=
  MkResponse status
    (hs ++ [("Content-Type", "text/plain; charset=utf-8"); ("X-Content-Type-Options", "nosniff")]%string)
    (BText (msg +:+ String "010" "")).

Definition HttpError : string → Z → Response := HttpErrorWith [].

Definition HttpNotFound : Response := HttpError "404 page not found" StatusNotFound.
