(* ===== verification/Storage.v ===== *)
(** * Storage contract

    The data types of internal/storage/storage.go, the effects a request handler
    performs (SQL statements, clock readings, request ids), programs over these
    effects, and the [Storage] interface the handlers are written against. *)

From S2P Require Import Prelude GoStrings GoTime.

Local Open Scope Z_scope.

(** ** Data types *)

Definition Direction := string.
Definition AToB : Direction := "A_to_B".
Definition BToA : Direction := "B_to_A".

Definition PairRequestStatus := string.
Definition StatusPending : PairRequestStatus := "pending".
Definition StatusApproved : PairRequestStatus := "approved".
Definition StatusDenied : PairRequestStatus := "denied".
Definition StatusExpired : PairRequestStatus := "expired".

Record Envelope : Type := MkEnvelope {
  e_MsgID : string;
  e_PathID : string;
  e_Direction : Direction;
  e_ReceivedAt : Time;
  e_Ciphertext : string;
  e_Signature : string;
  e_OuterJSON : string
}.

Record PairRequest : Type := MkPairRequest {
  r_RequestID : string;
  r_Status : PairRequestStatus;
  r_CreatedAt : Time;
  r_ExpiresAt : Time;
  r_PathID : string;
  r_RequesterJSON : string;
  r_OwnerJSON : string;
  r_TargetNexusID : string
}.

Record Pair : Type := MkPair {
  p_PathID : string;
  p_RequesterID : string;
  p_RequesterPubkey : string;
  p_RequesterDHPubkey : string;
  p_OwnerID : string;
  p_OwnerPubkey : string;
  p_OwnerDHPubkey : string;
  p_SigAlg : string;
  p_DhAlg : string;
  p_ActivatedAt : Time
}.

(** ** Rows of the three tables

    The columns of [schemaSQL] without the primary key, which indexes the
    table.  TEXT columns hold strings, nullable ones options. *)

Record EnvelopeRow : Type := MkEnvelopeRow {
  er_path_id : string;
  er_direction : string;
  er_received_at : string;
  er_ciphertext : string;
  er_signature : string;
  er_outer_json : string
}.

Record RequestRow : Type := MkRequestRow {
  rr_status : string;
  rr_created_at : string;
  rr_expires_at : string;
  rr_path_id : option string;
  rr_requester_json : string;
  rr_owner_json : option string;
  rr_target_nexus_id : string
}.

Record PairRow : Type := MkPairRow {
  pr_requester_id : string;
  pr_requester_pubkey : string;
  pr_requester_dh_pubkey : string;
  pr_owner_id : string;
  pr_owner_pubkey : string;
  pr_owner_dh_pubkey : string;
  pr_sig_alg : string;
  pr_dh_alg : string;
  pr_activated_at : string
}.

#[export] Instance envelope_row_dec : EqDecision EnvelopeRow.
Proof. solve_decision. Defined.
#[export] Instance request_row_dec : EqDecision RequestRow.
Proof. solve_decision. Defined.
#[export] Instance pair_row_dec : EqDecision PairRow.
Proof. solve_decision. Defined.

(** ** Effects

    Each SQL statement is one atomic step; so is a clock reading and the minting
    of a request id.  A statement answers with the driver's error text or with
    its result. *)
Abbreviation sqlres X := (string + X)%type.

Inductive Stmt : Type → Type :=
| Now : Stmt Time
| GenID : Stmt string
| SqlInsertEnvelope (msg_id : string) (row : EnvelopeRow) : Stmt (sqlres unit)
| SqlSelectEnvelopes (path_id direction since : string) (limit : nat) :
    Stmt (sqlres (list (string * EnvelopeRow)))
| SqlDeleteEnvelopes (path_id : string) (ids : list string) : Stmt (sqlres Z)
| SqlDeleteOlder (cutoff : string) : Stmt (sqlres Z)
| SqlInsertRequest (request_id : string) (row : RequestRow) : Stmt (sqlres unit)
| SqlSelectRequest (request_id : string) : Stmt (sqlres (option RequestRow))
| SqlSelectByStatus (status : string) : Stmt (sqlres (list (string * RequestRow)))
| SqlUpdateStatus (to : string) (owner path : option string) (request_id from : string) :
    Stmt (sqlres Z)
| SqlExpire (to from cutoff : string) : Stmt (sqlres Z)
| SqlInsertPair (path_id : string) (row : PairRow) : Stmt (sqlres unit)
| SqlSelectPair (path_id : string) : Stmt (sqlres (option PairRow)).

(** ** Programs *)

Inductive Prog (A : Type) : Type :=
| Ret (a : A)
| Vis {X : Type} (s : Stmt X) (k : X → Prog A).
Arguments Ret {A} a.
Arguments Vis {A X} s k.

Fixpoint bind {A B : Type} (p : Prog A) (f : A → Prog B) : Prog B :=
  match p with
  | Ret a => f a
  | Vis s k => Vis s (λ x, bind (k x) f)
  end.

Definition call {X : Type} (s : Stmt X) : Prog X := Vis s Ret.

Declare Scope prog_scope.
Delimit Scope prog_scope with prog.
Notation "'let!' x := p 'in' q" := (bind p (λ x, q))
  (at level 10, x pattern, p at level 100, q at level 200) : prog_scope.
Open Scope prog_scope.

(** ** The interface of the handlers *)

Class Storage : Type := {
  InsertEnvelope : Envelope → Prog (option error);
  ListEnvelopes : string → Direction → string → Prog (result (list Envelope));
  DeleteEnvelopesByMsgID : string → list string → Prog (result Z);
  DeleteEnvelopesOlderThan : Time → Prog (result Z);
  InsertPairRequest : PairRequest → Prog (option error);
  GetPairRequest : string → Prog (result PairRequest);
  ListPendingPairRequests : Prog (result (list PairRequest));
  UpdatePairRequestStatus : string → PairRequestStatus → string → string → Prog (option error);
  ExpirePendingRequests : Time → Prog (result Z);
  InsertPair : Pair → Prog (option error);
  GetPair : string → Prog (result Pair)
}.
