(* ===== verification/Sql.v ===== *)
(** * The database

    The effect of every SQL statement of internal/storage/sqlite.go on the three
    tables, the world a program runs in (tables, clock, id source, driver
    faults), and the execution of a program alone ([run]).  [Sched] interleaves
    programs statement by statement.

    A table is a finite map from its primary key to the other columns.  SQLite
    compares TEXT bytewise (BINARY collation), which is Go's string order. *)

From S2P Require Import Prelude GoStrings GoTime Storage.

Local Open Scope Z_scope.

Record DB : Type := MkDB {
  envelopes : gmap string EnvelopeRow;
  pair_requests : gmap string RequestRow;
  pairs : gmap string PairRow
}.

Definition empty_db : DB := MkDB ∅ ∅ ∅.

Definition set_envelopes (t : gmap string EnvelopeRow) (d : DB) : DB :=
  MkDB t (pair_requests d) (pairs d).
Definition set_requests (t : gmap string RequestRow) (d : DB) : DB :=
  MkDB (envelopes d) t (pairs d).
Definition set_pairs (t : gmap string PairRow) (d : DB) : DB :=
  MkDB (envelopes d) (pair_requests d) t.

(** The order of [ORDER BY] results: by a TEXT key, ties by primary key (SQL
    leaves ties open; the choice makes the result a function of the table). *)
Definition row_le {A} (key : string * A → string) (a b : string * A) : Prop :=
  str_ltb (key a) (key b) = true ∨ key a = key b ∧ String.le (fst a) (fst b).

#[export] Instance row_le_dec {A} (key : string * A → string) : RelDecision (row_le key).
Proof. unfold RelDecision, row_le. apply _. Defined.

#[export] Instance row_le_total {A} (key : string * A → string) : Total (row_le key).
Proof.
  intros a b. unfold row_le. destruct (str_ltb (key a) (key b)) eqn:E1; [by left; left|].
  destruct (str_ltb (key b) (key a)) eqn:E2; [by right; left|].
  apply str_ltb_false in E1, E2.
  assert (E : key a = key b) by (by apply (anti_symm String.le)).
  destruct (total String.le (fst a) (fst b)); [left|right]; right; auto.
Qed.

#[export] Instance row_le_trans {A} (key : string * A → string) : Transitive (row_le key).
Proof.
  intros a b c [H1|[E1 H1]] [H2|[E2 H2]]; unfold row_le.
  - left. by eapply str_ltb_trans.
  - left. by rewrite <- E2.
  - left. by rewrite E1.
  - right. split; [congruence|]. by etransitivity.
Qed.

Lemma row_le_anti {A} (key : string * A → string) (a b : string * A) :
  row_le key a b → row_le key b a → fst a = fst b.
Proof.
  intros [H1|[E1 H1]] [H2|[E2 H2]].
  - pose proof (str_ltb_trans _ _ _ H1 H2) as H. by rewrite str_ltb_irrefl in H.
  - rewrite E2, str_ltb_irrefl in H1. done.
  - rewrite E1, str_ltb_irrefl in H2. done.
  - by apply (anti_symm String.le).
Qed.

Definition sort_by {A} (key : string * A → string) (l : list (string * A)) : list (string * A) :=
  merge_sort (row_le key) l.

(** *** SELECT *)

Definition envelope_selected (path_id direction since : string) (e : string * EnvelopeRow) : Prop :=
  er_path_id (snd e) = path_id ∧ er_direction (snd e) = direction ∧ str_ltb since (fst e) = true.

#[export] Instance envelope_selected_dec p d s e : Decision (envelope_selected p d s e).
Proof. unfold envelope_selected. apply _. Defined.

(** [WHERE path_id = ? AND direction = ? AND msg_id > ? ORDER BY msg_id ASC LIMIT ?] *)
Definition select_envelopes (path_id direction since : string) (limit : nat) (d : DB) :
    list (string * EnvelopeRow) :=
  firstn limit (sort_by fst (filter (envelope_selected path_id direction since)
    (map_to_list (envelopes d)))).

(** [WHERE status = ? ORDER BY created_at ASC] *)
Definition select_by_status (status : string) (d : DB) : list (string * RequestRow) :=
  sort_by (λ r, rr_created_at (snd r))
    (filter (λ r, rr_status (snd r) = status) (map_to_list (pair_requests d))).

(** *** DELETE and UPDATE: the new table and the rows affected *)

Definition delete_envelopes (path_id : string) (ids : list string) (d : DB) : Z * DB :=
  let gone (e : string * EnvelopeRow) := er_path_id (snd e) = path_id ∧ fst e ∈ ids in
  (Z.of_nat (size (filter gone (envelopes d))),
   set_envelopes (filter (λ e, ¬ gone e) (envelopes d)) d).

Definition delete_older (cutoff : string) (d : DB) : Z * DB :=
  let gone (e : string * EnvelopeRow) := str_ltb (er_received_at (snd e)) cutoff = true in
  (Z.of_nat (size (filter gone (envelopes d))),
   set_envelopes (filter (λ e, ¬ gone e) (envelopes d)) d).

(** [COALESCE(new, old)] *)
Definition coalesce (new old : option string) : option string :=
  match new with Some _ => new | None => old end.

Definition with_status (to : string) (owner path : option string) (r : RequestRow) : RequestRow :=
  MkRequestRow to (rr_created_at r) (rr_expires_at r) (coalesce path (rr_path_id r))
    (rr_requester_json r) (coalesce owner (rr_owner_json r)) (rr_target_nexus_id r).

Definition update_status (to : string) (owner path : option string) (request_id from : string)
    (d : DB) : Z * DB :=
  match pair_requests d !! request_id with
  | Some r =>
      if decide (rr_status r = from)
      then (1, set_requests (<[request_id := with_status to owner path r]> (pair_requests d)) d)
      else (0, d)
  | None => (0, d)
  end.

Definition expires (from cutoff : string) (r : RequestRow) : Prop :=
  rr_status r = from ∧ str_ltb (rr_expires_at r) cutoff = true.

#[export] Instance expires_dec f c r : Decision (expires f c r).
Proof. unfold expires. apply _. Defined.

Definition expire_row (to from cutoff : string) (r : RequestRow) : RequestRow :=
  if decide (expires from cutoff r) then with_status to None None r else r.

Definition expire (to from cutoff : string) (d : DB) : Z * DB :=
  (Z.of_nat (size (filter (λ r, expires from cutoff (snd r)) (pair_requests d))),
   set_requests (expire_row to from cutoff <$> pair_requests d) d).

(** ** Worlds *)

(** What the environment answers, by the index of the question: the n-th clock
    reading, the n-th minted id, the fault of the n-th statement (a driver error:
    a cancelled context, a full disk), the driver's text for a UNIQUE violation. *)
Record Env : Type := MkEnv {
  env_clock : nat → Time;
  env_id : nat → string;
  env_fault : nat → option string;
  env_unique : string → string
}.

Record World : Type := MkWorld {
  w_db : DB;
  w_ticks : nat;
  w_ids : nat;
  w_stmts : nat
}.

Definition set_db (d : DB) (w : World) : World := MkWorld d (w_ticks w) (w_ids w) (w_stmts w).
Definition next_tick (w : World) : World := MkWorld (w_db w) (S (w_ticks w)) (w_ids w) (w_stmts w).
Definition next_id (w : World) : World := MkWorld (w_db w) (w_ticks w) (S (w_ids w)) (w_stmts w).
Definition next_stmt (w : World) : World := MkWorld (w_db w) (w_ticks w) (w_ids w) (S (w_stmts w)).

(** A statement the driver fails leaves the tables as they are. *)
Definition sql {X} (e : Env) (w : World) (f : DB → sqlres X * DB) : sqlres X * World :=
  match env_fault e (w_stmts w) with
  | Some msg => (inl msg, next_stmt w)
  | None => let '(x, d) := f (w_db w) in (x, set_db d (next_stmt w))
  end.

Definition insert_row {R} (e : Env) (column : string) (key : string) (t : gmap string R)
    (put : gmap string R → DB) (row : R) (d : DB) : sqlres unit * DB :=
  match t !! key with
  | Some _ => (inl (env_unique e column), d)
  | None => (inr tt, put (<[key := row]> t))
  end.

Definition exec {X} (e : Env) (s : Stmt X) : World → X * World :=
  match s in Stmt X return World → X * World with
  | Now => λ w, (env_clock e (w_ticks w), next_tick w)
  | GenID => λ w, (env_id e (w_ids w), next_id w)
  | SqlInsertEnvelope k row => λ w, sql e w (λ d,
      insert_row e "envelopes.msg_id" k (envelopes d) (λ t, set_envelopes t d) row d)
  | SqlSelectEnvelopes p dir since limit => λ w, sql e w (λ d,
      (inr (select_envelopes p dir since limit d), d))
  | SqlDeleteEnvelopes p ids => λ w, sql e w (λ d,
      let '(n, d) := delete_envelopes p ids d in (inr n, d))
  | SqlDeleteOlder cutoff => λ w, sql e w (λ d,
      let '(n, d) := delete_older cutoff d in (inr n, d))
  | SqlInsertRequest k row => λ w, sql e w (λ d,
      insert_row e "pair_requests.request_id" k (pair_requests d) (λ t, set_requests t d) row d)
  | SqlSelectRequest k => λ w, sql e w (λ d, (inr (pair_requests d !! k), d))
  | SqlSelectByStatus s => λ w, sql e w (λ d, (inr (select_by_status s d), d))
  | SqlUpdateStatus to owner path k from => λ w, sql e w (λ d,
      let '(n, d) := update_status to owner path k from d in (inr n, d))
  | SqlExpire to from cutoff => λ w, sql e w (λ d,
      let '(n, d) := expire to from cutoff d in (inr n, d))
  | SqlInsertPair k row => λ w, sql e w (λ d,
      insert_row e "pairs.path_id" k (pairs d) (λ t, set_pairs t d) row d)
  | SqlSelectPair k => λ w, sql e w (λ d, (inr (pairs d !! k), d))
  end.

(** ** Running a program alone *)

Fixpoint run {A} (e : Env) (p : Prog A) (w : World) : A * World :=
  match p with
  | Ret a => (a, w)
  | Vis s k => let '(x, w) := exec e s w in run e (k x) w
  end.

Lemma run_bind {A B} e (p : Prog A) (f : A → Prog B) w :
  run e (bind p f) w = let '(a, w) := run e p w in run e (f a) w.
Proof.
  revert w. induction p as [a|X s k IH]; intros w; simpl; [done|].
  destruct (exec e s w) as [x w']. apply IH.
Qed.

Lemma run_call {X} e (s : Stmt X) w : run e (call s) w = exec e s w.
Proof. simpl. by destruct (exec e s w). Qed.
