(* ===== verification/SQLite.v ===== *)
(** * The SQLite adapter (internal/storage/sqlite.go)

    Every method of [SQLite], as a program over the SQL statements it executes,
    and the [Storage] instance they form. *)

From S2P Require Import Prelude GoStrings GoTime Storage Sql.

Local Open Scope Z_scope.

(** ** Times as TEXT *)

Definition formatTime (t : Time) : string := FormatUTC t.

Definition parseTime (s : string) : result Time :=
  match ParseZ s with
  | Some t => Ok t
  | None =>
      match ParseRFC3339 s with
      | Some t => Ok t
      | None => Err (ErrOther ("storage: unrecognized time format: " +:+ s))
      end
  end.

(** ** Driver errors *)

Definition isUniqueViolation (msg : string) : bool :=
  Contains msg "UNIQUE constraint failed" || Contains msg "constraint failed: UNIQUE".

Definition wrap (context msg : string) : error := ErrOther (context +:+ msg).

(** The outcome of an INSERT. *)
Definition insert_result (context : string) (r : sqlres unit) : option error :=
  match r with
  | inr _ => None
  | inl msg => if isUniqueViolation msg then Some ErrDuplicate else Some (wrap context msg)
  end.

(** ** Envelopes *)

Definition sqlite_InsertEnvelope (e : Envelope) : Prog (option error) :=
  let! r := call (SqlInsertEnvelope (e_MsgID e)
    (MkEnvelopeRow (e_PathID e) (e_Direction e) (formatTime (e_ReceivedAt e))
       (e_Ciphertext e) (e_Signature e) (e_OuterJSON e))) in
  Ret (insert_result "storage: insert envelope: " r).

Definition scanEnvelope (row : string * EnvelopeRow) : result Envelope :=
  let '(msg_id, r) := row in
  match parseTime (er_received_at r) with
  | Err e => Err e
  | Ok t => Ok (MkEnvelope msg_id (er_path_id r) (er_direction r) t
                  (er_ciphertext r) (er_signature r) (er_outer_json r))
  end.

(** Rows are scanned in order; the first failure ends the method. *)
Fixpoint scan_all {R A} (scan : R → result A) (rows : list R) : result (list A) :=
  match rows with
  | [] => Ok []
  | row :: rows =>
      match scan row with
      | Err e => Err e
      | Ok a =>
          match scan_all scan rows with
          | Err e => Err e
          | Ok l => Ok (a :: l)
          end
      end
  end.

Definition listLimit : nat := 50.

Definition sqlite_ListEnvelopes (pathID : string) (dir : Direction) (sinceMsgID : string) :
    Prog (result (list Envelope)) :=
  let! rows := call (SqlSelectEnvelopes pathID dir sinceMsgID listLimit) in
  match rows with
  | inl msg => Ret (Err (wrap "storage: list envelopes: " msg))
  | inr rows => Ret (scan_all scanEnvelope rows)
  end.

Definition sqlite_DeleteEnvelopesByMsgID (pathID : string) (ids : list string) : Prog (result Z) :=
  match ids with
  | [] => Ret (Ok 0)
  | _ =>
      let! r := call (SqlDeleteEnvelopes pathID ids) in
      match r with
      | inl msg => Ret (Err (wrap "storage: delete envelopes by id: " msg))
      | inr n => Ret (Ok n)
      end
  end.

Definition sqlite_DeleteEnvelopesOlderThan (cutoff : Time) : Prog (result Z) :=
  let! r := call (SqlDeleteOlder (formatTime cutoff)) in
  match r with
  | inl msg => Ret (Err (wrap "storage: retention sweep: " msg))
  | inr n => Ret (Ok n)
  end.

(** ** Pair requests *)

(** NULL when empty. *)
Definition nullable (s : string) : option string := if String.eqb s "" then None else Some s.

Definition sqlite_InsertPairRequest (r : PairRequest) : Prog (option error) :=
  let! res := call (SqlInsertRequest (r_RequestID r)
    (MkRequestRow (r_Status r) (formatTime (r_CreatedAt r)) (formatTime (r_ExpiresAt r))
       (nullable (r_PathID r)) (r_RequesterJSON r) (nullable (r_OwnerJSON r))
       (r_TargetNexusID r))) in
  Ret (insert_result "storage: insert pair request: " res).

Definition scanPairRequest (row : string * RequestRow) : result PairRequest :=
  let '(id, r) := row in
  match parseTime (rr_created_at r) with
  | Err e => Err e
  | Ok created =>
      match parseTime (rr_expires_at r) with
      | Err e => Err e
      | Ok expires =>
          Ok (MkPairRequest id (rr_status r) created expires (default "" (rr_path_id r))
                (rr_requester_json r) (default "" (rr_owner_json r)) (rr_target_nexus_id r))
      end
  end.

Definition sqlite_GetPairRequest (requestID : string) : Prog (result PairRequest) :=
  let! r := call (SqlSelectRequest requestID) in
  match r with
  | inl msg => Ret (Err (wrap "storage: scan pair request: " msg))
  | inr None => Ret (Err ErrNotFound)
  | inr (Some row) => Ret (scanPairRequest (requestID, row))
  end.

Definition sqlite_ListPendingPairRequests : Prog (result (list PairRequest)) :=
  let! rows := call (SqlSelectByStatus StatusPending) in
  match rows with
  | inl msg => Ret (Err (wrap "storage: list pending: " msg))
  | inr rows => Ret (scan_all scanPairRequest rows)
  end.

Definition sqlite_UpdatePairRequestStatus (requestID : string) (to : PairRequestStatus)
    (ownerJSON pathID : string) : Prog (option error) :=
  let! r := call (SqlUpdateStatus to (nullable ownerJSON) (nullable pathID) requestID StatusPending) in
  match r with
  | inl msg => Ret (Some (wrap "storage: update pair status: " msg))
  | inr n =>
      if n =? 0 then
        let! r := sqlite_GetPairRequest requestID in
        match r with
        | Err lookupErr => Ret (Some lookupErr)
        | Ok r =>
            if String.eqb (r_Status r) to then Ret None
            else if negb (String.eqb (r_Status r) StatusPending) then Ret (Some ErrConflict)
            else Ret (Some (ErrOther "storage: update pair status: row exists but no rows affected"))
        end
      else Ret None
  end.

Definition sqlite_ExpirePendingRequests (cutoff : Time) : Prog (result Z) :=
  let! r := call (SqlExpire StatusExpired StatusPending (formatTime cutoff)) in
  match r with
  | inl msg => Ret (Err (wrap "storage: expire pending: " msg))
  | inr n => Ret (Ok n)
  end.

(** ** Pairs *)

Definition sqlite_InsertPair (p : Pair) : Prog (option error) :=
  let! r := call (SqlInsertPair (p_PathID p)
    (MkPairRow (p_RequesterID p) (p_RequesterPubkey p) (p_RequesterDHPubkey p)
       (p_OwnerID p) (p_OwnerPubkey p) (p_OwnerDHPubkey p) (p_SigAlg p) (p_DhAlg p)
       (formatTime (p_ActivatedAt p)))) in
  Ret (insert_result "storage: insert pair: " r).

Definition scanPair (pathID : string) (r : PairRow) : result Pair :=
  match parseTime (pr_activated_at r) with
  | Err e => Err e
  | Ok t => Ok (MkPair pathID (pr_requester_id r) (pr_requester_pubkey r) (pr_requester_dh_pubkey r)
                  (pr_owner_id r) (pr_owner_pubkey r) (pr_owner_dh_pubkey r)
                  (pr_sig_alg r) (pr_dh_alg r) t)
  end.

Definition sqlite_GetPair (pathID : string) : Prog (result Pair) :=
  let! r := call (SqlSelectPair pathID) in
  match r with
  | inl msg => Ret (Err (wrap "storage: get pair: " msg))
  | inr None => Ret (Err ErrNotFound)
  | inr (Some row) => Ret (scanPair pathID row)
  end.

(** ** The implementation of the interface *)

#[export] Instance SQLite : Storage := {
  InsertEnvelope := sqlite_InsertEnvelope;
  ListEnvelopes := sqlite_ListEnvelopes;
  DeleteEnvelopesByMsgID := sqlite_DeleteEnvelopesByMsgID;
  DeleteEnvelopesOlderThan := sqlite_DeleteEnvelopesOlderThan;
  InsertPairRequest := sqlite_InsertPairRequest;
  GetPairRequest := sqlite_GetPairRequest;
  ListPendingPairRequests := sqlite_ListPendingPairRequests;
  UpdatePairRequestStatus := sqlite_UpdatePairRequestStatus;
  ExpirePendingRequests := sqlite_ExpirePendingRequests;
  InsertPair := sqlite_InsertPair;
  GetPair := sqlite_GetPair
}.
