(* ===== verification/StoreSpec.v ===== *)
(** * The store behind Storage

    Storage without SQL: three finite maps of records with times in whole
    seconds; what each method does to them ([performed]), the laws by which
    handlers use an implementation that does it ([StorageLaws]); and what the
    comments of the interface say of each method ([documented]), with the states
    in which the two part ([deviates]). *)

From S2P Require Import Prelude GoStrings GoTime Storage Sql.

Local Open Scope Z_scope.

Record Store : Type := MkStore {
  s_envelopes : gmap string Envelope;
  s_requests : gmap string PairRequest;
  s_pairs : gmap string Pair
}.

Definition empty_store : Store := MkStore ∅ ∅ ∅.

Definition with_envelopes (t : gmap string Envelope) (s : Store) : Store :=
  MkStore t (s_requests s) (s_pairs s).
Definition with_requests (t : gmap string PairRequest) (s : Store) : Store :=
  MkStore (s_envelopes s) t (s_pairs s).
Definition with_pairs (t : gmap string Pair) (s : Store) : Store :=
  MkStore (s_envelopes s) (s_requests s) t.

(** Times survive storage up to the second. *)
Definition trunc (t : Time) : Time := t / Second * Second.

Definition stored_envelope (e : Envelope) : Envelope :=
  MkEnvelope (e_MsgID e) (e_PathID e) (e_Direction e) (trunc (e_ReceivedAt e))
    (e_Ciphertext e) (e_Signature e) (e_OuterJSON e).
Definition stored_request (r : PairRequest) : PairRequest :=
  MkPairRequest (r_RequestID r) (r_Status r) (trunc (r_CreatedAt r)) (trunc (r_ExpiresAt r))
    (r_PathID r) (r_RequesterJSON r) (r_OwnerJSON r) (r_TargetNexusID r).
Definition stored_pair (p : Pair) : Pair :=
  MkPair (p_PathID p) (p_RequesterID p) (p_RequesterPubkey p) (p_RequesterDHPubkey p)
    (p_OwnerID p) (p_OwnerPubkey p) (p_OwnerDHPubkey p) (p_SigAlg p) (p_DhAlg p)
    (trunc (p_ActivatedAt p)).

(** ** One operation per method *)

Definition spec_insert {R} (k : string) (t : gmap string R) (put : gmap string R → Store) (r : R)
    (s : Store) : option error * Store :=
  match t !! k with
  | Some _ => (Some ErrDuplicate, s)
  | None => (None, put (<[k := r]> t))
  end.

Definition addressed (path_id : string) (dir : Direction) (since : string)
    (e : string * Envelope) : Prop :=
  e_PathID (snd e) = path_id ∧ e_Direction (snd e) = dir ∧ str_ltb since (fst e) = true.

#[export] Instance addressed_dec p d s e : Decision (addressed p d s e).
Proof. unfold addressed. apply _. Defined.

(** All envelopes of an inbox after a cursor, oldest id first. *)
Definition inbox (path_id : string) (dir : Direction) (since : string) (s : Store) : list Envelope :=
  snd <$> sort_by fst (filter (addressed path_id dir since) (map_to_list (s_envelopes s))).

Definition pageSize : nat := 50.

(** Pending requests, oldest first. *)
Definition older (a b : string * PairRequest) : Prop :=
  r_CreatedAt (snd a) < r_CreatedAt (snd b) ∨
  r_CreatedAt (snd a) = r_CreatedAt (snd b) ∧ String.le (fst a) (fst b).

#[export] Instance older_dec : RelDecision older.
Proof. unfold RelDecision, older. apply _. Defined.

Definition pending (s : Store) : list PairRequest :=
  snd <$> merge_sort older (filter (λ r, r_Status (snd r) = StatusPending) (map_to_list (s_requests s))).

Definition acked (path_id : string) (ids : list string) (e : string * Envelope) : Prop :=
  e_PathID (snd e) = path_id ∧ fst e ∈ ids.
#[export] Instance acked_dec p ids e : Decision (acked p ids e).
Proof. unfold acked. apply _. Defined.

Definition outdated (cutoff : Time) (e : string * Envelope) : Prop :=
  e_ReceivedAt (snd e) < trunc cutoff.
#[export] Instance outdated_dec c e : Decision (outdated c e).
Proof. unfold outdated. apply _. Defined.

Definition spec_delete (gone : string * Envelope → Prop) `{∀ e, Decision (gone e)} (s : Store) :
    result Z * Store :=
  (Ok (Z.of_nat (size (filter gone (s_envelopes s)))),
   with_envelopes (filter (λ e, ¬ gone e) (s_envelopes s)) s).

(** Empty arguments keep the columns. *)
Definition resolve (to : PairRequestStatus) (ownerJSON pathID : string) (r : PairRequest) : PairRequest :=
  MkPairRequest (r_RequestID r) to (r_CreatedAt r) (r_ExpiresAt r)
    (if String.eqb pathID "" then r_PathID r else pathID) (r_RequesterJSON r)
    (if String.eqb ownerJSON "" then r_OwnerJSON r else ownerJSON) (r_TargetNexusID r).

Definition spec_update (id : string) (to : PairRequestStatus) (ownerJSON pathID : string) (s : Store) :
    option error * Store :=
  match s_requests s !! id with
  | None => (Some ErrNotFound, s)
  | Some r =>
      if decide (r_Status r = StatusPending)
      then (None, with_requests (<[id := resolve to ownerJSON pathID r]> (s_requests s)) s)
      else if decide (r_Status r = to) then (None, s)
      else (Some ErrConflict, s)
  end.

Definition overdue (cutoff : Time) (r : PairRequest) : Prop :=
  r_Status r = StatusPending ∧ r_ExpiresAt r < trunc cutoff.
#[export] Instance overdue_dec c r : Decision (overdue c r).
Proof. unfold overdue. apply _. Defined.

Definition expire_request (cutoff : Time) (r : PairRequest) : PairRequest :=
  if decide (overdue cutoff r) then resolve StatusExpired "" "" r else r.

Definition spec_expire (cutoff : Time) (s : Store) : result Z * Store :=
  (Ok (Z.of_nat (size (filter (λ r, overdue cutoff (snd r)) (s_requests s)))),
   with_requests (expire_request cutoff <$> s_requests s) s).

Definition found {R} (o : option R) : result R :=
  match o with Some r => Ok r | None => Err ErrNotFound end.

(** ** The methods as data *)

Inductive StoreOp : Type → Type :=
| OpInsertEnvelope (e : Envelope) : StoreOp (option error)
| OpListEnvelopes (pathID : string) (dir : Direction) (since : string) : StoreOp (result (list Envelope))
| OpDeleteByMsgID (pathID : string) (ids : list string) : StoreOp (result Z)
| OpDeleteOlderThan (cutoff : Time) : StoreOp (result Z)
| OpInsertPairRequest (r : PairRequest) : StoreOp (option error)
| OpGetPairRequest (id : string) : StoreOp (result PairRequest)
| OpListPending : StoreOp (result (list PairRequest))
| OpUpdateStatus (id : string) (to : PairRequestStatus) (ownerJSON pathID : string) : StoreOp (option error)
| OpExpirePending (cutoff : Time) : StoreOp (result Z)
| OpInsertPair (p : Pair) : StoreOp (option error)
| OpGetPair (pathID : string) : StoreOp (result Pair).

(** The method of an implementation. *)
Definition method `{St : Storage} {X} (op : StoreOp X) : Prog X :=
  match op in StoreOp X return Prog X with
  | OpInsertEnvelope e => InsertEnvelope e
  | OpListEnvelopes p d s => ListEnvelopes p d s
  | OpDeleteByMsgID p ids => DeleteEnvelopesByMsgID p ids
  | OpDeleteOlderThan c => DeleteEnvelopesOlderThan c
  | OpInsertPairRequest r => InsertPairRequest r
  | OpGetPairRequest id => GetPairRequest id
  | OpListPending => ListPendingPairRequests
  | OpUpdateStatus id to o p => UpdatePairRequestStatus id to o p
  | OpExpirePending c => ExpirePendingRequests c
  | OpInsertPair p => InsertPair p
  | OpGetPair p => GetPair p
  end.

(** What it does to the store, and its answer. *)
Definition performed {X} (op : StoreOp X) : Store → X * Store :=
  match op in StoreOp X return Store → X * Store with
  | OpInsertEnvelope e => λ s,
      spec_insert (e_MsgID e) (s_envelopes s) (λ t, with_envelopes t s) (stored_envelope e) s
  | OpListEnvelopes p d since => λ s, (Ok (firstn pageSize (inbox p d since s)), s)
  | OpDeleteByMsgID p ids => λ s, spec_delete (acked p ids) s
  | OpDeleteOlderThan c => λ s, spec_delete (outdated c) s
  | OpInsertPairRequest r => λ s,
      spec_insert (r_RequestID r) (s_requests s) (λ t, with_requests t s) (stored_request r) s
  | OpGetPairRequest id => λ s, (found (s_requests s !! id), s)
  | OpListPending => λ s, (Ok (pending s), s)
  | OpUpdateStatus id to o p => λ s, spec_update id to o p s
  | OpExpirePending c => λ s, spec_expire c s
  | OpInsertPair p => λ s,
      spec_insert (p_PathID p) (s_pairs s) (λ t, with_pairs t s) (stored_pair p) s
  | OpGetPair p => λ s, (found (s_pairs s !! p), s)
  end.

(** ** The comments of the interface

    What [Storage] documents of each method, read as it is written; the comments
    of the sentinel errors settle what a method leaves open.  Rows are stored
    with times in whole seconds, on which the comments say nothing. *)
Definition wanted (path_id : string) (dir : Direction) (since : string)
    (e : string * Envelope) : Prop :=
  e_PathID (snd e) = path_id ∧ e_Direction (snd e) = dir ∧
  (since = ""%string ∨ str_ltb since (fst e) = true).
#[export] Instance wanted_dec p d s e : Decision (wanted p d s e).
Proof. unfold wanted. apply _. Defined.

Definition received_before (c : Time) (e : string * Envelope) : Prop := e_ReceivedAt (snd e) < c.
#[export] Instance received_before_dec c e : Decision (received_before c e).
Proof. unfold received_before. apply _. Defined.

Definition expiring (c : Time) (r : PairRequest) : Prop :=
  r_Status r = StatusPending ∧ r_ExpiresAt r < c.
#[export] Instance expiring_dec c r : Decision (expiring c r).
Proof. unfold expiring. apply _. Defined.

Definition by_received (a b : Envelope) : Prop := e_ReceivedAt a <= e_ReceivedAt b.
Definition by_created (a b : PairRequest) : Prop := r_CreatedAt a <= r_CreatedAt b.

(** The answer and the store [xs] a call of [op] on [s] may have. *)
Definition documented {X} (op : StoreOp X) (s : Store) : X * Store → Prop :=
  match op in StoreOp X return X * Store → Prop with
  | OpInsertEnvelope e => λ xs,
      if decide (e_PathID <$> s_envelopes s !! e_MsgID e = Some (e_PathID e))
      then xs = (Some ErrDuplicate, s)
      else xs = (None, with_envelopes (<[e_MsgID e := stored_envelope e]> (s_envelopes s)) s)
  | OpListEnvelopes p d since => λ xs, ∃ l,
      xs = (Ok l, s) ∧
      l ≡ₚ snd <$> filter (wanted p d since) (map_to_list (s_envelopes s)) ∧
      StronglySorted by_received l
  | OpDeleteByMsgID p ids => λ xs, xs = spec_delete (acked p ids) s
  | OpDeleteOlderThan c => λ xs, xs = spec_delete (received_before c) s
  | OpInsertPairRequest r => λ xs,
      match s_requests s !! r_RequestID r with
      | Some _ => xs = (Some ErrDuplicate, s)
      | None => xs = (None, with_requests (<[r_RequestID r := stored_request r]> (s_requests s)) s)
      end
  | OpGetPairRequest id => λ xs,
      match s_requests s !! id with
      | Some r => xs = (Ok r, s)
      | None => xs = (Err ErrNotFound, s)
      end
  | OpListPending => λ xs, ∃ l,
      xs = (Ok l, s) ∧
      l ≡ₚ filter (λ r, r_Status r = StatusPending) (snd <$> map_to_list (s_requests s)) ∧
      StronglySorted by_created l
  | OpUpdateStatus id to o p => λ xs,
      match s_requests s !! id with
      | None => xs = (Some ErrNotFound, s)
      | Some r =>
          if decide (r_Status r = StatusPending)
          then xs = (None, with_requests (<[id := resolve to o p r]> (s_requests s)) s)
          else xs = (None, s)
      end
  | OpExpirePending c => λ xs,
      xs = (Ok (Z.of_nat (size (filter (λ r, expiring c (snd r)) (s_requests s)))),
        with_requests ((λ r, if decide (expiring c r) then resolve StatusExpired "" "" r else r)
          <$> s_requests s) s)
  | OpInsertPair p => λ xs,
      match s_pairs s !! p_PathID p with
      | Some _ => xs = (Some ErrDuplicate, s)
      | None => xs = (None, with_pairs (<[p_PathID p := stored_pair p]> (s_pairs s)) s)
      end
  | OpGetPair p => λ xs,
      match s_pairs s !! p with
      | Some r => xs = (Ok r, s)
      | None => xs = (Err ErrNotFound, s)
      end
  end.

(** Where the methods do something else:
    - an id of another pair's envelope is a duplicate too;
    - a list stops at [pageSize] rows, is in the order of the ids, and an empty
      cursor passes over an empty id;
    - a resolved request answers an error when asked for another status;
    - a time of the cutoff's own second counts as not before it. *)
Definition deviates {X} (op : StoreOp X) (s : Store) : Prop :=
  match op with
  | OpInsertEnvelope e =>
      ∃ old, s_envelopes s !! e_MsgID e = Some old ∧ e_PathID old ≠ e_PathID e
  | OpListEnvelopes p d since =>
      (pageSize < length (inbox p d since s))%nat ∨
      ¬ StronglySorted by_received (inbox p d since s) ∨
      since = ""%string ∧ ∃ e, s_envelopes s !! ""%string = Some e ∧ e_PathID e = p ∧ e_Direction e = d
  | OpUpdateStatus id to _ _ =>
      ∃ r, s_requests s !! id = Some r ∧ r_Status r ≠ StatusPending ∧ r_Status r ≠ to
  | OpDeleteOlderThan c =>
      ∃ id e, s_envelopes s !! id = Some e ∧ trunc c <= e_ReceivedAt e < c
  | OpExpirePending c =>
      ∃ id r, s_requests s !! id = Some r ∧ r_Status r = StatusPending ∧ trunc c <= r_ExpiresAt r < c
  | _ => False
  end.

(** The answer that reports a driver failure. *)
Definition failure {X} (op : StoreOp X) : error → X :=
  match op in StoreOp X return error → X with
  | OpInsertEnvelope _ | OpInsertPairRequest _ | OpUpdateStatus _ _ _ _ | OpInsertPair _ => Some
  | OpListEnvelopes _ _ _ => Err | OpDeleteByMsgID _ _ => Err | OpDeleteOlderThan _ => Err
  | OpGetPairRequest _ => Err | OpListPending => Err | OpExpirePending _ => Err | OpGetPair _ => Err
  end.

(** Times an operation is called with are years 0 to 9999. *)
Definition op_times {X} (op : StoreOp X) : Prop :=
  match op with
  | OpInsertEnvelope e => wire_time (e_ReceivedAt e)
  | OpInsertPairRequest r => wire_time (r_CreatedAt r) ∧ wire_time (r_ExpiresAt r)
  | OpInsertPair p => wire_time (p_ActivatedAt p)
  | OpDeleteOlderThan c | OpExpirePending c => wire_time c
  | _ => True
  end.

(** ** Laws of an implementation

    [represents d s]: the tables [d] hold the store [s].  Every method either
    does what [performed] says or reports a driver failure and changes nothing;
    without driver faults it does what [performed] says. *)
Definition quiet (e : Env) : Prop := ∀ n, env_fault e n = None.

Inductive outcome {X} (e : Env) (represents : DB → Store → Prop) (op : StoreOp X) (s : Store)
    (w : World) : X * World → Prop :=
| Kept w' :
    represents (w_db w') (snd (performed op s)) →
    w_ticks w' = w_ticks w → w_ids w' = w_ids w →
    outcome e represents op s w (fst (performed op s), w')
| Failed msg w' :
    ¬ quiet e →
    represents (w_db w') s →
    w_db w' = w_db w → w_ticks w' = w_ticks w → w_ids w' = w_ids w →
    outcome e represents op s w (failure op (ErrOther msg), w').

Class StorageLaws `{St : Storage} (e : Env) (represents : DB → Store → Prop) : Prop :=
  method_outcome : ∀ X (op : StoreOp X) s w,
    represents (w_db w) s → op_times op → outcome e represents op s w (run e (method op) w).

(** ** Using the laws

    A run of a method, as equations. *)
Section client.
Context `{St : Storage} (e : Env) (represents : DB → Store → Prop) `{!StorageLaws e represents}.

Record after (s : Store) (w w' : World) : Prop := After {
  after_rep : represents (w_db w') s;
  after_ticks : w_ticks w' = w_ticks w;
  after_ids : w_ids w' = w_ids w
}.

Lemma method_cases {X} (op : StoreOp X) s w :
  represents (w_db w) s → op_times op →
  (∃ w', run e (method op) w = (fst (performed op s), w') ∧ after (snd (performed op s)) w w') ∨
  (∃ msg w', run e (method op) w = (failure op (ErrOther msg), w') ∧ after s w w' ∧ ¬ quiet e).
Proof.
  intros Hr Ht. destruct (method_outcome X op s w Hr Ht) as [w' H1 H2 H3|m w' Hq H1 H1' H2 H3].
  - left. by exists w'.
  - right. by exists m, w'.
Qed.

(** Without faults. *)
Lemma method_quiet {X} (op : StoreOp X) s w :
  quiet e → represents (w_db w) s → op_times op →
  ∃ w', run e (method op) w = (fst (performed op s), w') ∧ after (snd (performed op s)) w w'.
Proof. intros Hq Hr Ht. by destruct (method_cases op s w Hr Ht) as [?|(? & ? & _ & _ & ?)]. Qed.
End client.

(** All clock readings are years 0 to 9999. *)
Definition wire_clock (e : Env) : Prop := ∀ n, wire_time (env_clock e n).
