(* ===== verification/SQLiteRefines.v ===== *)
(** * SQLite does what the store describes

    The tables of internal/storage/sqlite.go as an encoding of the abstract
    store, and the proof that every method satisfies [StorageLaws]. *)

From S2P Require Import Prelude GoStrings GoTime Storage Sql SQLite StoreSpec.

Local Open Scope Z_scope.

(** ** The encoding *)

Definition envelope_row (e : Envelope) : EnvelopeRow :=
  MkEnvelopeRow (e_PathID e) (e_Direction e) (formatTime (e_ReceivedAt e))
    (e_Ciphertext e) (e_Signature e) (e_OuterJSON e).
Definition request_row (r : PairRequest) : RequestRow :=
  MkRequestRow (r_Status r) (formatTime (r_CreatedAt r)) (formatTime (r_ExpiresAt r))
    (nullable (r_PathID r)) (r_RequesterJSON r) (nullable (r_OwnerJSON r)) (r_TargetNexusID r).
Definition pair_row (p : Pair) : PairRow :=
  MkPairRow (p_RequesterID p) (p_RequesterPubkey p) (p_RequesterDHPubkey p)
    (p_OwnerID p) (p_OwnerPubkey p) (p_OwnerDHPubkey p) (p_SigAlg p) (p_DhAlg p)
    (formatTime (p_ActivatedAt p)).

Definition encode_db (s : Store) : DB :=
  MkDB (envelope_row <$> s_envelopes s) (request_row <$> s_requests s) (pair_row <$> s_pairs s).

(** Times a table can hold. *)
Definition storable (t : Time) : Prop := wire_time t ∧ trunc t = t.

Definition envelope_ok (id : string) (e : Envelope) : Prop :=
  e_MsgID e = id ∧ storable (e_ReceivedAt e).
Definition request_ok (id : string) (r : PairRequest) : Prop :=
  r_RequestID r = id ∧ storable (r_CreatedAt r) ∧ storable (r_ExpiresAt r).
Definition pair_ok (id : string) (p : Pair) : Prop :=
  p_PathID p = id ∧ storable (p_ActivatedAt p).

(** The invariant of the store. *)
Record store_ok (s : Store) : Prop := StoreOk {
  ok_envelopes : map_Forall envelope_ok (s_envelopes s);
  ok_requests : map_Forall request_ok (s_requests s);
  ok_pairs : map_Forall pair_ok (s_pairs s)
}.

Definition holds (d : DB) (s : Store) : Prop := d = encode_db s ∧ store_ok s.

(** What the methods need of the driver: UNIQUE violations are reported with
    the text [isUniqueViolation] looks for, other failures are not. *)
Class DriverOK (e : Env) : Prop := {
  unique_text : ∀ column, isUniqueViolation (env_unique e column) = true;
  fault_text : ∀ n msg, env_fault e n = Some msg → isUniqueViolation msg = false
}.

(** ** Times *)

Lemma trunc_trunc t : trunc (trunc t) = trunc t.
Proof. unfold trunc. rewrite Z.div_mul; [done|]. unfold Second. lia. Qed.

Lemma storable_trunc t : wire_time t → storable (trunc t).
Proof. intros H. split; [by apply wire_time_trunc|apply trunc_trunc]. Qed.

Lemma formatTime_trunc t : formatTime (trunc t) = formatTime t.
Proof. apply FormatUTC_trunc. Qed.

Lemma parseTime_formatTime t : wire_time t → parseTime (formatTime t) = Ok (trunc t).
Proof.
  intros H. unfold parseTime, formatTime, ParseZ.
  rewrite (parse_with_FormatUTC literalZ t H); done.
Qed.

Lemma parseTime_storable t : storable t → parseTime (formatTime t) = Ok t.
Proof. intros [H E]. rewrite parseTime_formatTime by done. by rewrite E. Qed.

Lemma trunc_lt t u : t / Second < u / Second ↔ trunc t < trunc u.
Proof. unfold trunc, Second. lia. Qed.

Lemma formatTime_lt t u :
  wire_time t → wire_time u → str_ltb (formatTime t) (formatTime u) = true ↔ trunc t < trunc u.
Proof. intros Ht Hu. unfold formatTime. rewrite FormatUTC_lt by done. apply trunc_lt. Qed.

(** ** Scanning what was encoded *)

Lemma scan_envelope id e : envelope_ok id e → scanEnvelope (id, envelope_row e) = Ok e.
Proof. destruct e. intros [<- Ht]. simpl in *. by rewrite parseTime_storable. Qed.

Lemma default_nullable s : default "" (nullable s) = s.
Proof. unfold nullable. destruct (String.eqb_spec s ""); by subst. Qed.

Lemma scan_request id r : request_ok id r → scanPairRequest (id, request_row r) = Ok r.
Proof.
  destruct r. intros (<- & H1 & H2). simpl in *.
  rewrite !parseTime_storable by done. by rewrite !default_nullable.
Qed.

Lemma scan_pair id p : pair_ok id p → scanPair id (pair_row p) = Ok p.
Proof. destruct p. intros [<- Ht]. unfold scanPair. simpl in *. by rewrite parseTime_storable. Qed.

Lemma scan_all_rows {V R A} (scan : string * R → result A) (row : V → R) (val : string * V → A)
    (l : list (string * V)) :
  (∀ x, x ∈ l → scan (fst x, row (snd x)) = Ok (val x)) →
  scan_all scan (prod_map id row <$> l) = Ok (val <$> l).
Proof.
  induction l as [|[k v] l IH]; intros H; csimpl; [done|].
  pose proof (H (k, v) ltac:(by left)) as E. simpl in E. rewrite E. rewrite IH; [done|]. intros x Hx. apply H. by right.
Qed.

(** ** Sizes of filtered tables *)

Lemma size_filter_fmap {A B} (f : A → B) (P : string * B → Prop) (Q : string * A → Prop)
    `{!∀ x, Decision (P x), !∀ x, Decision (Q x)} (m : gmap string A) :
  (∀ k a, m !! k = Some a → P (k, f a) ↔ Q (k, a)) →
  size (filter P (f <$> m)) = size (filter Q m).
Proof.
  intros Hiff. rewrite map_filter_fmap, map_size_fmap. f_equal.
  apply map_filter_ext. intros k a Ha. by apply Hiff.
Qed.

Lemma filter_fmap_iff {A B} (f : A → B) (P : string * B → Prop) (Q : string * A → Prop)
    `{!∀ x, Decision (P x), !∀ x, Decision (Q x)} (m : gmap string A) :
  (∀ k a, m !! k = Some a → P (k, f a) ↔ Q (k, a)) →
  filter P (f <$> m) = f <$> filter Q m.
Proof.
  intros Hiff. rewrite map_filter_fmap. f_equal. apply map_filter_ext. intros k a Ha. by apply Hiff.
Qed.

Lemma list_filter_fmap_iff {A B} (f : A → B) (P : B → Prop) (Q : A → Prop)
    `{!∀ x, Decision (P x), !∀ x, Decision (Q x)} (l : list A) :
  (∀ a, a ∈ l → P (f a) ↔ Q a) → filter P (f <$> l) = f <$> filter Q l.
Proof.
  induction l as [|a l IH]; intros Hiff; csimpl; [done|].
  rewrite !filter_cons. rewrite IH by (intros; apply Hiff; by right).
  pose proof (Hiff a ltac:(by left)).
  destruct (decide (P (f a))), (decide (Q a)); first [tauto | by f_equal].
Qed.

(** ** The invariant is kept *)

Lemma map_Forall_filter_sub {R} (P : string → R → Prop) (Q : string * R → Prop)
    `{!∀ x, Decision (Q x)} (m : gmap string R) :
  map_Forall P m → map_Forall P (filter Q m).
Proof. intros HP k r Hr. apply map_lookup_filter_Some in Hr as [Hr _]. by apply HP. Qed.

Lemma store_ok_insert_envelope s e :
  store_ok s → wire_time (e_ReceivedAt e) →
  store_ok (with_envelopes (<[e_MsgID e := stored_envelope e]> (s_envelopes s)) s).
Proof.
  intros [H1 H2 H3] Ht. constructor; [|done..]. apply map_Forall_insert_2; [|done].
  split; [done|]. by apply storable_trunc.
Qed.

Lemma store_ok_insert_request s r :
  store_ok s → wire_time (r_CreatedAt r) → wire_time (r_ExpiresAt r) →
  store_ok (with_requests (<[r_RequestID r := stored_request r]> (s_requests s)) s).
Proof.
  intros [H1 H2 H3] Ht Ht'. constructor; [done| |done]. apply map_Forall_insert_2; [|done].
  repeat split; try by apply storable_trunc. all: apply trunc_trunc.
Qed.

Lemma store_ok_insert_pair s p :
  store_ok s → wire_time (p_ActivatedAt p) →
  store_ok (with_pairs (<[p_PathID p := stored_pair p]> (s_pairs s)) s).
Proof.
  intros [H1 H2 H3] Ht. constructor; [done..|]. apply map_Forall_insert_2; [|done].
  split; [done|]. by apply storable_trunc.
Qed.

Lemma store_ok_filter_envelopes s (Q : string * Envelope → Prop) `{!∀ x, Decision (Q x)} :
  store_ok s → store_ok (with_envelopes (filter Q (s_envelopes s)) s).
Proof. intros [H1 H2 H3]. constructor; [|done..]. by apply map_Forall_filter_sub. Qed.

Lemma request_ok_resolve id r to o p : request_ok id r → request_ok id (resolve to o p r).
Proof. by destruct r. Qed.

Lemma store_ok_resolve s id r to o p :
  store_ok s → s_requests s !! id = Some r →
  store_ok (with_requests (<[id := resolve to o p r]> (s_requests s)) s).
Proof.
  intros [H1 H2 H3] Hr. constructor; [done| |done]. apply map_Forall_insert_2; [|done].
  apply request_ok_resolve. by apply H2.
Qed.

Lemma store_ok_expire s c :
  store_ok s → store_ok (with_requests (expire_request c <$> s_requests s) s).
Proof.
  intros [H1 H2 H3]. constructor; [done| |done]. intros id r Hr. simpl in Hr.
  apply lookup_fmap_Some in Hr as (r' & <- & Hr'). unfold expire_request.
  destruct (decide _); [apply request_ok_resolve|]; by apply H2.
Qed.

Lemma performed_ok {X} (op : StoreOp X) s : store_ok s → op_times op → store_ok (snd (performed op s)).
Proof.
  destruct op; simpl; intros Hs Ht; try done.
  - unfold spec_insert. case_match; simpl; [done|]. by apply store_ok_insert_envelope.
  - by apply store_ok_filter_envelopes.
  - by apply store_ok_filter_envelopes.
  - unfold spec_insert. case_match; simpl; [done|]. destruct Ht. by apply store_ok_insert_request.
  - unfold spec_update. repeat case_match; simpl; try done. by apply store_ok_resolve.
  - by apply store_ok_expire.
  - unfold spec_insert. case_match; simpl; [done|]. by apply store_ok_insert_pair.
Qed.

(** ** Queries on an encoded store *)

Lemma request_row_resolve to o p r :
  request_row (resolve to o p r) = with_status to (nullable o) (nullable p) (request_row r).
Proof.
  unfold request_row, resolve, with_status, nullable. simpl.
  destruct (String.eqb o "") eqn:Eo, (String.eqb p "") eqn:Ep; rewrite ?Eo, ?Ep; done.
Qed.

Lemma elem_table {R} (m : gmap string R) (Q : string * R → Prop) `{!∀ x, Decision (Q x)} x :
  x ∈ filter Q (map_to_list m) → m !! fst x = Some (snd x).
Proof. destruct x. intros Hx. apply list_elem_of_filter in Hx as [_ Hx]. by apply elem_of_map_to_list. Qed.

Lemma same_key {R} (m : gmap string R) (x y : string * R) :
  m !! fst x = Some (snd x) → m !! fst y = Some (snd y) → fst x = fst y → x = y.
Proof. destruct x as [k v], y as [k' v']. simpl. intros H1 H2 ->. congruence. Qed.

Lemma select_envelopes_encode s p d since n :
  select_envelopes p d since n (encode_db s) =
  prod_map id envelope_row <$> firstn n (sort_by fst (filter (addressed p d since) (map_to_list (s_envelopes s)))).
Proof.
  unfold select_envelopes. rewrite <- firstn_map. f_equal. simpl. rewrite map_to_list_fmap.
  rewrite (list_filter_fmap_iff _ _ (addressed p d since)) by (intros [k a] _; done).
  unfold sort_by. apply merge_sort_fmap; try apply _.
  - intros [k x] [k' y] _ _. unfold row_le. done.
  - intros x y Hx Hy H1 H2. apply elem_table in Hx, Hy.
    assert (E : fst x = fst y) by (destruct x, y; apply (row_le_anti _ _ _ H1 H2)).
    by rewrite (same_key _ _ _ Hx Hy E).
Qed.

#[export] Instance older_total : Total older.
Proof.
  intros [k a] [k' b]. unfold older. simpl.
  destruct (Z.lt_trichotomy (r_CreatedAt a) (r_CreatedAt b)) as [?|[?|?]]; [by left; left| |by right; left].
  destruct (total String.le k k'); [left|right]; right; auto.
Qed.

#[export] Instance older_trans : Transitive older.
Proof.
  intros [k a] [k' b] [k'' c]. unfold older. simpl. intros [H1|[E1 H1]] [H2|[E2 H2]]; try (left; lia).
  right. split; [congruence|]. by etransitivity.
Qed.

Lemma older_row s (x y : string * PairRequest) :
  store_ok s → s_requests s !! fst x = Some (snd x) → s_requests s !! fst y = Some (snd y) →
  row_le (λ r, rr_created_at (snd r)) (prod_map id request_row x) (prod_map id request_row y) ↔ older x y.
Proof.
  intros [_ H _] Hx Hy. destruct (H _ _ Hx) as (_ & [Wx Tx] & _), (H _ _ Hy) as (_ & [Wy Ty] & _).
  unfold row_le, older. simpl. rewrite formatTime_lt by done. rewrite Tx, Ty.
  assert (formatTime (r_CreatedAt (snd x)) = formatTime (r_CreatedAt (snd y)) ↔
          r_CreatedAt (snd x) = r_CreatedAt (snd y)) as ->; [|done].
  split; [|by intros ->]. intros E. apply (f_equal parseTime) in E.
  rewrite !parseTime_storable in E by done. congruence.
Qed.

Lemma select_pending_encode s :
  store_ok s →
  select_by_status StatusPending (encode_db s) =
  prod_map id request_row <$>
    merge_sort older (filter (λ r, r_Status (snd r) = StatusPending) (map_to_list (s_requests s))).
Proof.
  intros Hs. unfold select_by_status. simpl. rewrite map_to_list_fmap.
  rewrite (list_filter_fmap_iff _ _ (λ r, r_Status (snd r) = StatusPending)) by (intros [k a] _; done).
  unfold sort_by. apply merge_sort_fmap; try apply _.
  - intros x y Hx Hy H. apply elem_table in Hx, Hy. by apply (older_row s).
  - intros x y Hx Hy H1 H2. apply elem_table in Hx, Hy.
    assert (E : fst x = fst y) by (destruct x, y; apply (row_le_anti _ _ _ H1 H2)).
    by rewrite (same_key _ _ _ Hx Hy E).
Qed.

(** ** Every method *)

Section methods.
Context (e : Env) `{Hdriver : !DriverOK e}.

(** One statement: a driver failure, or its effect. *)
Lemma sql_cases {X} w (f : DB → sqlres X * DB) :
  (∃ msg, isUniqueViolation msg = false ∧ ¬ quiet e ∧ sql e w f = (inl msg, next_stmt w)) ∨
  sql e w f = (fst (f (w_db w)), set_db (snd (f (w_db w))) (next_stmt w)).
Proof.
  unfold sql. destruct (env_fault e (w_stmts w)) as [msg|] eqn:F.
  - left. exists msg. repeat split; [by eapply fault_text|].
    intros Hq. by rewrite (Hq (w_stmts w)) in F.
  - right. by destruct (f (w_db w)).
Qed.

Lemma kept_eq {X} (op : StoreOp X) s w x w' :
  store_ok s → op_times op →
  x = fst (performed op s) → w_db w' = encode_db (snd (performed op s)) →
  w_ticks w' = w_ticks w → w_ids w' = w_ids w →
  outcome e holds op s w (x, w').
Proof. intros Hs Ht -> Hd ??. constructor; try done. split; [done|]. by apply performed_ok. Qed.

Lemma failed_eq {X} (op : StoreOp X) s w x msg w' :
  holds (w_db w) s → ¬ quiet e → x = failure op (ErrOther msg) →
  w_db w' = w_db w → w_ticks w' = w_ticks w → w_ids w' = w_ids w →
  outcome e holds op s w (x, w').
Proof. intros Hs Hq -> Hd ??. constructor; try done. by rewrite Hd. Qed.

Lemma insert_fault context msg :
  isUniqueViolation msg = false → insert_result context (inl msg) = Some (wrap context msg).
Proof. intros H. simpl. by rewrite H. Qed.

Lemma insert_unique context column :
  insert_result context (inl (env_unique e column)) = Some ErrDuplicate.
Proof. simpl. by rewrite unique_text. Qed.

(** The statement of an INSERT, on a table encoded by [row]. *)
Lemma insert_row_encode {V R} (row : V → R) column k (t : gmap string V) put (v : V) d context :
  let r := insert_row e column k (row <$> t) put (row v) d in
  insert_result context (fst r) = (match t !! k with Some _ => Some ErrDuplicate | None => None end) ∧
  snd r = (match t !! k with Some _ => d | None => put (row <$> <[k := v]> t) end).
Proof.
  unfold insert_row. rewrite lookup_fmap. destruct (t !! k); simpl; [by rewrite unique_text|].
  by rewrite fmap_insert.
Qed.
End methods.

Ltac fault_or_effect :=
  match goal with
  | |- context [sql ?e ?w ?f] =>
      let Hs := fresh "Hsql" in
      destruct (sql_cases e w f) as [(? & ? & ? & Hs)|Hs]; rewrite Hs; clear Hs
  end.
Ltac failed := by eapply failed_eq.

Section laws.
Context (e : Env) `{Hdriver : !DriverOK e}.

Lemma envelope_row_stored x : envelope_row (stored_envelope x) =
  MkEnvelopeRow (e_PathID x) (e_Direction x) (formatTime (e_ReceivedAt x))
    (e_Ciphertext x) (e_Signature x) (e_OuterJSON x).
Proof. unfold envelope_row. simpl. by rewrite formatTime_trunc. Qed.

Lemma request_row_stored r : request_row (stored_request r) =
  MkRequestRow (r_Status r) (formatTime (r_CreatedAt r)) (formatTime (r_ExpiresAt r))
    (nullable (r_PathID r)) (r_RequesterJSON r) (nullable (r_OwnerJSON r)) (r_TargetNexusID r).
Proof. unfold request_row. simpl. by rewrite !formatTime_trunc. Qed.

Lemma pair_row_stored p : pair_row (stored_pair p) =
  MkPairRow (p_RequesterID p) (p_RequesterPubkey p) (p_RequesterDHPubkey p)
    (p_OwnerID p) (p_OwnerPubkey p) (p_OwnerDHPubkey p) (p_SigAlg p) (p_DhAlg p)
    (formatTime (p_ActivatedAt p)).
Proof. unfold pair_row. simpl. by rewrite formatTime_trunc. Qed.

Lemma law_InsertEnvelope x s w :
  holds (w_db w) s → op_times (OpInsertEnvelope x) →
  outcome e holds (OpInsertEnvelope x) s w (run e (sqlite_InsertEnvelope x) w).
Proof.
  intros Hh Ht. destruct Hh as [Hd Hs] eqn:Eh. cbn -[sql insert_row insert_result].
  rewrite <- envelope_row_stored. fault_or_effect.
  - rewrite insert_fault by done. failed.
  - rewrite Hd. pose proof (insert_row_encode e envelope_row "envelopes.msg_id" (e_MsgID x)
      (s_envelopes s) (λ t, set_envelopes t (encode_db s)) (stored_envelope x) (encode_db s)
      "storage: insert envelope: ") as [E1 E2]. cbn -[insert_row insert_result] in E1, E2 |- *.
    rewrite E1, E2. apply kept_eq; [done..| | |done|done]; simpl; unfold spec_insert;
      by destruct (s_envelopes s !! e_MsgID x).
Qed.

Lemma law_InsertPairRequest x s w :
  holds (w_db w) s → op_times (OpInsertPairRequest x) →
  outcome e holds (OpInsertPairRequest x) s w (run e (sqlite_InsertPairRequest x) w).
Proof.
  intros Hh Ht. destruct Hh as [Hd Hs] eqn:Eh. cbn -[sql insert_row insert_result].
  rewrite <- request_row_stored. fault_or_effect.
  - rewrite insert_fault by done. failed.
  - rewrite Hd. pose proof (insert_row_encode e request_row "pair_requests.request_id" (r_RequestID x)
      (s_requests s) (λ t, set_requests t (encode_db s)) (stored_request x) (encode_db s)
      "storage: insert pair request: ") as [E1 E2]. cbn -[insert_row insert_result] in E1, E2 |- *.
    rewrite E1, E2. apply kept_eq; [done..| | |done|done]; simpl; unfold spec_insert;
      by destruct (s_requests s !! r_RequestID x).
Qed.

Lemma law_InsertPair x s w :
  holds (w_db w) s → op_times (OpInsertPair x) →
  outcome e holds (OpInsertPair x) s w (run e (sqlite_InsertPair x) w).
Proof.
  intros Hh Ht. destruct Hh as [Hd Hs] eqn:Eh. cbn -[sql insert_row insert_result].
  rewrite <- pair_row_stored. fault_or_effect.
  - rewrite insert_fault by done. failed.
  - rewrite Hd. pose proof (insert_row_encode e pair_row "pairs.path_id" (p_PathID x)
      (s_pairs s) (λ t, set_pairs t (encode_db s)) (stored_pair x) (encode_db s)
      "storage: insert pair: ") as [E1 E2]. cbn -[insert_row insert_result] in E1, E2 |- *.
    rewrite E1, E2. apply kept_eq; [done..| | |done|done]; simpl; unfold spec_insert;
      by destruct (s_pairs s !! p_PathID x).
Qed.

Lemma law_ListEnvelopes p d since s w :
  holds (w_db w) s →
  outcome e holds (OpListEnvelopes p d since) s w (run e (sqlite_ListEnvelopes p d since) w).
Proof.
  intros Hh. destruct Hh as [Hd Hs] eqn:Eh. cbn -[sql select_envelopes]. fault_or_effect; [failed|].
  cbn [fst snd]. rewrite Hd, select_envelopes_encode. apply kept_eq; [done..| |done|done|done].
  rewrite (scan_all_rows scanEnvelope envelope_row snd); simpl.
  - f_equal. unfold inbox. symmetry. apply firstn_map.
  - intros [k v] Hx. apply (scan_envelope k v).
    apply elem_of_take in Hx as (i & Hx & _). apply list_elem_of_lookup_2 in Hx.
    unfold sort_by in Hx. rewrite merge_sort_Permutation in Hx. apply elem_table in Hx.
    by apply (ok_envelopes _ Hs).
Qed.

Lemma law_ListPending s w :
  holds (w_db w) s →
  outcome e holds OpListPending s w (run e sqlite_ListPendingPairRequests w).
Proof.
  intros Hh. destruct Hh as [Hd Hs] eqn:Eh. cbn -[sql select_by_status].
  fault_or_effect; [failed|].
  cbn [fst snd]. rewrite Hd, select_pending_encode by done. apply kept_eq; [done..| |done|done|done].
  rewrite (scan_all_rows scanPairRequest request_row snd); [done|].
  intros [k v] Hx. apply (scan_request k v). rewrite merge_sort_Permutation in Hx.
  apply elem_table in Hx. by apply (ok_requests _ Hs).
Qed.

Lemma law_GetPairRequest k s w :
  holds (w_db w) s →
  outcome e holds (OpGetPairRequest k) s w (run e (sqlite_GetPairRequest k) w).
Proof.
  intros Hh. destruct Hh as [Hd Hs] eqn:Eh. cbn -[sql scanPairRequest].
  fault_or_effect; [failed|]. cbn [fst snd]. rewrite Hd. simpl. rewrite lookup_fmap.
  destruct (s_requests s !! k) as [r|] eqn:Hr; apply kept_eq; try done; simpl; rewrite Hr; [|done].
  apply scan_request. by apply (ok_requests _ Hs).
Qed.

Lemma law_GetPair k s w :
  holds (w_db w) s →
  outcome e holds (OpGetPair k) s w (run e (sqlite_GetPair k) w).
Proof.
  intros Hh. destruct Hh as [Hd Hs] eqn:Eh. cbn -[sql scanPair].
  fault_or_effect; [failed|]. cbn [fst snd]. rewrite Hd. simpl. rewrite lookup_fmap.
  destruct (s_pairs s !! k) as [r|] eqn:Hr; apply kept_eq; try done; simpl; rewrite Hr; [|done].
  apply scan_pair. by apply (ok_pairs _ Hs).
Qed.

Lemma delete_rows_encode (P : string * EnvelopeRow → Prop) (Q : string * Envelope → Prop)
    `{!∀ x, Decision (P x), !∀ x, Decision (Q x)} s :
  (∀ k a, s_envelopes s !! k = Some a → P (k, envelope_row a) ↔ Q (k, a)) →
  size (filter P (envelopes (encode_db s))) = size (filter Q (s_envelopes s)) ∧
  set_envelopes (filter (λ x, ¬ P x) (envelopes (encode_db s))) (encode_db s) =
    encode_db (snd (spec_delete Q s)).
Proof.
  intros Hiff. split; [by apply size_filter_fmap|].
  unfold set_envelopes, encode_db. simpl. f_equal. apply filter_fmap_iff.
  intros k a Ha. by rewrite (Hiff k a Ha).
Qed.

Lemma law_DeleteByMsgID p ids s w :
  holds (w_db w) s →
  outcome e holds (OpDeleteByMsgID p ids) s w (run e (sqlite_DeleteEnvelopesByMsgID p ids) w).
Proof.
  intros Hh. destruct Hh as [Hd Hs] eqn:Eh.
  destruct (delete_rows_encode (λ x, er_path_id (snd x) = p ∧ fst x ∈ ids) (acked p ids) s) as [E1 E2];
    [done|].
  destruct ids as [|i ids]; cbn -[sql delete_envelopes].
  - assert (E : filter (acked p []) (s_envelopes s) = ∅).
    { apply map_empty_filter. intros k v _ [_ H]. by apply not_elem_of_nil in H. }
    assert (E' : filter (λ x, ¬ acked p [] x) (s_envelopes s) = s_envelopes s).
    { apply map_filter_id. intros k v _ [_ H]. by apply not_elem_of_nil in H. }
    apply kept_eq; try done; unfold performed, spec_delete; simpl; [by rewrite E|].
    rewrite E', Hd. by destruct s.
  - fault_or_effect; [failed|]. rewrite Hd. unfold delete_envelopes. cbn [fst snd run].
    apply kept_eq; try done. by rewrite E1.
Qed.

Lemma law_DeleteOlderThan c s w :
  holds (w_db w) s → op_times (OpDeleteOlderThan c) →
  outcome e holds (OpDeleteOlderThan c) s w (run e (sqlite_DeleteEnvelopesOlderThan c) w).
Proof.
  intros Hh Ht. destruct Hh as [Hd Hs] eqn:Eh.
  destruct (delete_rows_encode (λ x, str_ltb (er_received_at (snd x)) (formatTime c) = true)
    (outdated c) s) as [E1 E2].
  { intros k a Ha. apply (ok_envelopes _ Hs) in Ha as [_ [Wa Ta]]. simpl.
    rewrite formatTime_lt by done. by rewrite Ta. }
  cbn -[sql delete_older formatTime].
  fault_or_effect; [failed|]. rewrite Hd. unfold delete_older. cbn [fst snd run].
  apply kept_eq; try done. by rewrite E1.
Qed.

Lemma expires_row k r s c :
  store_ok s → wire_time c → s_requests s !! k = Some r →
  expires StatusPending (formatTime c) (request_row r) ↔ overdue c r.
Proof.
  intros Hs Hc Hr. apply (ok_requests _ Hs) in Hr as (_ & _ & [We Te]).
  unfold expires, overdue. simpl. rewrite formatTime_lt by done. by rewrite Te.
Qed.

Lemma law_ExpirePending c s w :
  holds (w_db w) s → op_times (OpExpirePending c) →
  outcome e holds (OpExpirePending c) s w (run e (sqlite_ExpirePendingRequests c) w).
Proof.
  intros Hh Ht. destruct Hh as [Hd Hs] eqn:Eh. cbn -[sql expire formatTime].
  fault_or_effect; [failed|]. rewrite Hd. unfold expire. cbn [fst snd run].
  apply kept_eq; try done; cbn -[encode_db].
  - do 2 f_equal. simpl. apply size_filter_fmap. intros k r Hr. by apply (expires_row k _ s).
  - unfold set_requests, encode_db. simpl. f_equal. rewrite <- !map_fmap_compose.
    apply map_fmap_ext. intros k r Hr. simpl. unfold expire_row, expire_request.
    pose proof (expires_row k r s c Hs Ht Hr) as Hiff.
    destruct (decide (expires _ _ _)), (decide (overdue c r)); try tauto.
Qed.

Lemma law_UpdateStatus k to o p s w :
  holds (w_db w) s →
  outcome e holds (OpUpdateStatus k to o p) s w (run e (sqlite_UpdatePairRequestStatus k to o p) w).
Proof.
  intros Hh. destruct Hh as [Hd Hs] eqn:Eh. unfold sqlite_UpdatePairRequestStatus.
  cbn -[sql update_status nullable sqlite_GetPairRequest].
  fault_or_effect; [failed|]. rewrite Hd. unfold update_status.
  cbn -[nullable sqlite_GetPairRequest]. rewrite lookup_fmap.
  destruct (s_requests s !! k) as [r|] eqn:Hr; cbn -[nullable sqlite_GetPairRequest].
  - case_decide as Hp; cbn -[nullable sqlite_GetPairRequest].
    + apply kept_eq; try done; simpl; unfold spec_update; rewrite Hr, decide_True by done; [done|].
      unfold set_requests, encode_db. simpl. by rewrite fmap_insert, request_row_resolve.
    + (* the row is resolved: the lookup decides *)
      rewrite run_bind. set (w1 := set_db _ _).
      assert (Hh1 : holds (w_db w1) s) by done.
      pose proof (law_GetPairRequest k s w1 Hh1) as Hget. destruct Hget as [w2 H1 H2 H3|m w2 Hq H1 H1' H2 H3].
      * cbn. rewrite Hr. cbn. destruct H1 as [H1 _].
        destruct (String.eqb_spec (r_Status r) to) as [Et|Et]; cbn.
        -- apply kept_eq; try done; simpl; unfold spec_update; rewrite Hr, decide_False, decide_True by done; done.
        -- rewrite (proj2 (String.eqb_neq _ _) Hp). cbn.
           apply kept_eq; try done; simpl; unfold spec_update; rewrite Hr, !decide_False by done; done.
      * cbn. eapply failed_eq; try done. by rewrite H1', Hd.
  - rewrite run_bind. set (w1 := set_db _ _).
    assert (Hh1 : holds (w_db w1) s) by done.
    pose proof (law_GetPairRequest k s w1 Hh1) as Hget. destruct Hget as [w2 H1 H2 H3|m w2 Hq H1 H1' H2 H3].
    + cbn. rewrite Hr. cbn. destruct H1 as [H1 _].
      apply kept_eq; try done; simpl; unfold spec_update; rewrite Hr; done.
    + cbn. eapply failed_eq; try done. by rewrite H1', Hd.
Qed.

#[export] Instance SQLite_laws : StorageLaws e holds.
Proof.
  intros X op s w Hh Ht. destruct op; simpl.
  - by apply law_InsertEnvelope.
  - by apply law_ListEnvelopes.
  - by apply law_DeleteByMsgID.
  - by apply law_DeleteOlderThan.
  - by apply law_InsertPairRequest.
  - by apply law_GetPairRequest.
  - by apply law_ListPending.
  - by apply law_UpdateStatus.
  - by apply law_ExpirePending.
  - by apply law_InsertPair.
  - by apply law_GetPair.
Qed.
End laws.
