(* ===== verification/Patterns.v ===== *)
(** * Wire patterns

    The regular expressions of internal/mailbox/mailbox.go and
    internal/pairflow/pairflow.go.  Each is anchored at both ends and has a
    fixed length, so it is a list of character classes. *)

From S2P Require Import Prelude GoStrings Codec Http.

Local Open Scope Z_scope.

Fixpoint match_classes (cs : list (ascii → bool)) (s : string) : bool :=
  match cs, s with
  | [], EmptyString => true
  | p :: cs, String c s => p c && match_classes cs s
  | _, _ => false
  end.

Definition one (c : ascii) : list (ascii → bool) := [Ascii.eqb c].

(** [[0-9a-f]] *)
Definition lower_hex_digit (c : ascii) : bool := between 48 57 c || between 97 102 c.

Definition hexes (n : nat) : list (ascii → bool) := replicate n lower_hex_digit.

Definition dash : list (ascii → bool) := one "-".

(** [^nxc_[A-Za-z0-9_-]{43}$] *)
Definition path_id_char (c : ascii) : bool :=
  between 65 90 c || between 97 122 c || between 48 57 c || Ascii.eqb c "_" || Ascii.eqb c "-".

Definition pathIDRegex (s : string) : bool :=
  match_classes (one "n" ++ one "x" ++ one "c" ++ one "_" ++ replicate 43 path_id_char) s.

(** [^[0-9a-f]{8}-[0-9a-f]{4}-7[0-9a-f]{3}-[89ab][0-9a-f]{3}-[0-9a-f]{12}$] *)
Definition variant_char (c : ascii) : bool :=
  Ascii.eqb c "8" || Ascii.eqb c "9" || Ascii.eqb c "a" || Ascii.eqb c "b".

Definition uuidv7Regex (s : string) : bool :=
  match_classes (hexes 8 ++ dash ++ hexes 4 ++ dash ++ one "7" ++ hexes 3 ++ dash ++
                 [variant_char] ++ hexes 3 ++ dash ++ hexes 12) s.

(** [^[0-9a-f]{8}-[0-9a-f]{4}-[0-9a-f]{4}-[0-9a-f]{4}-[0-9a-f]{12}$] *)
Definition uuidRegex (s : string) : bool :=
  match_classes (hexes 8 ++ dash ++ hexes 4 ++ dash ++ hexes 4 ++ dash ++ hexes 4 ++ dash ++
                 hexes 12) s.

(** ** Lemmas *)

Lemma match_classes_app cs ds (s t : string) :
  match_classes cs s = true → match_classes ds t = true → match_classes (cs ++ ds) (s +:+ t) = true.
Proof.
  revert s. induction cs as [|p cs IH]; intros [|c s] H1 H2; simpl in H1; try done.
  rewrite app_cons_s. simpl. apply andb_true_iff in H1 as [-> H1]. by apply IH.
Qed.

Lemma match_classes_replicate p n s :
  match_classes (replicate n p) s = true ↔ String.length s = n ∧ all_bytes p s = true.
Proof.
  revert s. induction n as [|n IH]; intros [|c s]; simpl; try (split; intuition done).
  rewrite !andb_true_iff, IH. split; [intros (? & <- & ?)|intros ([= ?] & ? & ?)]; done.
Qed.

Lemma match_classes_length cs s : match_classes cs s = true → String.length s = length cs.
Proof.
  revert s. induction cs as [|p cs IH]; intros [|c s] H; simpl in *; try done.
  apply andb_true_iff in H as [_ H]. f_equal. by apply IH.
Qed.

Lemma match_classes_cons p cs s :
  match_classes (p :: cs) s = true → ∃ c r, s = String c r ∧ p c = true ∧ match_classes cs r = true.
Proof. destruct s as [|c r]; [done|]. intros H. apply andb_true_iff in H as [H1 H2]. eauto. Qed.

(** A string of the wrong length matches nothing; in particular not "". *)
Lemma uuidv7Regex_nonempty s : uuidv7Regex s = true → s ≠ "".
Proof. intros H ->. done. Qed.

Lemma pathIDRegex_iff s :
  pathIDRegex s = true ↔
  ∃ r, s = "nxc_" +:+ r ∧ String.length r = 43%nat ∧ all_bytes path_id_char r = true.
Proof.
  unfold pathIDRegex. split.
  - intros H. apply match_classes_cons in H as (a & r1 & -> & Ha & H).
    apply match_classes_cons in H as (b & r2 & -> & Hb & H).
    apply match_classes_cons in H as (c & r3 & -> & Hc & H).
    apply match_classes_cons in H as (d & r4 & -> & Hd & H).
    apply Ascii.eqb_eq in Ha, Hb, Hc, Hd. subst.
    apply match_classes_replicate in H as [Hl Hr]. by exists r4.
  - intros (r & -> & Hl & Hr). rewrite !app_cons_s, app_nil_l_s. cbn -[replicate].
    by apply match_classes_replicate.
Qed.

(** The two id patterns: every UUIDv7 has the shape of a request id. *)
Lemma uuidv7_uuid s : uuidv7Regex s = true → uuidRegex s = true.
Proof.
  assert (Hgen : ∀ cs ds, Forall2 (λ p q, ∀ c, p c = true → q c = true) cs ds →
    ∀ s, match_classes cs s = true → match_classes ds s = true).
  { induction 1 as [|p q cs ds Hpq _ IH]; intros [|c t] H; simpl in *; try done.
    apply andb_true_iff in H as [H1 H2]. by rewrite (Hpq _ H1), (IH _ H2). }
  apply Hgen. cbn. repeat constructor; intros c H; try done.
  - unfold one in H. apply Ascii.eqb_eq in H. by subst.
  - unfold variant_char in H. rewrite !orb_true_iff in H.
    destruct H as [[[H|H]|H]|H]; apply Ascii.eqb_eq in H; by subst.
Qed.
