(* ===== verification/Replay.v ===== *)
(** * The replay window

    [tsInWindow] of internal/mailbox/mailbox.go and internal/pairflow/pairflow.go
    (the same code twice). *)

From S2P Require Import Prelude GoStrings GoTime.

Local Open Scope Z_scope.

Definition replayWindow : Duration := 5 * Minute.

(** [time.Parse(time.RFC3339, ts)], then the layout with a literal Z. *)
Definition parse_ts (ts : string) : option Time :=
  match ParseRFC3339 ts with
  | Some t => Some t
  | None => ParseZ ts
  end.

Definition tsInWindow (ts : string) (now : Time) : bool :=
  match parse_ts ts with
  | None => false
  | Some t =>
      let d := Sub now t in
      let d := if d <? 0 then Neg d else d in
      d <=? replayWindow
  end.

(** Within five minutes, either way. *)
Definition fresh (t now : Time) : Prop := Z.abs (now - t) <= replayWindow.

(** [time.Duration] saturates at 292 years and [-d] of its minimum is itself. *)
Definition overflows (t now : Time) : Prop := 2 ^ 63 <= t - now.

Lemma window_cases t now :
  ((if Sub now t <? 0 then Neg (Sub now t) else Sub now t) <=? replayWindow) = true ↔
  fresh t now ∨ overflows t now.
Proof.
  unfold fresh, overflows.
  destruct (Z.lt_trichotomy (now - t) minDuration) as [H|[H|H]]; unfold minDuration in *.
  - rewrite (Sub_underflow now t H). change (_ <=? _) with true. lia.
  - rewrite Sub_exact by (unfold minDuration, maxDuration; lia). rewrite H.
    change (_ <=? _) with true. lia.
  - destruct (Z.le_gt_cases (now - t) maxDuration) as [Hm|Hm]; unfold maxDuration in *.
    + rewrite Sub_exact by (unfold minDuration, maxDuration; lia).
      destruct (Z.ltb_spec (now - t) 0).
      * unfold Neg. rewrite wrap64_small by lia. rewrite Z.leb_le. lia.
      * rewrite Z.leb_le. lia.
    + assert (E : Sub now t = maxDuration).
      { unfold Sub. rewrite (proj2 (Z.leb_gt (now - t) maxDuration)) by (unfold maxDuration; lia).
        rewrite andb_false_r, (proj2 (Z.ltb_ge now t)); [done|lia]. }
      rewrite E. change (_ <=? _) with false.
      unfold replayWindow, Minute, Second. split; [done|]. lia.
Qed.

Lemma tsInWindow_iff ts now :
  tsInWindow ts now = true ↔ ∃ t, parse_ts ts = Some t ∧ (fresh t now ∨ overflows t now).
Proof.
  unfold tsInWindow. destruct (parse_ts ts) as [t|]; [|naive_solver].
  rewrite window_cases. naive_solver.
Qed.

Lemma parse_ts_FormatUTC t : wire_time t → parse_ts (FormatUTC t) = Some (t / Second * Second).
Proof. intros H. unfold parse_ts, ParseRFC3339. by rewrite (parse_with_FormatUTC getzone t H). Qed.
