(* ===== verification/Crypto.v ===== *)
(** * The signature verifier (internal/crypto/crypto.go)

    Ed25519 itself is Go's crypto/ed25519: a parameter.  Keys, signatures and
    messages are byte strings. *)

From S2P Require Import Prelude GoStrings Codec Storage.

Local Open Scope Z_scope.

Class Ed25519 : Type := ed25519_Verify : string → string → string → bool.

Definition PublicKeySize : Z := 32.
Definition SignatureSize : Z := 64.

(** [mailbox.Verifier]: the key of the caller, "" when no signature verifies. *)
Class Verifier : Type := Identify : Pair → string → string → result string.

Definition ErrUnsupportedAlgorithm : error := ErrOther "crypto: unsupported sig_alg".
Definition ErrStoredPubkey : error := ErrOther "crypto: stored pubkey not base64url".
Definition ErrStoredPubkeySize : error := ErrOther "crypto: stored pubkey wrong size".

Section verifier.
Context {Ed : Ed25519}.

(** The loop over the two halves of the pair. *)
Fixpoint identify_halves (halves : list string) (message sig : string) : result string :=
  match halves with
  | [] => Ok ""
  | pubkey :: halves =>
      match decodeB64URL pubkey with
      | None => Err ErrStoredPubkey
      | Some pubBytes =>
          if negb (len pubBytes =? PublicKeySize) then Err ErrStoredPubkeySize
          else if ed25519_Verify pubBytes message sig then Ok pubkey
          else identify_halves halves message sig
      end
  end.

#[export] Instance EdVerifier : Verifier := λ pair signatureB64 message,
  if negb (String.eqb (p_SigAlg pair) "ed25519") then Err ErrUnsupportedAlgorithm
  else if String.eqb signatureB64 "" then Ok ""
  else
    match decodeB64URL signatureB64 with
    | None => Ok ""
    | Some sig =>
        if negb (len sig =? SignatureSize) then Ok ""
        else identify_halves [p_RequesterPubkey pair; p_OwnerPubkey pair] message sig
    end.

(** A base64url text of a 32-byte key. *)
Definition key_text (pubkey raw : string) : Prop :=
  decodeB64URL pubkey = Some raw ∧ len raw = PublicKeySize.

(** [sig] is a signature of [message] under the key [pubkey]. *)
Definition signs (pubkey sigB64 message : string) : Prop :=
  ∃ raw sig, key_text pubkey raw ∧ decodeB64URL sigB64 = Some sig ∧ len sig = SignatureSize ∧
    ed25519_Verify raw message sig = true.

Lemma identify_halves_sound halves message sig pk :
  identify_halves halves message sig = Ok pk → pk ≠ "" →
  pk ∈ halves ∧ ∃ raw, key_text pk raw ∧ ed25519_Verify raw message sig = true.
Proof.
  induction halves as [|k halves IH]; simpl; [naive_solver|].
  destruct (decodeB64URL k) as [raw|] eqn:D; [|done].
  destruct (len raw =? PublicKeySize) eqn:L; [|done]. simpl. bool_prop.
  destruct (ed25519_Verify raw message sig) eqn:V.
  - intros [= <-] _. split; [by left|]. by exists raw.
  - intros E Hne. destruct (IH E Hne) as [Hin Hex]. split; [by right|done].
Qed.

(** Keys of a well-formed pair. *)
Definition pair_keys_ok (pair : Pair) : Prop :=
  p_SigAlg pair = "ed25519"%string ∧
  (∃ raw, key_text (p_RequesterPubkey pair) raw) ∧ (∃ raw, key_text (p_OwnerPubkey pair) raw).

Lemma Identify_signed pair sigB64 message pk :
  EdVerifier pair sigB64 message = Ok pk → pk ≠ "" →
  (pk = p_RequesterPubkey pair ∨ pk = p_OwnerPubkey pair) ∧ signs pk sigB64 message.
Proof.
  unfold EdVerifier. destruct (negb _); [done|]. destruct (String.eqb sigB64 ""); [naive_solver|].
  destruct (decodeB64URL sigB64) as [sig|] eqn:D; [|naive_solver].
  destruct (len sig =? SignatureSize) eqn:L; cbn [negb]; [|naive_solver]. bool_prop.
  intros E Hne. apply identify_halves_sound in E as [Hin (raw & Hk & Hv)]; [|done]. split.
  - apply elem_of_cons in Hin as [->|Hin]; [by left|]. right.
    by apply list_elem_of_singleton in Hin.
  - by exists raw, sig.
Qed.

Lemma key_text_fun pk r r' : key_text pk r → key_text pk r' → r = r'.
Proof. intros [Hr _] [Hr' _]. congruence. Qed.

(** On a well-formed pair the verifier never fails, and it names the
    requester, the owner or nobody, in this order of preference. *)
Lemma Identify_complete pair sigB64 message :
  pair_keys_ok pair →
  ∃ pk, EdVerifier pair sigB64 message = Ok pk ∧
    (signs (p_RequesterPubkey pair) sigB64 message → pk = p_RequesterPubkey pair) ∧
    (signs (p_OwnerPubkey pair) sigB64 message →
     ¬ signs (p_RequesterPubkey pair) sigB64 message → pk = p_OwnerPubkey pair) ∧
    (¬ signs (p_RequesterPubkey pair) sigB64 message →
     ¬ signs (p_OwnerPubkey pair) sigB64 message → pk = ""%string).
Proof.
  intros (Halg & [rr Hr] & [ro Ho]). unfold EdVerifier. rewrite Halg. simpl.
  destruct (String.eqb_spec sigB64 "") as [->|Hne].
  { exists ""%string. split; [done|]. repeat split; try done.
    all: intros (? & ? & _ & D & L & _); vm_compute in D; injection D as <-; done. }
  destruct (decodeB64URL sigB64) as [sig|] eqn:D.
  2:{ exists ""%string. repeat split; try done; intros (? & ? & _ & D' & _); congruence. }
  destruct (len sig =? SignatureSize) eqn:L; simpl; bool_prop.
  2:{ exists ""%string. repeat split; try done; intros (? & ? & _ & D' & L' & _); congruence. }
  destruct Hr as [Dr Lr], Ho as [Do Lo]. rewrite Dr, Lr. simpl.
  assert (Hs : ∀ pk raw, key_text pk raw → signs pk sigB64 message ↔ ed25519_Verify raw message sig = true).
  { intros pk raw Hk. split.
    - intros (raw' & sig' & Hk' & D' & _ & V). rewrite (key_text_fun _ _ _ Hk Hk'). congruence.
    - intros V. by exists raw, sig. }
  pose proof (Hs _ rr (conj Dr Lr)) as Hr. pose proof (Hs _ ro (conj Do Lo)) as Ho. clear Hs.
  rewrite Do, Lo. simpl.
  destruct (ed25519_Verify rr message sig), (ed25519_Verify ro message sig); eexists;
    (split; [reflexivity|]); intuition congruence.
Qed.
End verifier.

(** [StubVerifier] of internal/mailbox/mailbox.go fails closed. *)
Definition StubVerifier : Verifier := λ _ _ _, Ok "".
