(* ===== verification/Mailbox.v ===== *)
(** * The mailbox (internal/mailbox/mailbox.go)

    PUT, GET and ack of a pair's mailbox, as programs over [Storage] and
    [Verifier].  Request bodies are decoded by the model of encoding/json. *)

From S2P Require Import Prelude GoStrings GoTime Codec Sha256 Json Http Storage Patterns Replay Crypto.

Local Open Scope Z_scope.

Definition maxAckBatch : Z := 100.

(** ** The outer envelope *)

Record OuterEnvelope : Type := MkOuterEnvelope {
  Version : string;
  MsgID : string;
  Ts : string;
  PathID : string;
  CiphertextSHA256 : string;
  Ciphertext : string
}.

Definition zeroOuter : OuterEnvelope := MkOuterEnvelope "" "" "" "" "" "".

Definition outer_fields : list (string * setter OuterEnvelope) := [
  ("version", str_field (λ x e, MkOuterEnvelope x (MsgID e) (Ts e) (PathID e) (CiphertextSHA256 e) (Ciphertext e)));
  ("msg_id", str_field (λ x e, MkOuterEnvelope (Version e) x (Ts e) (PathID e) (CiphertextSHA256 e) (Ciphertext e)));
  ("ts", str_field (λ x e, MkOuterEnvelope (Version e) (MsgID e) x (PathID e) (CiphertextSHA256 e) (Ciphertext e)));
  ("path_id", str_field (λ x e, MkOuterEnvelope (Version e) (MsgID e) (Ts e) x (CiphertextSHA256 e) (Ciphertext e)));
  ("ciphertext_sha256", str_field (λ x e, MkOuterEnvelope (Version e) (MsgID e) (Ts e) (PathID e) x (Ciphertext e)));
  ("ciphertext", str_field (λ x e, MkOuterEnvelope (Version e) (MsgID e) (Ts e) (PathID e) (CiphertextSHA256 e) x))
]%string.

Definition unmarshalOuter (s : string) : option OuterEnvelope :=
  Unmarshal (decode_struct outer_fields) zeroOuter s.

Definition validEnvelopeSchema (e : OuterEnvelope) : bool :=
  String.eqb (Version e) "1" &&
  negb (String.eqb (MsgID e) "") &&
  negb (String.eqb (Ts e) "") &&
  negb (String.eqb (PathID e) "") &&
  negb (String.eqb (CiphertextSHA256 e) "") &&
  negb (String.eqb (Ciphertext e) "").

(** The members in declaration order, without HTML escaping; encoding strings
    never fails. *)
Definition canonical_members (e : OuterEnvelope) : list (string * string) := [
  ("ciphertext", Ciphertext e);
  ("ciphertext_sha256", CiphertextSHA256 e);
  ("msg_id", MsgID e);
  ("path_id", PathID e);
  ("ts", Ts e);
  ("version", Version e)
]%string.

Definition canonicalJSON (e : OuterEnvelope) : string := encode_object false (canonical_members e).

(** ** Directions *)

Definition directionFrom (pair : Pair) (senderPubkey : string) : Direction :=
  if String.eqb senderPubkey (p_RequesterPubkey pair) then AToB
  else if String.eqb senderPubkey (p_OwnerPubkey pair) then BToA
  else "".

Definition readDirectionFor (pair : Pair) (callerPubkey : string) : Direction :=
  if String.eqb callerPubkey (p_RequesterPubkey pair) then BToA
  else if String.eqb callerPubkey (p_OwnerPubkey pair) then AToB
  else "".

(** ** Responses *)

Definition writeJSON (status : Z) (body : gojson) : Response :=
  MkResponse status [("Content-Type", "application/json; charset=utf-8")]%string (BJson body).

Definition errorJSON (status : Z) (msg : string) : Response :=
  writeJSON status (GMap [("error"%string, GStr msg)]).

(** The body of [ack]: [struct{ IDs []string }]. *)
Definition ids_fields : list (string * setter slice) := [("ids"%string, slice_field)].

Definition unmarshalIDs (s : string) : option (list string) :=
  elems <$> Unmarshal (decode_struct ids_fields) (Slice [] 0) s.

Section mailbox.
Context {St : Storage} {V : Verifier}.

(** [put]: PUT /mailbox/:pathId *)
Definition put (r : Request) (pathID : string) : Prog Response :=
  let! found := GetPair pathID in
  match found with
  | Err ErrNotFound => Ret (errorJSON StatusNotFound "pair_not_found")
  | Err _ => Ret (errorJSON StatusInternalServerError "storage_error")
  | Ok paired =>
  match ReadAllLimited r (Z.shiftl 2 20) with
  | None => Ret (errorJSON StatusBadRequest "body_read_failed")
  | Some body =>
  match unmarshalOuter body with
  | None => Ret (errorJSON StatusBadRequest "invalid_json")
  | Some env =>
  if negb (validEnvelopeSchema env) then Ret (errorJSON StatusBadRequest "invalid_envelope")
  else if negb (String.eqb (PathID env) pathID) then Ret (errorJSON StatusBadRequest "path_id_mismatch")
  else if negb (uuidv7Regex (MsgID env)) then Ret (errorJSON StatusBadRequest "invalid_msg_id")
  else
  let! now := call Now in
  if negb (tsInWindow (Ts env) now) then Ret (errorJSON StatusBadRequest "ts_out_of_window")
  else
  match decodeB64URL (Ciphertext env) with
  | None => Ret (errorJSON StatusBadRequest "ciphertext_not_base64url")
  | Some ctBytes =>
  if negb (String.eqb (hex_encode (sha256 ctBytes)) (CiphertextSHA256 env))
  then Ret (errorJSON StatusBadRequest "ciphertext_hash_mismatch")
  else
  let canonical := canonicalJSON env in
  let sigHeader := HeaderGet (Header r) "X-Nexus-Signature" in
  match Identify paired sigHeader canonical with
  | Err _ => Ret (errorJSON StatusInternalServerError "verifier_error")
  | Ok sender =>
  if String.eqb sender "" then Ret (errorJSON StatusUnauthorized "signature_invalid")
  else
  let direction := directionFrom paired sender in
  if String.eqb direction "" then Ret (errorJSON StatusUnauthorized "sender_not_in_pair")
  else
  let! receivedAt := call Now in
  let! err := InsertEnvelope
    (MkEnvelope (MsgID env) pathID direction receivedAt (Ciphertext env) sigHeader body) in
  match err with
  | Some ErrDuplicate => Ret (errorJSON StatusConflict "duplicate_msg_id")
  | Some _ => Ret (errorJSON StatusInternalServerError "storage_error")
  | None => Ret (writeJSON StatusAccepted (GMap [("msg_id"%string, GStr (MsgID env))]))
  end
  end
  end
  end
  end
  end.

(** The bytes a GET signs. *)
Definition signedTarget (r : Request) : string :=
  if String.eqb (RawQuery r) "" then Path r else Path r +:+ "?" +:+ RawQuery r.

(** The response of [get]: the stored bodies and the last id. *)
Definition listResponse (envelopes : list Envelope) : Response :=
  let outer := (λ e, GRaw (e_OuterJSON e)) <$> envelopes in
  let cursor := default ""%string (e_MsgID <$> last envelopes) in
  writeJSON StatusOK (GStruct [
    ("envelopes", GList outer);
    ("cursor", if String.eqb cursor "" then GNull else GStr cursor)]%string).

(** [get]: GET /mailbox/:pathId *)
Definition get (r : Request) (pathID : string) : Prog Response :=
  let! found := GetPair pathID in
  match found with
  | Err ErrNotFound => Ret (errorJSON StatusNotFound "pair_not_found")
  | Err _ => Ret (errorJSON StatusInternalServerError "storage_error")
  | Ok paired =>
  let sigHeader := HeaderGet (Header r) "X-Nexus-Signature" in
  match Identify paired sigHeader (signedTarget r) with
  | Err _ => Ret (errorJSON StatusInternalServerError "verifier_error")
  | Ok caller =>
  if String.eqb caller "" then Ret (errorJSON StatusUnauthorized "signature_invalid")
  else
  let since := QueryGet r "since" in
  if negb (String.eqb since "") && negb (uuidv7Regex since)
  then Ret (errorJSON StatusBadRequest "invalid_since")
  else
  let readDirection := readDirectionFor paired caller in
  if String.eqb readDirection "" then Ret (errorJSON StatusUnauthorized "caller_not_in_pair")
  else
  let! envelopes := ListEnvelopes pathID readDirection since in
  match envelopes with
  | Err _ => Ret (errorJSON StatusInternalServerError "storage_error")
  | Ok envelopes => Ret (listResponse envelopes)
  end
  end
  end.

Definition evictedResponse (n : Z) : Response :=
  writeJSON StatusOK (GMap [("evicted"%string, GInt n)]).

(** [ack]: POST /mailbox/:pathId/ack *)
Definition ack (r : Request) (pathID : string) : Prog Response :=
  let! found := GetPair pathID in
  match found with
  | Err ErrNotFound => Ret (errorJSON StatusNotFound "pair_not_found")
  | Err _ => Ret (errorJSON StatusInternalServerError "storage_error")
  | Ok paired =>
  let sigHeader := HeaderGet (Header r) "X-Nexus-Signature" in
  match Identify paired sigHeader (Path r) with
  | Err _ => Ret (errorJSON StatusInternalServerError "verifier_error")
  | Ok caller =>
  if String.eqb caller "" then Ret (errorJSON StatusUnauthorized "signature_invalid")
  else
  match ReadAllLimited r (64 * 1024) with
  | None => Ret (errorJSON StatusBadRequest "body_read_failed")
  | Some raw =>
  match unmarshalIDs raw with
  | None => Ret (errorJSON StatusBadRequest "invalid_json")
  | Some ids =>
  if Z.of_nat (length ids) =? 0 then Ret (evictedResponse 0)
  else if maxAckBatch <? Z.of_nat (length ids)
  then Ret (writeJSON StatusBadRequest
              (GMap [("error", GStr "too_many_ids"); ("max", GInt maxAckBatch)]%string))
  else
  let readDirection := readDirectionFor paired caller in
  if String.eqb readDirection "" then Ret (errorJSON StatusUnauthorized "caller_not_in_pair")
  else
  let! mine := ListEnvelopes pathID readDirection "" in
  match mine with
  | Err _ => Ret (errorJSON StatusInternalServerError "storage_error")
  | Ok mine =>
  let toDelete := filter (λ i, i ∈ ids) (e_MsgID <$> mine) in
  let! evicted := DeleteEnvelopesByMsgID pathID toDelete in
  match evicted with
  | Err _ => Ret (errorJSON StatusInternalServerError "storage_error")
  | Ok n => Ret (evictedResponse n)
  end
  end
  end
  end
  end
  end.

(** [dispatch] *)
Definition dispatch (r : Request) : Prog Response :=
  let trimmed := TrimPrefix (Path r) "/mailbox/" in
  if String.eqb trimmed (Path r) then Ret HttpNotFound
  else
  match Split trimmed "/" with
  | [] => Ret (HttpError "missing_path_id" StatusBadRequest)
  | pathID :: rest =>
      if String.eqb pathID "" then Ret (HttpError "missing_path_id" StatusBadRequest)
      else if negb (pathIDRegex pathID) then Ret (errorJSON StatusBadRequest "invalid_path_id")
      else
      match rest with
      | [] =>
          if String.eqb (Method r) MethodPut then put r pathID
          else if String.eqb (Method r) MethodGet then get r pathID
          else Ret (HttpErrorWith [("Allow", "PUT, GET")]%string "method not allowed" StatusMethodNotAllowed)
      | [verb] =>
          if String.eqb verb "ack" && String.eqb (Method r) MethodPost then ack r pathID
          else Ret HttpNotFound
      | _ => Ret HttpNotFound
      end
  end.
End mailbox.
