(* ===== verification/MailboxSpec.v ===== *)
(** * Correctness of the mailbox

    What PUT, GET and ack do to the store, for every implementation of
    [Storage] that keeps [StorageLaws]. *)

From S2P Require Import Prelude GoStrings GoTime Codec Sha256 Json Http Storage Sql StoreSpec.
From S2P Require Import Patterns Replay Crypto Mailbox.

Local Open Scope Z_scope.

(** An envelope PUT accepts: the request [r] at [pathID], at the time [now]. *)
Record acceptable `{Verifier} (s : Store) (r : Request) (pathID : string) (now : Time)
    (paired : Pair) (body : string) (env : OuterEnvelope) (sender : string) : Prop := Acceptable {
  acc_pair : s_pairs s !! pathID = Some paired;
  acc_body : ReadAllLimited r (Z.shiftl 2 20) = Some body;
  acc_json : unmarshalOuter body = Some env;
  acc_schema : validEnvelopeSchema env = true;
  acc_path : PathID env = pathID;
  acc_id : uuidv7Regex (MsgID env) = true;
  acc_ts : tsInWindow (Ts env) now = true;
  acc_hash : ∃ ct, decodeB64URL (Ciphertext env) = Some ct ∧
    hex_encode (sha256 ct) = CiphertextSHA256 env;
  acc_sender : Identify paired (HeaderGet (Header r) "X-Nexus-Signature") (canonicalJSON env) = Ok sender;
  acc_known : sender ≠ ""%string;
  acc_member : sender = p_RequesterPubkey paired ∨ sender = p_OwnerPubkey paired
}.

(** What is accepted is decided by the request and the pair. *)
Lemma acceptable_fun `{V : Verifier} s r pathID now paired body env sender paired' body' env' sender' :
  acceptable s r pathID now paired body env sender → acceptable s r pathID now paired' body' env' sender' →
  paired' = paired ∧ body' = body ∧ env' = env ∧ sender' = sender.
Proof.
  intros [H1 H2 H3 _ _ _ _ _ H4 _ _] [H1' H2' H3' _ _ _ _ _ H4' _ _].
  assert (paired' = paired) as -> by congruence. assert (body' = body) as -> by congruence.
  assert (env' = env) as -> by congruence. split_and!; congruence.
Qed.

(** The row PUT writes. *)
Definition posted (r : Request) (pathID : string) (paired : Pair) (body : string) (env : OuterEnvelope)
    (sender : string) (now : Time) : Envelope :=
  stored_envelope (MkEnvelope (MsgID env) pathID (directionFrom paired sender) now (Ciphertext env)
    (HeaderGet (Header r) "X-Nexus-Signature") body).

Lemma directionFrom_member paired pk :
  directionFrom paired pk ≠ ""%string ↔ pk = p_RequesterPubkey paired ∨ pk = p_OwnerPubkey paired.
Proof.
  unfold directionFrom.
  destruct (String.eqb_spec pk (p_RequesterPubkey paired)), (String.eqb_spec pk (p_OwnerPubkey paired));
    naive_solver.
Qed.

Lemma readDirection_member paired pk :
  readDirectionFor paired pk ≠ ""%string ↔ pk = p_RequesterPubkey paired ∨ pk = p_OwnerPubkey paired.
Proof.
  unfold readDirectionFor.
  destruct (String.eqb_spec pk (p_RequesterPubkey paired)), (String.eqb_spec pk (p_OwnerPubkey paired));
    naive_solver.
Qed.

(** Tests of strings against constants, as propositions. *)
Ltac test_string :=
  match goal with
  | |- context [String.eqb ?a ?b] => destruct (String.eqb_spec a b); cbn [negb andb]
  end.

Section mailbox_spec.
Context `{St : Storage, V : Verifier} (e : Env) (represents : DB → Store → Prop)
  `{!StorageLaws e represents}.

Definition clock (w : World) : Time := env_clock e (w_ticks w).

(** PUT, answer by answer. *)
Inductive put_outcome (r : Request) (pathID : string) (s : Store) (w : World) : Response * World → Prop :=
| PutStored paired body env sender w' :
    acceptable s r pathID (clock w) paired body env sender →
    s_envelopes s !! MsgID env = None →
    represents (w_db w') (with_envelopes
      (<[MsgID env := posted r pathID paired body env sender (env_clock e (S (w_ticks w)))]>
        (s_envelopes s)) s) →
    put_outcome r pathID s w (writeJSON StatusAccepted (GMap [("msg_id"%string, GStr (MsgID env))]), w')
| PutDuplicate paired body env sender w' :
    acceptable s r pathID (clock w) paired body env sender →
    is_Some (s_envelopes s !! MsgID env) →
    represents (w_db w') s →
    put_outcome r pathID s w (errorJSON StatusConflict "duplicate_msg_id", w')
| PutRejected status code w' :
    (∀ paired body env sender, ¬ acceptable s r pathID (clock w) paired body env sender) →
    status ∈ [StatusBadRequest; StatusUnauthorized; StatusNotFound; StatusInternalServerError] →
    represents (w_db w') s →
    put_outcome r pathID s w (errorJSON status code, w')
| PutFault w' :
    ¬ quiet e →
    represents (w_db w') s →
    put_outcome r pathID s w (errorJSON StatusInternalServerError "storage_error", w').

Lemma put_rejected r pathID s w w' status code :
  (∀ paired body env sender, acceptable s r pathID (clock w) paired body env sender → False) →
  status ∈ [StatusBadRequest; StatusUnauthorized; StatusNotFound; StatusInternalServerError] →
  represents (w_db w') s →
  put_outcome r pathID s w (run e (Ret (errorJSON status code)) w').
Proof. intros. by apply PutRejected. Qed.

(** A branch that rejects: the failed test contradicts acceptability. *)
Ltac rejected :=
  apply put_rejected;
  [ intros ???? [????? ?? (? & ? & ?) ?? Hmember]; unfold clock in *; simplify_eq; same_result; try done; try congruence;
    try (by destruct (proj2 (directionFrom_member _ _) Hmember))
  | set_solver
  | done ].

Lemma put_run r pathID s w :
  wire_clock e → represents (w_db w) s → put_outcome r pathID s w (run e (put r pathID) w).
Proof.
  intros Hc Hr. unfold put. change (GetPair pathID) with (method (OpGetPair pathID)). rewrite run_bind.
  destruct (method_cases e represents (OpGetPair pathID) s w Hr I)
    as [(w1 & -> & [H1 T1 _])|(msg & w1 & -> & [H1 T1 _] & Hq)]; [|by apply PutFault].
  cbn [performed fst snd] in *. destruct (s_pairs s !! pathID) as [paired|] eqn:Hp; cbn [found]; [|rejected].
  destruct (ReadAllLimited r _) as [body|] eqn:Hb; [|rejected].
  destruct (unmarshalOuter body) as [env|] eqn:Hj; [|rejected].
  destruct (validEnvelopeSchema env) eqn:Hs; cbn [negb]; [|rejected].
  destruct (String.eqb_spec (PathID env) pathID) as [Hpath|Hpath]; cbn [negb]; [|rejected].
  destruct (uuidv7Regex (MsgID env)) eqn:Hu; cbn [negb]; [|rejected].
  rewrite run_bind, run_call. cbn [exec]. rewrite T1.
  destruct (tsInWindow (Ts env) (env_clock e (w_ticks w))) eqn:Hw; cbn [negb]; [|rejected].
  destruct (decodeB64URL (Ciphertext env)) as [ct|] eqn:Hct; [|rejected].
  destruct (String.eqb_spec (hex_encode (sha256 ct)) (CiphertextSHA256 env)) as [Hh|Hh]; cbn [negb]; [|rejected].
  destruct (Identify paired _ _) as [sender|err] eqn:Hi; [|rejected].
  destruct (String.eqb_spec sender "") as [Hn|Hn]; [rejected|].
  destruct (String.eqb_spec (directionFrom paired sender) "") as [Hd|Hd].
  { rejected. }
  assert (Ha : acceptable s r pathID (clock w) paired body env sender).
  { constructor; try done; [by exists ct|]. by apply directionFrom_member. }
  rewrite run_bind, run_call. cbn [exec]. rewrite run_bind.
  set (env_row := MkEnvelope _ _ _ _ _ _ _).
  change (InsertEnvelope env_row) with (method (OpInsertEnvelope env_row)).
  set (w2 := next_tick (next_tick w1)).
  destruct (method_cases e represents (OpInsertEnvelope env_row) s w2 H1 (Hc _))
    as [(w3 & -> & [H3 _ _])|(msg & w3 & -> & [H3 _ _] & Hq)]; [|by apply PutFault].
  revert H3. cbn [performed]. unfold spec_insert. change (e_MsgID env_row) with (MsgID env).
  destruct (s_envelopes s !! MsgID env) as [old|] eqn:Ho; cbn [fst snd run]; intros H3.
  - by eapply PutDuplicate.
  - eapply PutStored; [done..|]. unfold posted. subst env_row. by rewrite <- T1.
Qed.

(** *** GET and ack *)

(** The caller of a GET or ack: the paired key that signed [message]. *)
Record authentic (s : Store) (r : Request) (pathID message : string) (paired : Pair) (caller : string) :
    Prop := Authentic {
  aut_pair : s_pairs s !! pathID = Some paired;
  aut_caller : Identify paired (HeaderGet (Header r) "X-Nexus-Signature") message = Ok caller;
  aut_known : caller ≠ ""%string;
  aut_member : caller = p_RequesterPubkey paired ∨ caller = p_OwnerPubkey paired
}.

Definition valid_since (r : Request) : Prop :=
  QueryGet r "since" = ""%string ∨ uuidv7Regex (QueryGet r "since") = true.

Inductive get_outcome (r : Request) (pathID : string) (s : Store) : Response * World → Prop :=
| GetListed paired caller w' :
    authentic s r pathID (signedTarget r) paired caller →
    valid_since r →
    represents (w_db w') s →
    get_outcome r pathID s (listResponse (firstn pageSize
      (inbox pathID (readDirectionFor paired caller) (QueryGet r "since") s)), w')
| GetRejected status code w' :
    (∀ paired caller, authentic s r pathID (signedTarget r) paired caller → ¬ valid_since r) →
    status ∈ [StatusBadRequest; StatusUnauthorized; StatusNotFound; StatusInternalServerError] →
    represents (w_db w') s →
    get_outcome r pathID s (errorJSON status code, w')
| GetFault w' :
    ¬ quiet e → represents (w_db w') s →
    get_outcome r pathID s (errorJSON StatusInternalServerError "storage_error", w').

Lemma get_run r pathID s w : represents (w_db w) s → get_outcome r pathID s (run e (get r pathID) w).
Proof.
  intros Hr. unfold get. change (GetPair pathID) with (method (OpGetPair pathID)). rewrite run_bind.
  destruct (method_cases e represents (OpGetPair pathID) s w Hr I)
    as [(w1 & -> & [H1 T1 _])|(msg & w1 & -> & [H1 T1 _] & Hq)]; [|by apply GetFault].
  cbn [performed fst snd] in *. destruct (s_pairs s !! pathID) as [paired|] eqn:Hp; cbn [found].
  2:{ apply GetRejected; [|set_solver|done]. intros ?? [??]. congruence. }
  destruct (Identify paired _ _) as [caller|err] eqn:Hi.
  2:{ apply GetRejected; [|set_solver|done]. intros ?? [? Hi' _]. simplify_eq. congruence. }
  assert (Hrej : ∀ status code,
    (caller ≠ ""%string → readDirectionFor paired caller ≠ ""%string → ¬ valid_since r) →
    status ∈ [StatusBadRequest; StatusUnauthorized; StatusNotFound; StatusInternalServerError] →
    get_outcome r pathID s (run e (Ret (errorJSON status code)) w1)).
  { intros status code Hno Hst. apply GetRejected; [|done..]. intros paired' caller' [Hp' Hi' Hn' Hm'].
    simplify_eq. same_result. apply Hno; [done|]. by apply readDirection_member. }
  destruct (String.eqb_spec caller "") as [Hn|Hn]; [by apply Hrej; [|set_solver]|].
  destruct (negb (String.eqb (QueryGet r "since") "") && negb (uuidv7Regex (QueryGet r "since"))) eqn:Hs.
  { apply Hrej; [|set_solver]. bool_prop. intros _ _ [?|?]; congruence. }
  destruct (String.eqb_spec (readDirectionFor paired caller) "") as [Hd|Hd]; [by apply Hrej; [|set_solver]|].
  rewrite run_bind. set (op := OpListEnvelopes pathID (readDirectionFor paired caller) (QueryGet r "since")).
  change (ListEnvelopes _ _ _) with (method op).
  destruct (method_cases e represents op s w1 H1 I)
    as [(w2 & -> & [H2 _ _])|(msg & w2 & -> & [H2 _ _] & Hq)]; [|by apply GetFault].
  cbn. apply GetListed; [|destruct (String.eqb_spec (QueryGet r "since") "") as [E|E]; [by left|]|done].
  - constructor; try done. by apply readDirection_member.
  - right. by destruct (uuidv7Regex (QueryGet r "since")).
Qed.

(** The ids an ack evicts: the listed ones on the first page of the inbox. *)
Definition evictable (pathID : string) (dir : Direction) (ids : list string) (s : Store) : list string :=
  filter (λ i, i ∈ ids) (e_MsgID <$> firstn pageSize (inbox pathID dir "" s)).

Definition ack_ids (r : Request) : option (list string) :=
  raw ← ReadAllLimited r (64 * 1024); unmarshalIDs raw.

Inductive ack_outcome (r : Request) (pathID : string) (s : Store) : Response * World → Prop :=
| AckEvicted paired caller ids w' :
    authentic s r pathID (Path r) paired caller →
    ack_ids r = Some ids → 0 < Z.of_nat (length ids) <= maxAckBatch →
    let gone := acked pathID (evictable pathID (readDirectionFor paired caller) ids s) in
    represents (w_db w') (snd (spec_delete gone s)) →
    ack_outcome r pathID s (evictedResponse (Z.of_nat (size (filter gone (s_envelopes s)))), w')
| AckEmpty paired caller w' :
    s_pairs s !! pathID = Some paired →
    Identify paired (HeaderGet (Header r) "X-Nexus-Signature") (Path r) = Ok caller → caller ≠ ""%string →
    ack_ids r = Some [] →
    represents (w_db w') s →
    ack_outcome r pathID s (evictedResponse 0, w')
| AckRejected resp w' :
    (∀ paired caller ids, authentic s r pathID (Path r) paired caller → ack_ids r = Some ids →
      maxAckBatch < Z.of_nat (length ids)) →
    Status resp ∈ [StatusBadRequest; StatusUnauthorized; StatusNotFound; StatusInternalServerError] →
    represents (w_db w') s →
    ack_outcome r pathID s (resp, w')
| AckFault w' :
    ¬ quiet e → represents (w_db w') s →
    ack_outcome r pathID s (errorJSON StatusInternalServerError "storage_error", w').

Lemma ack_rejected r pathID s w' resp :
  (∀ paired caller ids, authentic s r pathID (Path r) paired caller → ack_ids r = Some ids →
    maxAckBatch < Z.of_nat (length ids)) →
  Status resp ∈ [StatusBadRequest; StatusUnauthorized; StatusNotFound; StatusInternalServerError] →
  represents (w_db w') s →
  ack_outcome r pathID s (run e (Ret resp) w').
Proof. intros. by apply AckRejected. Qed.

(** The two statements after the checks. *)
Lemma ack_evict r pathID s w paired caller ids :
  authentic s r pathID (Path r) paired caller →
  ack_ids r = Some ids → 0 < Z.of_nat (length ids) <= maxAckBatch →
  represents (w_db w) s →
  ack_outcome r pathID s (run e
    (let! mine := ListEnvelopes pathID (readDirectionFor paired caller) "" in
     match mine with
     | Err _ => Ret (errorJSON StatusInternalServerError "storage_error")
     | Ok mine =>
     let toDelete := filter (λ i, i ∈ ids) (e_MsgID <$> mine) in
     let! evicted := DeleteEnvelopesByMsgID pathID toDelete in
     match evicted with
     | Err _ => Ret (errorJSON StatusInternalServerError "storage_error")
     | Ok n => Ret (evictedResponse n)
     end
     end) w).
Proof.
  intros Ha Hi Hn Hr. rewrite run_bind.
  set (op := OpListEnvelopes pathID (readDirectionFor paired caller) "").
  change (ListEnvelopes _ _ _) with (method op).
  destruct (method_cases e represents op s w Hr I)
    as [(w2 & -> & [H2 _ _])|(msg & w2 & -> & [H2 _ _] & Hq)]; [|by apply AckFault].
  cbn [performed op fst snd]. rewrite run_bind.
  set (op2 := OpDeleteByMsgID pathID (evictable pathID (readDirectionFor paired caller) ids s)).
  change (DeleteEnvelopesByMsgID _ _) with (method op2).
  destruct (method_cases e represents op2 s w2 H2 I)
    as [(w3 & -> & [H3 _ _])|(msg & w3 & -> & [H3 _ _] & Hq)]; [|by apply AckFault].
  by apply (AckEvicted r pathID s paired caller ids w3).
Qed.

Lemma ack_run r pathID s w : represents (w_db w) s → ack_outcome r pathID s (run e (ack r pathID) w).
Proof.
  intros Hr. unfold ack. change (GetPair pathID) with (method (OpGetPair pathID)). rewrite run_bind.
  destruct (method_cases e represents (OpGetPair pathID) s w Hr I)
    as [(w1 & -> & [H1 T1 _])|(msg & w1 & -> & [H1 T1 _] & Hq)]; [|by apply AckFault].
  cbn [performed fst snd] in *. destruct (s_pairs s !! pathID) as [paired|] eqn:Hp; cbn [found].
  2:{ apply ack_rejected; [|set_solver|done]. intros ??? [??]. congruence. }
  destruct (Identify paired _ _) as [caller|err] eqn:Hi.
  2:{ apply ack_rejected; [|set_solver|done]. intros ??? [? Hi' _]. simplify_eq. congruence. }
  assert (Hrej : ∀ resp,
    (∀ ids, caller ≠ ""%string → readDirectionFor paired caller ≠ ""%string → ack_ids r = Some ids →
      maxAckBatch < Z.of_nat (length ids)) →
    Status resp ∈ [StatusBadRequest; StatusUnauthorized; StatusNotFound; StatusInternalServerError] →
    ack_outcome r pathID s (run e (Ret resp) w1)).
  { intros resp Hno Hst. apply ack_rejected; [|done..]. intros paired' caller' ids [Hp' Hi' Hn' Hm'].
    simplify_eq. same_result. apply Hno; [done|]. by apply readDirection_member. }
  destruct (String.eqb_spec caller "") as [Hn|Hn]; [by apply Hrej; [|set_solver]|].
  unfold ack_ids in *.
  destruct (ReadAllLimited r (64 * 1024)) as [raw|] eqn:Hb; simpl in *; [|by apply Hrej; [|set_solver]].
  destruct (unmarshalIDs raw) as [ids|] eqn:Hj; [|by apply Hrej; [|set_solver]].
  destruct (Z.eqb_spec (Z.of_nat (length ids)) 0) as [E0|E0].
  { destruct ids; [|done].
    by apply (AckEmpty _ _ _ paired caller); [..|unfold ack_ids; rewrite Hb|]. }
  destruct (Z.ltb_spec maxAckBatch (Z.of_nat (length ids))) as [Hm|Hm].
  { apply Hrej; [|set_solver]. intros. simplify_eq. done. }
  destruct (String.eqb_spec (readDirectionFor paired caller) "") as [Hd|Hd]; [by apply Hrej; [|set_solver]|].
  apply ack_evict; [|by unfold ack_ids; rewrite Hb|lia|done].
  constructor; try done. by apply readDirection_member.
Qed.
End mailbox_spec.
