(* ===== verification/Pairflow.v ===== *)
(** * Pairing (internal/pairflow/pairflow.go)

    The staged approval of pairs: request, poll, list, approve, deny, as
    programs over [Storage]; halves, their signature preimages, their stored
    form, and the derivation of the path id. *)

From S2P Require Import Prelude GoStrings GoTime Codec Sha256 Json Http Storage Patterns Replay Crypto Mailbox.

Local Open Scope Z_scope.

Definition requestTTL : Duration := 24 * Hour.
Definition maxBodySize : Z := 64 * 1024.

(** ** Halves *)

Record half : Type := MkHalf {
  NexusID : string;
  SigAlg : string;
  Pubkey : string;
  DhAlg : string;
  DhPubkey : string;
  Endpoint : string;
  Nonce : string;
  HTs : string;
  SelfSig : string;
  pubkeyRaw : string
}.

Definition zeroHalf : half := MkHalf "" "" "" "" "" "" "" "" "" "".

Definition set_pubkeyRaw (raw : string) (h : half) : half :=
  MkHalf (NexusID h) (SigAlg h) (Pubkey h) (DhAlg h) (DhPubkey h) (Endpoint h) (Nonce h) (HTs h) (SelfSig h) raw.

(** The fields encoding/json fills; pubkeyRaw is not exported. *)
Definition half_fields : list (string * setter half) := [
  ("nexus_id", str_field (λ x h, MkHalf x (SigAlg h) (Pubkey h) (DhAlg h) (DhPubkey h) (Endpoint h) (Nonce h) (HTs h) (SelfSig h) (pubkeyRaw h)));
  ("sig_alg", str_field (λ x h, MkHalf (NexusID h) x (Pubkey h) (DhAlg h) (DhPubkey h) (Endpoint h) (Nonce h) (HTs h) (SelfSig h) (pubkeyRaw h)));
  ("pubkey", str_field (λ x h, MkHalf (NexusID h) (SigAlg h) x (DhAlg h) (DhPubkey h) (Endpoint h) (Nonce h) (HTs h) (SelfSig h) (pubkeyRaw h)));
  ("dh_alg", str_field (λ x h, MkHalf (NexusID h) (SigAlg h) (Pubkey h) x (DhPubkey h) (Endpoint h) (Nonce h) (HTs h) (SelfSig h) (pubkeyRaw h)));
  ("dh_pubkey", str_field (λ x h, MkHalf (NexusID h) (SigAlg h) (Pubkey h) (DhAlg h) x (Endpoint h) (Nonce h) (HTs h) (SelfSig h) (pubkeyRaw h)));
  ("endpoint", str_field (λ x h, MkHalf (NexusID h) (SigAlg h) (Pubkey h) (DhAlg h) (DhPubkey h) x (Nonce h) (HTs h) (SelfSig h) (pubkeyRaw h)));
  ("nonce", str_field (λ x h, MkHalf (NexusID h) (SigAlg h) (Pubkey h) (DhAlg h) (DhPubkey h) (Endpoint h) x (HTs h) (SelfSig h) (pubkeyRaw h)));
  ("ts", str_field (λ x h, MkHalf (NexusID h) (SigAlg h) (Pubkey h) (DhAlg h) (DhPubkey h) (Endpoint h) (Nonce h) x (SelfSig h) (pubkeyRaw h)));
  ("self_sig", str_field (λ x h, MkHalf (NexusID h) (SigAlg h) (Pubkey h) (DhAlg h) (DhPubkey h) (Endpoint h) (Nonce h) (HTs h) x (pubkeyRaw h)))
]%string.

Definition unmarshalHalf (s : string) : option half := Unmarshal (decode_struct half_fields) zeroHalf s.

Definition isEmpty (s : string) : bool := String.eqb s "".

(** [parseHalf]: the half with its decoded key, or the error code. *)
Definition parseHalf (h : half) : half + string :=
  if isEmpty (NexusID h) || isEmpty (SigAlg h) || isEmpty (Pubkey h) || isEmpty (Nonce h) ||
     isEmpty (HTs h) || isEmpty (SelfSig h) then inr "missing_fields"%string
  else if 256 <? len (NexusID h) then inr "nexus_id_too_long"%string
  else if 1024 <? len (Endpoint h) then inr "endpoint_too_long"%string
  else if negb (String.eqb (SigAlg h) "ed25519") then inr "unsupported_sig_alg"%string
  else
  match decodeB64URL (Pubkey h) with
  | None => inr "pubkey_not_base64url"%string
  | Some pub =>
  if negb (len pub =? PublicKeySize) then inr "pubkey_length"%string
  else
  let h := set_pubkeyRaw pub h in
  if negb (isEmpty (DhAlg h)) || negb (isEmpty (DhPubkey h)) then
    if isEmpty (DhAlg h) || isEmpty (DhPubkey h) then inr "dh_alg_or_dh_pubkey_missing"%string
    else if 32 <? len (DhAlg h) then inr "dh_alg_too_long"%string
    else if 256 <? len (DhPubkey h) then inr "dh_pubkey_too_long"%string
    else match decodeB64URL (DhPubkey h) with
         | None => inr "dh_pubkey_not_base64url"%string
         | Some _ => inl h
         end
  else inl h
  end.

Definition newline : string := String "010" "".

Definition canonicalBytesV1 (h : half) : string :=
  Join ["v1"; NexusID h; SigAlg h; Pubkey h; Endpoint h; Nonce h; HTs h]%string newline.

Definition canonicalBytesV2 (h : half) : string :=
  Join ["v2"; NexusID h; SigAlg h; Pubkey h; DhAlg h; DhPubkey h; Endpoint h; Nonce h; HTs h]%string newline.

(** [halfToWire]: a Go map; the encoder sorts its keys. *)
Definition halfToWire (h : half) : gojson :=
  GMap ([("nexus_id", GStr (NexusID h)); ("sig_alg", GStr (SigAlg h)); ("pubkey", GStr (Pubkey h));
         ("endpoint", GStr (Endpoint h)); ("nonce", GStr (Nonce h)); ("ts", GStr (HTs h));
         ("self_sig", GStr (SelfSig h))]%string ++
        (if isEmpty (DhAlg h) then [] else [("dh_alg"%string, GStr (DhAlg h))]) ++
        (if isEmpty (DhPubkey h) then [] else [("dh_pubkey"%string, GStr (DhPubkey h))])).

(** [serializeHalf]: [json.Marshal] (with HTML escaping), [omitempty] on the
    two Diffie-Hellman fields. *)
Definition half_members (h : half) : list (string * string) :=
  [("nexus_id", NexusID h); ("sig_alg", SigAlg h); ("pubkey", Pubkey h)]%string ++
  (if isEmpty (DhAlg h) then [] else [("dh_alg"%string, DhAlg h)]) ++
  (if isEmpty (DhPubkey h) then [] else [("dh_pubkey"%string, DhPubkey h)]) ++
  [("endpoint", Endpoint h); ("nonce", Nonce h); ("ts", HTs h); ("self_sig", SelfSig h)]%string.

Definition serializeHalf (h : half) : string := encode_object true (half_members h).

Definition parsedRequesterHalf (stored : string) : gojson :=
  match unmarshalHalf stored with
  | Some h => halfToWire h
  | None => GMap []
  end.

(** ** Path ids *)

(** [bytesLess]: the first difference decides, else the length. *)
Fixpoint bytesLess (a b : string) : bool :=
  match a, b with
  | String x a, String y b => if negb (Ascii.eqb x y) then code x <? code y else bytesLess a b
  | a, b => len a <? len b
  end.

Definition computePathID (a b : string) : string :=
  let '(first, second) := if bytesLess b a then (b, a) else (a, b) in
  "nxc_" +:+ RawURLEncode (sha256 (first +:+ second)).

(** ** Request ids *)

(** [newUUIDv4] of the 16 bytes [rand.Read] delivers. *)
Definition set_version (c : ascii) : ascii := chr (Z.lor (Z.land (code c) 15) 64).
Definition set_variant (c : ascii) : ascii := chr (Z.lor (Z.land (code c) 63) 128).

Definition newUUIDv4 (b : string) : string :=
  let byte (i : nat) := default "000"%char (String.get i b) in
  let b := take_bytes 6 b +:+ String (set_version (byte 6%nat))
             (String (byte 7%nat) (String (set_variant (byte 8%nat)) (drop_bytes 9 b))) in
  let part (i n : nat) := hex_encode (take_bytes n (drop_bytes i b)) in
  part 0%nat 4%nat +:+ "-" +:+ part 4%nat 2%nat +:+ "-" +:+ part 6%nat 2%nat +:+ "-" +:+
  part 8%nat 2%nat +:+ "-" +:+ part 10%nat 6%nat.

(** ** Bodies *)

Record createBody : Type := MkCreateBody { TargetNexusID : string; Requester : half }.

Definition create_fields : list (string * setter createBody) := [
  ("target_nexus_id", str_field (λ x b, MkCreateBody x (Requester b)));
  ("requester", sub_field Requester (λ h b, MkCreateBody (TargetNexusID b) h) (decode_struct half_fields))
]%string.

Definition unmarshalCreate (s : string) : option createBody :=
  Unmarshal (decode_struct create_fields) (MkCreateBody "" zeroHalf) s.

(** [struct{ Owner half }] *)
Definition approve_fields : list (string * setter half) := [
  ("owner", sub_field (λ h, h) (λ h _, h) (decode_struct half_fields))
]%string.

Definition unmarshalApprove (s : string) : option half :=
  Unmarshal (decode_struct approve_fields) zeroHalf s.

(** [now.Add(requestTTL).UTC().Format(time.RFC3339)]: seconds, and Z for UTC. *)
Definition formatRFC3339 (t : Time) : string := FormatUTC t.

(** ** The handlers *)

Section pairflow.
Context `{St : Storage} `{Ed : Ed25519}.

(** [Handler.OwnerSecret] *)
Context (OwnerSecret : string).

(** [verifySelfSig]: the v2 preimage when a Diffie-Hellman key is present. *)
Definition verifySelfSig (h : half) : bool :=
  match decodeB64URL (SelfSig h) with
  | None => false
  | Some sig =>
      if negb (len sig =? SignatureSize) then false
      else if negb (isEmpty (DhPubkey h)) then ed25519_Verify (pubkeyRaw h) (canonicalBytesV2 h) sig
      else ed25519_Verify (pubkeyRaw h) (canonicalBytesV1 h) sig
  end.

(** POST /pair/request *)
Definition createRequest (r : Request) : Prog Response :=
  match ReadAllLimited r maxBodySize with
  | None => Ret (errorJSON StatusBadRequest "body_read_failed")
  | Some raw =>
  match unmarshalCreate raw with
  | None => Ret (errorJSON StatusBadRequest "invalid_json")
  | Some body =>
  if isEmpty (TargetNexusID body) then Ret (errorJSON StatusBadRequest "missing_target")
  else if 256 <? len (TargetNexusID body)
  then Ret (errorJSON StatusBadRequest "target_nexus_id_too_long")
  else
  match parseHalf (Requester body) with
  | inr errCode => Ret (errorJSON StatusBadRequest errCode)
  | inl parsed =>
  let! now := call Now in
  if negb (tsInWindow (HTs parsed) now) then Ret (errorJSON StatusBadRequest "ts_out_of_window")
  else if negb (verifySelfSig parsed) then Ret (errorJSON StatusBadRequest "bad_self_sig")
  else
  let requesterJSON := serializeHalf parsed in
  let! requestID := call GenID in
  let! now := call Now in
  let! err := InsertPairRequest (MkPairRequest requestID StatusPending now (Add now requestTTL)
                 "" requesterJSON "" (TargetNexusID body)) in
  match err with
  | Some ErrDuplicate => Ret (errorJSON StatusInternalServerError "request_id_collision")
  | Some _ => Ret (errorJSON StatusInternalServerError "storage_error")
  | None => Ret (writeJSON StatusCreated (GMap [
      ("request_id", GStr requestID); ("status", GStr StatusPending);
      ("expires_at", GStr (formatRFC3339 (Add now requestTTL)))]%string))
  end
  end
  end
  end.

(** The answer of a poll. *)
Definition statusResponse (req : PairRequest) : Response :=
  writeJSON StatusOK (GMap (
    [("request_id", GStr (r_RequestID req)); ("status", GStr (r_Status req))]%string ++
    (if isEmpty (r_PathID req) then [] else [("path_id"%string, GStr (r_PathID req))]) ++
    (if String.eqb (r_Status req) StatusApproved && negb (isEmpty (r_OwnerJSON req)) then
       match unmarshalHalf (r_OwnerJSON req) with
       | Some owner => [("owner_half"%string, halfToWire owner)]
       | None => []
       end
     else []))).

(** GET /pair/requests/:id *)
Definition getRequestStatus (requestID : string) : Prog Response :=
  if negb (uuidRegex requestID) then Ret (errorJSON StatusBadRequest "invalid_request_id")
  else
  let! req := GetPairRequest requestID in
  match req with
  | Err ErrNotFound => Ret (errorJSON StatusNotFound "request_not_found")
  | Err _ => Ret (errorJSON StatusInternalServerError "storage_error")
  | Ok req => Ret (statusResponse req)
  end.

(** One pending request on the dashboard. *)
Definition renderPending (req : PairRequest) : gojson :=
  GMap ([("request_id", GStr (r_RequestID req)); ("status", GStr (r_Status req));
         ("created_at", GStr (formatRFC3339 (r_CreatedAt req)));
         ("target_nexus_id", GStr (r_TargetNexusID req))]%string ++
        match unmarshalHalf (r_RequesterJSON req) with
        | Some h =>
            [("requester"%string, GMap (
               [("nexus_id", GStr (NexusID h)); ("sig_alg", GStr (SigAlg h));
                ("pubkey", GStr (Pubkey h)); ("endpoint", GStr (Endpoint h))]%string ++
               (if isEmpty (DhAlg h) then [] else [("dh_alg"%string, GStr (DhAlg h))]) ++
               (if isEmpty (DhPubkey h) then [] else [("dh_pubkey"%string, GStr (DhPubkey h))])))]
        | None => []
        end).

(** GET /pair/requests *)
Definition listPending (r : Request) : Prog Response :=
  let wantStatus := QueryGet r "status" in
  let wantStatus := if isEmpty wantStatus then StatusPending else wantStatus in
  if negb (String.eqb wantStatus StatusPending)
  then Ret (writeJSON StatusBadRequest
              (GMap [("error", GStr "status_filter_unsupported"); ("only", GStr "pending")]%string))
  else
  let! reqs := ListPendingPairRequests in
  match reqs with
  | Err _ => Ret (errorJSON StatusInternalServerError "storage_error")
  | Ok reqs => Ret (writeJSON StatusOK (GMap [("requests"%string, GList (renderPending <$> reqs))]))
  end.

(** The answer to an approval. *)
Definition approvedResponse (requestID pathID : string) (requester : gojson) : Response :=
  writeJSON StatusOK (GMap [("request_id", GStr requestID); ("status", GStr "approved");
    ("path_id", GStr pathID); ("requester_half", requester)]%string).

(** [approve] on a request that is not pending. *)
Definition approveResolved (requestID : string) (body : half) (req : PairRequest) : Prog Response :=
  let conflict := Ret (writeJSON StatusConflict
    (GMap [("error", GStr "request_not_pending"); ("status", GStr (r_Status req))]%string)) in
  if String.eqb (r_Status req) StatusApproved && negb (isEmpty (r_PathID req)) then
    match parseHalf body with
    | inr _ => conflict
    | inl owner =>
        if verifySelfSig owner then
          let! existing := GetPair (r_PathID req) in
          match existing with
          | Err _ => conflict
          | Ok existing =>
              if String.eqb (p_OwnerPubkey existing) (Pubkey owner)
              then Ret (approvedResponse requestID (r_PathID req) (parsedRequesterHalf (r_RequesterJSON req)))
              else conflict
          end
        else conflict
    end
  else conflict.

(** [approve] from the insertion of the pair on. *)
Definition approveInsert (requestID raw : string) (requester owner : half) : Prog Response :=
  let pathID := computePathID (pubkeyRaw requester) (pubkeyRaw owner) in
  let! now := call Now in
  let! err := InsertPair (MkPair pathID (NexusID requester) (Pubkey requester) ""
    (NexusID owner) (Pubkey owner) "" (SigAlg requester) "P-256" now) in
  match err with
  | Some ErrDuplicate =>
      let! existing := GetPair pathID in
      let conflict := Ret (errorJSON StatusConflict "pair_conflict") in
      match existing with
      | Err _ => conflict
      | Ok existing =>
          if String.eqb (p_RequesterPubkey existing) (Pubkey requester) &&
             String.eqb (p_OwnerPubkey existing) (Pubkey owner)
          then
            let! _ := UpdatePairRequestStatus requestID StatusApproved raw pathID in
            Ret (approvedResponse requestID pathID (halfToWire requester))
          else conflict
      end
  | Some _ => Ret (errorJSON StatusInternalServerError "storage_error")
  | None =>
      let ownerJSON := serializeHalf owner in
      let! err := UpdatePairRequestStatus requestID StatusApproved ownerJSON pathID in
      match err with
      | Some ErrConflict => Ret (errorJSON StatusConflict "request_not_pending_concurrent")
      | Some _ => Ret (errorJSON StatusInternalServerError "storage_error")
      | None => Ret (approvedResponse requestID pathID (halfToWire requester))
      end
  end.

(** The approval of a pending request: the two halves and their checks. *)
Definition approvePending (requestID raw : string) (body : half) (req : PairRequest) : Prog Response :=
  match unmarshalHalf (r_RequesterJSON req) with
  | None => Ret (errorJSON StatusInternalServerError "stored_requester_corrupt")
  | Some requester =>
  (* a key that does not decode leaves the bytes decoded so far; it was checked on creation *)
  let requester := set_pubkeyRaw (default ""%string (decodeB64URL (Pubkey requester))) requester in
  match parseHalf body with
  | inr errCode => Ret (errorJSON StatusBadRequest errCode)
  | inl owner =>
  if negb (String.eqb (SigAlg owner) (SigAlg requester)) then Ret (errorJSON StatusBadRequest "sig_alg_mismatch")
  else
  let! now := call Now in
  if negb (tsInWindow (HTs owner) now) then Ret (errorJSON StatusBadRequest "ts_out_of_window")
  else if negb (verifySelfSig owner) then Ret (errorJSON StatusBadRequest "bad_self_sig")
  else approveInsert requestID raw requester owner
  end
  end.

(** POST /pair/requests/:id/approve *)
Definition approve (r : Request) (requestID : string) : Prog Response :=
  if negb (uuidRegex requestID) then Ret (errorJSON StatusBadRequest "invalid_request_id")
  else
  match ReadAllLimited r maxBodySize with
  | None => Ret (errorJSON StatusBadRequest "body_read_failed")
  | Some raw =>
  match unmarshalApprove raw with
  | None => Ret (errorJSON StatusBadRequest "invalid_json")
  | Some body =>
  let! req := GetPairRequest requestID in
  match req with
  | Err ErrNotFound => Ret (errorJSON StatusNotFound "request_not_found")
  | Err _ => Ret (errorJSON StatusInternalServerError "storage_error")
  | Ok req =>
  if negb (String.eqb (r_Status req) StatusPending) then approveResolved requestID body req
  else approvePending requestID raw body req
  end
  end
  end.

(** POST /pair/requests/:id/deny *)
Definition deny (requestID : string) : Prog Response :=
  if negb (uuidRegex requestID) then Ret (errorJSON StatusBadRequest "invalid_request_id")
  else
  let! err := UpdatePairRequestStatus requestID StatusDenied "" "" in
  match err with
  | Some ErrNotFound => Ret (errorJSON StatusNotFound "request_not_found")
  | Some ErrConflict => Ret (errorJSON StatusConflict "request_not_pending")
  | Some _ => Ret (errorJSON StatusInternalServerError "storage_error")
  | None => Ret (writeJSON StatusOK
      (GMap [("request_id", GStr requestID); ("status", GStr StatusDenied)]%string))
  end.

(** ** Dispatch *)

Definition dispatchPublic (r : Request) : Prog Response :=
  let! now := call Now in
  let! _ := ExpirePendingRequests now in
  let path := TrimPrefix (Path r) "/pair/" in
  if String.eqb path (Path r) then Ret HttpNotFound
  else
  match Split path "/" with
  | [p] =>
      if String.eqb p "request" && String.eqb (Method r) MethodPost then createRequest r
      else Ret HttpNotFound
  | [p; id] =>
      if String.eqb p "requests" && negb (isEmpty id) && String.eqb (Method r) MethodGet
      then getRequestStatus id
      else Ret HttpNotFound
  | _ => Ret HttpNotFound
  end.

(** [subtle.ConstantTimeCompare] answers 1 for equal strings. *)
Definition ownerAuthorized (r : Request) : bool :=
  isEmpty OwnerSecret || String.eqb (HeaderGet (Header r) "X-Owner-Secret") OwnerSecret.

Definition dispatchOwner (r : Request) : Prog Response :=
  if negb (ownerAuthorized r) then Ret (errorJSON StatusUnauthorized "owner_auth_required")
  else
  let! now := call Now in
  let! _ := ExpirePendingRequests now in
  let path := TrimPrefix (Path r) "/pair/" in
  if String.eqb path (Path r) then Ret HttpNotFound
  else
  match Split path "/" with
  | [p] =>
      if String.eqb p "requests" && String.eqb (Method r) MethodGet then listPending r
      else Ret HttpNotFound
  | [p; id; verb] =>
      if String.eqb p "requests" && negb (isEmpty verb) && String.eqb (Method r) MethodPost then
        if String.eqb verb "approve" then approve r id
        else if String.eqb verb "deny" then deny id
        else Ret HttpNotFound
      else Ret HttpNotFound
  | _ => Ret HttpNotFound
  end.
End pairflow.
