(* ===== verification/JsonUtf8.v ===== *)
(** * Decoded strings are UTF-8

    Whatever bytes a body holds, the strings encoding/json decodes from it are
    valid UTF-8, so they survive being encoded and decoded again. *)

From S2P Require Import Prelude GoStrings Json.

Local Open Scope Z_scope.

(** ** Text the scanner accepts between quotes *)

Inductive scanned : string → Prop :=
| scanned_nil : scanned EmptyString
| scanned_char c r : c ≠ "\"%char → scanned r → scanned (String c r)
| scanned_esc e r : e ≠ "u"%char → code e < 128 → scanned r → scanned (String "\" (String e r))
| scanned_u h1 h2 h3 h4 r :
    scanned r → scanned (String "\" (String "u" (String h1 (String h2 (String h3 (String h4 r)))))).

Lemma scanned_app a b : scanned a → scanned b → scanned (a +:+ b).
Proof.
  intros Ha Hb. induction Ha; rewrite ?app_nil_l_s, ?app_cons_s; try done; by constructor.
Qed.

(** ** Runes *)

Lemma in_range_chr lo hi z : 0 <= lo → hi < 256 → lo <= z <= hi → in_range lo hi (chr z) = true.
Proof. intros. unfold in_range. rewrite code_chr by lia. by rewrite !(proj2 (Z.leb_le _ _)) by lia. Qed.

Lemma utf8_repl r : utf8 r → utf8 (repl r).
Proof. intros H. by apply utf8_three. Qed.

Lemma utf8_encode_rune u r :
  0 <= u < 1114112 → ¬ 55296 <= u <= 57343 → utf8 r → utf8 (encode_rune u r).
Proof.
  intros Hu Hs Hr. unfold encode_rune.
  assert (Hc : ∀ z, 0 <= z < 64 → cont (chr (128 + z)) = true).
  { intros z Hz. unfold cont. apply in_range_chr; lia. }
  assert (Hm : ∀ z, 0 <= z mod 64 < 64) by (intros; apply Z.mod_pos_bound; lia).
  destruct (Z.ltb_spec u 128); [apply utf8_one; [rewrite code_chr; lia|done]|].
  destruct (Z.ltb_spec u 2048).
  { apply utf8_two; [|done]. unfold utf8_2. rewrite Hc, in_range_chr by div_lia. done. }
  destruct (Z.ltb_spec u 65536).
  { apply utf8_three; [|done]. unfold utf8_3, cont, in_range. rewrite !code_chr by div_lia.
    rewrite !andb_true_iff, !orb_true_iff, !andb_true_iff, !Z.leb_le. div_lia. }
  apply utf8_four; [|done]. unfold utf8_4, cont, in_range. rewrite !code_chr by div_lia.
  rewrite !andb_true_iff, !orb_true_iff, !andb_true_iff, !Z.leb_le. div_lia.
Qed.

Lemma hex4_range a b c d : 0 <= hex4 a b c d < 65536.
Proof.
  assert (H : ∀ x, 0 <= default 0 (hex_val x) < 16).
  { intros x. unfold hex_val.
    destruct ((48 <=? code x) && (code x <=? 57)) eqn:E1; [bool_prop; simpl; lia|].
    destruct ((97 <=? code x) && (code x <=? 102)) eqn:E2; [bool_prop; simpl; lia|].
    destruct ((65 <=? code x) && (code x <=? 70)) eqn:E3; [bool_prop; simpl; lia|]. simpl. lia. }
  unfold hex4. pose proof (H a). pose proof (H b). pose proof (H c). pose proof (H d). lia.
Qed.

Lemma unescape_ascii e : code e < 128 → code (unescape e) < 128.
Proof.
  intros H. unfold unescape.
  repeat match goal with |- context [Ascii.eqb ?a ?b] => destruct (Ascii.eqb a b); [done|] end. done.
Qed.

(** The surrogate tests, arithmetically. *)
Lemma surrogates u :
  (is_high u = true ↔ 55296 <= u <= 56319) ∧ (is_low u = true ↔ 56320 <= u <= 57343).
Proof. unfold is_high, is_low. rewrite !andb_true_iff, !Z.leb_le. done. Qed.

Lemma not_backslash a : 128 <= code a → a ≠ "\"%char.
Proof. intros H ->. vm_compute in H. done. Qed.

(** A byte above ASCII that may follow: it is not a backslash. *)
Lemma scanned_high b r : 128 <= code b → scanned (String b r) → scanned r.
Proof. intros H Hs. apply not_backslash in H. inversion Hs; simplify_eq; done. Qed.

Section unquote.
(** Strong induction on the length of the text. *)
Context (n : nat) (IH : ∀ s, (String.length s < n)%nat → scanned s → utf8 (unquote s)).

Lemma unquote_escape_utf8 e r :
  (S (S (String.length r)) <= n)%nat → scanned (String "\" (String e r)) →
  utf8 (unquote (String "\" (String e r))).
Proof.
  intros Hn Hs. inversion Hs as [|? ? Hc|? ? He Ha Hr|h1 h2 h3 h4 r2 Hr]; subst.
  - done.
  - cbn [unquote]. rewrite (proj2 (Ascii.eqb_neq e "u") He). cbn [Ascii.eqb].
    change (Ascii.eqb "\" "\") with true. cbv iota.
    apply utf8_one; [by apply unescape_ascii|]. apply IH; [lia|done].
  - simpl in Hn. cbn [unquote]. change (Ascii.eqb "\" "\") with true. change (Ascii.eqb "u" "u") with true.
    cbv iota zeta. pose proof (hex4_range h1 h2 h3 h4) as Hu.
    destruct (surrogates (hex4 h1 h2 h3 h4)) as [Hh Hl].
    assert (Hrepl : utf8 (repl (unquote r2))) by (apply utf8_repl, IH; [lia|done]).
    destruct (is_high (hex4 h1 h2 h3 h4)) eqn:Eh; destruct (is_low (hex4 h1 h2 h3 h4)) eqn:El; cbn [orb].
    + pose proof (proj1 Hh eq_refl). pose proof (proj1 Hl eq_refl). lia.
    + apply proj1 in Hh. specialize (Hh eq_refl).
      destruct r2 as [|b [|f [|g1 [|g2 [|g3 [|g4 r3]]]]]]; try exact Hrepl.
      destruct (Ascii.eqb b "\" && Ascii.eqb f "u" && _ && _) eqn:E; [|exact Hrepl].
      bool_prop.
      repeat match goal with H : Ascii.eqb _ _ = true |- _ => apply Ascii.eqb_eq in H end. subst.
      destruct (surrogates (hex4 g1 g2 g3 g4)) as [_ Hl'].
      match goal with H : is_low (hex4 g1 g2 g3 g4) = true |- _ => apply Hl' in H end.
      cbn [String.length] in Hn. inversion Hr; simplify_eq.
      apply utf8_encode_rune; [lia|lia|apply IH; [lia|done]].
    + destruct r2 as [|b [|f [|g1 [|g2 [|g3 [|g4 r3]]]]]]; try exact Hrepl.
      rewrite andb_false_r. exact Hrepl.
    + apply utf8_encode_rune; [lia| |apply IH; [lia|done]].
      intros Hr'. destruct (Z.le_gt_cases (hex4 h1 h2 h3 h4) 56319).
      * assert (false = true) by (apply Hh; lia). done.
      * assert (false = true) by (apply Hl; lia). done.
Qed.

Lemma unquote_char_utf8 a r :
  (S (String.length r) <= n)%nat → a ≠ "\"%char → scanned r → utf8 (unquote (String a r)).
Proof.
  intros Hn Ha Hr. cbn [unquote]. rewrite (proj2 (Ascii.eqb_neq a "\") Ha).
  destruct (Z.ltb_spec (code a) 128); [apply utf8_one; [done|apply IH; [lia|done]]|].
  assert (Hrepl : utf8 (repl (unquote r))) by (apply utf8_repl, IH; [lia|done]).
  destruct r as [|b r2]; [exact Hrepl|]. simpl in Hn.
  destruct (utf8_2 a b) eqn:E2.
  { apply utf8_two; [done|]. apply utf8_2_bytes in E2. apply IH; [lia|].
    eapply scanned_high; [|done]. lia. }
  destruct r2 as [|c r3]; [exact Hrepl|]. simpl in Hn.
  destruct (utf8_3 a b c) eqn:E3.
  { apply utf8_three; [done|]. apply utf8_3_bytes in E3. apply IH; [lia|].
    apply (scanned_high c); [lia|]. apply (scanned_high b); [lia|done]. }
  destruct r3 as [|d r4]; [exact Hrepl|]. simpl in Hn.
  destruct (utf8_4 a b c d) eqn:E4; [|exact Hrepl].
  apply utf8_four; [done|]. apply utf8_4_bytes in E4. apply IH; [lia|].
  apply (scanned_high d); [lia|]. apply (scanned_high c); [lia|]. apply (scanned_high b); [lia|done].
Qed.
End unquote.

Lemma unquote_utf8 s : scanned s → utf8 (unquote s).
Proof.
  assert (H : ∀ n s, (String.length s < n)%nat → scanned s → utf8 (unquote s)).
  { induction n as [|n IH]; intros [|a r] Hl Hs; [lia..|constructor|]. simpl in Hl.
    destruct (ascii_dec a "\") as [->|Ha].
    - destruct r as [|e r]; [constructor|]. apply (unquote_escape_utf8 n IH); [simpl in *; lia|done].
    - apply (unquote_char_utf8 n IH); [lia|done|]. inversion Hs; simplify_eq; done. }
  intros Hs. by apply (H (S (String.length s))); [lia|].
Qed.

(** ** The scanner's states *)

#[local] Set Warnings "-register-all".

Inductive strings_utf8 : json → Prop :=
| su_str s : utf8 s → strings_utf8 (JStr s)
| su_num s : strings_utf8 (JNum s)
| su_bool b : strings_utf8 (JBool b)
| su_null : strings_utf8 JNull
| su_arr l : Forall strings_utf8 l → strings_utf8 (JArr l)
| su_obj ms : Forall (λ m, utf8 (fst m) ∧ strings_utf8 (snd m)) ms → strings_utf8 (JObj ms).

Definition frame_utf8 (f : frame) : Prop :=
  match f with
  | FArr acc => Forall strings_utf8 acc
  | FKey acc => Forall (λ m, utf8 (fst m) ∧ strings_utf8 (snd m)) acc
  | FVal acc k => utf8 k ∧ Forall (λ m, utf8 (fst m) ∧ strings_utf8 (snd m)) acc
  end.

Definition mode_utf8 (m : mode) : Prop :=
  match m with
  | MEndValue v | MLit _ v => strings_utf8 v
  | MEndKey k => utf8 k
  | MInString raw => scanned raw
  | MInStringEsc raw => ∃ s, scanned s ∧ raw = s +:+ "\"
  | MInStringEscU n raw =>
      ∃ s h, scanned s ∧ raw = s +:+ "\u" +:+ h ∧ (1 <= n)%nat ∧ (String.length h + n = 4)%nat
  | _ => True
  end.

Definition config_utf8 (c : config) : Prop := mode_utf8 (fst c) ∧ Forall frame_utf8 (snd c).

Lemma snoc_app s h c : snoc (s +:+ h) c = s +:+ snoc h c.
Proof. unfold snoc. by rewrite app_assoc_s. Qed.

Lemma push_utf8 f m st c :
  mode_utf8 m → frame_utf8 f → Forall frame_utf8 st → push f m st = Some c → config_utf8 c.
Proof. unfold push. intros ???. destruct (_ <=? _); [|done]. intros [= <-]. split; [done|by constructor]. Qed.

Ltac branch :=
  repeat match goal with
  | |- context [if ?b then _ else _] => destruct b eqn:?
  end.

Lemma begin_value_utf8 st c cfg :
  Forall frame_utf8 st → begin_value st c = Some cfg → config_utf8 cfg.
Proof.
  intros Hst. unfold begin_value. branch; try done.
  1,2: apply push_utf8; simpl; try done; by constructor.
  all: intros [= <-]; split; simpl; try done; try constructor.
Qed.

Lemma su_arr_rev l : Forall strings_utf8 l → strings_utf8 (JArr (rev l)).
Proof. intros H. constructor. by apply List.Forall_rev. Qed.

Lemma su_obj_rev ms : Forall (λ m, utf8 (fst m) ∧ strings_utf8 (snd m)) ms → strings_utf8 (JObj (rev ms)).
Proof. intros H. constructor. by apply List.Forall_rev. Qed.

Lemma end_value_utf8 v st c cfg :
  strings_utf8 v → Forall frame_utf8 st → end_value v st c = Some cfg → config_utf8 cfg.
Proof.
  intros Hv Hst. unfold end_value. destruct (is_space c); [by intros [= <-]|].
  destruct st as [|[acc|acc|acc k] st]; [done| |done|]; inversion Hst as [|? ? Hf Hst']; subst; simpl in Hf.
  - branch; intros [= <-]; split; cbn [fst snd mode_utf8]; try done.
    + constructor; [|done]. simpl. by constructor.
    + apply (su_arr_rev (_ :: _)). by constructor.
  - destruct Hf as [Hk Hf]. branch; intros [= <-]; split; cbn [fst snd mode_utf8]; try done.
    + constructor; [|done]. simpl. by constructor.
    + apply (su_obj_rev (_ :: _)). by constructor.
Qed.

Lemma in_string_utf8 raw st c cfg :
  scanned raw → Forall frame_utf8 st → step (MInString raw, st) c = Some cfg → config_utf8 cfg.
Proof.
  intros Hr Hst. simpl. destruct (Ascii.eqb c "034").
  { pose proof (unquote_utf8 raw Hr) as Hq. assert (Hu : strings_utf8 (JStr (unquote raw))) by (by constructor).
    destruct st as [|[] st]; intros [= <-]; by split. }
  destruct (Ascii.eqb c "\") eqn:E.
  { apply Ascii.eqb_eq in E. subst. intros [= <-]. split; [by exists raw|done]. }
  destruct (code c <? 32); [done|]. intros [= <-]. split; [|done]. apply scanned_app; [done|].
  apply Ascii.eqb_neq in E. by repeat constructor.
Qed.

Lemma in_escape_utf8 raw st c cfg :
  mode_utf8 (MInStringEsc raw) → Forall frame_utf8 st → step (MInStringEsc raw, st) c = Some cfg →
  config_utf8 cfg.
Proof.
  intros (s & Hs & ->) Hst. unfold step. destruct (Ascii.eqb c "u") eqn:E.
  { apply Ascii.eqb_eq in E. subst. intros [= <-]. split; [|done]. exists s, EmptyString.
    split; [done|]. split; [|simpl; lia]. rewrite snoc_app, app_nil_r_s. done. }
  destruct (existsb _ _) eqn:Ex; [|done]. intros [= <-]. split; [|done].
  simpl. rewrite snoc_app. apply scanned_app; [done|]. apply Ascii.eqb_neq in E.
  apply scanned_esc; [done| |constructor].
  apply existsb_exists in Ex as (x & Hx & E'). apply Ascii.eqb_eq in E'. subst.
  simpl in Hx. destruct_or! Hx; subst; done.
Qed.

Lemma in_escape_u_utf8 n raw st c cfg :
  mode_utf8 (MInStringEscU n raw) → Forall frame_utf8 st → step (MInStringEscU n raw, st) c = Some cfg →
  config_utf8 cfg.
Proof.
  intros (s & h & Hs & -> & Hn & Hl) Hst. simpl. destruct (hex_val c); [|done].
  assert (Hlen : String.length (snoc h c) = S (String.length h)).
  { unfold snoc. rewrite length_app_s. simpl. lia. }
  destruct n as [|[|n]]; [lia| |]; intros [= <-]; split; try done; simpl; rewrite !snoc_app.
  - apply scanned_app; [done|].
    destruct (snoc h c) as [|h1 [|h2 [|h3 [|h4 [|? ?]]]]]; simpl in Hlen; try lia.
    apply scanned_u. constructor.
  - exists s, (snoc h c). repeat split; [done|lia|lia].
Qed.

Lemma step_utf8 cfg c cfg' : config_utf8 cfg → step cfg c = Some cfg' → config_utf8 cfg'.
Proof.
  destruct cfg as [m st]. intros [Hm Hst]. simpl in Hm, Hst.
  assert (Htail : Forall frame_utf8 (tail st)) by (destruct Hst; [constructor|done]).
  assert (Hbs : ∀ cfg', begin_string st c = Some cfg' → config_utf8 cfg').
  { intros cfg0. unfold begin_string. destruct (Ascii.eqb c "034"); [|done].
    intros [= <-]. split; [constructor|done]. }
  assert (Hnum : ∀ raw cfg', end_value (JNum raw) st c = Some cfg' → config_utf8 cfg').
  { intros raw cfg0. apply end_value_utf8; [constructor|done]. }
  destruct m.
  all: try (by apply in_string_utf8); try (by apply in_escape_utf8); try (by apply in_escape_u_utf8).
  all: unfold step; simpl in Hm.
  all: try (branch; try done; try (intros [= <-]; split; [done|done]); auto;
            eauto using begin_value_utf8; fail).
  - branch; [by intros [= <-]| |by apply begin_value_utf8]. intros [= <-]. split; [constructor; constructor|done].
  - branch; [by intros [= <-]| |by apply Hbs]. intros [= <-]. split; [constructor; constructor|done].
  - branch; [by intros [= <-]| |done]. destruct st as [|[] st]; try done. intros [= <-].
    inversion Hst; subst. split; [done|by constructor].
  - by apply end_value_utf8.
  - destruct rest as [|a [|b rest]]; [done|..]; branch; try done; intros [= <-]; by split.
Qed.

Lemma run_utf8 s cfg cfg' : config_utf8 cfg → run cfg s = Some cfg' → config_utf8 cfg'.
Proof.
  revert cfg. induction s as [|c s IH]; intros cfg Hc; simpl; [by intros [= <-]|].
  destruct (step cfg c) as [cfg1|] eqn:E; [|done]. simpl. apply IH. by eapply step_utf8.
Qed.

(** Every string and every key of a parsed text is UTF-8. *)
Lemma Parse_utf8 s v : Parse s = Some v → strings_utf8 v.
Proof.
  unfold Parse. destruct (run _ s) as [cfg|] eqn:R; [|done]. simpl.
  apply run_utf8 in R; [|by split].
  destruct (step cfg " ") as [cfg'|] eqn:S; [|done]. simpl. apply (step_utf8 _ _ _ R) in S.
  destruct S as [Hm _]. destruct cfg' as [[] [|]]; try done. by intros [= <-].
Qed.

(** ** Decoding *)

Section decoding.
Context {T : Type} (P : T → Prop).

(** A setter that keeps an invariant when it is given UTF-8 strings. *)
Definition keeps (set : setter T) : Prop :=
  ∀ v t, strings_utf8 v → P t → P (fst (set v t)).

Lemma keeps_str (set : string → T → T) :
  (∀ s t, utf8 s → P t → P (set s t)) → keeps (str_field set).
Proof. intros H v t Hv Ht. destruct Hv; simpl; auto. Qed.

Lemma keeps_struct fields :
  Forall (λ f, keeps (snd f)) fields → keeps (decode_struct fields).
Proof.
  intros Hf v t Hv Ht. destruct Hv as [| | | | |ms Hms]; simpl; try done.
  assert (H : ∀ acc, P (fst acc) → P (fst (fold_left (decode_member fields) ms acc))); [|by apply H].
  induction Hms as [|[k x] ms [_ Hx] _ IH]; intros acc Ha; simpl; [done|]. apply IH.
  unfold decode_member. destruct (find_field fields (fst (k, x))) as [set|] eqn:F; [|done].
  assert (Hk : keeps set).
  { unfold find_field in F.
    destruct (find _ fields) as [f|] eqn:F1; [injection F as <-|].
    - apply find_some in F1 as [Hin _]. rewrite List.Forall_forall in Hf. by apply Hf.
    - destruct (find (λ f, _ (foldName (fst f)) _) fields) as [f|] eqn:F2; [|done]. injection F as <-.
      apply find_some in F2 as [Hin _]. rewrite List.Forall_forall in Hf. by apply Hf. }
  specialize (Hk x (fst acc) Hx Ha). simpl. by destruct (set x (fst acc)).
Qed.

Lemma Unmarshal_keeps (set : setter T) zero s t :
  keeps set → P zero → Unmarshal set zero s = Some t → P t.
Proof.
  intros Hk Hz. unfold Unmarshal. destruct (Parse s) as [v|] eqn:E; [|done]. simpl.
  pose proof (Hk v zero (Parse_utf8 _ _ E) Hz) as H. destruct (set v zero) as [t' []]; [|done].
  by intros [= <-].
Qed.
End decoding.
