(* ===== verification/Float64.v ===== *)
(** * Numbers of JSON as float64

    [strconv.ParseFloat] on a number of JSON and the text encoding/json writes for
    a float64: the shortest decimal that rounds to it.  Binary64 is [SpecFloat] of
    the Standard Library; both directions are exact.  Rounding a decimal within half a
    unit of a float64 gives that float64; the encoder finds such a decimal for every
    float64, and the text it writes is a number of JSON that [ParseFloat] turns into
    the float64 again. *)

From Stdlib Require Import Floats.SpecFloat.
From stdpp Require Import pretty.
From S2P Require Import Prelude GoStrings GoTime GoDuration Json.

Local Open Scope Z_scope.

(** ** Reading *)

(** The digits behind the [e]; [readFloat] stops counting at five of them. *)
Fixpoint exponent_from (e : Z) (s : string) : Z :=
  match s with
  | String c r => exponent_from (if e <? 10000 then e * 10 + dval c else e) r
  | EmptyString => e
  end.

Definition exponent (s : string) : Z :=
  match s with
  | String "-" r => - exponent_from 0 r
  | String "+" r => exponent_from 0 r
  | _ => exponent_from 0 s
  end.

(** The digits [m] read so far and the power of ten they stand over. *)
Fixpoint mantissa_from (m e : Z) (point : bool) (s : string) : Z * Z :=
  match s with
  | String c r =>
      if isDigit c then mantissa_from (m * 10 + dval c) (if point then e - 1 else e) point r
      else if Ascii.eqb c "." then mantissa_from m e true r
      else (m, e + exponent r)
  | EmptyString => (m, e)
  end.

Definition readFloat (s : string) : bool * (Z * Z) :=
  match s with
  | String "-" r => (true, mantissa_from 0 0 false r)
  | _ => (false, mantissa_from 0 0 false s)
  end.

(** The integer nearest to [a / b], the even one of two. *)
Definition half_even (a b : Z) : Z :=
  let q := a / b in
  match 2 * (a mod b) ?= b with
  | Lt => q
  | Gt => q + 1
  | Eq => if Z.even q then q else q + 1
  end.

(** The float64 nearest to [n / d]: 53 bits, or those above [2^-1074]; [None] out of
    range.  The numbers are taken over [2^-1076]. *)
Definition round_ratio (neg : bool) (n d : Z) : option spec_float :=
  let a := n * 2 ^ 1076 in
  let e := Z.max (Z.log2 (a / d) - 1128) (-1074) in
  let q := half_even a (d * 2 ^ (e + 1076)) in
  let '(m, e) := if q =? 2 ^ 53 then (2 ^ 52, e + 1) else (q, e) in
  match m with
  | Zpos p => if 971 <? e then None else Some (S754_finite neg p e)
  | _ => Some (S754_zero neg)
  end.

(** [m * 10^e] as a ratio. *)
Definition tens (m e : Z) : Z * Z := (m * 10 ^ Z.max e 0, 10 ^ Z.max (- e) 0).

Definition round_decimal (neg : bool) (m e : Z) : option spec_float :=
  let '(n, d) := tens m e in round_ratio neg n d.

Definition ParseFloat (s : string) : option spec_float :=
  let '(neg, (m, e)) := readFloat s in round_decimal neg m e.

(** ** Writing *)

(** The decimals that round to [m * 2^e], over [2^(e-2)]: half a unit above and
    below, a quarter below where the units get smaller; the ends count when [m] is
    even. *)
Definition upper (m : Z) : Z := 4 * m + 2.
Definition lower (m e : Z) : Z := if (m =? 2 ^ 52) && (-1074 <? e) then 4 * m - 1 else 4 * m - 2.

Definition within (m e d k : Z) : bool :=
  let '(n, b) := tens d k in
  let v := n * 2 ^ 1076 in
  let lo := lower m e * b * 2 ^ (e + 1074) in
  let hi := upper m * b * 2 ^ (e + 1074) in
  if Z.even m then (lo <=? v) && (v <=? hi) else (lo <? v) && (v <? hi).

(** The multiple of [10^k] that rounds to [m * 2^e]: the nearest one, or the next on
    the other side. *)
Definition nearest (m e k : Z) : option Z :=
  let '(n, b) := tens 1 k in
  let v := 4 * m * b * 2 ^ (e + 1074) in
  let unit := n * 2 ^ 1076 in
  let d := half_even v unit in
  let other := if d * unit <=? v then d + 1 else d - 1 in
  if within m e d k then Some d
  else if within m e other k then Some other
  else None.

(** The largest power of ten with such a multiple, downwards. *)
Fixpoint shortest_from (fuel : nat) (m e k : Z) : option (Z * Z) :=
  match fuel with
  | O => None
  | S fuel =>
      match nearest m e k with
      | Some d => Some (d, k)
      | None => shortest_from fuel m e (k - 1)
      end
  end.

(** A power of ten above [2^(e + 53)], where the search starts. *)
Definition top (e : Z) : Z := (e + 53) * 1233 / 4096 + 2.

Definition shortest (m e : Z) : option (Z * Z) := shortest_from 40 m e (top e).

(** [%f] of the digits [ds] with the point behind the first [dp] of them. *)
Definition fixed (ds : string) (dp : Z) : string :=
  let nd := Z.of_nat (String.length ds) in
  if dp <=? 0 then "0." +:+ Repeat "0" (Z.to_nat (- dp)) +:+ ds
  else if nd <=? dp then ds +:+ Repeat "0" (Z.to_nat (dp - nd))
  else take_bytes (Z.to_nat dp) ds +:+ "." +:+ drop_bytes (Z.to_nat dp) ds.

(** [%e], whose exponent has two digits at least; the encoder drops a leading zero,
    and exponents above zero have two digits anyway. *)
Definition exponential (ds : string) (dp : Z) : string :=
  let x := dp - 1 in
  take_bytes 1 ds +:+ (if (String.length ds <=? 1)%nat then "" else "." +:+ drop_bytes 1 ds) +:+
  "e" +:+ (if x <? 0 then "-" else "+") +:+ pretty (Z.abs x).

(** [m * 2^e] is a float64: 53 bits, or the smallest exponent. *)
Definition float64 (m e : Z) : bool :=
  (0 <? m) && (m <? 2 ^ 53) && (-1074 <=? e) && (e <=? 971) && ((2 ^ 52 <=? m) || (e =? -1074)).

(** Below 1e-6 or from 1e21 on. *)
Definition far (x : spec_float) : bool :=
  match ParseFloat "1e-6", ParseFloat "1e21" with
  | Some lo, Some hi => SFltb x lo || SFleb hi x
  | _, _ => false
  end.

Definition unsigned_text (m e : Z) (is_far : bool) : option string :=
  '(d, k) ← shortest m e;
  let ds := pretty d in
  let dp := Z.of_nat (String.length ds) + k in
  Some (if is_far then exponential ds dp else fixed ds dp).

(** [floatEncoder]; [None] is the error for what is not a finite float64. *)
Definition float_text (x : spec_float) : option string :=
  match x with
  | S754_finite neg m e =>
      if float64 (Zpos m) e
      then t ← unsigned_text (Zpos m) e (far (S754_finite false m e)); Some ((if neg then "-" else "") +:+ t)
      else None
  | S754_zero neg => Some (if neg then "-0" else "0")
  | _ => None
  end.

(** ** Rounding *)

Lemma half_even_unique a b m :
  0 < b → 2 * m * b - b <= 2 * a <= 2 * m * b + b →
  (2 * a = 2 * m * b - b ∨ 2 * a = 2 * m * b + b → Z.even m = true) →
  half_even a b = m.
Proof.
  intros Hb Ha Ht. unfold half_even.
  pose proof (Z.div_mod a b ltac:(lia)) as D. pose proof (Z.mod_pos_bound a b Hb) as R.
  set (q := a / b) in *. set (r := a mod b) in *.
  assert (q = m ∨ q = m - 1) as [E|E] by nia; rewrite E in *.
  - destruct (Z.compare_spec (2 * r) b) as [C|C|C]; [|done|nia].
    rewrite (Ht ltac:(right; nia)). done.
  - destruct (Z.compare_spec (2 * r) b) as [C|C|C]; [|nia|lia].
    specialize (Ht ltac:(left; nia)). assert (Z.even (m - 1) = false) as ->; [|lia].
    by rewrite Z.even_sub, Ht.
Qed.

Lemma half_even_near a b : 0 < b → - b <= 2 * (half_even a b * b - a) <= b.
Proof.
  intros Hb. unfold half_even.
  pose proof (Z.div_mod a b ltac:(lia)) as D. pose proof (Z.mod_pos_bound a b Hb) as R.
  set (q := a / b) in *. set (r := a mod b) in *.
  destruct (Z.compare_spec (2 * r) b); [destruct (Z.even q)|..]; nia.
Qed.

Lemma float64_spec m e :
  float64 m e = true ↔
  0 < m < 2 ^ 53 ∧ -1074 <= e <= 971 ∧ (2 ^ 52 <= m ∨ e = -1074).
Proof.
  unfold float64. rewrite !andb_true_iff, orb_true_iff, !Z.ltb_lt, !Z.leb_le, Z.eqb_eq. tauto.
Qed.

Lemma pow2_split x y : 0 <= x → 0 <= y → 2 ^ (x + y) = 2 ^ x * 2 ^ y.
Proof. intros. by apply Z.pow_add_r. Qed.

(** The logarithm of the quotient, from bounds on the dividend. *)
Lemma log2_quotient a d i :
  0 < d → 0 <= i → d * 2 ^ i <= a < d * 2 ^ (i + 1) → Z.log2 (a / d) = i.
Proof.
  intros Hd Hi [Hl Hu]. apply Z.log2_unique; [done|]. split.
  - apply Z.div_le_lower_bound; lia.
  - apply Z.div_lt_upper_bound; lia.
Qed.

Lemma log2_quotient_lt a d i : 0 < d → 0 < i → a < d * 2 ^ i → Z.log2 (a / d) < i.
Proof.
  intros Hd Hi Hu. destruct (Z.le_gt_cases (a / d) 0) as [H|H].
  - rewrite Z.log2_nonpos by done. done.
  - apply Z.log2_lt_pow2; [done|]. by apply Z.div_lt_upper_bound.
Qed.

(** The exponent [round_ratio] starts from. *)
Definition guess (a d : Z) : Z := Z.max (Z.log2 (a / d) - 1128) (-1074).

Lemma guess_eq a d e :
  0 < d → -1074 <= e → a < d * 2 ^ (e + 1129) → (e = -1074 ∨ d * 2 ^ (e + 1128) <= a) → guess a d = e.
Proof.
  intros Hd He Hu [->|Hl]; unfold guess.
  - assert (Z.log2 (a / d) < 55); [|lia]. apply log2_quotient_lt; [done|lia|exact Hu].
  - rewrite (log2_quotient a d (e + 1128)); [lia|done|lia|]. split; [done|].
    by replace (e + 1128 + 1) with (e + 1129) by lia.
Qed.

(** Within half a unit the float64 is the nearest. *)
Lemma round_ratio_within neg n d p e :
  float64 (Zpos p) e = true → 0 < d →
  let u := d * 2 ^ (e + 1074) in
  lower (Zpos p) e * u <= n * 2 ^ 1076 <= upper (Zpos p) * u →
  (n * 2 ^ 1076 = lower (Zpos p) e * u ∨ n * 2 ^ 1076 = upper (Zpos p) * u → Z.even (Zpos p) = true) →
  round_ratio neg n d = Some (S754_finite neg p e).
Proof.
  intros ((Hm1 & Hm2) & (He1 & He2) & Hc)%float64_spec Hd u Ha Ht.
  unfold round_ratio. set (a := n * 2 ^ 1076) in *. fold (guess a d). set (m := Zpos p) in *.
  assert (0 < u) as Hu by (unfold u; pose proof (Z.pow_pos_nonneg 2 (e + 1074)); nia).
  assert (d * 2 ^ (e + 1076) = 4 * u) as E4
    by (unfold u; replace (e + 1076) with (2 + (e + 1074)) by lia; rewrite pow2_split by lia; lia).
  assert (d * 2 ^ (e + 1128) = 2 ^ 54 * u) as E54
    by (unfold u; replace (e + 1128) with (54 + (e + 1074)) by lia; rewrite pow2_split by lia; lia).
  assert (d * 2 ^ (e + 1129) = 2 ^ 55 * u) as E55
    by (unfold u; replace (e + 1129) with (55 + (e + 1074)) by lia; rewrite pow2_split by lia; lia).
  unfold upper in *.
  destruct (decide (e = -1074 ∨ d * 2 ^ (e + 1128) <= a)) as [H|H].
  - rewrite (guess_eq a d e), E4; [|done|lia|rewrite E55; nia|done].
    assert (4 * m - 2 <= lower m e) as Hl by (unfold lower; destruct (_ && _); lia).
    rewrite (half_even_unique a (4 * u) m); [|lia|nia|].
    + destruct (Z.eqb_spec m (2 ^ 53)); [lia|]. unfold m.
      by destruct (Z.ltb_spec 971 e); [lia|].
    + intros [E|E]; apply Ht; [left; nia|right; nia].
  - assert (-1074 < e) as He by lia.
    assert (m = 2 ^ 52) as Em.
    { destruct (decide (m = 2 ^ 52)); [done|]. exfalso. apply H. right. rewrite E54.
      assert (lower m e = 4 * m - 2) as El by (unfold lower; destruct (Z.eqb_spec m (2 ^ 52)); [done|reflexivity]).
      rewrite El in *. assert (2 ^ 54 <= 4 * m - 2) by lia. nia. }
    assert (lower m e = 2 ^ 54 - 1) as El
      by (unfold lower; rewrite Em; rewrite (proj2 (Z.ltb_lt _ _) He); reflexivity).
    rewrite El in *. assert (a < 2 ^ 54 * u) by (destruct (Z.lt_ge_cases a (2 ^ 54 * u)); [done|exfalso; apply H; right; lia]).
    assert (d * 2 ^ (e - 1 + 1076) = 2 * u) as E2
      by (unfold u; replace (e - 1 + 1076) with (1 + (e + 1074)) by lia; rewrite pow2_split by lia; lia).
    assert (d * 2 ^ (e - 1 + 1128) = 2 ^ 53 * u) as E53
      by (unfold u; replace (e - 1 + 1128) with (53 + (e + 1074)) by lia; rewrite pow2_split by lia; lia).
    rewrite (guess_eq a d (e - 1)), E2;
      [|done|lia|replace (e - 1 + 1129) with (e + 1128) by lia; lia|right; rewrite E53; nia].
    rewrite (half_even_unique a (2 * u) (2 ^ 53)) by (done || nia).
    rewrite Z.eqb_refl. replace (e - 1 + 1) with e by lia.
    destruct (Z.ltb_spec 971 e); [lia|]. unfold m in Em. injection Em as ->. reflexivity.
Qed.

(** ** Decimals *)

Lemma tens_spec m k : ∃ b, tens m k = (m * 10 ^ Z.max k 0, b) ∧ 0 < b.
Proof. eexists. split; [reflexivity|]. apply Z.pow_pos_nonneg; lia. Qed.

Lemma tens_mul m k : tens m k = (m * fst (tens 1 k), snd (tens 1 k)).
Proof. unfold tens. cbn [fst snd]. by rewrite Z.mul_1_l. Qed.

Lemma tens_pos k : 0 < fst (tens 1 k) ∧ 0 < snd (tens 1 k).
Proof. unfold tens. cbn [fst snd]. rewrite Z.mul_1_l. split; apply Z.pow_pos_nonneg; lia. Qed.

(** Zeros moved into the exponent. *)
Lemma tens_shift m k j :
  0 <= j → fst (tens (m * 10 ^ j) k) * snd (tens m (k + j)) = fst (tens m (k + j)) * snd (tens (m * 10 ^ j) k).
Proof.
  intros Hj. unfold tens. cbn [fst snd]. rewrite <- !Z.mul_assoc, <- !Z.pow_add_r by lia.
  do 2 f_equal. lia.
Qed.

(** ** The interval of a float64 *)

(** The ends of the interval, over [2^-1076], for a decimal over [b]. *)
Definition low_end (m e b : Z) : Z := lower m e * b * 2 ^ (e + 1074).
Definition high_end (m e b : Z) : Z := upper m * b * 2 ^ (e + 1074).

Definition inside (m e n b : Z) : Prop :=
  if Z.even m then low_end m e b <= n * 2 ^ 1076 <= high_end m e b
  else low_end m e b < n * 2 ^ 1076 < high_end m e b.

Lemma within_inside m e d k : within m e d k = true ↔ inside m e (fst (tens d k)) (snd (tens d k)).
Proof.
  unfold within, inside, low_end, high_end. destruct (tens d k) as [n b]. cbn [fst snd]. cbv zeta.
  destruct (Z.even m); rewrite andb_true_iff; [rewrite !Z.leb_le|rewrite !Z.ltb_lt]; done.
Qed.

Lemma inside_bounds m e n b : inside m e n b → low_end m e b <= n * 2 ^ 1076 <= high_end m e b.
Proof. unfold inside. destruct (Z.even m); lia. Qed.

(** Only the ratio counts. *)
Lemma inside_ratio m e n b n' b' :
  0 < b → 0 < b' → n * b' = n' * b → inside m e n b → inside m e n' b'.
Proof.
  intros Hb Hb' E. unfold inside, low_end, high_end. set (x := 2 ^ (e + 1074)). set (y := 2 ^ 1076).
  assert (n * y * b' = n' * y * b) as E' by (rewrite <- (Z.mul_shuffle0 n b' y), E; lia).
  intros H. destruct (Z.even m).
  - split; apply (Z.mul_le_mono_pos_r _ _ b Hb).
    + rewrite <- E'. nia.
    + rewrite <- E'. nia.
  - split; apply (Z.mul_lt_mono_pos_r b _ _ Hb); rewrite <- E'; nia.
Qed.

Lemma within_shift m e d k j : 0 <= j → within m e d (k + j) = true → within m e (d * 10 ^ j) k = true.
Proof.
  intros Hj. rewrite !within_inside. apply inside_ratio.
  - rewrite tens_mul. apply tens_pos.
  - rewrite tens_mul. apply tens_pos.
  - rewrite <- tens_shift by done. reflexivity.
Qed.

(** A decimal of the interval rounds to the float64. *)
Lemma within_rounds neg p e d k :
  float64 (Zpos p) e = true → within (Zpos p) e d k = true →
  round_decimal neg d k = Some (S754_finite neg p e).
Proof.
  intros Hf Hw%within_inside. unfold round_decimal. destruct (tens d k) as [n b] eqn:T. cbn [fst snd] in Hw.
  assert (0 < b) as Hb by (injection T as _ <-; apply Z.pow_pos_nonneg; lia).
  apply round_ratio_within; [done|done| |].
  - apply inside_bounds in Hw. unfold low_end, high_end in Hw. rewrite !Z.mul_assoc. exact Hw.
  - unfold inside, low_end, high_end in Hw. rewrite !Z.mul_assoc. destruct (Z.even (Zpos p)); [done|]. lia.
Qed.

(** ** The search *)

Lemma nearest_within m e k d : nearest m e k = Some d → within m e d k = true.
Proof.
  unfold nearest. destruct (tens 1 k) as [n b]. cbv zeta.
  set (c := half_even _ _). set (o := if c * _ <=? _ then _ else _).
  destruct (within m e c k) eqn:E1; [by intros [= <-]|].
  destruct (within m e o k) eqn:E2; [by intros [= <-]|done].
Qed.

(** A power of ten below a quarter of a unit is fine enough. *)
Definition fine (e k : Z) : bool := fst (tens 1 k) * 2 ^ 1076 <=? snd (tens 1 k) * 2 ^ (e + 1074).

Lemma fine_nearest m e k : -1074 <= e → fine e k = true → is_Some (nearest m e k).
Proof.
  intros He Hf. apply Z.leb_le in Hf. unfold nearest. pose proof (tens_pos k) as [Hn Hb].
  pose proof (tens_mul (half_even (4 * m * snd (tens 1 k) * 2 ^ (e + 1074)) (fst (tens 1 k) * 2 ^ 1076)) k) as T.
  destruct (tens 1 k) as [n b] eqn:E. cbn [fst snd] in *. cbv zeta.
  set (d := half_even _ _) in *. assert (within m e d k = true) as ->; [|by eexists].
  apply within_inside. rewrite T. cbn [fst snd].
  pose proof (Z.pow_pos_nonneg 2 (e + 1074) ltac:(lia) ltac:(lia)) as Hx. set (x := 2 ^ (e + 1074)) in *.
  assert (0 < n * 2 ^ 1076) as Hunit by (apply Z.mul_pos_pos; lia).
  pose proof (half_even_near (4 * m * b * x) (n * 2 ^ 1076) Hunit) as Hd. fold d in Hd.
  assert (low_end m e b + b * x <= 4 * m * b * x) as Hl.
  { unfold low_end. fold x. assert (lower m e <= 4 * m - 1) by (unfold lower; destruct (_ && _); lia). nia. }
  assert (high_end m e b = 4 * m * b * x + 2 * (b * x)) as Hh by (unfold high_end, upper; fold x; lia).
  unfold inside. assert (0 < b * x) by nia. destruct (Z.even m); lia.
Qed.

Lemma shortest_from_within fuel m e k d k' :
  shortest_from fuel m e k = Some (d, k') → within m e d k' = true ∧ k - Z.of_nat fuel < k' <= k.
Proof.
  revert k. induction fuel as [|fuel IH]; intros k; [done|]. cbn [shortest_from].
  destruct (nearest m e k) as [d0|] eqn:E.
  - intros [= -> ->]. split; [by apply nearest_within|lia].
  - intros (Hw & Hk)%IH. split; [done|lia].
Qed.

Lemma shortest_from_Some fuel m e k i :
  (i < fuel)%nat → is_Some (nearest m e (k - Z.of_nat i)) → is_Some (shortest_from fuel m e k).
Proof.
  revert k i. induction fuel as [|fuel IH]; intros k i Hi Hn; [lia|]. cbn [shortest_from].
  destruct (nearest m e k) as [d|] eqn:E; [by eexists|].
  destruct i as [|i]; [replace (k - Z.of_nat 0) with k in Hn by lia; rewrite E in Hn; by destruct Hn|].
  apply (IH (k - 1) i); [lia|]. by replace (k - 1 - Z.of_nat i) with (k - Z.of_nat (S i)) by lia.
Qed.

(** Forty steps are enough for every exponent, and the digits stay few: both are
    checked on blocks of exponents. *)
Definition coarse (e k : Z) : bool := snd (tens 1 k) * 2 ^ (e + 1129) <=? fst (tens 1 k) * 2 ^ 1076 * 10 ^ 60.

Lemma tens_mono k k' : k' <= k → fst (tens 1 k') * snd (tens 1 k) <= fst (tens 1 k) * snd (tens 1 k').
Proof.
  intros Hk. unfold tens. cbn [fst snd]. rewrite !Z.mul_1_l, <- !Z.pow_add_r by lia. apply Z.pow_le_mono_r; lia.
Qed.

Lemma fine_mono e e' k k' : 0 <= e + 1074 → e <= e' → k' <= k → fine e k = true → fine e' k' = true.
Proof.
  unfold fine. rewrite !Z.leb_le. intros He Hee Hk%tens_mono Hf.
  pose proof (tens_pos k) as [Hn Hb]. pose proof (tens_pos k') as [Hn' Hb'].
  pose proof (Z.pow_le_mono_r 2 (e + 1074) (e' + 1074) ltac:(lia) ltac:(lia)) as Hx.
  pose proof (Z.pow_pos_nonneg 2 (e + 1074) ltac:(lia) He) as Hp.
  set (n := fst (tens 1 k)) in *. set (b := snd (tens 1 k)) in *.
  set (n' := fst (tens 1 k')) in *. set (b' := snd (tens 1 k')) in *.
  set (x := 2 ^ (e + 1074)) in *. set (x' := 2 ^ (e' + 1074)) in *. set (y := 2 ^ 1076) in *.
  assert (0 <= y) as Hy by (by apply Z.pow_nonneg).
  apply (Z.mul_le_mono_pos_r _ _ b Hb).
  transitivity (n * b' * y); [nia|]. transitivity (b' * (b * x)); [nia|]. nia.
Qed.

Lemma coarse_mono e e' k k' : 0 <= e' + 1129 → e' <= e → k <= k' → coarse e k = true → coarse e' k' = true.
Proof.
  unfold coarse. rewrite !Z.leb_le. intros He Hee Hk%tens_mono Hf.
  pose proof (tens_pos k) as [Hn Hb]. pose proof (tens_pos k') as [Hn' Hb'].
  pose proof (Z.pow_le_mono_r 2 (e' + 1129) (e + 1129) ltac:(lia) ltac:(lia)) as Hx.
  pose proof (Z.pow_pos_nonneg 2 (e' + 1129) ltac:(lia) He) as Hp.
  set (n := fst (tens 1 k)) in *. set (b := snd (tens 1 k)) in *.
  set (n' := fst (tens 1 k')) in *. set (b' := snd (tens 1 k')) in *.
  set (x := 2 ^ (e + 1129)) in *. set (x' := 2 ^ (e' + 1129)) in *.
  rewrite <- !Z.mul_assoc in *. set (y := 2 ^ 1076 * 10 ^ 60) in *.
  assert (0 <= y) as Hy by (by apply Z.mul_nonneg_nonneg; apply Z.pow_nonneg).
  apply (Z.mul_le_mono_pos_r _ _ b Hb).
  transitivity (b' * (b * x)); [nia|]. transitivity (b' * (n * y)); [nia|]. nia.
Qed.

Definition block_ok (i : Z) : bool :=
  let e := 50 * i - 1100 in
  fine (Z.max e (-1074)) (top (e + 49) - 39) && coarse (e + 49) (top e - 39).

Lemma blocks_ok : forallb block_ok (seqZ 0 42) = true.
Proof. vm_compute. reflexivity. Qed.

Lemma top_mono e e' : e <= e' → top e <= top e'.
Proof. intros H. unfold top. apply Z.add_le_mono_r, Z.div_le_mono; lia. Qed.

Lemma enough e : -1074 <= e <= 971 → fine e (top e - 39) = true ∧ coarse e (top e - 39) = true.
Proof.
  intros He. set (i := (e + 1100) / 50). assert (0 <= i < 42 ∧ 50 * i <= e + 1100 < 50 * i + 50) as [Hi Hb]
    by (unfold i; div_lia).
  pose proof (proj1 (forallb_forall _ _) blocks_ok i) as H.
  assert (In i (seqZ 0 42)) as Hin by (apply list_elem_of_In, elem_of_seqZ; lia).
  apply H in Hin. apply andb_true_iff in Hin as [Hf Hc].
  pose proof (top_mono e (50 * i - 1100 + 49) ltac:(lia)). pose proof (top_mono (50 * i - 1100) e ltac:(lia)).
  split; [eapply fine_mono; [..|exact Hf]|eapply coarse_mono; [..|exact Hc]]; lia.
Qed.

Lemma shortest_Some m e : float64 m e = true → is_Some (shortest m e).
Proof.
  intros (_ & He & _)%float64_spec. unfold shortest. apply (shortest_from_Some 40 m e (top e) 39); [lia|].
  apply fine_nearest; [lia|]. by apply enough.
Qed.

(** What is found: few digits that round to the float64. *)
Lemma shortest_spec m e :
  float64 m e = true → ∃ d k, shortest m e = Some (d, k) ∧ within m e d k = true ∧ 0 < d < 10 ^ 60 ∧ -400 < k < 400.
Proof.
  intros Hf. destruct (shortest_Some m e Hf) as [[d k] E]. exists d, k. split; [done|].
  destruct (shortest_from_within _ _ _ _ _ _ E) as [Hw Hk]. split; [done|].
  apply float64_spec in Hf as (Hm & He & Hc).
  assert (-400 < k < 400) as Hk' by (unfold top in Hk; div_lia). split; [|done].
  destruct (enough e He) as [_ Hco]. apply (coarse_mono e e _ k) in Hco; [|lia..]. apply Z.leb_le in Hco.
  apply within_inside, inside_bounds in Hw. rewrite tens_mul in Hw. cbn [fst snd] in Hw.
  pose proof (tens_pos k) as [Hn Hb]. set (n := fst (tens 1 k)) in *. set (b := snd (tens 1 k)) in *.
  unfold low_end, high_end, upper in Hw.
  replace (e + 1129) with (55 + (e + 1074)) in Hco by lia. rewrite pow2_split in Hco by lia.
  pose proof (Z.pow_pos_nonneg 2 (e + 1074) ltac:(lia) ltac:(lia)) as Hx. set (x := 2 ^ (e + 1074)) in *.
  assert (2 <= lower m e) as Hl by (unfold lower; destruct (_ && _); lia).
  assert (0 < n * 2 ^ 1076) as Hy by (apply Z.mul_pos_pos; lia). set (y := 2 ^ 1076) in *.
  assert (0 < b * x) by nia. split.
  - apply (Z.mul_lt_mono_pos_r (n * y) _ _ Hy). nia.
  - apply (Z.mul_lt_mono_pos_r (n * y) _ _ Hy).
    assert ((4 * m + 2) * (b * x) < 2 ^ 55 * (b * x)) by (apply Z.mul_lt_mono_pos_r; lia). nia.
Qed.

(** ** Digits *)

Lemma digit_char x : (x < 10)%N →
  isDigit (pretty_N_char x) = true ∧ ((0 < x)%N → digit19 (pretty_N_char x) = true) ∧ dval (pretty_N_char x) = Z.of_N x.
Proof.
  intros Hx. assert (x = 0 ∨ x = 1 ∨ x = 2 ∨ x = 3 ∨ x = 4 ∨ x = 5 ∨ x = 6 ∨ x = 7 ∨ x = 8 ∨ x = 9)%N as H by lia.
  destruct_or! H; subst; (split_and!; [done| |done]); intros; first [done|lia].
Qed.

(** Digits without a leading zero. *)
Definition numeral (s : string) : Prop := ∃ c ds, s = String c ds ∧ digit19 c = true ∧ all_bytes isDigit ds = true.

Lemma pretty_numeral x s : (0 < x)%N → all_bytes isDigit s = true → numeral (pretty_N_go x s).
Proof.
  revert s. induction (N.lt_wf_0 x) as [x _ IH]. intros s Hx Hs. rewrite pretty_N_go_step by done.
  destruct (digit_char (x `mod` 10)) as (H09 & H19 & _); [by apply N.mod_lt|].
  destruct (decide (x `div` 10 = 0)%N) as [E|E].
  - rewrite E. rewrite pretty_N_go_0. eexists _, _. split; [done|]. split; [|done].
    apply H19. pose proof (N.Div0.div_mod x 10). lia.
  - apply IH; [by apply N.div_lt|by apply N.neq_0_lt_0|]. simpl. by rewrite H09.
Qed.

Lemma pretty_value x s : decimal_from 0 (pretty_N_go x s) = decimal_from (Z.of_N x) s.
Proof.
  revert s. induction (N.lt_wf_0 x) as [x _ IH]. intros s.
  destruct (decide (x = 0)%N) as [->|Hx]; [by rewrite pretty_N_go_0|].
  rewrite pretty_N_go_step by lia. rewrite IH by (apply N.div_lt; lia).
  destruct (digit_char (x `mod` 10)) as (_ & _ & Hd); [by apply N.mod_lt|]. cbn [decimal_from]. rewrite Hd. f_equal.
  rewrite N2Z.inj_div, N2Z.inj_mod. div_lia.
Qed.

Lemma pretty_pos d : 0 < d → numeral (pretty d) ∧ decimal_from 0 (pretty d) = d.
Proof.
  intros Hd. destruct d as [|p|p]; [lia| |lia]. change (pretty (Z.pos p)) with (pretty_N_go (N.pos p) "").
  split; [by apply pretty_numeral|]. by rewrite pretty_value.
Qed.

Lemma pretty_digits d : 0 <= d → digits (pretty d) ∧ decimal_from 0 (pretty d) = d.
Proof.
  intros Hd. destruct (decide (d = 0)) as [->|]; [done|].
  destruct (pretty_pos d ltac:(lia)) as [(c & ds & -> & Hc & Hds) Hv]. split; [|done]. split; [done|]. cbn [all_bytes].
  rewrite Hds, andb_true_r. unfold digit19, in_range in Hc. unfold isDigit. bool_prop. by rewrite !(proj2 (Z.leb_le _ _)) by lia.
Qed.

Lemma decimal_from_app x a b : decimal_from x (a +:+ b) = decimal_from (decimal_from x a) b.
Proof. revert x. induction a as [|c a IH]; intros x; [done|]. rewrite app_cons_s. simpl. apply IH. Qed.

Lemma decimal_from_zeros x n : decimal_from x (Repeat "0" n) = x * 10 ^ Z.of_nat n.
Proof.
  revert x. induction n as [|n IH]; intros x; [simpl; lia|]. cbn [Repeat]. rewrite app_cons_s, app_nil_l_s. cbn [decimal_from].
  rewrite IH. change (dval "0") with 0. rewrite Nat2Z.inj_succ, Z.pow_succ_r by lia. lia.
Qed.

Lemma digits_zeros n : all_bytes isDigit (Repeat "0" n) = true.
Proof. induction n as [|n IH]; [done|]. cbn [Repeat]. rewrite all_bytes_app, IH. done. Qed.

Lemma take_drop_s n s : take_bytes n s +:+ drop_bytes n s = s.
Proof. revert s. induction n as [|n IH]; intros [|c s]; try done. simpl. rewrite app_cons_s. by rewrite IH. Qed.

(** ** Numbers of JSON *)

Definition exponent_text (ex : option (bool * string)) : string :=
  match ex with Some (neg, ds) => "e" +:+ (if (neg : bool) then "-" else "+") +:+ ds | None => "" end.

Definition exponent_value (ex : option (bool * string)) : Z :=
  match ex with
  | Some (neg, ds) => if (neg : bool) then - decimal_from 0 ds else decimal_from 0 ds
  | None => 0
  end.

Definition number_text (neg : bool) (ip fp : string) (ex : option (bool * string)) : string :=
  (if neg then "-" else "") +:+ ip +:+ (if String.eqb fp "" then "" else "." +:+ fp) +:+ exponent_text ex.

Record number_ok (ip fp : string) (ex : option (bool * string)) : Prop := NumberOk {
  no_int : ip = "0"%string ∨ numeral ip;
  no_frac : all_bytes isDigit fp = true;
  no_exp : ∀ neg ds, ex = Some (neg, ds) → digits ds ∧ decimal_from 0 ds < 10000
}.

Lemma no_int_digits ip fp ex : number_ok ip fp ex → digits ip.
Proof.
  intros [[->|(c & ds & -> & Hc & Hds)] _ _]; [done|]. split; [done|]. cbn [all_bytes].
  rewrite Hds, andb_true_r. unfold digit19, in_range in Hc. unfold isDigit. bool_prop. by rewrite !(proj2 (Z.leb_le _ _)) by lia.
Qed.

Lemma mantissa_digits m e pt ds r :
  all_bytes isDigit ds = true →
  mantissa_from m e pt (ds +:+ r) = mantissa_from (decimal_from m ds) (if pt then e - len ds else e) pt r.
Proof.
  revert m e. induction ds as [|c ds IH]; intros m e H.
  - rewrite app_nil_l_s. unfold len. simpl. destruct pt; [by rewrite Z.sub_0_r|done].
  - cbn [all_bytes] in H. apply andb_true_iff in H as [Hc Hd]. rewrite app_cons_s. cbn [mantissa_from decimal_from]. rewrite Hc, IH by done.
    f_equal. destruct pt; [|done]. unfold len. cbn [String.length]. lia.
Qed.

Lemma exponent_digits e ds :
  0 <= e → all_bytes isDigit ds = true → decimal_from e ds < 10000 → exponent_from e ds = decimal_from e ds.
Proof.
  revert e. induction ds as [|c ds IH]; intros e He H Hlt; [done|].
  cbn [all_bytes] in H. apply andb_true_iff in H as [Hc Hd]. cbn [exponent_from decimal_from] in *.
  pose proof (dval_nonneg c Hc). pose proof (decimal_from_le (e * 10 + dval c) ds ltac:(lia) Hd).
  rewrite (proj2 (Z.ltb_lt e 10000)) by lia. apply IH; [lia|done|done].
Qed.

Lemma not_digit c : isDigit c = true → c ≠ "-"%char ∧ c ≠ "+"%char ∧ c ≠ "."%char.
Proof. intros H. split_and!; intros ->; discriminate H. Qed.

Lemma mantissa_exponent m e pt ip fp ex :
  number_ok ip fp ex → mantissa_from m e pt (exponent_text ex) = (m, e + exponent_value ex).
Proof.
  intros [_ _ Hex]. destruct ex as [[neg ds]|]; [|simpl; by rewrite Z.add_0_r].
  destruct (Hex neg ds eq_refl) as [[Hne Hd] Hlt]. unfold exponent_text, exponent_value.
  rewrite app_cons_s, app_nil_l_s. cbn [mantissa_from isDigit]. change (isDigit "e") with false. cbv iota.
  change (Ascii.eqb "e" ".") with false. cbv iota. do 2 f_equal.
  destruct neg; rewrite app_cons_s, app_nil_l_s; cbn [exponent]; by rewrite exponent_digits.
Qed.

Lemma readFloat_number neg ip fp ex :
  number_ok ip fp ex →
  readFloat (number_text neg ip fp ex) = (neg, (decimal_from 0 (ip +:+ fp), exponent_value ex - len fp)).
Proof.
  intros Hok. destruct (no_int_digits _ _ _ Hok) as [Hne Hd]. pose proof (no_frac _ _ _ Hok) as Hf.
  assert (mantissa_from 0 0 false (ip +:+ (if String.eqb fp "" then "" else "." +:+ fp) +:+ exponent_text ex)
    = (decimal_from 0 (ip +:+ fp), exponent_value ex - len fp)) as E.
  { rewrite mantissa_digits by done. cbv iota. rewrite decimal_from_app. destruct (String.eqb_spec fp "") as [->|Hn].
    - rewrite app_nil_l_s, (mantissa_exponent _ _ _ ip "" ex) by done. unfold len. simpl. f_equal. lia.
    - rewrite app_cons_s, app_nil_l_s, app_cons_s. cbn [mantissa_from]. change (isDigit ".") with false.
      change (Ascii.eqb "." ".") with true. cbv iota.
      rewrite mantissa_digits, (mantissa_exponent _ _ _ ip fp ex) by done. f_equal. lia. }
  unfold number_text. destruct neg; [rewrite app_cons_s, app_nil_l_s; cbn [readFloat]; by rewrite E|].
  rewrite app_nil_l_s. destruct ip as [|c ip]; [done|]. cbn [all_bytes] in Hd. apply andb_true_iff in Hd as [Hc _].
  rewrite <- E. rewrite app_cons_s. destruct (not_digit c Hc) as (Hm & _ & _).
  unfold readFloat. destruct c as [[] [] [] [] [] [] [] []]; try reflexivity. by destruct Hm.
Qed.

(** ** Both directions *)

(** [t] is a number of JSON for [d * 10^k], possibly with zeros behind the digits. *)
Definition denotes (neg : bool) (d k : Z) (t : string) : Prop :=
  ∃ ip fp ex j, t = number_text neg ip fp ex ∧ number_ok ip fp ex ∧ 0 <= j ∧
    decimal_from 0 (ip +:+ fp) = d * 10 ^ j ∧ exponent_value ex - len fp = k - j.

Definition sign (neg : bool) : string := if neg then "-" else "".

Lemma number_text_plain neg ip fp :
  number_text neg ip fp None = sign neg +:+ ip +:+ (if String.eqb fp "" then "" else "." +:+ fp).
Proof. unfold number_text, exponent_text. by rewrite app_nil_r_s. Qed.

Lemma numeral_take c ds n : digit19 c = true → all_bytes isDigit ds = true → (0 < n)%nat →
  numeral (take_bytes n (String c ds)) ∧ all_bytes isDigit (drop_bytes n (String c ds)) = true.
Proof.
  intros Hc Hds Hn. destruct n as [|n]; [lia|]. cbn [take_bytes drop_bytes].
  rewrite <- (take_drop_s n ds), all_bytes_app in Hds. apply andb_true_iff in Hds as [H1 H2].
  split; [by exists c, (take_bytes n ds)|done].
Qed.

Lemma length_drop n s : String.length (drop_bytes n s) = (String.length s - n)%nat.
Proof. revert s. induction n as [|n IH]; intros [|c s]; try done. simpl. apply IH. Qed.

Lemma fixed_denotes neg d k :
  0 < d → denotes neg d k (sign neg +:+ fixed (pretty d) (len (pretty d) + k)).
Proof.
  intros Hd. destruct (pretty_pos d Hd) as [Hn Hv]. destruct (pretty_digits d ltac:(lia)) as [[_ Hds] _].
  destruct Hn as (c & r & E & Hc & Hr). set (ds := pretty d) in *. unfold fixed. fold (len ds).
  destruct (Z.leb_spec (len ds + k) 0) as [H|H].
  - exists "0", (Repeat "0" (Z.to_nat (- (len ds + k))) +:+ ds), None, 0. split_and!.
    + rewrite number_text_plain. destruct (String.eqb_spec (Repeat "0" (Z.to_nat (- (len ds + k))) +:+ ds) "") as [E0|_]; [|done].
      rewrite E in E0. by destruct (Repeat _ _).
    + split; [by left| |done]. by rewrite all_bytes_app, digits_zeros.
    + done.
    + rewrite !decimal_from_app, decimal_from_zeros. change (decimal_from 0 "0") with 0.
      rewrite Z.mul_0_l, Hv. lia.
    + rewrite len_app. assert (len (Repeat "0" (Z.to_nat (- (len ds + k)))) = - (len ds + k)) as ->.
      { clear -H. set (z := - (len ds + k)) in *. rewrite <- (Z2Nat.id z) at 2 by lia. induction (Z.to_nat z) as [|n IH]; [done|].
        cbn [Repeat]. rewrite len_app, IH. unfold len. simpl. lia. }
      simpl. lia.
  - destruct (Z.leb_spec (len ds) (len ds + k)) as [Hle|Hle].
    + exists (ds +:+ Repeat "0" (Z.to_nat (len ds + k - len ds))), "", None, k. split_and!.
      * by rewrite number_text_plain, app_nil_r_s.
      * split; [|done|done]. right. exists c, (r +:+ Repeat "0" (Z.to_nat (len ds + k - len ds))).
        rewrite E, app_cons_s. split; [done|]. split; [done|]. by rewrite all_bytes_app, Hr, digits_zeros.
      * lia.
      * rewrite app_nil_r_s, decimal_from_app, Hv, decimal_from_zeros. do 2 f_equal. lia.
      * simpl. unfold len. simpl. lia.
    + set (n := Z.to_nat (len ds + k)). exists (take_bytes n ds), (drop_bytes n ds), None, 0.
      destruct (numeral_take c r n Hc Hr ltac:(lia)) as [Ht Hdr]. rewrite <- E in Ht, Hdr. split_and!.
      * rewrite number_text_plain. destruct (String.eqb_spec (drop_bytes n ds) "") as [E0|_]; [|done].
        pose proof (length_drop n ds) as L. rewrite E0 in L. simpl in L. unfold len in *. lia.
      * split; [by right|done|done].
      * done.
      * rewrite take_drop_s, Hv. lia.
      * unfold len. rewrite length_drop. simpl. unfold len in *. lia.
Qed.

Lemma pretty_length d n : 0 < d < 10 ^ Z.of_nat n → (String.length (pretty d) <= n)%nat.
Proof.
  intros [Hd Hn]. destruct (pretty_pos d Hd) as [(c & r & E & Hc & Hr) Hv]. rewrite E in Hv |- *.
  assert (∀ x s, 0 <= x → all_bytes isDigit s = true → x * 10 ^ len s <= decimal_from x s) as Hlow.
  { clear. intros x s. revert x. induction s as [|a s IH]; intros x Hx H; [unfold len; simpl; lia|].
    cbn [all_bytes] in H. apply andb_true_iff in H as [Ha Hs]. pose proof (dval_nonneg a Ha). cbn [decimal_from].
    pose proof (IH (x * 10 + dval a) ltac:(lia) Hs) as Hi. unfold len in *. cbn [String.length].
    rewrite Nat2Z.inj_succ, Z.pow_succ_r by lia. pose proof (Z.pow_pos_nonneg 10 (Z.of_nat (String.length s)) ltac:(lia) ltac:(lia)). nia. }
  assert (1 <= dval c) as Hc1 by (unfold digit19, in_range in Hc; unfold dval; bool_prop; lia).
  cbn [decimal_from] in Hv. pose proof (Hlow (0 * 10 + dval c) r ltac:(lia) Hr) as Hl. rewrite Hv in Hl.
  pose proof (Z.pow_pos_nonneg 10 (len r) ltac:(lia) ltac:(unfold len; lia)).
  assert (10 ^ len r < 10 ^ Z.of_nat n) as Hp by nia.
  apply Z.pow_lt_mono_r_iff in Hp; [|lia..]. cbn [String.length]. unfold len in Hp. lia.
Qed.

Lemma exponential_denotes neg d k :
  0 < d < 10 ^ 60 → -400 < k < 400 →
  denotes neg d k (sign neg +:+ exponential (pretty d) (len (pretty d) + k)).
Proof.
  intros Hd Hk. destruct (pretty_pos d ltac:(lia)) as [(c & r & E & Hc & Hr) Hv].
  pose proof (pretty_length d 60 Hd) as Hlen. set (ds := pretty d) in *. unfold exponential.
  set (x := len ds + k - 1). assert (Z.abs x < 1000) as Hx by (unfold x, len; lia).
  destruct (pretty_digits (Z.abs x) ltac:(lia)) as [Hxd Hxv].
  exists (String c ""), r, (Some (x <? 0, pretty (Z.abs x))), 0. split_and!.
  - unfold number_text, exponent_text. fold (sign neg). rewrite E. cbn [take_bytes drop_bytes String.length Nat.leb].
    destruct r as [|a r]; [by rewrite app_nil_l_s|]. reflexivity.
  - split; [right; by exists c, ""|done|]. intros n s [= <- <-]. split; [done|]. lia.
  - done.
  - rewrite app_cons_s, app_nil_l_s, <- E, Hv. lia.
  - unfold exponent_value. rewrite Hxv. subst x. rewrite E in *. unfold len in *. cbn [String.length] in *.
    destruct (Z.ltb_spec (Z.of_nat (S (String.length r)) + k - 1) 0); lia.
Qed.

(** The text of a float64 in range, and what it denotes. *)
Lemma float_text_finite neg p e :
  float64 (Zpos p) e = true →
  ∃ t d k, float_text (S754_finite neg p e) = Some t ∧ denotes neg d k t ∧ within (Zpos p) e d k = true.
Proof.
  intros Hf. destruct (shortest_spec _ _ Hf) as (d & k & Es & Hw & Hd & Hk).
  unfold float_text. rewrite Hf. unfold unsigned_text. rewrite Es. cbn [mbind option_bind]. fold (len (pretty d)).
  eexists _, d, k. split; [done|]. split; [|done]. fold (sign neg).
  destruct (far _); [by apply exponential_denotes|apply fixed_denotes; lia].
Qed.

Lemma denotes_ParseFloat neg p e d k t :
  float64 (Zpos p) e = true → within (Zpos p) e d k = true → denotes neg d k t →
  ParseFloat t = Some (S754_finite neg p e).
Proof.
  intros Hf Hw (ip & fp & ex & j & -> & Hok & Hj & Hv & He). unfold ParseFloat.
  rewrite readFloat_number by done. rewrite Hv, He. apply within_rounds; [done|].
  apply within_shift; [done|]. by replace (k - j + j) with k by lia.
Qed.

(** What the encoder writes for a float64 is read as that float64. *)
Definition is_float64 (x : spec_float) : Prop :=
  match x with
  | S754_finite _ m e => float64 (Zpos m) e = true
  | S754_zero _ => True
  | _ => False
  end.

Lemma float_text_reads x :
  is_float64 x → ∃ t, float_text x = Some t ∧ ParseFloat t = Some x.
Proof.
  destruct x as [neg| | |neg m e]; try done; intros Hf.
  - eexists. split; [done|]. by destruct neg.
  - destruct (float_text_finite neg m e Hf) as (t & d & k & E & Hd & Hw). exists t. split; [done|].
    by eapply denotes_ParseFloat.
Qed.

(** The text is a number of JSON. *)
Lemma float_text_number x t :
  float_text x = Some t → ∃ neg ip fp ex, t = number_text neg ip fp ex ∧ number_ok ip fp ex.
Proof.
  destruct x as [neg| | |neg m e]; try done; intros Ht.
  - injection Ht as <-. exists neg, "0", "", None. split; [by destruct neg|]. split; [by left|done|done].
  - destruct (float64 (Zpos m) e) eqn:Hf; [|by unfold float_text in Ht; rewrite Hf in Ht].
    destruct (float_text_finite neg m e Hf) as (t' & d & k & E & (ip & fp & ex & j & -> & Hok & _) & _).
    rewrite E in Ht. injection Ht as <-. by exists neg, ip, fp, ex.
Qed.

(** Reading gives float64s. *)
Lemma half_even_bounds a b l h : 0 < b → l * b <= a <= h * b → l <= half_even a b <= h.
Proof.
  intros Hb [Hl Hh]. unfold half_even. pose proof (Z.div_mod a b ltac:(lia)) as D. pose proof (Z.mod_pos_bound a b Hb) as R.
  assert (l <= a / b) by (apply Z.div_le_lower_bound; lia).
  assert (a / b <= h) by (apply Z.div_le_upper_bound; lia).
  destruct (Z.compare_spec (2 * (a mod b)) b); [destruct (Z.even _)|..]; nia.
Qed.

Lemma round_ratio_float64 neg n d x : 0 <= n → 0 < d → round_ratio neg n d = Some x → is_float64 x.
Proof.
  intros Hn Hd. unfold round_ratio. set (a := n * 2 ^ 1076). fold (guess a d). set (e := guess a d).
  assert (0 <= a) as Ha by (unfold a; pose proof (Z.pow_nonneg 2 1076 ltac:(lia)); nia).
  assert (-1074 <= e) as He by (unfold e, guess; lia).
  set (b := d * 2 ^ (e + 1076)). assert (0 < b) as Hb by (unfold b; pose proof (Z.pow_pos_nonneg 2 (e + 1076)); nia).
  assert (b * 2 ^ 52 = d * 2 ^ (e + 1128)) as E52
    by (unfold b; rewrite <- Z.mul_assoc, <- Z.pow_add_r by lia; do 2 f_equal; lia).
  assert (b * 2 ^ 53 = d * 2 ^ (e + 1129)) as E53
    by (unfold b; rewrite <- Z.mul_assoc, <- Z.pow_add_r by lia; do 2 f_equal; lia).
  pose proof (Z.div_mod a d ltac:(lia)) as D. pose proof (Z.mod_pos_bound a d Hd) as R.
  set (q := a / d) in *. assert (0 <= q) as Hq0 by (by apply Z.div_pos).
  assert (a <= 2 ^ 53 * b ∧ (2 ^ 52 * b <= a ∨ e = -1074)) as [Hu Hl].
  { rewrite (Z.mul_comm (2 ^ 53)), (Z.mul_comm (2 ^ 52)), E52, E53.
    destruct (decide (q = 0)) as [E0|E0].
    - assert (e = -1074) as Ee by (unfold e, guess; fold q; rewrite E0; done). split; [|by right].
      rewrite Ee in *. pose proof (Z.pow_pos_nonneg 2 (-1074 + 1129)). nia.
    - pose proof (Z.log2_spec q ltac:(lia)) as [L1 L2].
      assert (Z.log2 q + 1 <= e + 1129) as H1 by (unfold e, guess; fold q; lia).
      assert (Z.log2 q = e + 1128 ∨ e = -1074) as H2 by (unfold e, guess; fold q; lia).
      pose proof (Z.pow_le_mono_r 2 (Z.succ (Z.log2 q)) (e + 1129) ltac:(lia) ltac:(lia)). split; [nia|].
      destruct H2 as [H2|H2]; [left; rewrite H2 in L1; nia|by right]. }
  destruct (half_even_bounds a b (if decide (e = -1074) then 0 else 2 ^ 52) (2 ^ 53) Hb) as [Q1 Q2].
  { destruct (decide (e = -1074)); [lia|]. destruct Hl; [lia|done]. }
  fold b. set (m := half_even a b) in *. destruct (Z.eqb_spec m (2 ^ 53)) as [Em|Em].
  - change (2 ^ 52) with (Zpos (2 ^ 52)%positive). cbv iota. destruct (Z.ltb_spec 971 (e + 1)); [done|]. intros [= <-].
    apply float64_spec. split; [done|]. split; [lia|by left].
  - destruct m as [|p|p] eqn:Ep; cbv iota.
    + by intros [= <-].
    + destruct (Z.ltb_spec 971 e); [done|]. intros [= <-]. apply float64_spec. split; [lia|]. split; [lia|].
      destruct (decide (e = -1074)); [by right|by left].
    + by intros [= <-].
Qed.

Lemma mantissa_nonneg m e pt s : 0 <= m → 0 <= fst (mantissa_from m e pt s).
Proof.
  revert m e pt. induction s as [|c s IH]; intros m e pt Hm; [done|]. cbn [mantissa_from].
  destruct (isDigit c) eqn:Hc; [apply IH; pose proof (dval_nonneg c Hc); lia|].
  destruct (Ascii.eqb c "."); [by apply IH|done].
Qed.

Lemma readFloat_nonneg s : 0 <= fst (snd (readFloat s)).
Proof.
  assert (∀ r, 0 <= fst (mantissa_from 0 0 false r)) as H by (intros; by apply mantissa_nonneg).
  unfold readFloat. destruct s as [|[[] [] [] [] [] [] [] []] s]; apply H.
Qed.

Lemma ParseFloat_float64 s x : ParseFloat s = Some x → is_float64 x.
Proof.
  unfold ParseFloat. pose proof (readFloat_nonneg s) as H. destruct (readFloat s) as [neg [m e]].
  cbn [fst snd] in H. unfold round_decimal, tens. apply round_ratio_float64.
  - apply Z.mul_nonneg_nonneg; [done|]. by apply Z.pow_nonneg.
  - apply Z.pow_pos_nonneg; lia.
Qed.
