(* ===== verification/JsonText.v ===== *)
(** * The text encoding/json writes

    [json.Marshal] of the Go values of [Http.gojson] with HTML characters escaped,
    as an [Encoder] does by default: strings are repaired and escaped, map keys
    sorted, a [json.RawMessage] is compacted.  [MarshalIndent] lays the text out
    again.  Both read their input with the scanner of [Json]. *)

From stdpp Require Import pretty.
From S2P Require Import Prelude GoStrings Http Sql Json Float64.

Local Open Scope string_scope.

(** ** Compaction *)

Definition in_string (m : mode) : bool := match m with MInString _ => true | _ => false end.

(** The scanner skips a blank between tokens. *)
Definition skips (m : mode) (c : ascii) : bool := is_space c && negb (in_string m).

Fixpoint squeeze (cfg : config) (s : string) : string :=
  match s with
  | "" => ""
  | String c r =>
      match step cfg c with
      | Some cfg' => if skips (fst cfg) c then squeeze cfg' r else String c (squeeze cfg' r)
      | None => ""
      end
  end.

(** The characters that mean something in HTML or end a line of JavaScript; in a
    valid text they are inside strings. *)
Definition html_char (c : ascii) : bool := Ascii.eqb c "<" || Ascii.eqb c ">" || Ascii.eqb c "&".

Definition js_break (a b c : ascii) : bool :=
  Z.eqb (code a) 226 && Z.eqb (code b) 128 && (Z.eqb (code c) 168 || Z.eqb (code c) 169).

Fixpoint html_safe (s : string) : string :=
  match s with
  | "" => ""
  | String a r =>
      match r with
      | String b (String c r') =>
          if js_break a b c then "\u202" +:+ String (lower_hex (code c mod 16)) (html_safe r')
          else if html_char a then u00 (code a) (html_safe r) else String a (html_safe r)
      | _ => if html_char a then u00 (code a) (html_safe r) else String a (html_safe r)
      end
  end.

(** [compact] with escapes; [None] is the error for a text that is not JSON. *)
Definition compact (s : string) : option string :=
  _ ← Parse s; Some (html_safe (squeeze (MBeginValue, []) s)).

(** ** Marshal *)

(** [strconv.Itoa] *)
Definition Itoa (n : Z) : string := pretty n.

Definition member_text (k t : string) : string := quote_to true k (String ":" t).

Fixpoint Encode (v : gojson) : option string :=
  match v with
  | GStr s => Some (quote_to true s "")
  | GBool b => Some (if b then "true" else "false")
  | GInt n => Some (Itoa n)
  | GFloat x => float_text x
  | GNull => Some "null"
  | GRaw s => compact s
  | GList vs =>
      ts ← mapM Encode vs;
      Some ("[" +:+ Join ts "," +:+ "]")
  | GStruct kvs =>
      ts ← mapM (λ kv, t ← Encode (snd kv); Some (member_text (fst kv) t)) kvs;
      Some ("{" +:+ Join ts "," +:+ "}")
  | GMap kvs =>
      ts ← mapM (λ kv, t ← Encode (snd kv); Some (fst kv, t)) kvs;
      Some ("{" +:+ Join (map (λ kt, member_text kt.1 kt.2) (sort_by fst ts)) "," +:+ "}")
  end.

(** ** Indentation *)

(** [appendNewline] with the indentation of two blanks the program uses. *)
Definition appendNewline (prefix : string) (depth : nat) : string :=
  String "010" (prefix +:+ Repeat "  " depth).

(** [appendIndent]: the newline behind an opening bracket is held back until it is
    known that something is between the brackets; [in_token] are the bytes the
    scanner reads inside a string, a number or a literal. *)
Definition in_token (m : mode) (c : ascii) : bool :=
  match m with
  | MInString _ | MInStringEsc _ | MInStringEscU _ _ | MLit _ _ | MNeg _ | MDot _ | ME _ | MESign _ => true
  | M0 _ | M1 _ | MDot0 _ | ME0 _ =>
      negb (existsb (Ascii.eqb c) [","; "]"; "}"]%char)
  | _ => false
  end.

Definition opens (c : ascii) : bool := Ascii.eqb c "{" || Ascii.eqb c "[".
Definition closes (c : ascii) : bool := Ascii.eqb c "}" || Ascii.eqb c "]".

Section indent.
Context (prefix : string).

Fixpoint indent_from (cfg : config) (needIndent : bool) (depth : nat) (s : string) : string :=
  match s with
  | "" => ""
  | String c r =>
      match step cfg c with
      | None => ""
      | Some cfg' =>
          if skips (fst cfg) c then indent_from cfg' needIndent depth r
          else
            let token := in_token (fst cfg) c in
            let early := needIndent && (token || negb (closes c)) in
            let depth := if early then S depth else depth in
            let needIndent := needIndent && negb early in
            (if early then appendNewline prefix depth else "") +:+
            (if token then String c (indent_from cfg' needIndent depth r)
             else if opens c then String c (indent_from cfg' true depth r)
             else if Ascii.eqb c "," then String c (appendNewline prefix depth +:+ indent_from cfg' needIndent depth r)
             else if Ascii.eqb c ":" then String c (String " " (indent_from cfg' needIndent depth r))
             else if closes c then
               if needIndent then String c (indent_from cfg' false depth r)
               else appendNewline prefix (pred depth) +:+ String c (indent_from cfg' false (pred depth) r)
             else String c (indent_from cfg' needIndent depth r))
      end
  end.
End indent.

(** [json.MarshalIndent] *)
Definition MarshalIndent (prefix : string) (v : gojson) : option string :=
  t ← Encode v; Some (indent_from prefix (MBeginValue, []) false 0 t).

(** ** Bodies *)

(** What [json.NewEncoder(w).Encode(v)] and [w.Write] send. *)
Definition wire (b : Body) : string :=
  match b with
  | BText s => s
  | BJson v => match Encode v with Some t => t +:+ String "010" "" | None => "" end
  end.
