(* ===== verification/JsonTextSpec.v ===== *)
(** * Reading what encoding/json wrote

    The scanner reads an encoded value as the value: strings repaired, map keys
    sorted, raw messages as they parse.  Compacting a text and indenting it change
    neither the value nor the depth of its nesting. *)

From stdpp Require Import pretty.
From S2P Require Import Prelude GoStrings Http Sql Json JsonUtf8 JsonText.

Local Open Scope Z_scope.

(** ** Strings of any bytes *)

(** Every byte that is not part of a rune is replaced by U+FFFD. *)
Fixpoint repair (s : string) : string :=
  match s with
  | EmptyString => EmptyString
  | String a r =>
      if code a <? 128 then String a (repair r)
      else
        match r with
        | String b r2 =>
            if utf8_2 a b then String a (String b (repair r2)) else
            match r2 with
            | String c r3 =>
                if utf8_3 a b c then String a (String b (String c (repair r3))) else
                match r3 with
                | String d r4 =>
                    if utf8_4 a b c d then String a (String b (String c (String d (repair r4))))
                    else repl (repair r)
                | EmptyString => repl (repair r)
                end
            | EmptyString => repl (repair r)
            end
        | EmptyString => repl (repair r)
        end
  end.

Lemma repair_utf8 s : utf8 s → repair s = s.
Proof.
  induction 1 as [|a r Ha _ IH|a b r Hab _ IH|a b c r Habc _ IH|a b c d r Habcd _ IH]; simpl; [done|..].
  - by rewrite (proj2 (Z.ltb_lt _ _) Ha), IH.
  - pose proof (utf8_2_bytes _ _ Hab). by rewrite (proj2 (Z.ltb_ge _ _)), Hab, IH by lia.
  - pose proof (utf8_3_bytes _ _ _ Habc).
    by rewrite (proj2 (Z.ltb_ge _ _)), utf8_2_not3, Habc, IH by lia.
  - pose proof (utf8_4_bytes _ _ _ _ Habcd).
    by rewrite (proj2 (Z.ltb_ge _ _)), utf8_2_not3, utf8_3_not4, Habcd, IH by lia.
Qed.

Lemma body_ufffd : body "\ufffd".
Proof. intros raw st rest. run_literal. Qed.

Lemma unquote_ufffd w : unquote ("\ufffd" +:+ w) = repl (unquote w).
Proof. reflexivity. Qed.

(** Cases of a byte that begins no ASCII character. *)
Inductive lead (a : ascii) (r : string) : Prop :=
| lead2 b r2 : r = String b r2 → utf8_2 a b = true → lead a r
| lead3 b c r3 : r = String b (String c r3) → utf8_3 a b c = true → lead a r
| lead4 b c d r4 : r = String b (String c (String d r4)) → utf8_4 a b c d = true → lead a r
| lead_none :
    (∀ b r2, r = String b r2 → utf8_2 a b = false) →
    (∀ b c r3, r = String b (String c r3) → utf8_3 a b c = false) →
    (∀ b c d r4, r = String b (String c (String d r4)) → utf8_4 a b c d = false) → lead a r.

Lemma lead_cases a r : lead a r.
Proof.
  destruct r as [|b [|c [|d r4]]].
  - by apply lead_none.
  - destruct (utf8_2 a b) eqn:E2; [by eapply lead2|]. apply lead_none; intros; simplify_eq; done.
  - destruct (utf8_2 a b) eqn:E2; [by eapply lead2|].
    destruct (utf8_3 a b c) eqn:E3; [by eapply lead3|]. apply lead_none; intros; simplify_eq; done.
  - destruct (utf8_2 a b) eqn:E2; [by eapply lead2|].
    destruct (utf8_3 a b c) eqn:E3; [by eapply lead3|].
    destruct (utf8_4 a b c d) eqn:E4; [by eapply lead4|]. apply lead_none; intros; simplify_eq; done.
Qed.

(** A function that goes by runes, on a byte that begins none. *)
Ltac no_rune :=
  match goal with
  | H2 : ∀ b r2, ?r = _ → _, H3 : ∀ b c r3, ?r = _ → _, H4 : ∀ b c d r4, ?r = _ → _ |- _ =>
      destruct r as [|? [|? [|? ?]]];
      rewrite ?(H2 _ _ eq_refl), ?(H3 _ _ _ eq_refl), ?(H4 _ _ _ _ eq_refl); try reflexivity
  end.

Lemma escape_none html a r :
  128 <= code a →
  (∀ b r2, r = String b r2 → utf8_2 a b = false) →
  (∀ b c r3, r = String b (String c r3) → utf8_3 a b c = false) →
  (∀ b c d r4, r = String b (String c (String d r4)) → utf8_4 a b c d = false) →
  escape html (String a r) = "\ufffd" +:+ escape html r.
Proof. intros Ha H2 H3 H4. cbn [escape]. rewrite (proj2 (Z.ltb_ge _ _)) by lia. no_rune. Qed.

Lemma repair_none a r :
  128 <= code a →
  (∀ b r2, r = String b r2 → utf8_2 a b = false) →
  (∀ b c r3, r = String b (String c r3) → utf8_3 a b c = false) →
  (∀ b c d r4, r = String b (String c (String d r4)) → utf8_4 a b c d = false) →
  repair (String a r) = repl (repair r).
Proof. intros Ha H2 H3 H4. cbn [repair]. rewrite (proj2 (Z.ltb_ge _ _)) by lia. no_rune. Qed.

Lemma unquote_none a r :
  128 <= code a →
  (∀ b r2, r = String b r2 → utf8_2 a b = false) →
  (∀ b c r3, r = String b (String c r3) → utf8_3 a b c = false) →
  (∀ b c d r4, r = String b (String c (String d r4)) → utf8_4 a b c d = false) →
  unquote (String a r) = repl (unquote r).
Proof.
  intros Ha H2 H3 H4. destruct (unquote_byte a Ha) as [E1 E2]. cbn [unquote]. rewrite E1, E2. no_rune.
Qed.

(** A string is a rune and the rest, or a byte that begins none and the rest. *)
Inductive rune : string → Prop :=
| rune1 a : code a < 128 → rune (String a "")
| rune2 a b : utf8_2 a b = true → rune (String a (String b ""))
| rune3 a b c : utf8_3 a b c = true → rune (String a (String b (String c "")))
| rune4 a b c d : utf8_4 a b c d = true → rune (String a (String b (String c (String d "")))).

Lemma rune_utf8 x : rune x → utf8 x.
Proof. destruct 1; by repeat constructor. Qed.

Lemma rune_length x : rune x → (0 < String.length x)%nat.
Proof. destruct 1; simpl; lia. Qed.

Lemma by_runes (P : string → Prop) :
  P "" → (∀ x r, rune x → P r → P (x +:+ r)) →
  (∀ a r, 128 <= code a →
    (∀ b r2, r = String b r2 → utf8_2 a b = false) →
    (∀ b c r3, r = String b (String c r3) → utf8_3 a b c = false) →
    (∀ b c d r4, r = String b (String c (String d r4)) → utf8_4 a b c d = false) →
    P r → P (String a r)) →
  ∀ s, P s.
Proof.
  intros H0 Hr Hn s. remember (String.length s) as n eqn:En. revert s En.
  induction (lt_wf n) as [n _ IH]. intros [|a r] En; [done|]. simpl in En.
  destruct (Z.ltb_spec (code a) 128) as [Ha|Ha].
  { apply (Hr (String a "") r); [by constructor|]. by apply (IH (String.length r)); [lia|]. }
  destruct (lead_cases a r) as [b r2 -> E|b c r3 -> E|b c d r4 -> E|H2 H3 H4]; simpl in En.
  - apply (Hr (String a (String b "")) r2); [by constructor|]. by apply (IH (String.length r2)); [lia|].
  - apply (Hr (String a (String b (String c ""))) r3); [by constructor|].
    by apply (IH (String.length r3)); [lia|].
  - apply (Hr (String a (String b (String c (String d "")))) r4); [by constructor|].
    by apply (IH (String.length r4)); [lia|].
  - apply Hn; try done. by apply (IH (String.length r)); [lia|].
Qed.

Lemma repair_rune x r : rune x → repair (x +:+ r) = x +:+ repair r.
Proof.
  destruct 1 as [a Ha|a b Hab|a b c Habc|a b c d Habcd]; rewrite !app_cons_s, app_nil_l_s; cbn [repair].
  - by rewrite (proj2 (Z.ltb_lt _ _) Ha).
  - pose proof (utf8_2_bytes _ _ Hab). by rewrite (proj2 (Z.ltb_ge _ _)), Hab by lia.
  - pose proof (utf8_3_bytes _ _ _ Habc). by rewrite (proj2 (Z.ltb_ge _ _)), utf8_2_not3, Habc by lia.
  - pose proof (utf8_4_bytes _ _ _ _ Habcd).
    by rewrite (proj2 (Z.ltb_ge _ _)), utf8_2_not3, utf8_3_not4, Habcd by lia.
Qed.

Lemma escape_rune html x r : rune x → escape html (x +:+ r) = escape html x +:+ escape html r.
Proof.
  destruct 1 as [a Ha|a b Hab|a b c Habc|a b c d Habcd]; rewrite !app_cons_s, app_nil_l_s; cbn [escape].
  - rewrite (proj2 (Z.ltb_lt _ _) Ha). by rewrite escape_ascii_app.
  - pose proof (utf8_2_bytes _ _ Hab). by rewrite (proj2 (Z.ltb_ge _ _)), Hab by lia.
  - pose proof (utf8_3_bytes _ _ _ Habc). rewrite (proj2 (Z.ltb_ge _ _)), utf8_2_not3, Habc by lia.
    by destruct (_ && _).
  - pose proof (utf8_4_bytes _ _ _ _ Habcd).
    by rewrite (proj2 (Z.ltb_ge _ _)), utf8_2_not3, utf8_3_not4, Habcd by lia.
Qed.

Lemma unquote_rune html x w : rune x → unquote (escape html x +:+ w) = x +:+ unquote w.
Proof.
  destruct 1 as [a Ha|a b Hab|a b c Habc|a b c d Habcd]; cbn [escape].
  - rewrite (proj2 (Z.ltb_lt _ _) Ha), <- escape_ascii_app. by rewrite unquote_escape_ascii.
  - pose proof (utf8_2_bytes _ _ Hab). rewrite (proj2 (Z.ltb_ge _ _)), Hab by lia.
    by rewrite !app_cons_s, app_nil_l_s, unquote_two.
  - pose proof (utf8_3_bytes _ _ _ Habc). rewrite (proj2 (Z.ltb_ge _ _)), utf8_2_not3, Habc by lia.
    destruct ((code a =? 226) && (code b =? 128) && ((code c =? 168) || (code c =? 169))) eqn:E.
    + bool_prop. rewrite !orb_true_iff, !Z.eqb_eq in *.
      assert (a = chr 226) as -> by (apply code_inj; rewrite code_chr; lia).
      assert (b = chr 128) as -> by (apply code_inj; rewrite code_chr; lia).
      assert (c = chr 168 ∨ c = chr 169) as [-> | ->]
        by (match goal with H : _ ∨ _ |- _ => destruct H; [left|right] end;
            apply code_inj; rewrite code_chr; lia); reflexivity.
    + by rewrite !app_cons_s, app_nil_l_s, unquote_three.
  - pose proof (utf8_4_bytes _ _ _ _ Habcd).
    rewrite (proj2 (Z.ltb_ge _ _)), utf8_2_not3, utf8_3_not4, Habcd by lia.
    by rewrite !app_cons_s, app_nil_l_s, unquote_four.
Qed.

(** What [escape] writes stays inside the string and reads back repaired. *)
Lemma body_escape_any html s : body (escape html s).
Proof.
  revert s. apply by_runes.
  - apply body_nil.
  - intros x r Hx Hr. rewrite escape_rune by done. apply body_app; [by apply body_escape, rune_utf8|done].
  - intros a r Ha H2 H3 H4 Hr. rewrite escape_none by done. by apply body_app; [apply body_ufffd|].
Qed.

Lemma unquote_escape_any html s : unquote (escape html s) = repair s.
Proof.
  revert s. apply by_runes.
  - done.
  - intros x r Hx Hr. by rewrite escape_rune, unquote_rune, Hr, repair_rune by done.
  - intros a r Ha H2 H3 H4 Hr. by rewrite escape_none, repair_none, unquote_ufffd, Hr by done.
Qed.

(** ** Runs of the scanner *)

Lemma run_app cfg s t : run cfg (s +:+ t) = run cfg s ≫= λ cfg', run cfg' t.
Proof.
  revert cfg. induction s as [|c s IH]; intros cfg; [done|]. rewrite app_cons_s. cbn [run].
  destruct (step cfg c); [|done]. cbn [mbind option_bind]. apply IH.
Qed.

(** How many brackets are open at once at most. *)
Fixpoint deepest (cfg : config) (s : string) : nat :=
  match s with
  | EmptyString => length (snd cfg)
  | String c r =>
      match step cfg c with
      | Some cfg' => length (snd cfg) `max` deepest cfg' r
      | None => length (snd cfg)
      end
  end.

Definition Nesting (s : string) : nat := deepest (MBeginValue, []) s.

Lemma deepest_start cfg s : (length (snd cfg) <= deepest cfg s)%nat.
Proof. destruct s; simpl; [done|]. destruct (step _ _); lia. Qed.

(** Inside other brackets the scanner does the same, until it is too deep. *)
Definition lift (k : list frame) (cfg : config) : config := (fst cfg, snd cfg ++ k).

Definition free (k : list frame) : Prop := ∀ acc, head k ≠ Some (FKey acc).

Definition framed (cfg : config) : Prop :=
  match fst cfg with
  | MBeginValueOrEmpty | MBeginStringOrEmpty | MBeginString | MEndKey _ => snd cfg ≠ []
  | _ => True
  end.

Definition within (k : list frame) (st : list frame) : Prop :=
  Z.of_nat (length st) + Z.of_nat (length k) <= maxNestingDepth.

#[export] Instance within_dec k st : Decision (within k st).
Proof. unfold within. apply _. Defined.

Definition lifted (k : list frame) (cfg : config) : option config :=
  if decide (within k (snd cfg)) then Some (lift k cfg) else None.

Lemma lifted_same k st m st' :
  within k st → (length st' <= length st)%nat → lifted k (m, st') = Some (m, st' ++ k).
Proof. intros H Hl. unfold lifted. rewrite decide_True; [done|]. unfold within in *. simpl. lia. Qed.

Lemma push_lift k f m st cfg' :
  push f m st = Some cfg' → push f m (st ++ k) = lifted k cfg'.
Proof.
  unfold push. destruct (Z.leb_spec (Z.of_nat (length st) + 1) maxNestingDepth); [|done]. intros [= <-].
  unfold lifted, within. simpl. rewrite length_app.
  destruct (Z.leb_spec (Z.of_nat (length st + length k) + 1) maxNestingDepth); case_decide; try lia; done.
Qed.

Lemma begin_value_lift k st c cfg' :
  within k st → begin_value st c = Some cfg' → begin_value (st ++ k) c = lifted k cfg'.
Proof.
  intros Hw. unfold begin_value.
  branch; try done; try apply push_lift; intros [= <-]; by rewrite (lifted_same k st).
Qed.

Lemma end_value_lift k v st c cfg' :
  within k st → end_value v st c = Some cfg' → end_value v (st ++ k) c = lifted k cfg'.
Proof.
  intros Hw. unfold end_value. destruct (is_space c); [intros [= <-]; by rewrite (lifted_same k st)|].
  destruct st as [|[acc|acc|acc key] st]; try done; simpl; branch; try done; intros [= <-];
    match type of Hw with within _ ?l => by rewrite (lifted_same k l) by (simpl; lia || done) end.
Qed.

Lemma step_lift k cfg c cfg' :
  free k → framed cfg → within k (snd cfg) → step cfg c = Some cfg' → step (lift k cfg) c = lifted k cfg'.
Proof.
  intros Hk Hf Hw. destruct cfg as [m st]. unfold framed in Hf. simpl in Hf, Hw.
  assert (Hstay : ∀ m', lifted k (m', st) = Some (m', st ++ k)) by (intros; by apply (lifted_same k st)).
  assert (Htail : st ≠ [] → ∀ m', lifted k (m', tail st) = Some (m', tail (st ++ k))).
  { intros Hne m'. destruct st; [done|]. apply (lifted_same k (f :: st)); [done|simpl; lia]. }
  pose proof (begin_value_lift k st c) as Hbv. pose proof (λ v, end_value_lift k v st c) as Hev.
  destruct m; unfold lift; cbn [fst snd step]; unfold begin_string; branch; try done;
    try (intros [= <-]; by rewrite ?Hstay, ?Htail by done); auto.
  - destruct st as [|[] st]; try done. intros [= <-]. simpl.
    by rewrite (lifted_same k (FKey acc :: st)) by (simpl; lia || done).
  - destruct st as [|[acc|acc|acc key] st]; try (intros [= <-]; rewrite Hstay; done).
    intros [= <-]. rewrite Hstay. destruct k as [|[acc|acc|acc key] k]; try done. by destruct (Hk acc).
  - destruct (hex_val c); [|done]. destruct n as [|[|n]]; intros [= <-]; by rewrite Hstay.
  - destruct rest as [|a [|b rest]]; [done|..]; branch; try done; intros [= <-]; by rewrite Hstay.
Qed.

Lemma step_framed cfg c cfg' : framed cfg → step cfg c = Some cfg' → framed cfg'.
Proof.
  intros Hf. destruct cfg as [m st]. unfold framed in Hf. simpl in Hf.
  assert (Hbv : ∀ cfg', begin_value st c = Some cfg' → framed cfg').
  { intros cfg0. unfold begin_value, push. branch; try done; by intros [= <-]. }
  assert (Hev : ∀ v cfg', end_value v st c = Some cfg' → framed cfg').
  { intros v cfg0. unfold end_value. destruct (is_space c); [by intros [= <-]|].
    destruct st as [|[] st]; try done; branch; try done; by intros [= <-]. }
  destruct m; cbn [step]; unfold begin_string; branch; try done; try (by intros [= <-]); auto; eauto.
  - destruct st as [|[] st]; try done. by intros [= <-].
  - destruct st as [|[] st]; by intros [= <-].
  - destruct (hex_val c); [|done]. by destruct n as [|[|n]]; intros [= <-].
  - destruct rest as [|a [|b rest]]; [done|..]; branch; try done; by intros [= <-].
Qed.

(** A text read on its own is read inside the brackets of [k], or it is too deep. *)
Lemma run_lift k cfg s cfg' :
  free k → framed cfg → within k (snd cfg) → run cfg s = Some cfg' →
  run (lift k cfg) s =
    if decide (Z.of_nat (deepest cfg s) + Z.of_nat (length k) <= maxNestingDepth) then Some (lift k cfg') else None.
Proof.
  intros Hk. revert cfg. induction s as [|c s IH]; intros cfg Hf Hw; cbn [run deepest].
  { intros [= <-]. by rewrite decide_True. }
  destruct (step cfg c) as [cfg1|] eqn:E; [|done]. cbn [mbind option_bind]. intros Hr.
  rewrite (step_lift k cfg c cfg1) by done. unfold lifted.
  pose proof (deepest_start cfg1 s). unfold within in Hw |- *.
  case_decide as Hw1; cbn [mbind option_bind].
  - rewrite IH by (eauto using step_framed). apply decide_ext. lia.
  - rewrite decide_False; [done|]. lia.
Qed.

(** ** Swapping what a quoted text ends with *)

Lemma cont_false z : cont z = false → ¬ 128 <= code z <= 191.
Proof. unfold cont, in_range. intros H Hz. rewrite !(proj2 (Z.leb_le _ _)) in H by lia. done. Qed.

(** A byte that begins no rune still begins none before a byte that continues none. *)
Lemma none_app a r z0 z :
  (∀ b r2, r = String b r2 → utf8_2 a b = false) →
  (∀ b c r3, r = String b (String c r3) → utf8_3 a b c = false) →
  (∀ b c d r4, r = String b (String c (String d r4)) → utf8_4 a b c d = false) →
  128 <= code a → cont z0 = false →
  unquote (String a (r +:+ String z0 z)) = repl (unquote (r +:+ String z0 z)).
Proof.
  intros H2 H3 H4 Ha Hz%cont_false. apply unquote_none; [done|..];
    destruct r as [|b [|c [|d r]]]; rewrite ?app_cons_s, ?app_nil_l_s; intros; simplify_eq;
    try (by eapply H2); try (by eapply H3); try (by eapply H4); apply not_true_is_false;
    first [intros ?%utf8_2_bytes; lia|intros ?%utf8_3_bytes; lia|intros ?%utf8_4_bytes; lia].
Qed.

(** Two ends, a \u escape and a character, that read the same on their own. *)
Record swaps (x y : string) : Prop := {
  swap_x : ∃ h1 h2 h3 h4, x = String "\" (String "u" (String h1 (String h2 (String h3 (String h4 ""))))) ∧
             is_low (hex4 h1 h2 h3 h4) = false;
  swap_y : ∃ y0 y', y = String y0 y' ∧ y0 ≠ "\"%char ∧ cont y0 = false;
  swap_reads : ∀ w, unquote (x +:+ w) = unquote (y +:+ w)
}.

(** What becomes of a \u escape. *)
Lemma unquote_u_eq h1 h2 h3 h4 s :
  let u := hex4 h1 h2 h3 h4 in
  unquote (String "\" (String "u" (String h1 (String h2 (String h3 (String h4 s)))))) =
  if is_high u || is_low u then
    match s with
    | String b (String f (String g1 (String g2 (String g3 (String g4 r))))) =>
        let u1 := hex4 g1 g2 g3 g4 in
        if Ascii.eqb b "\" && Ascii.eqb f "u" && is_high u && is_low u1
        then encode_rune ((u - 55296) * 1024 + (u1 - 56320) + 65536) (unquote r)
        else repl (unquote s)
    | _ => repl (unquote s)
    end
  else encode_rune u (unquote s).
Proof. reflexivity. Qed.

Definition surrogate (u : Z) : bool := is_high u || is_low u.
Definition pairs_up (u u1 : Z) : bool := is_high u && is_low u1.

Lemma unquote_lone h1 h2 h3 h4 b r :
  b ≠ "\"%char → surrogate (hex4 h1 h2 h3 h4) = true →
  unquote (String "\" (String "u" (String h1 (String h2 (String h3 (String h4 (String b r))))))) =
  repl (unquote (String b r)).
Proof.
  unfold surrogate. intros Hb Hu. apply Ascii.eqb_neq in Hb. rewrite unquote_u_eq. cbv zeta. rewrite Hu.
  destruct r as [|f [|g1 [|g2 [|g3 [|g4 r3]]]]]; [reflexivity..|]. by rewrite Hb.
Qed.

Lemma unquote_pairless h1 h2 h3 h4 e r :
  e ≠ "u"%char → surrogate (hex4 h1 h2 h3 h4) = true →
  unquote (String "\" (String "u" (String h1 (String h2 (String h3 (String h4 (String "\" (String e r)))))))) =
  repl (unquote (String "\" (String e r))).
Proof.
  unfold surrogate. intros He Hu. apply Ascii.eqb_neq in He. rewrite unquote_u_eq. cbv zeta. rewrite Hu.
  destruct r as [|g1 [|g2 [|g3 [|g4 r3]]]]; [reflexivity..|]. by rewrite He, andb_false_r.
Qed.

Lemma unquote_u h1 h2 h3 h4 g1 g2 g3 g4 r s :
  s = String "\" (String "u" (String g1 (String g2 (String g3 (String g4 r))))) →
  surrogate (hex4 h1 h2 h3 h4) = true →
  unquote (String "\" (String "u" (String h1 (String h2 (String h3 (String h4 s)))))) =
  if pairs_up (hex4 h1 h2 h3 h4) (hex4 g1 g2 g3 g4)
  then encode_rune ((hex4 h1 h2 h3 h4 - 55296) * 1024 + (hex4 g1 g2 g3 g4 - 56320) + 65536) (unquote r)
  else repl (unquote s).
Proof.
  unfold surrogate. intros Es Hu. rewrite unquote_u_eq. cbv zeta. rewrite Hu.
  rewrite Es at 1. by rewrite !Ascii.eqb_refl.
Qed.

Lemma unquote_bmp h1 h2 h3 h4 r :
  surrogate (hex4 h1 h2 h3 h4) = false →
  unquote (String "\" (String "u" (String h1 (String h2 (String h3 (String h4 r)))))) =
  encode_rune (hex4 h1 h2 h3 h4) (unquote r).
Proof. unfold surrogate. intros Hu. rewrite unquote_u_eq. cbv zeta. by rewrite Hu. Qed.

Section swap.
Context (x y : string) (Hs : swaps x y).

(** One of the two behind a text, before another. *)
Lemma unquote_swap raw w : scanned raw → unquote (raw +:+ x +:+ w) = unquote (raw +:+ y +:+ w).
Proof.
  destruct Hs as [(g1 & g2 & g3 & g4 & Ex & Hlow) (y0 & y' & Ey & Hy0 & Hcont) Hu].
  remember (String.length raw) as n eqn:En. revert raw En.
  induction (lt_wf n) as [n _ IH]. intros raw En Hraw.
  assert (IH' : ∀ r, (String.length r < n)%nat → scanned r → unquote (r +:+ x +:+ w) = unquote (r +:+ y +:+ w))
    by (intros r Hl; by apply (IH _ Hl)). clear IH.
  destruct Hraw as [|a r Ha Hr|e r He Hc Hr|h1 h2 h3 h4 r Hr]; rewrite ?app_cons_s; simpl in En.
  - rewrite !app_nil_l_s. apply Hu.
  - destruct (Z.ltb_spec (code a) 128).
    { apply Ascii.eqb_neq in Ha. rewrite !unquote_plain by done. f_equal. apply IH'; [lia|done]. }
    destruct (lead_cases a r) as [b r2 -> E|b c r3 -> E|b c d r4 -> E|H2 H3 H4]; simpl in En; rewrite ?app_cons_s.
    + rewrite !unquote_two by done. apply utf8_2_bytes in E. do 2 f_equal. apply IH'; [lia|].
      eapply scanned_high; [|done]. lia.
    + rewrite !unquote_three by done. apply utf8_3_bytes in E. do 3 f_equal. apply IH'; [lia|].
      apply (scanned_high c); [lia|]. apply (scanned_high b); [lia|done].
    + rewrite !unquote_four by done. apply utf8_4_bytes in E. do 4 f_equal. apply IH'; [lia|].
      apply (scanned_high d); [lia|]. apply (scanned_high c); [lia|]. apply (scanned_high b); [lia|done].
    + pose proof (IH' r ltac:(lia) Hr) as E. rewrite Ex, Ey in E |- *. rewrite !app_cons_s in E |- *.
      rewrite !none_app by done. by f_equal.
  - rewrite !unquote_simple by (by apply Ascii.eqb_neq). f_equal. apply IH'; [lia|done].
  - pose proof (IH' r ltac:(lia) Hr) as E.
    destruct (surrogate (hex4 h1 h2 h3 h4)) eqn:Eu.
    2:{ rewrite !unquote_bmp by done. by rewrite E. }
    destruct Hr as [|a r Ha Hr|e r He Hc Hr|k1 k2 k3 k4 r Hr]; rewrite ?app_cons_s, ?app_nil_l_s in *.
    + rewrite Ex, Ey in E |- *. rewrite !app_cons_s in E |- *. rewrite (unquote_u _ _ _ _ _ _ _ _ _ _ eq_refl), unquote_lone by done.
      unfold pairs_up. rewrite Hlow, andb_false_r. by f_equal.
    + rewrite !unquote_lone by done. by f_equal.
    + rewrite !unquote_pairless by done. by f_equal.
    + rewrite !(unquote_u _ _ _ _ _ _ _ _ _ _ eq_refl) by done. destruct (pairs_up _ _); [|by f_equal].
      f_equal. apply IH'; [simpl in En; lia|done].
Qed.
End swap.

Lemma swaps_html c : html_char c = true → swaps (u00 (code c) "") (String c "").
Proof.
  unfold html_char. intros H. apply orb_true_iff in H as [[->%Ascii.eqb_eq| ->%Ascii.eqb_eq]%orb_true_iff| ->%Ascii.eqb_eq];
    (split; [by repeat eexists|by repeat eexists|reflexivity]).
Qed.

Lemma swaps_break a b c :
  js_break a b c = true →
  swaps ("\u202" +:+ String (lower_hex (code c mod 16)) "") (String a (String b (String c ""))).
Proof.
  unfold js_break. intros H. bool_prop. rewrite orb_true_iff, !Z.eqb_eq in *.
  assert (a = chr 226) as -> by (apply code_inj; rewrite code_chr; lia).
  assert (b = chr 128) as -> by (apply code_inj; rewrite code_chr; lia).
  assert (c = chr 168 ∨ c = chr 169) as [-> | ->]
    by (match goal with H : _ ∨ _ |- _ => destruct H; [left|right] end; apply code_inj; rewrite code_chr; lia);
    (split; [by repeat eexists|by repeat eexists|reflexivity]).
Qed.

(** ** Squeezing *)

(** The states in which a value is complete; a number is ended by what follows. *)
Inductive ends (j : json) : mode → Prop :=
| ends_value : ends j (MEndValue j)
| ends_0 raw : j = JNum raw → ends j (M0 raw)
| ends_1 raw : j = JNum raw → ends j (M1 raw)
| ends_dot raw : j = JNum raw → ends j (MDot0 raw)
| ends_e raw : j = JNum raw → ends j (ME0 raw).
#[export] Hint Constructors ends : interchange.

Lemma is_space_cases c : is_space c = true → c = " "%char ∨ c = "009"%char ∨ c = "013"%char ∨ c = "010"%char.
Proof. unfold is_space. rewrite !orb_true_iff, !Ascii.eqb_eq. tauto. Qed.

(** What may follow a complete value. *)
Definition follows (c : ascii) : Prop := is_space c = true ∨ c = ","%char ∨ c = "]"%char ∨ c = "}"%char.

Lemma ends_step j m st c : ends j m → follows c → step (m, st) c = end_value j st c.
Proof.
  intros Hm Hc. unfold follows in Hc.
  destruct Hm; subst; [done|..]; destruct Hc as [Hc|Hc];
    try (apply is_space_cases in Hc); destruct_or! Hc; subst; reflexivity.
Qed.

Lemma end_value_follows j st c cfg : end_value j st c = Some cfg → follows c.
Proof.
  unfold end_value, follows. destruct (is_space c); [by left|].
  destruct st as [|[] st]; try done; branch; try done;
    match goal with H : Ascii.eqb c _ = true |- _ => apply Ascii.eqb_eq in H; subst end; tauto.
Qed.

Lemma end_value_space j st c : is_space c = true → end_value j st c = Some (MEndValue j, st).
Proof. unfold end_value. by intros ->. Qed.

(** A literal has no blanks and no punctuation. *)
Definition literal (cfg : config) : Prop :=
  match fst cfg with MLit rest _ => all_bytes is_lower rest = true | _ => True end.

Lemma step_literal cfg c cfg' : literal cfg → step cfg c = Some cfg' → literal cfg'.
Proof.
  intros Hl. destruct cfg as [m st]. unfold literal in Hl. simpl in Hl.
  assert (Hbv : ∀ cfg', begin_value st c = Some cfg' → literal cfg').
  { intros cfg0. unfold begin_value, push. branch; try done; by intros [= <-]. }
  assert (Hev : ∀ v cfg', end_value v st c = Some cfg' → literal cfg').
  { intros v cfg0. unfold end_value. destruct (is_space c); [by intros [= <-]|].
    destruct st as [|[] st]; try done; branch; try done; by intros [= <-]. }
  destruct m; cbn [step]; unfold begin_string; branch; try done; try (by intros [= <-]); auto; eauto.
  - destruct st as [|[] st]; try done. by intros [= <-].
  - destruct st as [|[] st]; by intros [= <-].
  - destruct (hex_val c); [|done]. by destruct n as [|[|n]]; intros [= <-].
  - destruct rest as [|a [|b rest]]; [done|..]; branch; try done; intros [= <-]; [done|].
    by apply andb_true_iff in Hl as [_ Hl].
Qed.

(** The scanner on the text without blanks. *)
Definition caught_up (cfg1 cfg : config) : Prop :=
  cfg1 = cfg ∨ ∃ j m st, cfg1 = (m, st) ∧ cfg = (MEndValue j, st) ∧ ends j m.

Lemma caught_up_stack cfg1 cfg : caught_up cfg1 cfg → snd cfg1 = snd cfg.
Proof. by intros [->|(j & m & st & -> & -> & _)]. Qed.

Lemma step_skips cfg1 cfg c cfg' :
  literal cfg → caught_up cfg1 cfg → step cfg c = Some cfg' → skips (fst cfg) c = true →
  caught_up cfg1 cfg' ∧ snd cfg' = snd cfg.
Proof.
  intros Hl Hr Hs [Hc Hm]%andb_true_iff. apply negb_true_iff in Hm.
  destruct cfg as [m st]. unfold literal in Hl. simpl in Hl, Hm.
  assert (Hnum : ∀ j, ends j m → m ≠ MEndValue j → step (m, st) c = Some cfg' →
            caught_up cfg1 cfg' ∧ snd cfg' = snd (m, st)).
  { intros j He Hne Hst. rewrite (ends_step j) in Hst by (done || by left).
    rewrite end_value_space in Hst by done. injection Hst as <-. split; [|done].
    destruct Hr as [->|(j' & m' & st' & -> & [= -> ->] & He')]; [right; by exists j, m, st|].
    exfalso. inversion He; congruence. }
  destruct m; try discriminate Hm.
  all: try (eapply Hnum; [by eauto with interchange|done|done]).
  all: cbn [step] in Hs; rewrite ?Hc in Hs.
  all: try (injection Hs as <-; by split).
  - unfold end_value in Hs. rewrite Hc in Hs. injection Hs as <-. by split.
  - exfalso. apply is_space_cases in Hc. destruct_or! Hc; subst; discriminate Hs.
  - exfalso. apply is_space_cases in Hc. destruct_or! Hc; subst; discriminate Hs.
  - exfalso. apply is_space_cases in Hc.
    destruct rest as [|a [|b rest]]; [done|..]; simpl in Hl; destruct (Ascii.eqb c a) eqn:E; try done;
      apply Ascii.eqb_eq in E; subst; destruct_or! Hc; subst; done.
  - exfalso. apply is_space_cases in Hc. destruct_or! Hc; subst; discriminate Hs.
  - exfalso. apply is_space_cases in Hc. destruct_or! Hc; subst; discriminate Hs.
  - exfalso. apply is_space_cases in Hc. destruct_or! Hc; subst; discriminate Hs.
  - exfalso. apply is_space_cases in Hc. destruct_or! Hc; subst; discriminate Hs.
Qed.

Lemma step_kept cfg1 cfg c cfg' :
  caught_up cfg1 cfg → step cfg c = Some cfg' → skips (fst cfg) c = false → step cfg1 c = Some cfg'.
Proof.
  intros [->|(j & m & st & -> & -> & He)] Hs Hk; [done|]. unfold skips in Hk. simpl in Hk.
  rewrite andb_true_r in Hk. cbn [step] in Hs. rewrite (ends_step j) by (eauto using end_value_follows). done.
Qed.

Lemma run_squeeze s cfg1 cfg cfg' :
  literal cfg → caught_up cfg1 cfg → run cfg s = Some cfg' →
  ∃ cfg1', run cfg1 (squeeze cfg s) = Some cfg1' ∧ caught_up cfg1' cfg' ∧
    deepest cfg1 (squeeze cfg s) = deepest cfg s.
Proof.
  revert cfg1 cfg. induction s as [|c s IH]; intros cfg1 cfg Hl Hr; cbn [run squeeze deepest].
  { intros [= <-]. exists cfg1. by rewrite (caught_up_stack _ _ Hr). }
  destruct (step cfg c) as [cfg2|] eqn:E; [|done]. cbn [mbind option_bind]. intros Hs.
  pose proof (step_literal _ _ _ Hl E) as Hl2. destruct (skips (fst cfg) c) eqn:K.
  - destruct (step_skips cfg1 cfg c cfg2) as [Hr2 Hst]; [done..|].
    destruct (IH cfg1 cfg2 Hl2 Hr2 Hs) as (cfg1' & R & Hr' & D). exists cfg1'. split_and!; [done|done|].
    rewrite D. pose proof (deepest_start cfg2 s). rewrite Hst in *. lia.
  - pose proof (step_kept _ _ _ _ Hr E K) as E1.
    destruct (IH cfg2 cfg2 Hl2 (or_introl eq_refl) Hs) as (cfg1' & R & Hr' & D). exists cfg1'.
    cbn [run deepest]. rewrite E1. split_and!; [done|done|]. by rewrite D, (caught_up_stack _ _ Hr).
Qed.

Lemma squeeze_head cfg s c r :
  literal cfg → in_string (fst cfg) = false → squeeze cfg s = String c r → is_space c = false.
Proof.
  revert cfg. induction s as [|a s IH]; intros cfg Hl Hm; cbn [squeeze]; [done|].
  destruct (step cfg a) as [cfg'|] eqn:E; [|done]. destruct (skips (fst cfg) a) eqn:K.
  - apply IH; [by eapply step_literal|].
    destruct (step_skips cfg cfg a cfg' Hl (or_introl eq_refl) E K) as [[<-|(j & m & st & _ & -> & _)] _]; done.
  - intros [= <- _]. unfold skips in K. by rewrite Hm, andb_true_r in K.
Qed.

(** ** Escaping for HTML *)

(** Quoted texts that read the same, whatever follows. *)
Definition same (a b : string) : Prop := ∀ w, unquote (a +:+ w) = unquote (b +:+ w).

Lemma same_unquote a b : same a b → unquote a = unquote b.
Proof. intros H. specialize (H ""%string). by rewrite !app_nil_r_s in H. Qed.

Lemma same_snoc a b c : same a b → same (snoc a c) (snoc b c).
Proof. intros H w. unfold snoc. rewrite !app_assoc_s. apply H. Qed.

Lemma same_swaps a b x y : same a b → scanned b → swaps x y → same (a +:+ x) (b +:+ y).
Proof. intros H Hb Hx w. rewrite !app_assoc_s, H. by apply unquote_swap. Qed.

Inductive alike : config → config → Prop :=
| alike_refl cfg : alike cfg cfg
| alike_in a b st : same a b → alike (MInString a, st) (MInString b, st)
| alike_esc a b st : same a b → alike (MInStringEsc a, st) (MInStringEsc b, st)
| alike_u n a b st : same a b → alike (MInStringEscU n a, st) (MInStringEscU n b, st).

Lemma alike_stack cfg1 cfg : alike cfg1 cfg → snd cfg1 = snd cfg.
Proof. by destruct 1. Qed.

Lemma alike_string cfg1 b st : alike cfg1 (MInString b, st) → ∃ a, cfg1 = (MInString a, st) ∧ same a b.
Proof. inversion 1; subst; [by exists b|by eexists]. Qed.

Lemma alike_step cfg1 cfg c cfg' :
  alike cfg1 cfg → step cfg c = Some cfg' → ∃ cfg1', step cfg1 c = Some cfg1' ∧ alike cfg1' cfg'.
Proof.
  destruct 1 as [cfg|a b st Hs|a b st Hs|n a b st Hs].
  - intros Hst. exists cfg'. split; [done|constructor].
  - cbn [step]. rewrite (same_unquote a b Hs). branch; try done.
    + intros Hst. exists cfg'. split; [done|constructor].
    + intros [= <-]. eexists. split; [done|]. constructor. by apply same_snoc.
    + intros [= <-]. eexists. split; [done|]. constructor. by apply same_snoc.
  - cbn [step]. branch; try done; intros [= <-]; (eexists; split; [done|]); constructor; by apply same_snoc.
  - cbn [step]. destruct (hex_val c); [|done].
    destruct n as [|[|n]]; intros [= <-]; (eexists; split; [done|]); constructor; by apply same_snoc.
Qed.

(** The bytes that are rewritten are inside strings. *)
Definition string_only (c : ascii) : Prop :=
  ∀ cfg cfg', literal cfg → step cfg c = Some cfg' →
    ∃ b st, cfg = (MInString b, st) ∧ cfg' = (MInString (snoc b c), st).

Ltac string_only :=
  intros [m st] cfg' Hl; destruct m; try (by intros [= <-]; eexists _, _);
  try (let H := fresh in intros H; exfalso; by destruct st as [|[] st]);
  match goal with
  | |- step (MInStringEscU ?n ?raw, ?st) _ = _ → _ => by destruct n as [|[|n]]
  | |- step (MLit ?rest ?v, ?st) _ = _ → _ =>
      unfold literal in Hl; simpl in Hl; destruct rest as [|x [|y rest]]; [done|..];
      cbn [step]; case_match; try done; exfalso;
      match goal with E : Ascii.eqb _ _ = true |- _ => apply Ascii.eqb_eq in E; subst end; by vm_compute in Hl
  | _ => idtac
  end.

Lemma html_string_only c : html_char c = true → string_only c.
Proof.
  unfold html_char. intros H. apply orb_true_iff in H as [[->%Ascii.eqb_eq| ->%Ascii.eqb_eq]%orb_true_iff| ->%Ascii.eqb_eq];
    string_only.
Qed.

Lemma break_string_only a : code a = 226 → string_only a.
Proof. intros H. assert (a = "226"%char) as -> by (by apply code_inj). string_only. Qed.

(** A text that stays inside the string, and how deep that is. *)
Lemma deepest_app cfg s t cfg' :
  run cfg s = Some cfg' → deepest cfg (s +:+ t) = (deepest cfg s `max` deepest cfg' t)%nat.
Proof.
  revert cfg. induction s as [|c s IH]; intros cfg; rewrite ?app_cons_s, ?app_nil_l_s; cbn [run deepest].
  { intros [= <-]. pose proof (deepest_start cfg t). lia. }
  destruct (step cfg c) as [cfg2|]; [|done]. cbn [mbind option_bind]. intros Hr. rewrite (IH cfg2 Hr). lia.
Qed.

Definition flat (w : string) : Prop :=
  ∀ raw st, run (MInString raw, st) w = Some (MInString (raw +:+ w), st) ∧ deepest (MInString raw, st) w = length st.

Lemma flat_html c : html_char c = true → flat (u00 (code c) "").
Proof.
  unfold html_char. intros H raw st.
  apply orb_true_iff in H as [[->%Ascii.eqb_eq| ->%Ascii.eqb_eq]%orb_true_iff| ->%Ascii.eqb_eq];
    (split; [cbv -[length Nat.max String.append]; by rewrite ?app_assoc_s|cbv -[length Nat.max String.append]; lia]).
Qed.

Lemma flat_break c : code c = 168 ∨ code c = 169 → flat ("\u202" +:+ String (lower_hex (code c mod 16)) "").
Proof.
  intros Hc raw st. assert (c = "168"%char ∨ c = "169"%char) as [-> | ->]
    by (destruct Hc; [left|right]; by apply code_inj).
  - change (_ +:+ String (lower_hex (code "168" mod 16)) "") with "\u2028"%string.
    split; [cbv -[length Nat.max String.append]; by rewrite ?app_assoc_s|cbv -[length Nat.max String.append]; lia].
  - change (_ +:+ String (lower_hex (code "169" mod 16)) "") with "\u2029"%string.
    split; [cbv -[length Nat.max String.append]; by rewrite ?app_assoc_s|cbv -[length Nat.max String.append]; lia].
Qed.

Lemma flat_swap a b st x y rest :
  flat x → run (MInString b, st) y = Some (MInString (b +:+ y), st) → deepest (MInString b, st) y = length st →
  swaps x y → same a b → scanned b →
  run (MInString a, st) (x +:+ rest) = run (MInString (a +:+ x), st) rest ∧
  alike (MInString (a +:+ x), st) (MInString (b +:+ y), st) ∧
  ∀ t, deepest (MInString (a +:+ x), st) rest = deepest (MInString (b +:+ y), st) t →
    deepest (MInString a, st) (x +:+ rest) = deepest (MInString b, st) (y +:+ t).
Proof.
  intros Hx Hy Hdy Hs Hab Hb. destruct (Hx a st) as [Hrx Hdx]. split_and!.
  - by rewrite run_app, Hrx.
  - constructor. by apply same_swaps.
  - intros t Ht. by rewrite (deepest_app _ _ _ _ Hrx), (deepest_app _ _ _ _ Hy), Hdx, Hdy, Ht.
Qed.

Lemma break_run a b c raw st :
  code a = 226 → code b = 128 → code c = 168 ∨ code c = 169 →
  let y := String a (String b (String c "")) in
  run (MInString raw, st) y = Some (MInString (raw +:+ y), st) ∧ deepest (MInString raw, st) y = length st.
Proof.
  intros Ha Hb Hc. assert (a = "226"%char) as -> by (by apply code_inj).
  assert (b = "128"%char) as -> by (by apply code_inj).
  assert (c = "168"%char ∨ c = "169"%char) as [-> | ->] by (destruct Hc; [left|right]; by apply code_inj);
    (split; [cbv -[length Nat.max String.append]; by rewrite ?app_assoc_s|cbv -[length Nat.max String.append]; lia]).
Qed.

Lemma html_safe_cases s :
  s = ""%string ∨
  (∃ a b c r, s = String a (String b (String c r)) ∧ js_break a b c = true ∧
     html_safe s = "\u202" +:+ String (lower_hex (code c mod 16)) "" +:+ html_safe r) ∨
  (∃ c r, s = String c r ∧ html_char c = true ∧ html_safe s = u00 (code c) "" +:+ html_safe r) ∨
  (∃ c r, s = String c r ∧ html_safe s = String c (html_safe r)).
Proof.
  destruct s as [|a r]; [by left|]. right.
  assert (html_safe (String a r) = (if html_char a then u00 (code a) "" +:+ html_safe r else String a (html_safe r)) ∨
    ∃ b c r', r = String b (String c r') ∧ js_break a b c = true ∧
      html_safe (String a r) = "\u202" +:+ String (lower_hex (code c mod 16)) "" +:+ html_safe r') as [E|E].
  { destruct r as [|b [|c r']]; [by left..|]. destruct (js_break a b c) eqn:J.
    - right. exists b, c, r'. split_and!; [done|done|]. cbn [html_safe]. by rewrite J.
    - left. cbn [html_safe]. by rewrite J. }
  - right. destruct (html_char a) eqn:H; [left|right]; by exists a, r.
  - left. destruct E as (b & c & r' & -> & J & E). by exists a, b, c, r'.
Qed.

Lemma run_html s : ∀ cfg1 cfg cfg',
  literal cfg → config_utf8 cfg → alike cfg1 cfg → run cfg s = Some cfg' →
  ∃ cfg1', run cfg1 (html_safe s) = Some cfg1' ∧ alike cfg1' cfg' ∧ deepest cfg1 (html_safe s) = deepest cfg s.
Proof.
  remember (String.length s) as n eqn:En. revert s En.
  induction (lt_wf n) as [n _ IH]. intros s En cfg1 cfg cfg' Hl Hu Ha.
  destruct (html_safe_cases s) as [->|[(a & b & c & r & -> & J & E)|[(c & r & -> & H & E)|(c & r & -> & E)]]].
  - intros [= <-]. exists cfg1. split_and!; [done|done|]. simpl. by rewrite (alike_stack _ _ Ha).
  - pose proof (swaps_break _ _ _ J) as Hsw. pose proof J as Hj. unfold js_break in Hj. bool_prop.
    rewrite orb_true_iff, !Z.eqb_eq in *. rewrite E. intros Hr.
    destruct (step cfg a) as [cfg2|] eqn:Es; [|by cbn [run] in Hr; rewrite Es in Hr].
    destruct (break_string_only a ltac:(done) cfg cfg2 Hl Es) as (raw & st & -> & ->).
    destruct (alike_string _ _ _ Ha) as (raw1 & -> & Hsame).
    set (y := String a (String b (String c ""))) in *.
    assert (run (MInString raw, st) y = Some (MInString (raw +:+ y), st) ∧ deepest (MInString raw, st) y = length st)
      as [Hy Hdy].
    { apply (break_run a b c raw st); [done|done|by destruct_or!; [left|right]]. }
    change (String a (String b (String c r))) with (y +:+ r) in Hr |- *. rewrite run_app, Hy in Hr. cbn [mbind option_bind] in Hr.
    rewrite <- app_assoc_s.
    destruct (flat_swap raw1 raw st _ y (html_safe r) (flat_break c ltac:(done)) Hy Hdy Hsw Hsame) as (Hx & Hal & Hd).
    { by destruct Hu. }
    destruct (IH (String.length r) ltac:(subst n; simpl; lia) r eq_refl _ (MInString (raw +:+ y), st) cfg' I
      (run_utf8 y _ _ Hu Hy) Hal Hr) as (cfg1' & R & Hal' & D).
    exists cfg1'. rewrite Hx. split_and!; [done|done|]. apply (Hd r D).
  - rewrite E. cbn [run]. destruct (step cfg c) as [cfg2|] eqn:Es; [|done].
    destruct (html_string_only c H cfg cfg2 Hl Es) as (raw & st & -> & ->).
    destruct (alike_string _ _ _ Ha) as (raw1 & -> & Hsame). intros Hr.
    assert (Hy : run (MInString raw, st) (String c "") = Some (MInString (raw +:+ String c ""), st))
      by (cbn [run]; by rewrite Es).
    assert (Hdy : deepest (MInString raw, st) (String c "") = length st).
    { cbn [deepest]. rewrite Es. simpl. lia. }
    destruct (flat_swap raw1 raw st _ _ (html_safe r) (flat_html c H) Hy Hdy (swaps_html c H) Hsame) as (Hx & Hal & Hd).
    { by destruct Hu. }
    destruct (IH (String.length r) ltac:(subst n; simpl; lia) r eq_refl _ (MInString (raw +:+ String c ""), st) cfg' I
      (step_utf8 _ _ _ Hu Es) Hal Hr) as (cfg1' & R & Hal' & D).
    exists cfg1'. rewrite Hx. split_and!; [done|done|]. apply (Hd r D).
  - rewrite E. cbn [run deepest]. destruct (step cfg c) as [cfg2|] eqn:Es; [|done]. cbn [mbind option_bind]. intros Hr.
    destruct (alike_step _ _ _ _ Ha Es) as (cfg3 & E3 & Ha3). rewrite E3.
    destruct (IH (String.length r) ltac:(subst n; simpl; lia) r eq_refl cfg3 cfg2 cfg') as (cfg1' & R & Hal' & D);
      [by eapply step_literal|by eapply step_utf8|done|done|].
    exists cfg1'. split_and!; [done|done|]. by rewrite D, (alike_stack _ _ Ha).
Qed.
