(* ===== verification/JsonRead.v ===== *)
(** * Every encoded value reads back

    [json.Marshal] and [json.MarshalIndent] write texts the scanner reads as the
    value they were given, and nest as deeply as it does; the scanner accepts ten
    thousand open brackets. *)

From stdpp Require Import pretty.
From S2P Require Import Prelude GoStrings GoTime GoDuration Http Sql Json JsonUtf8 Float64 JsonText JsonTextSpec.

Local Open Scope Z_scope.

(** ** Texts of a value *)

(** The scanner reads [t] as [j] where a value is expected, with room for [n] more
    brackets; without the room it reports an error. *)
Definition reads (t : string) (j : json) (n : nat) (st : list frame) : Prop :=
  if decide (Z.of_nat n + Z.of_nat (length st) <= maxNestingDepth)
  then ∃ m, run (MBeginValue, st) t = Some (m, st) ∧ ends j m
  else run (MBeginValue, st) t = None.

Definition room (st : list frame) : Prop := Z.of_nat (length st) <= maxNestingDepth.

(** The text begins with a token, not with the end of an array. *)
Definition begun (t : string) : Prop := ∃ c r, t = String c r ∧ is_space c = false ∧ c ≠ "]"%char.

Definition writes (t : string) (j : json) (n : nat) : Prop :=
  begun t ∧ ∀ st, free st → room st → reads t j n st.

(** A text of its own. *)
Lemma writes_Parse t j n :
  writes t j n → Parse t = if decide (Z.of_nat n <= maxNestingDepth) then Some j else None.
Proof.
  intros [_ H]. specialize (H [] ltac:(done) ltac:(done)). unfold reads in H. simpl in H. unfold Parse.
  assert (Z.of_nat n + 0 <= maxNestingDepth ↔ Z.of_nat n <= maxNestingDepth) as E by lia.
  rewrite (decide_ext _ _ _ _ E) in H. case_decide; [|by rewrite H].
  destruct H as (m & -> & Hm). cbn [mbind option_bind].
  rewrite (ends_step j) by (done || by left). rewrite end_value_space by done. done.
Qed.

(** ** Raw messages *)

Lemma Parse_run s j : Parse s = Some j → ∃ m, run (MBeginValue, []) s = Some (m, []) ∧ ends j m.
Proof.
  unfold Parse. destruct (run (MBeginValue, []) s) as [[m st]|] eqn:R; [|done]. cbn [mbind option_bind].
  intros H. exists m.
  assert (literal (m, st)) as Hl.
  { enough (∀ s cfg cfg', literal cfg → run cfg s = Some cfg' → literal cfg') as Hk by (by eapply Hk; [|exact R]).
    clear. induction s as [|c s IH]; intros cfg cfg' Hl; cbn [run]; [by intros [= <-]|].
    destruct (step cfg c) as [cfg2|] eqn:E; [|done]. apply IH. by eapply step_literal. }
  destruct (step (m, st) " ") as [[m2 st2]|] eqn:S; [|done]. cbn [mbind option_bind] in H.
  destruct m2; try done. destruct st2; [|done]. injection H as ->.
  assert (∀ v, step (m, st) " " = end_value v st " " → ends v m → st = [] ∧ ends j m) as Hend.
  { intros v E Hv. rewrite E in S. rewrite end_value_space in S by done. injection S as -> ->. done. }
  enough (st = [] ∧ ends j m) as [-> ?] by done.
  destruct m; try (by (eapply Hend; [reflexivity|]; constructor)); try discriminate S.
  unfold literal in Hl. simpl in Hl. destruct rest as [|a [|b rest]]; [done|..];
    cbn [step] in S; destruct (Ascii.eqb " " a) eqn:E; try done; apply Ascii.eqb_eq in E; by subst.
Qed.

Lemma html_safe_begun s : begun s → begun (html_safe s).
Proof.
  intros (c & r & -> & Hc & Hb).
  destruct (html_safe_cases (String c r)) as [?|[(a & b & d & r' & E & J & ->)|[(a & r' & E & H & ->)|(a & r' & E & ->)]]];
    [done|by eexists _, _; split; [reflexivity|split]..|]. injection E as <- <-. by exists c, (html_safe r).
Qed.

Lemma compact_spec s j :
  Parse s = Some j → ∃ t, compact s = Some t ∧ writes t j (Nesting s).
Proof.
  intros Hp. unfold compact. rewrite Hp. cbn [mbind option_bind]. eexists. split; [done|].
  destruct (Parse_run s j Hp) as (m & R & Hm).
  destruct (run_squeeze s (MBeginValue, []) (MBeginValue, []) (m, [])) as ([m1 st1] & R1 & Hc & D1); [done|by left|done|].
  pose proof (caught_up_stack _ _ Hc) as E. simpl in E. subst st1.
  assert (ends j m1) as Hm1.
  { destruct Hc as [[= ->]|(j' & m' & st & [= -> <-] & [= ->] & He)]; [done|].
    by inversion Hm; subst. }
  destruct (run_html _ (MBeginValue, []) (MBeginValue, []) _ ltac:(done) ltac:(by split) (alike_refl _) R1)
    as ([m2 st2] & R2 & Ha & D2).
  assert (m2 = m1 ∧ st2 = []) as [-> ->] by (inversion Ha; subst; [done|inversion Hm1..]).
  assert (begun (squeeze (MBeginValue, []) s)) as Hb.
  { destruct (squeeze (MBeginValue, []) s) as [|c r] eqn:Es; [injection R1 as <-; by inversion Hm1|].
    exists c, r. split; [done|]. split; [by apply (squeeze_head (MBeginValue, []) s c r)|].
    by intros ->. }
  split; [by apply html_safe_begun|]. intros st Hf Hr. unfold reads.
  pose proof (run_lift st (MBeginValue, []) _ _ Hf I Hr R2) as L. unfold lift in L. simpl in L.
  rewrite D2, D1 in L. unfold Nesting. case_decide; [by exists m1|done].
Qed.

Lemma compact_fails s : Parse s = None → compact s = None.
Proof. unfold compact. by intros ->. Qed.

(** ** Scalars *)

Lemma free_string raw st : free st → step (MInString raw, st) "034" = Some (MEndValue (JStr (unquote raw)), st).
Proof. intros Hf. cbn. destruct st as [|[acc|acc|acc k] st]; try done. by destruct (Hf acc). Qed.

Lemma run_quoted html s st :
  free st → run (MBeginValue, st) (quote_to html s "") = Some (MEndValue (JStr (repair s)), st).
Proof.
  intros Hf. unfold quote_to. cbn [run step is_space begin_value Ascii.eqb Bool.eqb orb mbind option_bind].
  pose proof (body_escape_any html s "" st (String "034" "")) as B. rewrite app_nil_l_s in B.
  etransitivity; [exact B|]. cbn [run]. by rewrite free_string, unquote_escape_any by done.
Qed.

Lemma run_key html k m acc st r :
  m = MBeginString ∨ m = MBeginStringOrEmpty →
  run (m, FKey acc :: st) (quote_to html k (String ":" r)) = run (MBeginValue, FVal acc (repair k) :: st) r.
Proof.
  intros Hm. unfold quote_to.
  assert (step (m, FKey acc :: st) "034" = Some (MInString "", FKey acc :: st)) as E
    by (destruct Hm as [-> | ->]; reflexivity).
  cbn [run]. rewrite E. cbn [mbind option_bind].
  pose proof (body_escape_any html k "" (FKey acc :: st) (String "034" (String ":" r))) as B.
  rewrite app_nil_l_s in B. etransitivity; [exact B|].
  cbn [run step Ascii.eqb Bool.eqb]. by rewrite unquote_escape_any.
Qed.

Lemma reads_0 t j m st :
  room st → run (MBeginValue, st) t = Some (m, st) → ends j m → reads t j 0 st.
Proof. intros Hr H Hm. unfold reads. unfold room in Hr. rewrite decide_True by lia. by exists m. Qed.

Lemma writes_string s : writes (quote_to true s "") (JStr (repair s)) 0.
Proof.
  split; [by eexists _, _|]. intros st Hf Hr. eapply reads_0; [done|by apply run_quoted|constructor].
Qed.

Lemma writes_null : writes "null" JNull 0.
Proof. split; [by eexists _, _|]. intros st Hf Hr. by eapply reads_0; [done|reflexivity|constructor]. Qed.

(** Decimal numbers. *)
Lemma run_loop (loop : string → mode) raw st ds :
  (∀ raw c, isDigit c = true → step (loop raw, st) c = Some (loop (snoc raw c), st)) →
  all_bytes isDigit ds = true → run (loop raw, st) ds = Some (loop (raw +:+ ds), st).
Proof.
  intros Hstep. revert raw. induction ds as [|c ds IH]; intros raw; [by rewrite app_nil_r_s|].
  cbn [all_bytes]. intros [Hc Hd]%andb_true_iff. cbn [run]. rewrite Hstep by done.
  cbn [mbind option_bind]. rewrite IH by done. unfold snoc. by rewrite app_assoc_s.
Qed.

Lemma run_digits raw st ds : all_bytes isDigit ds = true → run (M1 raw, st) ds = Some (M1 (raw +:+ ds), st).
Proof. apply run_loop. intros r c Hc. cbn [step]. change (digit09 c) with (isDigit c). by rewrite Hc. Qed.

Lemma run_frac raw st ds : all_bytes isDigit ds = true → run (MDot0 raw, st) ds = Some (MDot0 (raw +:+ ds), st).
Proof. apply run_loop. intros r c Hc. cbn [step]. change (digit09 c) with (isDigit c). by rewrite Hc. Qed.

Lemma run_exp raw st ds : all_bytes isDigit ds = true → run (ME0 raw, st) ds = Some (ME0 (raw +:+ ds), st).
Proof. apply run_loop. intros r c Hc. cbn [step]. change (digit09 c) with (isDigit c). by rewrite Hc. Qed.

Lemma digit19_begin c st :
  digit19 c = true → begin_value st c = Some (M1 (String c ""), st) ∧ is_space c = false.
Proof.
  destruct c as [[] [] [] [] [] [] [] []]; intros H; try (by vm_compute in H); split; reflexivity.
Qed.

Lemma digit19_sign c raw st :
  digit19 c = true → step (MNeg raw, st) c = Some (M1 (snoc raw c), st).
Proof.
  intros Hc. cbn [step]. rewrite Hc. by destruct c as [[] [] [] [] [] [] [] []].
Qed.

(** A number, part by part. *)
Definition after_int (m : mode) (raw : string) : Prop := m = M0 raw ∨ m = M1 raw.
Definition after_frac (m : mode) (raw : string) : Prop := after_int m raw ∨ m = MDot0 raw.

Lemma run_int ip st :
  ip = "0"%string ∨ numeral ip →
  (∃ m, run (MBeginValue, st) ip = Some (m, st) ∧ after_int m ip) ∧
  (∃ m, run (MNeg "-", st) ip = Some (m, st) ∧ after_int m ("-" +:+ ip)).
Proof.
  intros [->|(c & ds & -> & Hc & Hd)].
  - split; eexists; (split; [reflexivity|by left]).
  - destruct (digit19_begin c st Hc) as [Hb Hs]. split; eexists.
    + cbn [run step]. rewrite Hs, Hb. cbn [mbind option_bind]. rewrite run_digits by done. split; [done|by right].
    + cbn [run]. rewrite digit19_sign by done. cbn [mbind option_bind]. rewrite run_digits by done.
      split; [done|]. right. unfold snoc. by rewrite app_assoc_s.
Qed.

Lemma run_fraction m raw fp st :
  after_int m raw → all_bytes isDigit fp = true →
  ∃ m', run (m, st) (if String.eqb fp "" then "" else "." +:+ fp) = Some (m', st) ∧
    after_frac m' (raw +:+ (if String.eqb fp "" then "" else "." +:+ fp)).
Proof.
  intros Hm Hf. destruct fp as [|c fp].
  { change (String.eqb "" "") with true. cbv iota. exists m. rewrite app_nil_r_s. split; [done|by left]. }
  change (String.eqb (String c fp) "") with false. cbv iota.
  cbn [all_bytes] in Hf. apply andb_true_iff in Hf as [Hc Hf]. eexists. rewrite app_cons_s, app_nil_l_s. cbn [run].
  assert (step (m, st) "." = Some (MDot (snoc raw "."), st)) as -> by (by destruct Hm as [-> | ->]).
  cbn [mbind option_bind step]. change (digit09 c) with (isDigit c). rewrite Hc. cbn [mbind option_bind].
  rewrite run_frac by done. split; [done|]. right. unfold snoc. by rewrite !app_assoc_s.
Qed.

Lemma run_exponent m raw ex st :
  after_frac m raw → (∀ neg ds, ex = Some (neg, ds) → digits ds ∧ decimal_from 0 ds < 10000) →
  ∃ m', run (m, st) (exponent_text ex) = Some (m', st) ∧ ends (JNum (raw +:+ exponent_text ex)) m'.
Proof.
  intros Hm Hx. destruct ex as [[neg ds]|].
  - destruct (Hx neg ds eq_refl) as [[Hne Hd] _]. destruct ds as [|c ds]; [done|].
    cbn [all_bytes] in Hd. apply andb_true_iff in Hd as [Hc Hd]. unfold exponent_text.
    rewrite app_cons_s, app_nil_l_s. cbn [run].
    assert (step (m, st) "e" = Some (ME (snoc raw "e"), st)) as -> by (by destruct Hm as [[-> | ->]| ->]).
    cbn [mbind option_bind].
    assert (∃ s, (if neg then "-" else "+")%string = String s "" ∧ (Ascii.eqb s "+" || Ascii.eqb s "-") = true) as (s & -> & Hs)
      by (destruct neg; (eexists; split; reflexivity)). rewrite app_cons_s, app_nil_l_s. cbn [run step]. rewrite Hs. cbn [mbind option_bind step].
    change (digit09 c) with (isDigit c). rewrite Hc. cbn [mbind option_bind]. rewrite run_exp by done.
    eexists. split; [done|]. unfold snoc. rewrite !app_assoc_s. by constructor.
  - exists m. unfold exponent_text. rewrite app_nil_r_s. split; [done|].
    by destruct Hm as [[-> | ->]| ->]; constructor.
Qed.

Lemma writes_number neg ip fp ex :
  number_ok ip fp ex → writes (number_text neg ip fp ex) (JNum (number_text neg ip fp ex)) 0.
Proof.
  intros [Hi Hf Hx]. split.
  - destruct neg; [by eexists _, _|]. unfold number_text. rewrite app_nil_l_s.
    destruct Hi as [->|(c & ds & -> & Hc & Hd)]; [by eexists _, _|].
    eexists c, _. split; [done|]. split; [exact (proj2 (digit19_begin c [] Hc))|by intros ->].
  - intros st Hfree Hr. set (t := number_text neg ip fp ex).
    assert (∃ m, run (MBeginValue, st) ((if neg then "-" else "") +:+ ip) = Some (m, st) ∧
      after_int m ((if neg then "-" else "") +:+ ip)) as (m1 & R1 & H1).
    { destruct (run_int ip st Hi) as [Hp Hn]. destruct neg; [exact Hn|exact Hp]. }
    destruct (run_fraction m1 _ fp st H1 Hf) as (m2 & R2 & H2).
    destruct (run_exponent m2 _ ex st H2 Hx) as (m3 & R3 & H3).
    rewrite !app_assoc_s in H3. apply (reads_0 _ _ m3); [done| |exact H3].
    unfold t, number_text. rewrite <- app_assoc_s, run_app, R1. cbn [mbind option_bind].
    rewrite run_app, R2. cbn [mbind option_bind]. exact R3.
Qed.

Lemma writes_float x t : float_text x = Some t → writes t (JNum t) 0.
Proof. intros (neg & ip & fp & ex & -> & Hok)%float_text_number. by apply writes_number. Qed.

Lemma writes_bool (b : bool) : writes (if b then "true" else "false")%string (JBool b) 0.
Proof. destruct b; (split; [by eexists _, _|]; intros st Hf Hr; by eapply reads_0; [done|reflexivity|constructor]). Qed.

Lemma writes_int n : writes (Itoa n) (JNum (Itoa n)) 0.
Proof.
  unfold Itoa. destruct n as [|p|p].
  - apply (writes_number false "0" "" None). by split; [left|..].
  - destruct (pretty_pos (Z.pos p) ltac:(lia)) as [Hn _].
    pose proof (writes_number false (pretty (Z.pos p)) "" None) as H. rewrite number_text_plain, app_nil_r_s in H.
    apply H. split; [by right|done|done].
  - destruct (pretty_pos (Z.pos p) ltac:(lia)) as [Hn _].
    pose proof (writes_number true (pretty (Z.pos p)) "" None) as H. rewrite number_text_plain, app_nil_r_s in H.
    apply H. split; [by right|done|done].
Qed.

(** ** Arrays and objects *)

(** A text, the value it is read as, and how deep it is. *)
Record Item : Type := MkItem { i_text : string; i_value : json; i_depth : nat }.

Definition item_ok (x : Item) : Prop := writes (i_text x) (i_value x) (i_depth x).

Definition deepest_item (xs : list Item) : nat := max_list (map i_depth xs).

Lemma ends_run j m st c r :
  ends j m → follows c → run (m, st) (String c r) = end_value j st c ≫= λ cfg, run cfg r.
Proof. intros Hm Hc. cbn [run]. by rewrite (ends_step j). Qed.

(** Reading one item among others. *)
Lemma run_item x st c r cfg :
  item_ok x → free st → room st → end_value (i_value x) st c = Some cfg →
  run (MBeginValue, st) (i_text x +:+ String c r) =
    if decide (Z.of_nat (i_depth x) + Z.of_nat (length st) <= maxNestingDepth) then run cfg r else None.
Proof.
  intros [_ Hx] Hf Hr He. specialize (Hx st Hf Hr). unfold reads in Hx. rewrite run_app.
  case_decide; [|by rewrite Hx]. destruct Hx as (m & -> & Hm). cbn [mbind option_bind].
  rewrite (ends_run (i_value x)) by eauto using end_value_follows. by rewrite He.
Qed.

Lemma run_or_empty t st r :
  begun t → run (MBeginValueOrEmpty, st) (t +:+ r) = run (MBeginValue, st) (t +:+ r).
Proof.
  intros (c & t' & -> & Hs & Hc). rewrite app_cons_s. cbn [run step]. rewrite Hs.
  by rewrite (proj2 (Ascii.eqb_neq _ _) Hc).
Qed.

Lemma run_items xs acc st r :
  xs ≠ [] → Forall item_ok xs → room (FArr acc :: st) →
  run (MBeginValue, FArr acc :: st) (Join (map i_text xs) "," +:+ String "]" r) =
    if decide (Z.of_nat (deepest_item xs) + Z.of_nat (S (length st)) <= maxNestingDepth)
    then run (MEndValue (JArr (rev acc ++ map i_value xs)), st) r else None.
Proof.
  intros Hne H. revert acc Hne. induction H as [|x xs Hx Hxs IH]; intros acc Hne Hr; [done|].
  assert (free (FArr acc :: st)) as Hf by done. destruct xs as [|y xs].
  - cbn [map Join]. rewrite (run_item x _ _ _ (MEndValue (JArr (rev (i_value x :: acc))), st)) by done.
    apply decide_ext. unfold deepest_item. simpl. lia.
  - change (Join (map i_text (x :: y :: xs)) ",")
      with (i_text x +:+ String "," (Join (map i_text (y :: xs)) ",")).
    rewrite app_assoc_s, app_cons_s.
    rewrite (run_item x _ _ _ (MBeginValue, FArr (i_value x :: acc) :: st)) by done.
    rewrite IH by done. cbn [rev map]. rewrite <- app_assoc. cbn [app].
    assert (deepest_item (x :: y :: xs) = i_depth x `max` deepest_item (y :: xs))%nat as -> by done.
    simpl length. repeat case_decide; try done; lia.
Qed.

Definition array_text (xs : list Item) : string := "[" +:+ Join (map i_text xs) "," +:+ "]".

Lemma push_room f m st :
  room st → push f m st = if decide (1 + Z.of_nat (length st) <= maxNestingDepth) then Some (m, f :: st) else None.
Proof. intros _. unfold push. destruct (Z.leb_spec (Z.of_nat (length st) + 1) maxNestingDepth); case_decide; (done || lia). Qed.

Lemma writes_array xs :
  Forall item_ok xs → writes (array_text xs) (JArr (map i_value xs)) (S (deepest_item xs)).
Proof.
  intros H. split; [by eexists _, _|]. intros st Hf Hr. unfold reads, array_text.
  rewrite app_cons_s, app_nil_l_s. cbn [run step is_space begin_value Ascii.eqb Bool.eqb orb].
  rewrite push_room by done.
  destruct (decide (1 + Z.of_nat (length st) <= maxNestingDepth)) as [Hp|Hp]; cbn [mbind option_bind];
    [|by rewrite decide_False by lia].
  assert (room (FArr [] :: st)) as Hr' by (unfold room; simpl length; lia).
  assert (run (MBeginValueOrEmpty, FArr [] :: st) (Join (map i_text xs) "," +:+ "]") =
    if decide (Z.of_nat (deepest_item xs) + Z.of_nat (S (length st)) <= maxNestingDepth)
    then Some (MEndValue (JArr (map i_value xs)), st) else None) as ->.
  { destruct xs as [|x xs].
    - rewrite decide_True by (unfold deepest_item; simpl; lia). done.
    - refine (eq_trans _ (run_items (x :: xs) [] st "" ltac:(done) H Hr')).
      destruct xs as [|y xs]; cbn [map Join]; rewrite ?app_assoc_s; apply run_or_empty;
        by inversion H as [|? ? [Hb _] _]. }
  repeat case_decide; try done; try lia. eexists. split; [done|constructor].
Qed.

(** Members: a key and an item. *)
Definition members_text (ms : list (string * Item)) : list string :=
  map (λ kx, member_text kx.1 (i_text kx.2)) ms.
Definition members_value (ms : list (string * Item)) : list (string * json) :=
  map (λ kx, (repair kx.1, i_value kx.2)) ms.

Lemma member_text_app k t r : member_text k t +:+ r = quote_to true k (String ":" (t +:+ r)).
Proof. unfold member_text, quote_to. by rewrite app_cons_s, !app_assoc_s. Qed.

Lemma run_object_members ms m acc st r :
  ms ≠ [] → Forall (λ kx, item_ok kx.2) ms → m = MBeginString ∨ m = MBeginStringOrEmpty → room (FKey acc :: st) →
  run (m, FKey acc :: st) (Join (members_text ms) "," +:+ String "}" r) =
    if decide (Z.of_nat (deepest_item (map snd ms)) + Z.of_nat (S (length st)) <= maxNestingDepth)
    then run (MEndValue (JObj (rev acc ++ members_value ms)), st) r else None.
Proof.
  intros Hne H. revert m acc Hne. induction H as [|[k x] ms Hx Hms IH]; intros m acc Hne Hm Hr; [done|].
  simpl in Hx. assert (free (FVal acc (repair k) :: st)) as Hf by done. destruct ms as [|y ms].
  - cbn [members_text map Join fst snd]. rewrite member_text_app, run_key by done.
    rewrite (run_item x _ _ _ (MEndValue (JObj (rev ((repair k, i_value x) :: acc))), st)) by done.
    apply decide_ext. unfold deepest_item. simpl. lia.
  - change (Join (members_text ((k, x) :: y :: ms)) ",")
      with (member_text k (i_text x) +:+ String "," (Join (members_text (y :: ms)) ",")).
    rewrite app_assoc_s, app_cons_s, member_text_app, run_key by done.
    rewrite (run_item x _ _ _ (MBeginString, FKey ((repair k, i_value x) :: acc) :: st)) by done.
    rewrite IH by (done || by left). cbn [rev members_value map fst snd]. rewrite <- app_assoc. cbn [app].
    assert (deepest_item (map snd ((k, x) :: y :: ms)) = i_depth x `max` deepest_item (map snd (y :: ms)))%nat as E by done.
    cbn [map snd] in E |- *. rewrite E.
    simpl length. repeat case_decide; try done; lia.
Qed.

Definition object_text (ms : list (string * Item)) : string := "{" +:+ Join (members_text ms) "," +:+ "}".

Lemma writes_object ms :
  Forall (λ kx, item_ok kx.2) ms →
  writes (object_text ms) (JObj (members_value ms)) (S (deepest_item (map snd ms))).
Proof.
  intros H. split; [by eexists _, _|]. intros st Hf Hr. unfold reads, object_text.
  rewrite app_cons_s, app_nil_l_s. cbn [run step is_space begin_value Ascii.eqb Bool.eqb orb].
  rewrite push_room by done.
  destruct (decide (1 + Z.of_nat (length st) <= maxNestingDepth)) as [Hp|Hp]; cbn [mbind option_bind];
    [|by rewrite decide_False by lia].
  assert (room (FKey [] :: st)) as Hr' by (unfold room; simpl length; lia).
  assert (run (MBeginStringOrEmpty, FKey [] :: st) (Join (members_text ms) "," +:+ "}") =
    if decide (Z.of_nat (deepest_item (map snd ms)) + Z.of_nat (S (length st)) <= maxNestingDepth)
    then Some (MEndValue (JObj (members_value ms)), st) else None) as ->.
  { destruct ms as [|x ms].
    - rewrite decide_True by (unfold deepest_item; simpl; lia). done.
    - by apply (run_object_members (x :: ms) MBeginStringOrEmpty [] st ""); [..|right|]. }
  repeat case_decide; try done; try lia. eexists. split; [done|constructor].
Qed.

(** ** Values of Go *)

(** What a reader makes of an encoded value; [None] when it cannot be encoded. *)
Fixpoint tree (v : gojson) : option json :=
  match v with
  | GStr s => Some (JStr (repair s))
  | GBool b => Some (JBool b)
  | GInt n => Some (JNum (Itoa n))
  | GFloat x => t ← float_text x; Some (JNum t)
  | GNull => Some JNull
  | GRaw s => Parse s
  | GList vs => js ← mapM tree vs; Some (JArr js)
  | GStruct kvs =>
      js ← mapM (λ kv, j ← tree (snd kv); Some (fst kv, j)) kvs;
      Some (JObj (map (λ kj, (repair kj.1, kj.2)) js))
  | GMap kvs =>
      js ← mapM (λ kv, j ← tree (snd kv); Some (fst kv, j)) kvs;
      Some (JObj (map (λ kj, (repair kj.1, kj.2)) (sort_by fst js)))
  end.

(** How deep its text nests. *)
Fixpoint depth (v : gojson) : nat :=
  match v with
  | GStr _ | GBool _ | GInt _ | GFloat _ | GNull => 0
  | GRaw s => Nesting s
  | GList vs => S (max_list (map depth vs))
  | GStruct kvs | GMap kvs => S (max_list (map (λ kv, depth (snd kv)) kvs))
  end.

Section induction.
Context (P : gojson → Prop).
Context (Hstr : ∀ s, P (GStr s)) (Hbool : ∀ b, P (GBool b)) (Hint : ∀ n, P (GInt n)).
Context (Hfloat : ∀ x, P (GFloat x)) (Hnull : P GNull) (Hraw : ∀ s, P (GRaw s)).
Context (Hlist : ∀ vs, Forall P vs → P (GList vs)).
Context (Hstruct : ∀ kvs, Forall (λ kv, P (snd kv)) kvs → P (GStruct kvs)).
Context (Hmap : ∀ kvs, Forall (λ kv, P (snd kv)) kvs → P (GMap kvs)).

Fixpoint gojson_deep (v : gojson) : P v :=
  match v with
  | GStr s => Hstr s
  | GBool b => Hbool b
  | GInt n => Hint n
  | GFloat x => Hfloat x
  | GNull => Hnull
  | GRaw s => Hraw s
  | GList vs => Hlist vs ((fix go vs : Forall P vs :=
      match vs with [] => Forall_nil_2 P | v :: vs => Forall_cons_2 P v vs (gojson_deep v) (go vs) end) vs)
  | GStruct kvs => Hstruct kvs ((fix go kvs : Forall (λ kv, P (snd kv)) kvs :=
      match kvs with [] => Forall_nil_2 _ | (k, v) :: kvs => Forall_cons_2 _ (k, v) kvs (gojson_deep v) (go kvs) end) kvs)
  | GMap kvs => Hmap kvs ((fix go kvs : Forall (λ kv, P (snd kv)) kvs :=
      match kvs with [] => Forall_nil_2 _ | (k, v) :: kvs => Forall_cons_2 _ (k, v) kvs (gojson_deep v) (go kvs) end) kvs)
  end.
End induction.

Definition encodes (v : gojson) : Prop :=
  match tree v with
  | Some j => ∃ t, Encode v = Some t ∧ writes t j (depth v)
  | None => Encode v = None
  end.

Lemma mapM_option_cons {A B} (f : A → option B) x l :
  mapM f (x :: l) = match f x with Some y => cons y <$> mapM f l | None => None end.
Proof. simpl. destruct (f x); [|done]. simpl. by destruct (mapM f l). Qed.

(** The items of a list and of a map. *)
Lemma encodes_list vs :
  Forall encodes vs →
  match mapM tree vs with
  | Some js => ∃ xs, mapM Encode vs = Some (map i_text xs) ∧ js = map i_value xs ∧
      map depth vs = map i_depth xs ∧ Forall item_ok xs
  | None => mapM Encode vs = None
  end.
Proof.
  induction 1 as [|v vs Hv _ IH]; [by exists []|]. unfold encodes in Hv. rewrite !mapM_option_cons.
  destruct (tree v) as [j|]; [|by rewrite Hv]. destruct Hv as (t & Ht & Hw). rewrite Ht.
  destruct (mapM tree vs) as [js|]; [|by rewrite IH]. destruct IH as (xs & E & -> & Hd & Hok).
  exists (MkItem t j (depth v) :: xs). rewrite E. split_and!; [done|done|simpl; by rewrite Hd|by constructor].
Qed.

Lemma encodes_members kvs :
  Forall (λ kv, encodes (snd kv)) kvs →
  match mapM (λ kv : string * gojson, j ← tree (snd kv); Some (fst kv, j)) kvs with
  | Some js => ∃ ms : list (string * Item),
      mapM (λ kv : string * gojson, t ← Encode (snd kv); Some (fst kv, t)) kvs = Some (map (λ kx, (kx.1, i_text kx.2)) ms) ∧
      mapM (λ kv : string * gojson, t ← Encode (snd kv); Some (member_text (fst kv) t)) kvs = Some (members_text ms) ∧
      js = map (λ kx, (kx.1, i_value kx.2)) ms ∧
      map (λ kv, depth (snd kv)) kvs = map (λ kx, i_depth kx.2) ms ∧ Forall (λ kx, item_ok kx.2) ms
  | None => mapM (λ kv : string * gojson, t ← Encode (snd kv); Some (fst kv, t)) kvs = None ∧
      mapM (λ kv : string * gojson, t ← Encode (snd kv); Some (member_text (fst kv) t)) kvs = None
  end.
Proof.
  induction 1 as [|[k v] kvs Hv _ IH]; [by exists []|]. unfold encodes in Hv. rewrite !mapM_option_cons. cbn [fst snd] in Hv |- *.
  destruct (tree v) as [j|]; cbn [mbind option_bind]; [|by rewrite Hv].
  destruct Hv as (t & Ht & Hw). rewrite Ht. cbn [mbind option_bind].
  destruct (mapM (λ kv : string * gojson, j ← tree (snd kv); Some (fst kv, j)) kvs) as [js|];
    [|destruct IH as [-> ->]; done].
  destruct IH as (ms & E1 & E2 & -> & Hd & Hok). exists ((k, MkItem t j (depth v)) :: ms).
  rewrite E1, E2. split_and!; [done|done|done|simpl; by rewrite Hd|by constructor].
Qed.

Lemma max_list_perm l l' : l ≡ₚ l' → max_list l = max_list l'.
Proof. induction 1; simpl; lia. Qed.

Lemma sort_by_map {A B} (g : string * A → string * B) (l : list (string * A)) :
  (∀ x, fst (g x) = fst x) → sort_by fst (map g l) = map g (sort_by fst l).
Proof.
  intros Hg. apply (merge_sort_natural (row_le fst) (row_le fst) g).
  intros x y. unfold row_le. by rewrite !Hg.
Qed.

Lemma members_split ms :
  members_value ms = map (λ kj, (repair kj.1, kj.2)) (map (λ kx : string * Item, (kx.1, i_value kx.2)) ms).
Proof. unfold members_value. by rewrite map_map. Qed.

Lemma deepest_members (ms : list (string * Item)) :
  deepest_item (map snd ms) = max_list (map (λ kx, i_depth kx.2) ms).
Proof. unfold deepest_item. by rewrite map_map. Qed.

(** Every value, to its text and back. *)
Theorem Encode_reads v : encodes v.
Proof.
  induction v as [s|b|n|x| |s|vs H|kvs H|kvs H] using gojson_deep; unfold encodes; cbn [tree Encode depth].
  - eexists. split; [done|apply writes_string].
  - eexists. split; [done|apply writes_bool].
  - eexists. split; [done|apply writes_int].
  - destruct (float_text x) as [t|] eqn:E; [|done]. eexists. split; [done|by apply (writes_float x)].
  - eexists. split; [done|apply writes_null].
  - destruct (Parse s) as [j|] eqn:E; [by apply compact_spec|by apply compact_fails].
  - apply encodes_list in H. destruct (mapM tree vs) as [js|]; [|by rewrite H].
    destruct H as (xs & -> & -> & -> & Hok). cbn [mbind option_bind]. eexists. split; [done|].
    by apply (writes_array xs).
  - apply encodes_members in H. destruct (mapM _ kvs) as [js|] in H |- *; [|by destruct H as [_ ->]].
    destruct H as (ms & _ & -> & -> & -> & Hok). cbn [mbind option_bind]. eexists. split; [done|].
    rewrite <- members_split, <- deepest_members. by apply (writes_object ms).
  - apply encodes_members in H. destruct (mapM _ kvs) as [js|] in H |- *; [|by destruct H as [-> _]].
    destruct H as (ms & -> & _ & -> & -> & Hok). cbn [mbind option_bind].
    rewrite !sort_by_map by done. eexists. split; [done|].
    assert (sort_by fst ms ≡ₚ ms) as Hp by apply merge_sort_Permutation.
    rewrite <- members_split, map_map, <- deepest_members.
    assert (deepest_item (map snd ms) = deepest_item (map snd (sort_by fst ms))) as ->.
    { unfold deepest_item. apply max_list_perm. by rewrite Hp. }
    apply (writes_object (sort_by fst ms)). by rewrite Hp.
Qed.

(** ** Indentation *)

Definition blank (w : string) : Prop := all_bytes is_space w = true.

Lemma blank_newline p n : blank p → blank (appendNewline p n).
Proof.
  unfold blank, appendNewline. simpl. rewrite all_bytes_app. intros ->. induction n as [|n IH]; [done|]. cbn [Repeat].
  by rewrite all_bytes_app.
Qed.

(** Blanks before a byte that continues no token change nothing. *)
Lemma run_blank_value j st w : blank w → run (MEndValue j, st) w = Some (MEndValue j, st).
Proof.
  induction w as [|c w IH]; [done|]. unfold blank. simpl. intros [Hc Hw]%andb_true_iff.
  rewrite end_value_space by done. cbn [mbind option_bind]. by apply IH.
Qed.

Lemma run_blank m st w c cfg :
  literal (m, st) → blank w → in_token m c = false → step (m, st) c = Some cfg →
  ∃ m', run (m, st) w = Some (m', st) ∧ step (m', st) c = Some cfg.
Proof.
  intros Hl Hw Ht Hs.
  assert (Hstay : (∀ a, is_space a = true → step (m, st) a = Some (m, st)) → run (m, st) w = Some (m, st)).
  { intros Ha. clear -Ha Hw. induction w as [|a w IH]; [done|]. unfold blank in Hw. simpl in Hw.
    apply andb_true_iff in Hw as [H1 H2]. cbn [run]. rewrite Ha by done. by apply IH. }
  assert (Hends : ∀ j, ends j m → ∃ m', run (m, st) w = Some (m', st) ∧ step (m', st) c = Some cfg).
  { intros j Hj. destruct w as [|a w]; [by exists m|]. unfold blank in Hw. simpl in Hw.
    apply andb_true_iff in Hw as [H1 H2]. exists (MEndValue j). cbn [run].
    rewrite (ends_step j) by (done || by left). rewrite end_value_space by done. cbn [mbind option_bind].
    rewrite run_blank_value by done. split; [done|].
    change (end_value j st c = Some cfg). rewrite <- (ends_step j m); [done|done|].
    destruct Hj; subst; [apply (end_value_follows j st _ cfg Hs)|..]; unfold in_token in Ht;
      apply negb_false_iff, existsb_exists in Ht as (x & Hx & <-%Ascii.eqb_eq); right; destruct Hx as [<-|[<-|[<-|[]]]]; tauto. }
  destruct m; try discriminate Ht; try (eapply Hends; by constructor);
    (eexists; split; [apply Hstay; intros a Ha; cbn [step]; by rewrite ?Ha|done]).
Qed.

Definition empty_mode (m : mode) : Prop := m = MBeginValueOrEmpty ∨ m = MBeginStringOrEmpty.

Definition waits (m : mode) : Prop := m = MBeginValue ∨ m = MBeginString.

Lemma run_waits m st w : waits m → blank w → run (m, st) w = Some (m, st).
Proof.
  intros Hm. induction w as [|c w IH]; [done|]. intros [Hc Hw]%andb_true_iff.
  assert (step (m, st) c = Some (m, st)) as E by (destruct Hm as [->| ->]; simpl; by rewrite Hc).
  cbn [run]. rewrite E. by apply IH.
Qed.

(** What punctuation leads to. *)
Lemma step_opens m st c cfg : literal (m, st) → in_token m c = false → opens c = true → step (m, st) c = Some cfg → empty_mode (fst cfg).
Proof.
  unfold opens. intros Hl Ht [->%Ascii.eqb_eq| ->%Ascii.eqb_eq]%orb_true_iff; destruct m; try discriminate Ht;
    cbn; unfold push; try (destruct (_ <=? _); [|done]); intros H; try done;
    try (injection H as <-; by (left + right)); by destruct st as [|[] st].
Qed.

Lemma step_comma m st cfg : in_token m "," = false → step (m, st) "," = Some cfg → waits (fst cfg).
Proof.
  intros Ht. destruct m; try discriminate Ht; cbn; try done; destruct st as [|[] st]; try done;
    intros [= <-]; by (left + right).
Qed.

Lemma step_colon m st cfg : in_token m ":" = false → step (m, st) ":" = Some cfg → waits (fst cfg).
Proof.
  intros Ht. destruct m; try discriminate Ht; cbn; try done; destruct st as [|[] st]; try done;
    intros [= <-]; by (left + right).
Qed.

Lemma in_token_empty m c : empty_mode m → in_token m c = false.
Proof. by intros [->| ->]. Qed.

Lemma caught_blank cfg1 m st w c cfg :
  caught_up cfg1 (m, st) → literal (m, st) → blank w → in_token m c = false → skips m c = false →
  step (m, st) c = Some cfg → run cfg1 (w +:+ String c "") = Some cfg.
Proof.
  intros Hc Hl Hw Ht Hk Hs. pose proof (step_kept _ _ _ _ Hc Hs Hk) as Hs1.
  assert (∃ m1, cfg1 = (m1, st) ∧ literal (m1, st) ∧ in_token m1 c = false) as (m1 & -> & Hl1 & Ht1).
  { destruct Hc as [->|(j & m1 & st' & -> & [= -> ->] & He)]; [by exists m|].
    exists m1. split; [done|]. assert (follows c) as Hf by (eapply end_value_follows, Hs).
    unfold skips in Hk. simpl in Hk. rewrite andb_true_r in Hk.
    split; [by destruct He|]. destruct Hf as [Hf|Hf]; [congruence|].
    destruct He; subst; [done|..]; by destruct_or! Hf; subst. }
  destruct (run_blank m1 st w c cfg Hl1 Hw Ht1 Hs1) as (m' & R & S). rewrite run_app, R. cbn [mbind option_bind run].
  by rewrite S.
Qed.

Lemma run_emit cfg1 cfg2 w c w' rest :
  run cfg1 (w +:+ String c "") = Some cfg2 → run cfg2 w' = Some cfg2 →
  run cfg1 (w +:+ String c (w' +:+ rest)) = run cfg2 rest.
Proof.
  intros H1 H2. change (String c (w' +:+ rest)) with (String c "" +:+ (w' +:+ rest)).
  by rewrite <- app_assoc_s, run_app, H1; cbn [mbind option_bind]; rewrite run_app, H2.
Qed.

(** The laid-out text reads as the text itself. *)
Lemma run_indent p s : blank p → ∀ cfg1 cfg need d cfg',
  literal cfg → caught_up cfg1 cfg → (need = true → empty_mode (fst cfg)) → run cfg s = Some cfg' →
  ∃ cfg1', run cfg1 (indent_from p cfg need d s) = Some cfg1' ∧ caught_up cfg1' cfg'.
Proof.
  intros Hpb. induction s as [|c s IH]; intros cfg1 cfg need d cfg' Hl Hc Hn; cbn [run indent_from].
  { intros [= <-]. by exists cfg1. }
  destruct (step cfg c) as [cfg2|] eqn:E; [|done]. cbn [mbind option_bind]. intros Hr.
  pose proof (step_literal _ _ _ Hl E) as Hl2.
  assert (Hnext : ∀ need d, (need = true → empty_mode (fst cfg2)) →
    ∃ cfg1', run cfg2 (indent_from p cfg2 need d s) = Some cfg1' ∧ caught_up cfg1' cfg')
    by (intros need' d' Hn'; apply IH; [done|by left|done|done]).
  destruct (skips (fst cfg) c) eqn:K.
  { apply IH; [done|exact (proj1 (step_skips _ _ _ _ Hl Hc E K))| |done]. intros Hn'. specialize (Hn Hn').
    unfold skips in K. apply andb_true_iff in K as [K _]. destruct cfg as [m st].
    destruct Hn as [Hm|Hm]; simpl in Hm; subst m; cbn [step] in E; rewrite K in E; injection E as <-; by (left + right). }
  destruct (in_token (fst cfg) c) eqn:T.
  { destruct need; [by rewrite in_token_empty in T by auto|]. cbn [orb andb negb]. rewrite app_nil_l_s. cbn [run].
    rewrite (step_kept _ _ _ _ Hc E K). by apply Hnext. }
  cbn [orb]. destruct cfg as [m st]. cbn [fst] in *.
  assert (Hemit : ∀ w w' rest, blank w → run cfg2 w' = Some cfg2 → run cfg1 (w +:+ String c (w' +:+ rest)) = run cfg2 rest).
  { intros w w' rest Hw Hw'. apply run_emit; [|done]. by apply (caught_blank cfg1 m st). }
  assert (Hplain : ∀ w rest, blank w → run cfg1 (w +:+ String c rest) = run cfg2 rest)
    by (intros w rest Hw; by apply (Hemit w "" rest)).
  assert (Hwaits : waits (fst cfg2) → ∀ w, blank w → run cfg2 w = Some cfg2)
    by (destruct cfg2; intros; by apply run_waits).
  set (early := need && negb (closes c)).
  assert (blank (if early then appendNewline p (if early then S d else d) else "")) as Hpre
    by (destruct early; [by apply blank_newline|done]).
  destruct (opens c) eqn:O.
  { rewrite Hplain by done. apply Hnext. intros _. by apply (step_opens m st c). }
  destruct (Ascii.eqb c ",") eqn:C.
  { apply Ascii.eqb_eq in C. subst c. rewrite Hemit by first [done|apply Hwaits; [by apply (step_comma m st)|by apply blank_newline]].
    apply Hnext. unfold early. by destruct need. }
  destruct (Ascii.eqb c ":") eqn:D.
  { apply Ascii.eqb_eq in D. subst c. change (String " " ?x) with (" " +:+ x).
    rewrite Hemit by first [done|apply Hwaits; [by apply (step_colon m st)|done]]. apply Hnext. unfold early. by destruct need. }
  destruct (closes c) eqn:B.
  { assert (early = false) as -> by (unfold early; by rewrite andb_false_r). cbn [negb]. rewrite andb_true_r.
    destruct need.
    - rewrite Hplain by done. by apply Hnext.
    - rewrite app_nil_l_s, Hplain by by apply blank_newline. by apply Hnext. }
  rewrite Hplain by done. apply Hnext. unfold early. by destruct need.
Qed.

Lemma caught_up_ends cfg1 j m st : caught_up cfg1 (m, st) → ends j m → ∃ m1, cfg1 = (m1, st) ∧ ends j m1.
Proof.
  intros [->|(j' & m' & st' & -> & [= -> <-] & He)] Hm; [by exists m|]. exists m'. inversion Hm; by subst.
Qed.

Lemma ends_Parse t j m : run (MBeginValue, []) t = Some (m, []) → ends j m → Parse t = Some j.
Proof.
  intros R Hm. unfold Parse. rewrite R. cbn [mbind option_bind].
  rewrite (ends_step j) by (done || by left). by rewrite end_value_space.
Qed.

(** [json.Marshal] and [json.MarshalIndent] write the value; a text of more than ten
    thousand open brackets cannot be read again. *)
Lemma Encode_Parse v j :
  tree v = Some j →
  ∃ t, Encode v = Some t ∧ Parse t = if decide (Z.of_nat (depth v) <= maxNestingDepth) then Some j else None.
Proof.
  intros Hj. pose proof (Encode_reads v) as H. unfold encodes in H. rewrite Hj in H. destruct H as (t & Ht & Hw).
  exists t. split; [done|]. by apply writes_Parse.
Qed.

Lemma MarshalIndent_Parse p v j :
  blank p → tree v = Some j → Z.of_nat (depth v) <= maxNestingDepth → ∃ t, MarshalIndent p v = Some t ∧ Parse t = Some j.
Proof.
  intros Hb Hj Hd. destruct (Encode_Parse v j Hj) as (t & Ht & Hp). rewrite decide_True in Hp by done.
  unfold MarshalIndent. rewrite Ht. cbn [mbind option_bind]. eexists. split; [done|].
  destruct (Parse_run t j Hp) as (m & R & Hm).
  destruct (run_indent p t Hb (MBeginValue, []) (MBeginValue, []) false 0 (m, [])) as (cfg1 & R1 & Hc); [done|by left|done|done|].
  destruct (caught_up_ends _ _ _ _ Hc Hm) as (m1 & -> & Hm1). by eapply ends_Parse.
Qed.
