(* ===== verification/JsonAny.v ===== *)
(** * Decoding into an interface value

    [json.Unmarshal] into an [any]: numbers become float64s, the last of several
    members with one key stays.  What is read can be encoded, and the text reads as
    the same value. *)

From Stdlib Require Import Floats.SpecFloat.
From S2P Require Import Prelude GoStrings Http Sql Json JsonUtf8 Float64 JsonText JsonTextSpec JsonRead.

Local Open Scope Z_scope.

(** ** Values *)

(** A Go map, by its keys in order. *)
Definition gomap : Type := list (string * gojson).

(** [m[k] = v] *)
Fixpoint assign (k : string) (v : gojson) (m : gomap) : gomap :=
  match m with
  | [] => [(k, v)]
  | (k', v') :: r =>
      if String.eqb k k' then (k, v) :: r
      else if str_ltb k k' then (k, v) :: m
      else (k', v') :: assign k v r
  end.

Definition assign_all (kvs : list (string * gojson)) : gomap :=
  fold_left (λ m kv, assign (fst kv) (snd kv) m) kvs [].

(** [valueInterface]: a number out of range is a remembered error, and [nil]. *)
Fixpoint valueInterface (j : json) : gojson :=
  match j with
  | JNull => GNull
  | JBool b => GBool b
  | JNum t => match ParseFloat t with Some x => GFloat x | None => GNull end
  | JStr s => GStr s
  | JArr vs => GList (map valueInterface vs)
  | JObj ms => GMap (assign_all (map (λ m, (fst m, valueInterface (snd m))) ms))
  end.

(** [var v any; json.Unmarshal(data, &v)]: what [v] holds, whatever the error. *)
Definition UnmarshalAny (data : string) : gojson :=
  match Parse data with Some j => valueInterface j | None => GNull end.

(** ** What decoding gives *)

Definition ordered (m : gomap) : Prop := StronglySorted (λ a b, str_ltb (fst a) (fst b) = true) m.

Inductive decoded : gojson → Prop :=
| decoded_null : decoded GNull
| decoded_bool b : decoded (GBool b)
| decoded_float x : is_float64 x → decoded (GFloat x)
| decoded_str s : utf8 s → decoded (GStr s)
| decoded_list vs : Forall decoded vs → decoded (GList vs)
| decoded_map m : ordered m → Forall (λ kv, utf8 (fst kv) ∧ decoded (snd kv)) m → decoded (GMap m).

Lemma assign_Forall (P : string * gojson → Prop) k v m :
  P (k, v) → Forall P m → Forall P (assign k v m).
Proof.
  intros Hp H. induction H as [|[k' v'] m Hm H IH]; simpl; [by constructor|].
  destruct (String.eqb k k'); [by constructor|]. destruct (str_ltb k k'); repeat constructor; done.
Qed.

Lemma assign_ordered k v m : ordered m → ordered (assign k v m).
Proof.
  induction 1 as [|[k' v'] m Ho IH Hf]; simpl; [by repeat constructor|].
  destruct (String.eqb_spec k k') as [->|Hne]; [by constructor|].
  destruct (str_ltb k k') eqn:E.
  - constructor; [by constructor|]. constructor; [done|]. eapply Forall_impl; [exact Hf|].
    intros [k2 v2]. simpl. by apply str_ltb_trans.
  - constructor; [done|]. apply assign_Forall; [|done]. simpl. apply str_ltb_lt. split; [by apply str_ltb_false|congruence].
Qed.

Lemma assign_all_ind (P : gomap → Prop) kvs :
  P [] → (∀ k v m, (k, v) ∈ kvs → P m → P (assign k v m)) → P (assign_all kvs).
Proof.
  intros H0 Hs. unfold assign_all. assert (∀ m, P m → P (fold_left (λ m kv, assign (fst kv) (snd kv) m) kvs m)) as H; [|by apply H].
  clear H0. induction kvs as [|[k v] kvs IH]; intros m Hm; [done|]. simpl. apply IH.
  - intros k' v' m' Hin. apply Hs. by right.
  - apply Hs; [by left|done].
Qed.

(** A deep induction on parsed values. *)
Section induction.
Context (P : json → Prop).
Context (Hnull : P JNull) (Hbool : ∀ b, P (JBool b)) (Hnum : ∀ t, P (JNum t)) (Hstr : ∀ s, P (JStr s)).
Context (Harr : ∀ vs, Forall P vs → P (JArr vs)) (Hobj : ∀ ms, Forall (λ m, P (snd m)) ms → P (JObj ms)).

Fixpoint json_deep (j : json) : P j :=
  match j with
  | JNull => Hnull
  | JBool b => Hbool b
  | JNum t => Hnum t
  | JStr s => Hstr s
  | JArr vs => Harr vs ((fix go vs : Forall P vs :=
      match vs with [] => Forall_nil_2 P | v :: vs => Forall_cons_2 P v vs (json_deep v) (go vs) end) vs)
  | JObj ms => Hobj ms ((fix go ms : Forall (λ m, P (snd m)) ms :=
      match ms with [] => Forall_nil_2 _ | (k, v) :: ms => Forall_cons_2 _ (k, v) ms (json_deep v) (go ms) end) ms)
  end.
End induction.

Lemma valueInterface_decoded j : strings_utf8 j → decoded (valueInterface j).
Proof.
  induction j as [|b|t|s|vs IH|ms IH] using json_deep; intros Hu; inversion Hu; subst; simpl; try by constructor.
  - destruct (ParseFloat t) as [x|] eqn:E; constructor. by eapply ParseFloat_float64.
  - constructor. apply Forall_map, Forall_forall. intros v Hv. rewrite !Forall_forall in *. auto.
  - constructor.
    + apply (assign_all_ind ordered); [constructor|]. intros. by apply assign_ordered.
    + apply (assign_all_ind (Forall _)); [constructor|]. intros k v m Hin Hm. apply assign_Forall; [|done].
      apply list_elem_of_fmap in Hin as ([k' j'] & [= -> ->] & Hin). rewrite !Forall_forall in *.
      specialize (IH _ Hin). match goal with H : ∀ x, x ∈ ms → _ |- _ => specialize (H _ Hin); simpl in H end. naive_solver.
Qed.

Lemma UnmarshalAny_decoded s : decoded (UnmarshalAny s).
Proof.
  unfold UnmarshalAny. destruct (Parse s) as [j|] eqn:E; [|constructor].
  by apply valueInterface_decoded, (Parse_utf8 s).
Qed.

(** ** Round trip *)

(** Assigning in order builds the map itself. *)
Lemma assign_last k v m : Forall (λ a, str_ltb (fst a) k = true) m → assign k v m = m ++ [(k, v)].
Proof.
  induction 1 as [|[k' v'] m H _ IH]; [done|]. simpl in *. destruct (String.eqb_spec k k') as [->|Hne];
    [by rewrite str_ltb_irrefl in H|]. destruct (str_ltb k k') eqn:E; [|by rewrite IH].
  pose proof (str_ltb_trans _ _ _ H E) as F. by rewrite str_ltb_irrefl in F.
Qed.

Lemma assign_all_ordered m : ordered m → assign_all m = m.
Proof.
  unfold assign_all. intros H.
  enough (∀ pre, Forall (λ a, Forall (λ b, str_ltb (fst a) (fst b) = true) m) pre →
    fold_left (λ m kv, assign (fst kv) (snd kv) m) m pre = pre ++ m) as He by (by apply (He [])).
  induction H as [|[k v] m Ho IH Hf]; intros pre Hp; simpl; [by rewrite app_nil_r|].
  rewrite assign_last; [|eapply Forall_impl; [exact Hp|]; intros a Ha; by inversion Ha].
  rewrite IH; [by rewrite <- app_assoc|]. apply Forall_app. split.
  - eapply Forall_impl; [exact Hp|]. intros a Ha. by inversion Ha.
  - by constructor.
Qed.

(** The encoder's order is the order of the map. *)
Definition by_key {A} (a b : string * A) : Prop := str_ltb (fst a) (fst b) = true.

Lemma by_key_unique {A} (l : list (string * A)) a b :
  StronglySorted by_key l → a ∈ l → b ∈ l → fst a = fst b → a = b.
Proof.
  induction 1 as [|x l Hs IH Hx]; intros Ha Hb E; [by apply not_elem_of_nil in Ha|].
  rewrite Forall_forall in Hx. apply elem_of_cons in Ha as [->|Ha], Hb as [->|Hb]; [done|..|by apply IH].
  - specialize (Hx _ Hb). unfold by_key in Hx. by rewrite E, str_ltb_irrefl in Hx.
  - specialize (Hx _ Ha). unfold by_key in Hx. by rewrite E, str_ltb_irrefl in Hx.
Qed.

Lemma by_key_sorted {A} (l : list (string * A)) : StronglySorted by_key l → sort_by fst l = l.
Proof.
  intros H. assert (sort_by fst l ≡ₚ l) as Hp by apply merge_sort_Permutation.
  apply (StronglySorted_unique_strong (row_le fst)).
  - intros a b Ha Hb H1 H2. rewrite Hp in Ha. apply (by_key_unique l); [done..|]. by apply (row_le_anti fst).
  - apply StronglySorted_merge_sort; apply _.
  - clear Hp. induction H as [|x l Hs IH Hx]; constructor; [done|]. eapply Forall_impl; [exact Hx|]. by left.
  - done.
Qed.

(** What is written for a decoded value is decoded as that value. *)
Definition survives (v : gojson) : Prop := ∃ j, tree v = Some j ∧ valueInterface j = v.

Lemma survives_list vs : Forall survives vs → ∃ js, mapM tree vs = Some js ∧ map valueInterface js = vs.
Proof.
  induction 1 as [|v vs (j & Hj & Hv) _ (js & Hjs & Hvs)]; [by exists []|].
  exists (j :: js). rewrite mapM_option_cons, Hj, Hjs. simpl. by rewrite Hv, Hvs.
Qed.

Lemma survives_members m :
  Forall (λ kv, survives (snd kv)) m →
  ∃ js, mapM (λ kv : string * gojson, j ← tree (snd kv); Some (fst kv, j)) m = Some js ∧
    map fst js = map fst m ∧ map (λ kj, (fst kj, valueInterface (snd kj))) js = m.
Proof.
  induction 1 as [|[k v] m (j & Hj & Hv) _ (js & Hjs & Hk & Hm)]; [by exists []|].
  exists ((k, j) :: js). rewrite mapM_option_cons. simpl in *. rewrite Hj. cbn [mbind option_bind]. rewrite Hjs. simpl.
  by rewrite Hv, Hk, Hm.
Qed.

Lemma by_key_fst {A B} (l : list (string * A)) (l' : list (string * B)) :
  map fst l = map fst l' → StronglySorted by_key l → StronglySorted by_key l'.
Proof.
  intros E H. revert l' E. induction H as [|[k x] l Hs IH Hx]; intros [|[k' x'] l'] E; try done; [constructor|].
  simpl in E. injection E as <- E. constructor; [by apply IH|].
  apply (Forall_map fst (λ b, str_ltb k b = true)). apply (Forall_map fst (λ b, str_ltb k b = true)) in Hx. by rewrite <- E.
Qed.

Lemma repair_keys {A} (l : list (string * A)) :
  Forall (λ kv, utf8 (fst kv)) l → map (λ kv, (repair (fst kv), snd kv)) l = l.
Proof. induction 1 as [|[k x] l Hk _ IH]; [done|]. simpl in *. by rewrite IH, repair_utf8. Qed.

Lemma decoded_survives v : decoded v → survives v.
Proof.
  induction v as [s|b|n|x| |s|vs IH|kvs IH|kvs IH] using gojson_deep; intros H; inversion H; subst; unfold survives; cbn [tree].
  - exists (JStr s). by rewrite repair_utf8.
  - by exists (JBool b).
  - destruct (float_text_reads x) as (t & -> & Ht); [done|]. exists (JNum t). simpl. by rewrite Ht.
  - by exists JNull.
  - destruct (survives_list vs) as (js & -> & E).
    { rewrite Forall_forall in *. auto. } exists (JArr js). simpl. by rewrite E.
  - destruct (survives_members kvs) as (js & -> & Hk & E).
    { rewrite Forall_forall in *. naive_solver. }
    exists (JObj js). cbn [mbind option_bind].
    assert (StronglySorted by_key js) as Hs by (by apply (by_key_fst kvs js)).
    rewrite by_key_sorted by done. rewrite repair_keys.
    + split; [done|]. cbn [valueInterface]. rewrite E. f_equal. by apply assign_all_ordered.
    + apply (Forall_map fst utf8). rewrite Hk. apply (Forall_map fst utf8).
      eapply Forall_impl; [eassumption|]. by intros ? [].
Qed.

(** ** Nesting *)

Fixpoint jdepth (j : json) : nat :=
  match j with
  | JArr vs => S (max_list (map jdepth vs))
  | JObj ms => S (max_list (map (λ m, jdepth (snd m)) ms))
  | _ => 0
  end.

(** Values that leave room for [n] brackets around them. *)
Definition fits (n : nat) (v : json) : Prop := Z.of_nat (jdepth v) + Z.of_nat n <= maxNestingDepth.

Definition frame_values (f : frame) : list json :=
  match f with FArr acc => acc | FKey acc | FVal acc _ => map snd acc end.

Fixpoint stack_fits (st : list frame) : Prop :=
  match st with
  | [] => True
  | f :: r => Z.of_nat (S (length r)) <= maxNestingDepth ∧ Forall (fits (S (length r))) (frame_values f) ∧ stack_fits r
  end.

Definition mode_fits (n : nat) (m : mode) : Prop :=
  match m with
  | MEndValue v => fits n v
  | MLit _ v => jdepth v = 0%nat
  | _ => True
  end.

Definition config_fits (cfg : config) : Prop := mode_fits (length (snd cfg)) (fst cfg) ∧ stack_fits (snd cfg).

Lemma stack_room st : stack_fits st → Z.of_nat (length st) <= maxNestingDepth.
Proof. destruct st as [|f st]; [done|]. by intros [H _]. Qed.

Lemma scalar_fits v st : jdepth v = 0%nat → stack_fits st → fits (length st) v.
Proof. intros Hv Hs%stack_room. unfold fits. rewrite Hv. lia. Qed.

(** Closing a bracket. *)
Lemma max_list_le l n : Forall (λ x, (x <= n)%nat) l → (max_list l <= n)%nat.
Proof. induction 1; simpl; lia. Qed.

Lemma closed_fits (l : list json) n d :
  d = S (max_list (map jdepth l)) → Z.of_nat (S n) <= maxNestingDepth → Forall (fits (S n)) l →
  Z.of_nat d + Z.of_nat n <= maxNestingDepth.
Proof.
  intros -> Hn H. assert ((max_list (map jdepth l) <= Z.to_nat (maxNestingDepth - Z.of_nat (S n)))%nat); [|lia].
  apply max_list_le, Forall_map. eapply Forall_impl; [exact H|]. unfold fits. simpl. intros. lia.
Qed.

Lemma array_fits acc n : Z.of_nat (S n) <= maxNestingDepth → Forall (fits (S n)) acc → fits n (JArr (rev acc)).
Proof. intros Hn H. eapply closed_fits; [reflexivity|done|]. by apply List.Forall_rev. Qed.

Lemma object_fits acc n : Z.of_nat (S n) <= maxNestingDepth → Forall (fits (S n)) (map snd acc) → fits n (JObj (rev acc)).
Proof.
  intros Hn H. eapply (closed_fits (map snd (rev acc))); [simpl; by rewrite map_map|done|].
  rewrite map_rev. by apply List.Forall_rev.
Qed.

Lemma push_fits f m st cfg :
  mode_fits (S (length st)) m → frame_values f = [] → stack_fits st → push f m st = Some cfg → config_fits cfg.
Proof.
  unfold push. intros Hm Hf Hs. destruct (Z.leb_spec (Z.of_nat (length st) + 1) maxNestingDepth); [|done]. intros [= <-].
  split; [done|]. cbn [snd stack_fits]. rewrite Hf. split; [lia|by split].
Qed.

Lemma end_value_fits v st c cfg :
  fits (length st) v → stack_fits st → end_value v st c = Some cfg → config_fits cfg.
Proof.
  intros Hv Hs. unfold end_value. destruct (is_space c); [by intros [= <-]|].
  destruct st as [|[acc|acc|acc k] st]; [done| |done|]; destruct Hs as (Hn & Hf & Hs); branch; intros [= <-];
    (split; cbn [fst snd mode_fits stack_fits frame_values map]; [|try done]); try done.
  - split; [done|]. split; [by constructor|done].
  - apply (array_fits (v :: acc)); [done|by constructor].
  - split; [done|]. split; [by constructor|done].
  - apply (object_fits ((k, v) :: acc)); [done|by constructor].
Qed.

Lemma begin_value_fits st c cfg : stack_fits st → begin_value st c = Some cfg → config_fits cfg.
Proof.
  intros Hs. unfold begin_value. branch; try done; [by apply push_fits..| | | | | | |];
    intros [= <-]; by split.
Qed.

Lemma step_fits cfg c cfg' : config_fits cfg → step cfg c = Some cfg' → config_fits cfg'.
Proof.
  destruct cfg as [m st]. intros [Hm Hs]. simpl in Hm, Hs.
  assert (Hnum : ∀ raw cfg', end_value (JNum raw) st c = Some cfg' → config_fits cfg').
  { intros raw cfg0. apply end_value_fits; [by apply scalar_fits|done]. }
  assert (Hempty : ∀ v, jdepth v = 1%nat → config_fits (MEndValue v, tail st)).
  { intros v Hv. destruct st as [|f st]; [split; [cbn [fst snd mode_fits]; unfold fits; by rewrite Hv|done]|].
    destruct Hs as (Hn & _ & Hs). split; [|done]. cbn [fst snd mode_fits tail]. unfold fits. rewrite Hv. lia. }
  destruct m; unfold step, begin_string; simpl in Hm; branch; try done; eauto using begin_value_fits, end_value_fits;
    try (intros [= <-]; first [by split|by apply Hempty]).
  - destruct st as [|[acc|acc|acc k] st]; try done. intros [= <-]. by split.
  - destruct st as [|[acc|acc|acc k] st]; intros [= <-]; (split; [first [exact I|by apply scalar_fits]|done]).
  - destruct n as [|[|n]]; intros [= <-]; by split.
  - destruct rest as [|a [|b rest]]; [done|..]; branch; try done; intros [= <-]; (split; [by try apply scalar_fits|done]).
Qed.

Lemma run_fits s cfg cfg' : config_fits cfg → run cfg s = Some cfg' → config_fits cfg'.
Proof.
  revert cfg. induction s as [|c s IH]; intros cfg Hc; simpl; [by intros [= <-]|].
  destruct (step cfg c) as [cfg1|] eqn:E; [|done]. simpl. apply IH. by eapply step_fits.
Qed.

Lemma Parse_fits s j : Parse s = Some j → Z.of_nat (jdepth j) <= maxNestingDepth.
Proof.
  unfold Parse. destruct (run _ s) as [cfg|] eqn:R; [|done]. simpl. apply run_fits in R; [|by split].
  destruct (step cfg " ") as [cfg'|] eqn:S; [|done]. simpl. apply (step_fits _ _ _ R) in S.
  destruct S as [Hm _]. destruct cfg' as [[] [|]]; try done. intros [= <-]. unfold mode_fits, fits in Hm. simpl in Hm. lia.
Qed.

Lemma valueInterface_depth j : (depth (valueInterface j) <= jdepth j)%nat.
Proof.
  induction j as [|b|t|s|vs IH|ms IH] using json_deep; simpl; try lia.
  - destruct (ParseFloat t); simpl; lia.
  - apply le_n_S. induction IH as [|v vs Hv _ IHvs]; simpl; lia.
  - apply le_n_S, max_list_le, Forall_map.
    apply (assign_all_ind (Forall _)); [constructor|]. intros k v m Hin Hm. apply assign_Forall; [|done]. simpl.
    apply list_elem_of_fmap in Hin as ([k' j'] & [= -> ->] & Hin). rewrite Forall_forall in IH. specialize (IH _ Hin).
    simpl in *. etransitivity; [exact IH|]. clear -Hin. induction ms as [|m ms IH]; [by apply not_elem_of_nil in Hin|].
    apply elem_of_cons in Hin as [<-|Hin]; simpl; [lia|]. specialize (IH Hin). lia.
Qed.

(** [MarshalIndent] of what [Unmarshal] read reads as the same value. *)
Lemma MarshalIndent_decoded prefix s :
  blank prefix → ∃ t, MarshalIndent prefix (UnmarshalAny s) = Some t ∧ UnmarshalAny t = UnmarshalAny s.
Proof.
  intros Hb. destruct (decoded_survives _ (UnmarshalAny_decoded s)) as (j & Hj & Hv).
  destruct (MarshalIndent_Parse prefix _ j Hb Hj) as (t & Ht & Hp).
  - unfold UnmarshalAny. destruct (Parse s) as [j'|] eqn:E; [|done].
    pose proof (Parse_fits s j' E). pose proof (valueInterface_depth j'). lia.
  - exists t. split; [done|]. unfold UnmarshalAny at 1. by rewrite Hp.
Qed.
