(* ===== verification/PairflowKeys.v ===== *)
(** * Halves, preimages and path ids

    The pure parts of internal/pairflow/pairflow.go: what survives storage,
    what a self-signature covers, which pairs share a path id. *)

From S2P Require Import Prelude GoStrings GoTime Codec Sha256 Json JsonUtf8 Http Storage Patterns Replay.
From S2P Require Import Crypto Mailbox Pairflow.

Local Open Scope Z_scope.

(** ** The stored form *)

Record half_utf8 (h : half) : Prop := HalfUtf8 {
  u_NexusID : utf8 (NexusID h);
  u_SigAlg : utf8 (SigAlg h);
  u_Pubkey : utf8 (Pubkey h);
  u_DhAlg : utf8 (DhAlg h);
  u_DhPubkey : utf8 (DhPubkey h);
  u_Endpoint : utf8 (Endpoint h);
  u_Nonce : utf8 (Nonce h);
  u_Ts : utf8 (HTs h);
  u_SelfSig : utf8 (SelfSig h)
}.

Lemma half_fields_utf8 : keeps half_utf8 (decode_struct half_fields).
Proof.
  apply keeps_struct. unfold half_fields.
  repeat (constructor; [apply keeps_str; intros s t Hs []; by constructor|]). constructor.
Qed.

Lemma zeroHalf_utf8 : half_utf8 zeroHalf.
Proof. repeat constructor. Qed.

Lemma unmarshalCreate_utf8 s b : unmarshalCreate s = Some b → half_utf8 (Requester b).
Proof.
  apply (Unmarshal_keeps (λ b, half_utf8 (Requester b))); [|apply zeroHalf_utf8].
  apply keeps_struct. constructor; [|constructor; [|constructor]]; simpl.
  - apply keeps_str. intros ??? Hb. exact Hb.
  - intros v t Hv Ht. unfold sub_field. pose proof (half_fields_utf8 v (Requester t) Hv Ht) as H.
    by destruct (decode_struct half_fields v (Requester t)).
Qed.

Lemma unmarshalApprove_utf8 s h : unmarshalApprove s = Some h → half_utf8 h.
Proof.
  apply (Unmarshal_keeps half_utf8); [|apply zeroHalf_utf8].
  apply keeps_struct. constructor; [|constructor]; simpl.
  intros v t Hv Ht. unfold sub_field. pose proof (half_fields_utf8 v t Hv Ht) as H.
  by destruct (decode_struct half_fields v t).
Qed.

Lemma unmarshalHalf_utf8 s h : unmarshalHalf s = Some h → half_utf8 h.
Proof. apply Unmarshal_keeps; [apply half_fields_utf8|apply zeroHalf_utf8]. Qed.

(** Keys are ASCII. *)
Lemma half_members_utf8 h : half_utf8 h → Forall (λ kv, utf8 (fst kv) ∧ utf8 (snd kv)) (half_members h).
Proof.
  intros []. unfold half_members.
  assert (Hk : ∀ k v, all_bytes (λ c, code c <? 128) k = true → utf8 v → utf8 k ∧ utf8 v)
    by (intros; split; [by apply utf8_ascii|done]).
  destruct (isEmpty (DhAlg h)), (isEmpty (DhPubkey h)); repeat (constructor; [by apply Hk|]); constructor.
Qed.

Lemma unmarshal_serialize h : half_utf8 h → unmarshalHalf (serializeHalf h) = Some (set_pubkeyRaw "" h).
Proof.
  intros H. unfold unmarshalHalf, serializeHalf, Unmarshal.
  rewrite Parse_encode_object by (by apply half_members_utf8).
  destruct h as [n a k da dk en no ts ss raw]. unfold half_members, isEmpty. simpl.
  destruct (String.eqb_spec da ""), (String.eqb_spec dk ""); by subst.
Qed.

Lemma parseHalf_utf8 h h' : half_utf8 h → parseHalf h = inl h' → half_utf8 h'.
Proof.
  intros Hu. unfold parseHalf. case_goal; try done; intros [= <-]; by destruct Hu.
Qed.

(** ** What parseHalf accepts *)

Record half_valid (h : half) (raw : string) : Prop := HalfValid {
  v_NexusID : 1 <= len (NexusID h) <= 256;
  v_Endpoint : len (Endpoint h) <= 1024;
  v_SigAlg : SigAlg h = "ed25519"%string;
  v_Pubkey : key_text (Pubkey h) raw;
  v_present : Nonce h ≠ ""%string ∧ HTs h ≠ ""%string ∧ SelfSig h ≠ ""%string;
  v_Dh : (DhAlg h = ""%string ∧ DhPubkey h = ""%string) ∨
         (1 <= len (DhAlg h) <= 32 ∧ 1 <= len (DhPubkey h) <= 256 ∧ is_Some (decodeB64URL (DhPubkey h)))
}.

Lemma half_valid_raw h raw x : half_valid h raw → half_valid (set_pubkeyRaw x h) raw.
Proof. intros []. by constructor. Qed.

Lemma isEmpty_len s : isEmpty s = false ↔ 1 <= len s.
Proof. destruct s; unfold isEmpty, len; simpl; [split; [done|lia]|split; [lia|done]]. Qed.

Lemma isEmpty_true s : isEmpty s = true ↔ s = ""%string.
Proof. apply String.eqb_eq. Qed.

Lemma isEmpty_false s : isEmpty s = false ↔ s ≠ ""%string.
Proof. apply String.eqb_neq. Qed.

Lemma parseHalf_valid h h' :
  parseHalf h = inl h' → ∃ raw, half_valid h raw ∧ h' = set_pubkeyRaw raw h.
Proof.
  unfold parseHalf.
  destruct (isEmpty (NexusID h) || _ || _ || _ || _ || _) eqn:E1; [done|]. bool_prop.
  destruct (256 <? len (NexusID h)) eqn:E2; [done|].
  destruct (1024 <? len (Endpoint h)) eqn:E3; [done|].
  destruct (String.eqb_spec (SigAlg h) "ed25519") as [Ea|]; [|done].
  destruct (decodeB64URL (Pubkey h)) as [raw|] eqn:Ep; [|done].
  destruct (Z.eqb_spec (len raw) PublicKeySize) as [El|]; [|done]. cbn [negb DhAlg DhPubkey set_pubkeyRaw]. bool_prop.
  repeat match goal with H : isEmpty (NexusID h) = false |- _ => apply isEmpty_len in H
    | H : isEmpty _ = false |- _ => apply isEmpty_false in H end.
  intros E. exists raw. revert E.
  assert (Hv : ∀ P : Prop, P → (DhAlg h = ""%string ∧ DhPubkey h = ""%string) ∨
    (1 <= len (DhAlg h) <= 32 ∧ 1 <= len (DhPubkey h) <= 256 ∧ is_Some (decodeB64URL (DhPubkey h))) →
    half_valid h raw ∧ P) by (intros; by repeat split).
  destruct (negb (isEmpty (DhAlg h)) || negb (isEmpty (DhPubkey h))) eqn:E4.
  - destruct (isEmpty (DhAlg h) || isEmpty (DhPubkey h)) eqn:E5; [done|].
    destruct (32 <? _) eqn:E6; [done|]. destruct (256 <? _) eqn:E7; [done|].
    destruct (decodeB64URL (DhPubkey h)) eqn:E8; [|done]. intros [= <-]. apply Hv; [done|]. right.
    bool_prop. repeat match goal with H : isEmpty _ = false |- _ => apply isEmpty_len in H end.
    by repeat split.
  - intros [= <-]. apply Hv; [done|]. left. bool_prop. split; by apply isEmpty_true.
Qed.

Lemma half_valid_parse h raw : half_valid h raw → parseHalf h = inl (set_pubkeyRaw raw h).
Proof.
  intros [Hn He Ha [Hd Hl] (H1 & H2 & H3) Hdh]. unfold parseHalf.
  assert (Hp : isEmpty (Pubkey h) = false).
  { apply isEmpty_false. intros E. rewrite E in Hd. injection Hd as <-. done. }
  apply isEmpty_false in H1, H2, H3.
  rewrite (proj2 (isEmpty_len (NexusID h))) by lia. rewrite Ha, Hp, H1, H2, H3, Hd, Hl.
  rewrite !(proj2 (Z.ltb_ge _ _)) by lia.
  change (isEmpty "ed25519") with false. change (String.eqb "ed25519" "ed25519") with true.
  change (PublicKeySize =? PublicKeySize) with true.
  cbn [orb negb DhAlg DhPubkey set_pubkeyRaw].
  destruct Hdh as [[-> ->]|(H4 & H5 & [x H6])]; [done|].
  rewrite !(proj2 (isEmpty_len _)) by lia. rewrite H6.
  by rewrite !(proj2 (Z.ltb_ge _ _)) by lia.
Qed.

(** ** Order of keys *)

Lemma bytesLess_ltb a b : bytesLess a b = str_ltb a b.
Proof.
  revert b. induction a as [|x a IH]; intros [|y b]; simpl; try done.
  rewrite str_ltb_cons. destruct (Ascii.eqb_spec x y) as [->|Hne]; simpl.
  - by rewrite IH, Z.eqb_refl.
  - destruct (Z.eqb_spec (code x) (code y)) as [E|E]; [|done]. apply code_inj in E. done.
Qed.

(** The two keys in ascending order. *)
Definition ordered (a b : string) : string := if bytesLess b a then b +:+ a else a +:+ b.

Lemma computePathID_ordered a b : computePathID a b = "nxc_" +:+ RawURLEncode (sha256 (ordered a b)).
Proof. unfold computePathID, ordered. by destruct (bytesLess b a). Qed.

Lemma ordered_sym a b : ordered a b = ordered b a.
Proof.
  unfold ordered. rewrite !bytesLess_ltb.
  destruct (str_ltb b a) eqn:E1, (str_ltb a b) eqn:E2; try done.
  - pose proof (str_ltb_trans _ _ _ E1 E2) as E. by rewrite str_ltb_irrefl in E.
  - apply str_ltb_false in E1, E2. by rewrite (anti_symm String.le a b).
Qed.

Lemma ordered_cases a b c d :
  len a = len b → len c = len a → len d = len a →
  ordered a b = ordered c d → (a = c ∧ b = d) ∨ (a = d ∧ b = c).
Proof.
  unfold len. intros H1 H2 H3. unfold ordered.
  destruct (bytesLess b a), (bytesLess d c); intros E; apply app_inj_len in E as [? ?]; subst; auto; lia.
Qed.

Lemma RawURLEncode_inj s t : RawURLEncode s = RawURLEncode t → s = t.
Proof. intros E. apply (f_equal decodeB64URL) in E. rewrite !decodeB64URL_encode in E. congruence. Qed.

Lemma computePathID_inj a b c d :
  computePathID a b = computePathID c d → sha256 (ordered a b) = sha256 (ordered c d).
Proof.
  rewrite !computePathID_ordered. intros E. apply app_inj_len in E as [_ E]; [|done].
  by apply RawURLEncode_inj.
Qed.

Lemma b64_char_path c : b64_char c = true → path_id_char c = true.
Proof.
  unfold b64_char, b64_val, path_id_char, between. intros H. apply bool_decide_eq_true in H.
  destruct ((65 <=? code c) && (code c <=? 90)) eqn:E1; [done|].
  destruct ((97 <=? code c) && (code c <=? 122)) eqn:E2; [by rewrite orb_true_r|].
  destruct ((48 <=? code c) && (code c <=? 57)) eqn:E3; [by rewrite orb_true_r|].
  destruct (Z.eqb_spec (code c) 45) as [E|]; [change 45 with (code "-") in E; apply code_inj in E; by subst|].
  destruct (Z.eqb_spec (code c) 95) as [E|]; [change 95 with (code "_") in E; apply code_inj in E; by subst|].
  by destruct H.
Qed.

Lemma computePathID_wellformed a b : pathIDRegex (computePathID a b) = true.
Proof.
  rewrite computePathID_ordered. apply pathIDRegex_iff. eexists. split; [done|]. split.
  - pose proof (RawURLEncode_length (sha256 (ordered a b))) as H.
    unfold len in H. rewrite length_sha256 in H. change ((4 * Z.of_nat 32 + 2) / 3) with 43 in H. lia.
  - eapply all_bytes_impl; [|apply RawURLEncode_alphabet]. apply b64_char_path.
Qed.

(** ** Preimages *)

(** What a v2 self-signature states. *)
Definition claims (h : half) : list string :=
  [NexusID h; SigAlg h; Pubkey h; DhAlg h; DhPubkey h; Endpoint h; Nonce h; HTs h].

Definition one_line (h : half) : Prop := Forall (λ w, no_byte "010" w = true) (claims h).

Lemma canonicalBytesV2_claims h h' :
  one_line h → one_line h' → canonicalBytesV2 h = canonicalBytesV2 h' → claims h = claims h'.
Proof.
  intros H H' E. apply Join_inj in E; [|done|done|by constructor..].
  injection E. intros. unfold claims. congruence.
Qed.

Lemma canonical_versions h h' : canonicalBytesV1 h ≠ canonicalBytesV2 h'.
Proof. done. Qed.

(** ** Request ids *)

Lemma hex_digit_lower n : 0 <= n < 16 → lower_hex_digit (hex_digit n) = true.
Proof.
  intros H. unfold lower_hex_digit, hex_digit, between.
  destruct (Z.ltb_spec n 10); rewrite code_chr by lia; rewrite orb_true_iff, !andb_true_iff, !Z.leb_le; lia.
Qed.

Lemma hex_encode_hexes s : match_classes (hexes (2 * String.length s)) (hex_encode s) = true.
Proof.
  apply match_classes_replicate. induction s as [|c s [IH1 IH2]]; [done|].
  pose proof (code_range c) as Hc. cbn [hex_encode all_bytes String.length]. split; [lia|].
  rewrite !hex_digit_lower by div_lia. done.
Qed.

Lemma newUUIDv4_shape (b : string) : String.length b = 16%nat → uuidRegex (newUUIDv4 b) = true.
Proof.
  intros Hb. do 16 (destruct b as [|? b]; [done|]). destruct b; [|done].
  cbv -[lower_hex_digit hex_digit set_version set_variant Z.div Z.modulo code andb].
  pose proof code_range as Hc.
  rewrite !hex_digit_lower by (match goal with |- context [code ?c] => pose proof (Hc c) end; div_lia).
  done.
Qed.
