(* ===== verification/PairflowSpec.v ===== *)
(** * Correctness of pairing

    What the pairing handlers do to the store, for every implementation of
    [Storage] that keeps [StorageLaws]. *)

From S2P Require Import Prelude GoStrings GoTime Codec Sha256 Json JsonUtf8 Http Storage Sql StoreSpec.
From S2P Require Import Patterns Replay Crypto Mailbox Pairflow PairflowKeys.

Local Open Scope Z_scope.

(** Clock readings whose 24-hour deadline is a storable time too. *)
Definition wire_ttl_clock (e : Env) : Prop :=
  ∀ n, wire_time (env_clock e n) ∧ wire_time (Add (env_clock e n) requestTTL).

Lemma wire_ttl_wire e : wire_ttl_clock e → wire_clock e.
Proof. intros H n. apply H. Qed.

(** The poll of a request approved with the half [owner] of a body. *)
Lemma approved_poll body owner pathID req :
  half_utf8 body → parseHalf body = inl owner → pathID ≠ ""%string →
  statusResponse (resolve StatusApproved (serializeHalf owner) pathID req) =
  writeJSON StatusOK (GMap [("request_id", GStr (r_RequestID req)); ("status", GStr StatusApproved);
    ("path_id", GStr pathID); ("owner_half", halfToWire body)]%string).
Proof.
  intros Hb Hp Hne. pose proof (unmarshal_serialize _ (parseHalf_utf8 _ _ Hb Hp)) as Hround.
  unfold statusResponse. assert (Hs : isEmpty (serializeHalf owner) = false) by done.
  assert (Hn : isEmpty pathID = false) by (by apply isEmpty_false). unfold isEmpty in Hs, Hn.
  unfold isEmpty. cbn [resolve r_RequestID r_Status r_PathID r_OwnerJSON].
  rewrite Hs, Hn, Hn, Hs. simpl. rewrite Hround.
  apply parseHalf_valid in Hp as (key & _ & ->). done.
Qed.

Section pairflow_spec.
Context `{St : Storage, Ed : Ed25519} (e : Env) (represents : DB → Store → Prop)
  `{!StorageLaws e represents}.

Definition now_of (w : World) : Time := env_clock e (w_ticks w).

(** *** POST /pair/request *)

Definition requestable (r : Request) (now : Time) (target : string) (parsed : half) : Prop :=
  ∃ raw body, ReadAllLimited r maxBodySize = Some raw ∧ unmarshalCreate raw = Some body ∧
    target = TargetNexusID body ∧ 1 <= len target <= 256 ∧
    parseHalf (Requester body) = inl parsed ∧
    tsInWindow (HTs parsed) now = true ∧ verifySelfSig parsed = true.

(** The row of a new request. *)
Definition staged (id target : string) (parsed : half) (now : Time) : PairRequest :=
  stored_request (MkPairRequest id StatusPending now (Add now requestTTL) "" (serializeHalf parsed) "" target).

Inductive create_outcome (r : Request) (s : Store) (w : World) : Response * World → Prop :=
| Created target parsed w' :
    requestable r (now_of w) target parsed →
    let id := env_id e (w_ids w) in
    let now := env_clock e (S (w_ticks w)) in
    s_requests s !! id = None →
    represents (w_db w') (with_requests (<[id := staged id target parsed now]> (s_requests s)) s) →
    create_outcome r s w (writeJSON StatusCreated (GMap [
      ("request_id", GStr id); ("status", GStr StatusPending);
      ("expires_at", GStr (formatRFC3339 (Add now requestTTL)))]%string), w')
| CreateCollision target parsed w' :
    requestable r (now_of w) target parsed →
    is_Some (s_requests s !! env_id e (w_ids w)) →
    represents (w_db w') s →
    create_outcome r s w (errorJSON StatusInternalServerError "request_id_collision", w')
| CreateRejected code w' :
    (∀ target parsed, ¬ requestable r (now_of w) target parsed) →
    represents (w_db w') s →
    create_outcome r s w (errorJSON StatusBadRequest code, w')
| CreateFault w' :
    ¬ quiet e → represents (w_db w') s →
    create_outcome r s w (errorJSON StatusInternalServerError "storage_error", w').

Lemma create_run r s w :
  wire_ttl_clock e → represents (w_db w) s → create_outcome r s w (run e (createRequest r) w).
Proof.
  intros Hc Hr. unfold createRequest.
  assert (Hrej : ∀ code w', represents (w_db w') s → (∀ target parsed, requestable r (now_of w) target parsed → False) →
    create_outcome r s w (run e (Ret (errorJSON StatusBadRequest code)) w')).
  { intros code w' Hw Hno. by apply CreateRejected. }
  destruct (ReadAllLimited r maxBodySize) as [raw|] eqn:Hb.
  2:{ apply Hrej; [done|]. intros ?? (? & ? & ? & _). congruence. }
  destruct (unmarshalCreate raw) as [body|] eqn:Hj.
  2:{ apply Hrej; [done|]. intros ?? (? & ? & ? & ? & _). congruence. }
  assert (Hinv : ∀ target parsed, requestable r (now_of w) target parsed →
    target = TargetNexusID body ∧ 1 <= len target <= 256 ∧ parseHalf (Requester body) = inl parsed ∧
    tsInWindow (HTs parsed) (now_of w) = true ∧ verifySelfSig parsed = true).
  { intros ?? (? & ? & ? & ? & ? & ? & ? & ? & ?). simplify_eq. done. }
  destruct (isEmpty (TargetNexusID body)) eqn:He.
  { apply Hrej; [done|]. intros ?? H. destruct (Hinv _ _ H) as (-> & Hl & _).
    apply isEmpty_true in He. rewrite He in Hl. unfold len in Hl. simpl in Hl. lia. }
  destruct (Z.ltb_spec 256 (len (TargetNexusID body))) as [Hl|Hl].
  { apply Hrej; [done|]. intros ?? H. destruct (Hinv _ _ H) as (-> & ? & _). lia. }
  destruct (parseHalf (Requester body)) as [parsed|code] eqn:Hp.
  2:{ apply Hrej; [done|]. intros ?? H. destruct (Hinv _ _ H) as (_ & _ & ? & _). done. }
  rewrite run_bind, run_call. cbn [exec].
  assert (Hn : represents (w_db (next_tick w)) s) by done.
  destruct (tsInWindow (HTs parsed) (env_clock e (w_ticks w))) eqn:Ht; cbn [negb].
  2:{ apply Hrej; [done|]. intros ?? H. destruct (Hinv _ _ H) as (_ & _ & [= <-] & Ht' & _).
      unfold now_of in Ht'. congruence. }
  destruct (verifySelfSig parsed) eqn:Hv; cbn [negb].
  2:{ apply Hrej; [done|]. intros ?? H. destruct (Hinv _ _ H) as (_ & _ & [= <-] & _ & ?). congruence. }
  assert (Hreq : requestable r (now_of w) (TargetNexusID body) parsed).
  { exists raw, body. repeat split; try done. by apply isEmpty_len. }
  rewrite run_bind, run_call. cbn [exec]. rewrite run_bind, run_call. cbn [exec]. rewrite run_bind.
  cbn [w_ids w_ticks next_tick next_id].
  match goal with |- context [InsertPairRequest ?q] =>
    change (InsertPairRequest q) with (method (OpInsertPairRequest q)); set (row := q) end.
  match goal with |- context [run e (method _) ?x] => set (w2 := x) end.
  destruct (method_cases e represents (OpInsertPairRequest row) s w2 Hr (Hc _))
    as [(w3 & -> & [H3 _ _])|(msg & w3 & -> & [H3 _ _] & Hq)]; [|by apply CreateFault].
  revert H3. cbn [performed]. unfold spec_insert. change (r_RequestID row) with (env_id e (w_ids w)).
  destruct (s_requests s !! env_id e (w_ids w)) as [old|] eqn:Ho; cbn [fst snd run]; intros H3.
  - by eapply CreateCollision.
  - by eapply Created.
Qed.

(** *** POST /pair/requests/:id/approve *)

(** The body of an approval: the owner half it names. *)
Definition approval (r : Request) (raw : string) (body : half) : Prop :=
  ReadAllLimited r maxBodySize = Some raw ∧ unmarshalApprove raw = Some body.

(** A pending request and a valid owner half for it. *)
Record approvable (s : Store) (r : Request) (id : string) (now : Time) (req : PairRequest)
    (raw : string) (requester owner : half) : Prop := Approvable {
  ap_id : uuidRegex id = true;
  ap_req : s_requests s !! id = Some req;
  ap_pending : r_Status req = StatusPending;
  ap_owner : ∃ body, approval r raw body ∧ parseHalf body = inl owner;
  ap_requester : ∃ h, unmarshalHalf (r_RequesterJSON req) = Some h ∧
    requester = set_pubkeyRaw (default ""%string (decodeB64URL (Pubkey h))) h;
  ap_alg : SigAlg owner = SigAlg requester;
  ap_ts : tsInWindow (HTs owner) now = true;
  ap_sig : verifySelfSig owner = true
}.

(** A request decides what its approval is. *)
Lemma approvable_fun s r id now req raw requester owner req' raw' requester' owner' :
  approvable s r id now req raw requester owner → approvable s r id now req' raw' requester' owner' →
  req' = req ∧ raw' = raw ∧ requester' = requester ∧ owner' = owner.
Proof.
  intros [_ H1 _ (b & [B1 B2] & B3) (h & H2 & ->) _ _ _] [_ H1' _ (b' & [B1' B2'] & B3') (h' & H2' & ->) _ _ _].
  assert (req' = req) as -> by congruence. assert (raw' = raw) as -> by congruence.
  assert (h' = h) as -> by congruence. assert (b' = b) as -> by congruence. split_and!; congruence.
Qed.

Definition pathID_of (requester owner : half) : string :=
  computePathID (pubkeyRaw requester) (pubkeyRaw owner).

(** The pair an approval activates. *)
Definition activated (requester owner : half) (now : Time) : Pair :=
  stored_pair (MkPair (pathID_of requester owner) (NexusID requester) (Pubkey requester) ""
    (NexusID owner) (Pubkey owner) "" (SigAlg requester) "P-256" now).

Definition same_keys (p : Pair) (requester owner : half) : Prop :=
  p_RequesterPubkey p = Pubkey requester ∧ p_OwnerPubkey p = Pubkey owner.

(** A repeated approval: the request is approved, and the body holds the owner's
    key of the pair. *)
Definition reapproval (s : Store) (r : Request) (id : string) (req : PairRequest) : Prop :=
  ∃ raw body owner p, uuidRegex id = true ∧ approval r raw body ∧ s_requests s !! id = Some req ∧
    r_Status req = StatusApproved ∧ r_PathID req ≠ ""%string ∧
    parseHalf body = inl owner ∧ verifySelfSig owner = true ∧
    s_pairs s !! r_PathID req = Some p ∧ p_OwnerPubkey p = Pubkey owner.

Definition with_pair (k : string) (p : Pair) (s : Store) : Store :=
  with_pairs (<[k := p]> (s_pairs s)) s.

Definition with_request (k : string) (q : PairRequest) (s : Store) : Store :=
  with_requests (<[k := q]> (s_requests s)) s.

Inductive approve_outcome (r : Request) (id : string) (s : Store) (w : World) : Response * World → Prop :=
| Approved req raw requester owner w' :
    approvable s r id (now_of w) req raw requester owner →
    let pathID := pathID_of requester owner in
    s_pairs s !! pathID = None →
    represents (w_db w') (with_request id (resolve StatusApproved (serializeHalf owner) pathID req)
      (with_pair pathID (activated requester owner (env_clock e (S (w_ticks w)))) s)) →
    approve_outcome r id s w (approvedResponse id pathID (halfToWire requester), w')
| ApprovedExisting req raw requester owner p w' :
    approvable s r id (now_of w) req raw requester owner →
    let pathID := pathID_of requester owner in
    s_pairs s !! pathID = Some p → same_keys p requester owner →
    represents (w_db w') (with_request id (resolve StatusApproved raw pathID req) s) →
    approve_outcome r id s w (approvedResponse id pathID (halfToWire requester), w')
| ApproveOtherPair req raw requester owner p w' :
    approvable s r id (now_of w) req raw requester owner →
    s_pairs s !! pathID_of requester owner = Some p → ¬ same_keys p requester owner →
    represents (w_db w') s →
    approve_outcome r id s w (errorJSON StatusConflict "pair_conflict", w')
| ApprovedAgain req w' :
    reapproval s r id req →
    represents (w_db w') s →
    approve_outcome r id s w
      (approvedResponse id (r_PathID req) (parsedRequesterHalf (r_RequesterJSON req)), w')
| ApproveRejected resp w' :
    (∀ req raw requester owner, ¬ approvable s r id (now_of w) req raw requester owner) →
    (∀ req, ¬ reapproval s r id req) →
    Status resp ∈ [StatusBadRequest; StatusNotFound; StatusConflict; StatusInternalServerError] →
    represents (w_db w') s →
    approve_outcome r id s w (resp, w')
(* driver failures: nothing read or written *)
| ApproveFault w' :
    ¬ quiet e → represents (w_db w') s →
    approve_outcome r id s w (errorJSON StatusInternalServerError "storage_error", w')
(* the pair of a resolved request was not read *)
| ApproveFaultResolved req w' :
    ¬ quiet e → s_requests s !! id = Some req → r_Status req = StatusApproved →
    represents (w_db w') s →
    approve_outcome r id s w (writeJSON StatusConflict
      (GMap [("error", GStr "request_not_pending"); ("status", GStr (r_Status req))]%string), w')
(* the existing pair was not read *)
| ApproveFaultPair req raw requester owner w' :
    ¬ quiet e → approvable s r id (now_of w) req raw requester owner →
    is_Some (s_pairs s !! pathID_of requester owner) →
    represents (w_db w') s →
    approve_outcome r id s w (errorJSON StatusConflict "pair_conflict", w')
(* the existing pair has the keys, the request was not marked, and the answer is 200 *)
| ApproveFaultUnmarked req raw requester owner p w' :
    ¬ quiet e → approvable s r id (now_of w) req raw requester owner →
    let pathID := pathID_of requester owner in
    s_pairs s !! pathID = Some p → same_keys p requester owner →
    represents (w_db w') s →
    approve_outcome r id s w (approvedResponse id pathID (halfToWire requester), w')
(* the pair was activated, the request was not marked *)
| ApproveFaultHalfway req raw requester owner w' :
    ¬ quiet e → approvable s r id (now_of w) req raw requester owner →
    let pathID := pathID_of requester owner in
    s_pairs s !! pathID = None →
    represents (w_db w') (with_pair pathID (activated requester owner (env_clock e (S (w_ticks w)))) s) →
    approve_outcome r id s w (errorJSON StatusInternalServerError "storage_error", w').

(** From the insertion of the pair on. *)
Lemma approveInsert_run r id s w w1 req raw requester owner :
  wire_clock e → represents (w_db w1) s → w_ticks w1 = S (w_ticks w) →
  approvable s r id (now_of w) req raw requester owner →
  approve_outcome r id s w (run e (approveInsert id raw requester owner) w1).
Proof.
  intros Hc Hr Ht Ha. unfold approveInsert. fold (pathID_of requester owner).
  rewrite run_bind, run_call. cbn [exec]. rewrite run_bind, Ht.
  match goal with |- context [InsertPair ?q] =>
    change (InsertPair q) with (method (OpInsertPair q)); set (row := q) end.
  destruct (method_cases e represents (OpInsertPair row) s (next_tick w1) Hr (Hc _))
    as [(w2 & -> & [H2 T2 _])|(msg & w2 & -> & [H2 _ _] & Hq)]; [|by apply ApproveFault].
  revert H2. cbn [performed]. unfold spec_insert. change (p_PathID row) with (pathID_of requester owner).
  destruct (s_pairs s !! pathID_of requester owner) as [p|] eqn:Hp; cbn [fst snd]; intros H2.
  - rewrite run_bind. change (GetPair ?k) with (method (OpGetPair k)).
    destruct (method_cases e represents (OpGetPair (pathID_of requester owner)) s w2 H2 I)
      as [(w3 & -> & [H3 _ _])|(msg & w3 & -> & [H3 _ _] & Hq)]; [|by eapply ApproveFaultPair].
    revert H3. cbn [performed fst snd]. rewrite Hp. cbn [found]. intros H3.
    destruct (String.eqb (p_RequesterPubkey p) (Pubkey requester) &&
              String.eqb (p_OwnerPubkey p) (Pubkey owner)) eqn:Hk.
    2:{ eapply ApproveOtherPair; [done..| |done]. intros [E1 E2]. rewrite E1, E2, !String.eqb_refl in Hk. done. }
    bool_prop. rewrite run_bind. change (UpdatePairRequestStatus ?a ?b ?c ?d) with (method (OpUpdateStatus a b c d)).
    destruct (method_cases e represents (OpUpdateStatus id StatusApproved raw (pathID_of requester owner)) s w3 H3 I)
      as [(w4 & -> & [H4 _ _])|(msg & w4 & -> & [H4 _ _] & Hq)]; [|by eapply ApproveFaultUnmarked].
    eapply ApprovedExisting; [done..|]. revert H4. cbn [performed run]. unfold spec_update.
    destruct Ha as [_ -> Hs _ _ _ _ _]. by rewrite decide_True.
  - rewrite run_bind. change (UpdatePairRequestStatus ?a ?b ?c ?d) with (method (OpUpdateStatus a b c d)).
    set (s' := with_pairs _ s) in H2.
    destruct (method_cases e represents (OpUpdateStatus id StatusApproved (serializeHalf owner) (pathID_of requester owner)) s' w2 H2 I)
      as [(w3 & -> & [H3 _ _])|(msg & w3 & -> & [H3 _ _] & Hq)].
    + pose proof Ha as [_ Hreq Hs _ _ _ _ _]. revert H3. cbn [performed]. unfold spec_update.
      change (s_requests s') with (s_requests s). rewrite Hreq, decide_True by done. cbn [fst snd run]. intros H3.
      by eapply Approved.
    + cbn [failure run]. by eapply ApproveFaultHalfway.
Qed.

(** A request that is not pending. *)
Lemma approveResolved_run r id s w w1 req raw body :
  represents (w_db w1) s → uuidRegex id = true → approval r raw body →
  s_requests s !! id = Some req → r_Status req ≠ StatusPending →
  approve_outcome r id s w (run e (approveResolved id body req) w1).
Proof.
  intros Hr Hu [Hb Hj] Hreq Hst. unfold approveResolved.
  assert (Hrej : ∀ w', represents (w_db w') s →
    (∀ owner p, r_Status req = StatusApproved → r_PathID req ≠ ""%string → parseHalf body = inl owner →
      verifySelfSig owner = true → s_pairs s !! r_PathID req = Some p → p_OwnerPubkey p = Pubkey owner → False) →
    approve_outcome r id s w (run e (Ret (writeJSON StatusConflict
      (GMap [("error", GStr "request_not_pending"); ("status", GStr (r_Status req))]%string))) w')).
  { intros w' Hw Hno. apply ApproveRejected; [| |set_solver|done].
    - intros ???? [_ Hreq' Hp _ _ _ _ _]. congruence.
    - intros req' (raw' & body' & owner & p & _ & [Hb' Hj'] & Hreq' & H1 & H2 & H3 & H4 & H5 & H6).
      simplify_eq. by apply (Hno owner p). }
  destruct (String.eqb_spec (r_Status req) StatusApproved) as [Ea|Ea]; cbn [andb].
  2:{ apply Hrej; [done|]. intros. congruence. }
  destruct (isEmpty (r_PathID req)) eqn:Ep; cbn [negb].
  { apply isEmpty_true in Ep. apply Hrej; done. }
  apply isEmpty_false in Ep.
  destruct (parseHalf body) as [owner|code] eqn:Hp; [|by apply Hrej].
  destruct (verifySelfSig owner) eqn:Hv.
  2:{ apply Hrej; [done|]. intros ???? [= <-] ???. congruence. }
  rewrite run_bind. change (GetPair ?k) with (method (OpGetPair k)).
  destruct (method_cases e represents (OpGetPair (r_PathID req)) s w1 Hr I)
    as [(w2 & -> & [H2 _ _])|(msg & w2 & -> & [H2 _ _] & Hq)].
  2:{ by apply ApproveFaultResolved. }
  cbn [performed fst]. cbn [performed snd] in H2.
  destruct (s_pairs s !! r_PathID req) as [p|] eqn:Hpair; cbn [found].
  2:{ apply Hrej; [done|]. intros. congruence. }
  destruct (String.eqb_spec (p_OwnerPubkey p) (Pubkey owner)) as [Ek|Ek].
  - cbn [run]. apply ApprovedAgain; [|done]. by exists raw, body, owner, p.
  - apply Hrej; [done|]. intros. simplify_eq; congruence.
Qed.

(** A pending request. *)
Lemma approvePending_run r id s w w1 req raw body :
  wire_clock e → represents (w_db w1) s → w_ticks w1 = w_ticks w → uuidRegex id = true → approval r raw body →
  s_requests s !! id = Some req → r_Status req = StatusPending →
  approve_outcome r id s w (run e (approvePending id raw body req) w1).
Proof.
  intros Hc H1 T1 Hu Hb Hreq Es. unfold approvePending.
  assert (Hrej : ∀ status code w', represents (w_db w') s →
    status ∈ [StatusBadRequest; StatusNotFound; StatusConflict; StatusInternalServerError] →
    (∀ requester owner, approvable s r id (now_of w) req raw requester owner → False) →
    approve_outcome r id s w (run e (Ret (errorJSON status code)) w')).
  { intros status code w' Hw Hst Hno. apply ApproveRejected; [| |done|done].
    - intros req' raw' requester owner Ha. pose proof Ha as [_ ? _ (? & [? ?] & ?) _ _ _ _]. destruct Hb. simplify_eq. eauto.
    - intros ? (? & ? & ? & ? & _ & _ & ? & Hs & _). simplify_eq. rewrite Es in Hs. done. }
  destruct (unmarshalHalf (r_RequesterJSON req)) as [h|] eqn:Hh.
  2:{ apply Hrej; [done|set_solver|]. intros ?? [_ _ _ _ (? & ? & _) _ _ _]. congruence. }
  set (requester := set_pubkeyRaw _ h).
  destruct (parseHalf body) as [owner|code] eqn:Hp.
  2:{ apply Hrej; [done|set_solver|]. intros ?? [_ _ _ (? & [? ?] & ?) _ _ _ _]. destruct Hb. simplify_eq; congruence. }
  assert (Hown : ∀ requester' owner', approvable s r id (now_of w) req raw requester' owner' →
    owner' = owner ∧ requester' = requester).
  { intros ?? [_ _ _ (? & [? ?] & ?) (? & ? & ?) _ _ _]. destruct Hb. subst requester. simplify_eq. split; [congruence|done]. }
  destruct (String.eqb_spec (SigAlg owner) (SigAlg requester)) as [Ealg|Ealg]; cbn [negb].
  2:{ apply Hrej; [done|set_solver|]. intros ?? Ha. destruct (Hown _ _ Ha) as [-> ->]. by destruct Ha. }
  rewrite run_bind, run_call. cbn [exec]. rewrite T1.
  assert (Hn : represents (w_db (next_tick w1)) s) by done.
  destruct (tsInWindow (HTs owner) (env_clock e (w_ticks w))) eqn:Ht; cbn [negb].
  2:{ apply Hrej; [done|set_solver|]. intros ?? Ha. destruct (Hown _ _ Ha) as [-> ->]. destruct Ha.
      unfold now_of in *. congruence. }
  destruct (verifySelfSig owner) eqn:Hv; cbn [negb].
  2:{ apply Hrej; [done|set_solver|]. intros ?? Ha. destruct (Hown _ _ Ha) as [-> ->]. destruct Ha. congruence. }
  eapply approveInsert_run; [done|done|by rewrite <- T1|].
  constructor; try done; [by exists body|by exists h].
Qed.

Lemma approve_run r id s w :
  wire_clock e → represents (w_db w) s → approve_outcome r id s w (run e (approve r id) w).
Proof.
  intros Hc Hr. unfold approve.
  assert (Hrej : ∀ status code w', represents (w_db w') s →
    status ∈ [StatusBadRequest; StatusNotFound; StatusConflict; StatusInternalServerError] →
    (∀ req raw requester owner, approvable s r id (now_of w) req raw requester owner → False) →
    (∀ req, reapproval s r id req → False) →
    approve_outcome r id s w (run e (Ret (errorJSON status code)) w')).
  { intros. by apply ApproveRejected. }
  destruct (uuidRegex id) eqn:Hu; cbn [negb].
  2:{ apply Hrej; [done|set_solver| |]; [intros ???? [? _ _ _ _ _ _ _]|intros ? (? & ? & ? & ? & ? & _)]; congruence. }
  destruct (ReadAllLimited r maxBodySize) as [raw|] eqn:Hb.
  2:{ apply Hrej; [done|set_solver| |].
      - intros ???? [_ _ _ (? & [? ?] & ?) _ _ _ _]. congruence.
      - intros ? (? & ? & ? & ? & _ & [? ?] & _). congruence. }
  destruct (unmarshalApprove raw) as [body|] eqn:Hj.
  2:{ apply Hrej; [done|set_solver| |].
      - intros ???? [_ _ _ (? & [? ?] & ?) _ _ _ _]. congruence.
      - intros ? (? & ? & ? & ? & _ & [? ?] & _). congruence. }
  rewrite run_bind. change (GetPairRequest ?k) with (method (OpGetPairRequest k)).
  destruct (method_cases e represents (OpGetPairRequest id) s w Hr I)
    as [(w1 & -> & [H1 T1 _])|(msg & w1 & -> & [H1 _ _] & Hq)]; [|by apply ApproveFault].
  cbn [performed fst]. cbn [performed snd] in H1.
  destruct (s_requests s !! id) as [req|] eqn:Hreq; cbn [found].
  2:{ apply Hrej; [done|set_solver| |].
      - intros ???? [_ ? _ _ _ _ _ _]. congruence.
      - intros ? (? & ? & ? & ? & _ & _ & ? & _). congruence. }
  destruct (String.eqb_spec (r_Status req) StatusPending) as [Es|Es]; cbn [negb].
  - by eapply approvePending_run.
  - by eapply approveResolved_run.
Qed.

(** Without driver failures. *)
Lemma approve_new r id s w req raw requester owner :
  quiet e → wire_clock e → represents (w_db w) s →
  approvable s r id (now_of w) req raw requester owner →
  let pathID := pathID_of requester owner in
  s_pairs s !! pathID = None →
  ∃ w', run e (approve r id) w = (approvedResponse id pathID (halfToWire requester), w') ∧
    represents (w_db w') (with_request id (resolve StatusApproved (serializeHalf owner) pathID req)
      (with_pair pathID (activated requester owner (env_clock e (S (w_ticks w)))) s)).
Proof.
  intros Hq Hc Hr Ha pathID Hnew. pose proof (approve_run r id s w Hc Hr) as Ho.
  destruct (run e (approve r id) w) as [resp w'].
  inversion Ho as [req' raw' r' o' w1 Ha' path _ Hw|req' raw' r' o' p w1 Ha' path Hp|req' raw' r' o' p w1 Ha' Hp
    |req' w1 (? & ? & ? & ? & _ & _ & Hr' & Hs & _) _|? ? Hno _| | | | | ]; subst; try done.
  - destruct (approvable_fun _ _ _ _ _ _ _ _ _ _ _ _ Ha Ha') as (-> & -> & -> & ->). by exists w'.
  - destruct (approvable_fun _ _ _ _ _ _ _ _ _ _ _ _ Ha Ha') as (-> & -> & -> & ->).
    subst path pathID. congruence.
  - destruct (approvable_fun _ _ _ _ _ _ _ _ _ _ _ _ Ha Ha') as (-> & -> & -> & ->).
    subst pathID. congruence.
  - exfalso. destruct Ha as [_ Hreq Hp _ _ _ _ _]. simplify_eq. by rewrite Hp in Hs.
  - by destruct (Hno req raw requester owner).
Qed.

Lemma approve_existing r id s w req raw requester owner p :
  quiet e → wire_clock e → represents (w_db w) s →
  approvable s r id (now_of w) req raw requester owner →
  let pathID := pathID_of requester owner in
  s_pairs s !! pathID = Some p → same_keys p requester owner →
  ∃ w', run e (approve r id) w = (approvedResponse id pathID (halfToWire requester), w') ∧
    represents (w_db w') (with_request id (resolve StatusApproved raw pathID req) s).
Proof.
  intros Hq Hc Hr Ha pathID Hold Hk. pose proof (approve_run r id s w Hc Hr) as Ho.
  destruct (run e (approve r id) w) as [resp w'].
  inversion Ho as [req' raw' r' o' w1 Ha' path Hp Hw|req' raw' r' o' p' w1 Ha' path Hp ? Hw|req' raw' r' o' p' w1 Ha' Hp Hk'
    |req' w1 (? & ? & ? & ? & _ & _ & Hr' & Hs & _) _|? ? Hno _| | | | | ]; subst; try done.
  - destruct (approvable_fun _ _ _ _ _ _ _ _ _ _ _ _ Ha Ha') as (-> & -> & -> & ->).
    subst path pathID. congruence.
  - destruct (approvable_fun _ _ _ _ _ _ _ _ _ _ _ _ Ha Ha') as (-> & -> & -> & ->). by exists w'.
  - destruct (approvable_fun _ _ _ _ _ _ _ _ _ _ _ _ Ha Ha') as (-> & -> & -> & ->).
    subst pathID. by simplify_eq.
  - exfalso. destruct Ha as [_ Hreq Hp _ _ _ _ _]. simplify_eq. by rewrite Hp in Hs.
  - by destruct (Hno req raw requester owner).
Qed.

(** The poll of a stored request. *)
Lemma poll_run id s w req :
  quiet e → represents (w_db w) s → uuidRegex id = true → s_requests s !! id = Some req →
  ∃ w', run e (getRequestStatus id) w = (statusResponse req, w') ∧ represents (w_db w') s.
Proof.
  intros Hq Hr Hu Hreq. unfold getRequestStatus. rewrite Hu. cbn [negb]. rewrite run_bind.
  change (GetPairRequest id) with (method (OpGetPairRequest id)).
  destruct (method_quiet e represents (OpGetPairRequest id) s w Hq Hr I) as (w' & -> & [H' _ _]).
  exists w'. split; [|exact H']. cbn [performed fst]. by rewrite Hreq.
Qed.

(** *** POST /pair/requests/:id/deny *)

(** The answer and the store after a denial. *)
Definition denied (id : string) (s : Store) : Response * Store :=
  match s_requests s !! id with
  | None => (errorJSON StatusNotFound "request_not_found", s)
  | Some req =>
      let ok := writeJSON StatusOK (GMap [("request_id", GStr id); ("status", GStr StatusDenied)]%string) in
      if decide (r_Status req = StatusPending) then (ok, with_request id (resolve StatusDenied "" "" req) s)
      else if decide (r_Status req = StatusDenied) then (ok, s)
      else (errorJSON StatusConflict "request_not_pending", s)
  end.

Lemma deny_run id s w :
  uuidRegex id = true → represents (w_db w) s →
  let '(resp, w') := run e (deny id) w in
  (resp = fst (denied id s) ∧ represents (w_db w') (snd (denied id s))) ∨
  (¬ quiet e ∧ Status resp = StatusInternalServerError ∧ represents (w_db w') s).
Proof.
  intros Hu Hr. unfold deny. rewrite Hu. cbn [negb]. rewrite run_bind.
  change (UpdatePairRequestStatus ?a ?b ?c ?d) with (method (OpUpdateStatus a b c d)).
  destruct (method_cases e represents (OpUpdateStatus id StatusDenied "" "") s w Hr I)
    as [(w1 & -> & [H1 _ _])|(msg & w1 & -> & [H1 _ _] & Hq)]; [|by right].
  revert H1. cbn [performed]. unfold spec_update, denied.
  destruct (s_requests s !! id) as [req|]; [|by left].
  destruct (decide (r_Status req = StatusPending)); [by left|]. destruct (decide (r_Status req = StatusDenied)); by left.
Qed.
End pairflow_spec.
