(* ===== verification/Sweep.v ===== *)
(** * The retention sweeper (internal/sweep/sweep.go) *)

From S2P Require Import Prelude GoStrings GoTime Storage Sql StoreSpec.

Local Open Scope Z_scope.

(** [Config] without the logger and the clock, whose defaults only pick the
    standard ones. *)
Record Config : Type := MkConfig {
  Interval : Duration;
  EnvelopeMaxAge : Duration
}.

Definition defaults (c : Config) : Config :=
  MkConfig (if Interval c <=? 0 then Hour else Interval c)
    (if EnvelopeMaxAge c <=? 0 then 7 * 24 * Hour else EnvelopeMaxAge c).

Inductive LogLine : Type :=
| EvictionFailed (err : error)
| ExpiryFailed (err : error)
| Swept (envCount reqCount : Z).

Section sweep.
Context `{St : Storage}.

(** [errors.Is(err, context.Canceled)] *)
Context (isCanceled : error → bool).

(** The count and the log line of one of the two jobs. *)
Definition sweep_result (failed : error → LogLine) (r : result Z) : Z * list LogLine :=
  match r with
  | Ok n => (n, [])
  | Err err => (0, if isCanceled err then [] else [failed err])
  end.

Definition Once (c : Config) : Prog (list LogLine) :=
  let! now := call Now in
  let envCutoff := Add now (Neg (EnvelopeMaxAge c)) in
  let! r := DeleteEnvelopesOlderThan envCutoff in
  let '(envCount, log1) := sweep_result EvictionFailed r in
  let! r := ExpirePendingRequests now in
  let '(reqCount, log2) := sweep_result ExpiryFailed r in
  Ret (log1 ++ log2 ++ if (0 <? envCount) || (0 <? reqCount) then [Swept envCount reqCount] else []).

(** What the [select] of [Run] receives, in order. *)
Inductive event : Type := Tick | Done.

(** [Run]: the log so far, when the loop has returned or waits for more events. *)
Fixpoint Run (c : Config) (events : list event) : Prog (bool * list LogLine) :=
  match events with
  | [] => Ret (false, [])
  | Done :: _ => Ret (true, [])
  | Tick :: events =>
      let! log := Once c in
      let! rest := Run c events in
      Ret (fst rest, log ++ snd rest)
  end.

(** ** Correctness *)

Context (e : Env) (represents : DB → Store → Prop) `{!StorageLaws e represents}.

(** A failure of a job: nothing is changed. *)
Definition job_failed (r : result Z) (s s' : Store) : Prop :=
  ¬ quiet e ∧ s' = s ∧ ∃ msg, r = Err (ErrOther msg).

Definition sweep_clock (c : Config) : Prop :=
  ∀ n, wire_time (env_clock e n) ∧ wire_time (env_clock e n - EnvelopeMaxAge c).

Lemma defaults_age c : 0 < EnvelopeMaxAge (defaults c).
Proof. simpl. destruct (Z.leb_spec (EnvelopeMaxAge c) 0); [done|lia]. Qed.

Lemma defaults_small c : EnvelopeMaxAge c < 2 ^ 63 → EnvelopeMaxAge (defaults c) < 2 ^ 63.
Proof. intros H. simpl. by destruct (EnvelopeMaxAge c <=? 0). Qed.

Lemma cutoff_exact c now : 0 < EnvelopeMaxAge c < 2 ^ 63 →
  Add now (Neg (EnvelopeMaxAge c)) = now - EnvelopeMaxAge c.
Proof. intros H. unfold Add, Neg. rewrite wrap64_small by lia. lia. Qed.

(** The lines of the two jobs. *)
Definition sweep_log (r1 r2 : result Z) : list LogLine :=
  let '(envCount, log1) := sweep_result EvictionFailed r1 in
  let '(reqCount, log2) := sweep_result ExpiryFailed r2 in
  log1 ++ log2 ++ if (0 <? envCount) || (0 <? reqCount) then [Swept envCount reqCount] else [].

(** Each job does its work or fails; the second starts from what the first left. *)
Lemma Once_run c s w :
  0 < EnvelopeMaxAge c < 2 ^ 63 → sweep_clock c → represents (w_db w) s →
  let now := env_clock e (w_ticks w) in
  ∃ r1 r2 s1 s2 w', run e (Once c) w = (sweep_log r1 r2, w') ∧ represents (w_db w') s2 ∧
    ((r1, s1) = spec_delete (outdated (now - EnvelopeMaxAge c)) s ∨ job_failed r1 s s1) ∧
    ((r2, s2) = spec_expire now s1 ∨ job_failed r2 s1 s2).
Proof.
  intros Ha Hc Hr now. unfold Once. rewrite run_bind, run_call. cbn [exec]. rewrite run_bind.
  rewrite cutoff_exact by done. fold now.
  change (DeleteEnvelopesOlderThan ?k) with (method (OpDeleteOlderThan k)).
  assert (∃ r1 s1 w1, run e (method (OpDeleteOlderThan (now - EnvelopeMaxAge c))) (next_tick w) = (r1, w1) ∧
    represents (w_db w1) s1 ∧
    ((r1, s1) = spec_delete (outdated (now - EnvelopeMaxAge c)) s ∨ job_failed r1 s s1)) as (r1 & s1 & w1 & -> & H1 & J1).
  { destruct (method_cases e represents (OpDeleteOlderThan (now - EnvelopeMaxAge c)) s (next_tick w) Hr)
      as [(w1 & -> & [H1 _ _])|(msg & w1 & -> & [H1 _ _] & Hq)]; [apply Hc| |].
    - eexists _, _, w1. split_and!; [done|exact H1|by left].
    - exists (Err (ErrOther msg)), s, w1. split_and!; [done|done|right]. split_and!; [done|done|by exists msg]. }
  destruct (sweep_result EvictionFailed r1) as [n1 l1] eqn:E1.
  rewrite run_bind. change (ExpirePendingRequests ?k) with (method (OpExpirePending k)).
  assert (∃ r2 s2 w2, run e (method (OpExpirePending now)) w1 = (r2, w2) ∧ represents (w_db w2) s2 ∧
    ((r2, s2) = spec_expire now s1 ∨ job_failed r2 s1 s2)) as (r2 & s2 & w2 & -> & H2 & J2).
  { destruct (method_cases e represents (OpExpirePending now) s1 w1 H1)
      as [(w2 & -> & [H2 _ _])|(msg & w2 & -> & [H2 _ _] & Hq)]; [apply Hc| |].
    - eexists _, _, w2. split_and!; [done|exact H2|by left].
    - exists (Err (ErrOther msg)), s1, w2. split_and!; [done|done|right]. split_and!; [done|done|by exists msg]. }
  exists r1, r2, s1, s2, w2. split_and!; [|done..]. unfold sweep_log. rewrite E1.
  by destruct (sweep_result ExpiryFailed r2).
Qed.

(** A failed job is logged, unless the failure is the shutdown's. *)
Lemma sweep_log_eviction r2 err : isCanceled err = false → EvictionFailed err ∈ sweep_log (Err err) r2.
Proof.
  intros H. unfold sweep_log, sweep_result at 1. rewrite H. destruct (sweep_result _ _). by left.
Qed.

Lemma sweep_log_expiry r1 err : isCanceled err = false → ExpiryFailed err ∈ sweep_log r1 (Err err).
Proof.
  intros H. unfold sweep_log, sweep_result at 2. rewrite H. destruct (sweep_result _ _).
  apply elem_of_app. right. by left.
Qed.
End sweep.
