(* ===== verification/Sched.v ===== *)
(** * Interleavings

    The server runs a goroutine per request and one for the sweeper; between two
    SQL statements of one, statements of the others execute.  A pool of programs
    over one database, its steps, and a rely-guarantee logic for the programs:
    [wp p Q d] holds when [p], started at [d] and interrupted between any two
    statements by anything the guarantee allows, keeps the invariant and the
    guarantee and ends with [Q]. *)

From S2P Require Import Prelude GoStrings GoTime Storage Sql SQLite SQLiteRefines.

Local Open Scope Z_scope.

(** ** Steps *)

(** One statement, in some environment with a conforming driver. *)
Definition stmt_step {X} (s : Stmt X) (d : DB) (x : X) (d' : DB) : Prop :=
  ∃ e w w', DriverOK e ∧ w_db w = d ∧ exec e s w = (x, w') ∧ w_db w' = d'.

(** A pool: the database and the requests in progress. *)
Definition pool : Type := DB * list (Prog unit).

Inductive pool_step (task : Prog unit → Prop) : pool → pool → Prop :=
| PoolStep X (s : Stmt X) k x d d' before rest :
    stmt_step s d x d' →
    pool_step task (d, before ++ Vis s k :: rest) (d', before ++ k x :: rest)
| PoolSpawn d ts p :
    task p →
    pool_step task (d, ts) (d, p :: ts).

Definition serve {A} (p : Prog A) : Prog unit := bind p (λ _, Ret tt).

(** ** The logic *)

Section logic.
Context (I : DB → Prop) (G : relation DB).

Fixpoint wp {A} (p : Prog A) (Q : A → DB → Prop) (d : DB) : Prop :=
  match p with
  | Ret a => Q a d
  | Vis s k =>
      ∀ x d', stmt_step s d x d' →
        I d' ∧ G d d' ∧ ∀ d'', G d' d'' → I d'' → wp (k x) Q d''
  end.

Lemma wp_bind {A B} (p : Prog A) (f : A → Prog B) Q d :
  wp p (λ a, wp (f a) Q) d → wp (bind p f) Q d.
Proof.
  revert d. induction p as [a|X s k IH]; intros d H; [done|]. simpl in *. intros x d' Hs.
  destruct (H x d' Hs) as (Hi & Hg & Hk). split_and!; [done..|]. intros d'' Hg' Hi'. by apply IH, Hk.
Qed.

Lemma wp_mono {A} (p : Prog A) (Q Q' : A → DB → Prop) d :
  (∀ a d, Q a d → Q' a d) → wp p Q d → wp p Q' d.
Proof.
  intros HQ. revert d. induction p as [a|X s k IH]; intros d H; [by apply HQ|]. simpl in *.
  intros x d' Hs. destruct (H x d' Hs) as (Hi & Hg & Hk). split_and!; [done..|].
  intros d'' Hg' Hi'. by apply IH, Hk.
Qed.

(** A statement followed by anything. *)
Lemma wp_call {X} (s : Stmt X) (Q : X → DB → Prop) d :
  (∀ x d', stmt_step s d x d' → I d' ∧ G d d' ∧ ∀ d'', G d' d'' → I d'' → Q x d'') →
  wp (call s) Q d.
Proof. intros H. exact H. Qed.

Lemma wp_serve {A} (p : Prog A) d : wp p (λ _ _, True) d → wp (serve p) (λ _ _, True) d.
Proof. intros H. by apply wp_bind. Qed.

(** A program that is safe whenever the invariant holds. *)
Definition safe (p : Prog unit) : Prop := ∀ d, I d → wp p (λ _ _, True) d.

Context `{!PreOrder G}.

(** A program in progress that is safe from [d] on. *)
Definition stable (d : DB) (p : Prog unit) : Prop :=
  ∀ d', G d d' → I d' → wp p (λ _ _, True) d'.

Lemma stable_later d d' p : G d d' → stable d p → stable d' p.
Proof. intros Hg Hp d'' Hg'. apply Hp. by etransitivity. Qed.

Lemma stable_safe d p : safe p → stable d p.
Proof using Type. intros Hp d' _. apply Hp. Qed.

(** Its next statement keeps the invariant and the guarantee, and it stays safe. *)
Lemma stable_step {X} (s : Stmt X) k d x d' :
  I d → stable d (Vis s k) → stmt_step s d x d' → I d' ∧ G d d' ∧ stable d' (k x).
Proof. intros Hi Hw Hx. by apply (Hw d (reflexivity d) Hi). Qed.

Lemma pool_invariant (task : Prog unit → Prop) (d0 : DB) (c : pool) :
  (∀ p, task p → safe p) → I d0 → rtc (pool_step task) (d0, []) c → I (fst c) ∧ G d0 (fst c).
Proof.
  intros Hsafe Hi Hr.
  assert (H : ∀ c', rtc (pool_step task) (d0, []) c' →
    I (fst c') ∧ G d0 (fst c') ∧ Forall (stable (fst c')) (snd c')).
  { apply rtc_ind_r; [by repeat split|]. intros c1 c2 _ Hs (H1 & H2 & H3).
    destruct Hs as [X s k x d d' before rest Hx|d ts p Ht]; simpl in *.
    - apply Forall_app in H3 as [Hb Hk]. inversion Hk as [|? ? Hw Hrest]; subst.
      destruct (stable_step _ _ _ _ _ H1 Hw Hx) as (Hi' & Hg & Hnext).
      assert (∀ l, Forall (stable d) l → Forall (stable d') l) as Hkeep.
      { intros l Hl. eapply Forall_impl; [done|]. intros p. by apply stable_later. }
      split_and!; [done|by etransitivity|]. apply Forall_app. auto.
    - split_and!; [done..|]. constructor; [|done]. apply stable_safe. auto. }
  destruct (H c Hr) as (? & ? & _). done.
Qed.

End logic.

(** ** One request interrupted by another

    [p] executes [n] statements, then all of [q] executes, then the rest of [p]. *)
Fixpoint run_with {A B} (e : Env) (n : nat) (p : Prog A) (q : Prog B) (w : World) : A * B * World :=
  match n, p with
  | S n, Vis s k => let '(x, w) := exec e s w in run_with e n (k x) q w
  | _, _ => let '(b, w) := run e q w in let '(a, w) := run e p w in (a, b, w)
  end.

(** A program of one statement. *)
Definition single {A} (p : Prog A) : Prop := ∃ X (s : Stmt X) k, p = Vis s k ∧ ∀ x, ∃ a, k x = Ret a.

Lemma run_with_single {A B C} e n (p : Prog A) (f : A → Prog B) (q : Prog C) w :
  single p → run_with e (S n) (bind p f) q w = let '(a, w) := run e p w in run_with e n (f a) q w.
Proof.
  intros (X & s & k & -> & Hk). simpl. destruct (exec e s w) as [x w']. by destruct (Hk x) as [a ->].
Qed.

Lemma run_with_now {A B} e (p : Prog A) (q : Prog B) w :
  run_with e 0 p q w = let '(b, w) := run e q w in let '(a, w) := run e p w in (a, b, w).
Proof. by destruct p. Qed.
