(* ===== verification/Concurrent.v ===== *)
(** * The relay under any interleaving

    Invariant and guarantee of the three tables, and the proof that every
    request handler and the sweeper keep them statement by statement. *)

From S2P Require Import Prelude GoStrings GoTime Codec Json JsonUtf8 Http Storage Sql SQLite SQLiteRefines.
From S2P Require Import Patterns Replay Crypto Mailbox Pairflow PairflowKeys Sweep Sched.

Local Open Scope Z_scope.

(** ** What single statements do *)

Lemma step_db {X} (s : Stmt X) d x d' (f : DB → X * DB) (fail : string → X) :
  (∀ e w, DriverOK e → exec e s w =
     match env_fault e (w_stmts w) with
     | Some msg => (fail msg, next_stmt w)
     | None => (fst (f (w_db w)), set_db (snd (f (w_db w))) (next_stmt w))
     end) →
  stmt_step s d x d' →
  (x = fst (f d) ∧ d' = snd (f d)) ∨ (d' = d ∧ ∃ msg, x = fail msg ∧ isUniqueViolation msg = false).
Proof.
  intros Hx (e & w & w' & Hd & <- & He & <-). rewrite Hx in He by done.
  destruct (env_fault e (w_stmts w)) as [msg|] eqn:F; injection He as <- <-.
  - right. split; [done|]. exists msg. split; [done|]. by apply (fault_text (w_stmts w)).
  - by left.
Qed.

Lemma sql_exec {X} e w (f : DB → sqlres X * DB) :
  sql e w f = match env_fault e (w_stmts w) with
              | Some msg => (inl msg, next_stmt w)
              | None => (fst (f (w_db w)), set_db (snd (f (w_db w))) (next_stmt w))
              end.
Proof. unfold sql. destruct (env_fault _ _); [done|]. by destruct (f (w_db w)). Qed.

Lemma step_sql {X} (s : Stmt (sqlres X)) (f : DB → sqlres X * DB) d x d' :
  (∀ e w, exec e s w = sql e w f) → stmt_step s d x d' →
  (x = fst (f d) ∧ d' = snd (f d)) ∨ (d' = d ∧ ∃ msg, x = inl msg ∧ isUniqueViolation msg = false).
Proof. intros Hx. apply step_db. intros e w _. by rewrite Hx, sql_exec. Qed.

(** INSERTs depend on the driver's text for violations: one step each. *)
Lemma step_insert {R} (s : Stmt (sqlres unit)) column k (row : R) (t : DB → gmap string R)
    (put : gmap string R → DB → DB) d x d' :
  (∀ e w, exec e s w = sql e w (λ d, insert_row e column k (t d) (λ m, put m d) row d)) →
  stmt_step s d x d' →
  (x = inr tt ∧ t d !! k = None ∧ d' = put (<[k := row]> (t d)) d) ∨
  (d' = d ∧ ∃ msg, x = inl msg ∧ (isUniqueViolation msg = true → is_Some (t d !! k))).
Proof.
  intros Hx (e & w & w' & Hd & <- & He & <-). rewrite Hx, sql_exec in He.
  destruct (env_fault e (w_stmts w)) as [msg|] eqn:F; injection He as <- <-.
  - right. split; [done|]. exists msg. split; [done|]. intros H. by rewrite (fault_text _ _ F) in H.
  - unfold insert_row. destruct (t (w_db w) !! k) eqn:E; simpl; [right|by left].
    split; [done|]. eexists. split; [done|]. by eexists.
Qed.

(** ** The guarantee *)

(** A request only moves from pending to a terminal status. *)
Definition request_moves (r r' : RequestRow) : Prop :=
  r' = r ∨
  (rr_status r = StatusPending ∧ rr_status r' ∈ [StatusApproved; StatusDenied; StatusExpired] ∧
   rr_created_at r' = rr_created_at r ∧ rr_expires_at r' = rr_expires_at r ∧
   rr_requester_json r' = rr_requester_json r ∧ rr_target_nexus_id r' = rr_target_nexus_id r).

Record guarantee (d d' : DB) : Prop := Guarantee {
  g_pairs : ∀ k p, pairs d !! k = Some p → pairs d' !! k = Some p;
  g_requests : ∀ k r, pair_requests d !! k = Some r →
    ∃ r', pair_requests d' !! k = Some r' ∧ request_moves r r'
}.

Lemma pending_not_terminal : StatusPending ∉ [StatusApproved; StatusDenied; StatusExpired].
Proof. by apply (bool_decide_unpack _). Qed.

Lemma request_moves_trans r1 r2 r3 : request_moves r1 r2 → request_moves r2 r3 → request_moves r1 r3.
Proof.
  intros [->|(P1 & S1 & E1)] [->|(P2 & S2 & E2)].
  - by left.
  - by right.
  - by right.
  - rewrite P2 in S1. by apply pending_not_terminal in S1.
Qed.

#[export] Instance guarantee_preorder : PreOrder guarantee.
Proof.
  split.
  - intros d. split; [done|]. intros k r Hr. exists r. split; [done|by left].
  - intros d1 d2 d3 [P1 R1] [P2 R2]. split; [auto|]. intros k r Hr.
    destruct (R1 k r Hr) as (r' & Hr' & M1). destruct (R2 k r' Hr') as (r'' & Hr'' & M2).
    exists r''. split; [done|]. by eapply request_moves_trans.
Qed.

Section invariant.
Context `{Ed : Ed25519}.

(** ** The invariant *)

(** A pair's id is derived from its two well-formed keys. *)
Definition pair_wf (k : string) (p : PairRow) : Prop :=
  ∃ rr ro, key_text (pr_requester_pubkey p) rr ∧ key_text (pr_owner_pubkey p) ro ∧
    k = computePathID rr ro ∧ pr_sig_alg p = "ed25519"%string.

(** A stored requester half was valid and self-signed. *)
Definition requester_wf (json : string) (h : half) : Prop :=
  unmarshalHalf json = Some h ∧
  ∃ raw, half_valid h raw ∧ verifySelfSig (set_pubkeyRaw raw h) = true.

Definition request_wf (ps : gmap string PairRow) (r : RequestRow) : Prop :=
  ∃ h, requester_wf (rr_requester_json r) h ∧
    rr_status r ∈ [StatusPending; StatusApproved; StatusDenied; StatusExpired] ∧
    (rr_status r = StatusPending → rr_path_id r = None ∧ rr_owner_json r = None) ∧
    (rr_status r = StatusApproved → ∃ pathID p, rr_path_id r = Some pathID ∧
       ps !! pathID = Some p ∧ pr_requester_pubkey p = Pubkey h).

(** An envelope belongs to a pair, and its stored body decodes to its two ids. *)
Definition envelope_wf (ps : gmap string PairRow) (k : string) (r : EnvelopeRow) : Prop :=
  is_Some (ps !! er_path_id r) ∧ er_direction r ∈ [AToB; BToA] ∧
  ∃ env, unmarshalOuter (er_outer_json r) = Some env ∧ MsgID env = k ∧ PathID env = er_path_id r.

Record db_inv (d : DB) : Prop := DBInv {
  i_pairs : map_Forall pair_wf (pairs d);
  i_requests : map_Forall (λ _, request_wf (pairs d)) (pair_requests d);
  i_envelopes : map_Forall (envelope_wf (pairs d)) (envelopes d)
}.

Lemma db_inv_empty : db_inv empty_db.
Proof. split; apply map_Forall_empty. Qed.

Lemma request_wf_grow ps ps' r :
  (∀ k p, ps !! k = Some p → ps' !! k = Some p) → request_wf ps r → request_wf ps' r.
Proof.
  intros Hg (h & Hh & Hs & Hp & Ha). exists h. split_and!; [done..|]. intros E.
  destruct (Ha E) as (pid & p & ? & ? & ?). exists pid, p. auto.
Qed.

Lemma envelope_wf_grow ps ps' i r :
  (∀ k p, ps !! k = Some p → ps' !! k = Some p) → envelope_wf ps i r → envelope_wf ps' i r.
Proof. intros Hg [[p Hp] Hd]. split; [|done]. exists p. auto. Qed.

(** *** Changes the handlers make *)

Definition fine (d d' : DB) : Prop := db_inv d' ∧ guarantee d d'.

Lemma fine_refl d : db_inv d → fine d d.
Proof. by split. Qed.

Lemma fine_envelopes d t :
  db_inv d → map_Forall (envelope_wf (pairs d)) t → fine d (set_envelopes t d).
Proof.
  intros [H1 H2 H3] Ht. split; [by split|]. split; [done|]. intros k r Hr. exists r. split; [done|by left].
Qed.

Lemma fine_insert_pair d k p :
  db_inv d → pairs d !! k = None → pair_wf k p → fine d (set_pairs (<[k := p]> (pairs d)) d).
Proof.
  intros [H1 H2 H3] Hk Hp.
  assert (Hg : ∀ k' p', pairs d !! k' = Some p' → <[k := p]> (pairs d) !! k' = Some p').
  { intros k' p' E. rewrite lookup_insert_ne; [done|]. intros ->. congruence. }
  split; split; simpl; try done.
  - by apply map_Forall_insert_2.
  - eapply map_Forall_impl; [done|]. intros ? r. by apply request_wf_grow.
  - eapply map_Forall_impl; [done|]. intros ? r. by apply envelope_wf_grow.
  - intros k' r Hr. exists r. split; [done|by left].
Qed.

Lemma fine_insert_request d k r :
  db_inv d → pair_requests d !! k = None → request_wf (pairs d) r →
  fine d (set_requests (<[k := r]> (pair_requests d)) d).
Proof.
  intros [H1 H2 H3] Hk Hr. split; split; simpl; try done.
  - by apply map_Forall_insert_2.
  - intros k' r' E. exists r'. split; [|by left]. rewrite lookup_insert_ne; [done|]. intros ->. congruence.
Qed.

Lemma fine_map_requests d (f : RequestRow → RequestRow) :
  db_inv d → (∀ r, request_moves r (f r)) → (∀ r, request_wf (pairs d) r → request_wf (pairs d) (f r)) →
  fine d (set_requests (f <$> pair_requests d) d).
Proof.
  intros [H1 H2 H3] Hm Hw. split; split; simpl; try done.
  - intros k r E. rewrite lookup_fmap in E. destruct (pair_requests d !! k) as [r0|] eqn:E0; [|done].
    injection E as <-. apply Hw. by apply (H2 k).
  - intros k r E. exists (f r). split; [by rewrite lookup_fmap, E|done].
Qed.

(** ** The storage methods *)

(** Safe runs of programs under the invariant and the guarantee. *)
Abbreviation runs := (wp db_inv guarantee).

(** What the environment may have made of [d]. *)
Definition later (d d' : DB) : Prop := guarantee d d' ∧ db_inv d'.

Lemma later_fine d d' d'' : fine d d' → later d' d'' → later d d''.
Proof. intros [_ H1] [H2 Hi]. split; [by etransitivity|done]. Qed.

Lemma later_trans d d' d'' : later d d' → later d' d'' → later d d''.
Proof. intros [H1 _] [H2 Hi]. split; [by etransitivity|done]. Qed.

Lemma runs_call {X} (s : Stmt X) (Q : X → DB → Prop) d :
  (∀ x d', stmt_step s d x d' → fine d d' ∧ ∀ d'', later d' d'' → Q x d'') → runs (call s) Q d.
Proof.
  intros H. apply wp_call. intros x d' Hs. destruct (H x d' Hs) as [[Hi Hg] Hq].
  split_and!; [done..|]. intros d'' Hg' Hi'. by apply Hq.
Qed.

(** Statements that change nothing. *)
Lemma runs_select {X} (s : Stmt (sqlres X)) (f : DB → X) (Q : sqlres X → DB → Prop) d :
  (∀ e w, exec e s w = sql e w (λ d, (inr (f d), d))) →
  db_inv d →
  (∀ d' msg, later d d' → Q (inl msg) d') → (∀ d', later d d' → Q (inr (f d)) d') →
  runs (call s) Q d.
Proof.
  intros Hx Hi Hl Hr. apply runs_call. intros x d' Hs.
  apply (step_sql s _ _ _ _ Hx) in Hs as [[-> ->]|[-> (msg & -> & _)]];
    (split; [by apply fine_refl|]); auto.
Qed.

Lemma runs_now Q d : db_inv d → (∀ t d', later d d' → Q t d') → runs (call Now) Q d.
Proof.
  intros Hi HQ. apply runs_call. intros x d' (e & w & w' & _ & <- & He & <-). injection He as <- <-.
  split; [by apply fine_refl|]. auto.
Qed.

Lemma runs_genID Q d : db_inv d → (∀ t d', later d d' → Q t d') → runs (call GenID) Q d.
Proof.
  intros Hi HQ. apply runs_call. intros x d' (e & w & w' & _ & <- & He & <-). injection He as <- <-.
  split; [by apply fine_refl|]. auto.
Qed.

Lemma runs_GetPair k Q d :
  db_inv d →
  (∀ r d', later d d' → (∀ p, r = Ok p → ∃ row, pairs d' !! k = Some row ∧ scanPair k row = Ok p) → Q r d') →
  runs (sqlite_GetPair k) Q d.
Proof.
  intros Hi HQ. apply wp_bind. apply (runs_select _ (λ d, pairs d !! k)); [done|done| |].
  - intros d' msg Hl. apply HQ; done.
  - intros d' Hl. destruct (pairs d !! k) as [row|] eqn:E; apply HQ; try done.
    intros p Hp. exists row. split; [|done]. by apply (g_pairs _ _ (proj1 Hl)).
Qed.

Lemma runs_GetPairRequest k Q d :
  db_inv d →
  (∀ r d', later d d' →
    (∀ q, r = Ok q → ∃ row row', pair_requests d' !! k = Some row' ∧ request_moves row row' ∧
       request_wf (pairs d') row ∧ scanPairRequest (k, row) = Ok q) → Q r d') →
  runs (sqlite_GetPairRequest k) Q d.
Proof.
  intros Hi HQ. apply wp_bind. apply (runs_select _ (λ d, pair_requests d !! k)); [done|done| |].
  - intros d' msg Hl. apply HQ; done.
  - intros d' Hl. destruct (pair_requests d !! k) as [row|] eqn:E; apply HQ; try done.
    intros q Hq. destruct Hl as [Hg Hi']. destruct (g_requests _ _ Hg _ _ E) as (row' & E' & Hm).
    exists row, row'. split_and!; try done.
    eapply request_wf_grow; [apply (g_pairs _ _ Hg)|]. by apply (i_requests _ Hi k).
Qed.

Lemma runs_ListEnvelopes p dir since Q d :
  db_inv d → (∀ r d', later d d' → Q r d') → runs (sqlite_ListEnvelopes p dir since) Q d.
Proof.
  intros Hi HQ. apply wp_bind.
  apply (runs_select _ (select_envelopes p dir since listLimit)); [done|done| |]; intros; by apply HQ.
Qed.

Lemma runs_ListPending Q d :
  db_inv d → (∀ r d', later d d' → Q r d') → runs sqlite_ListPendingPairRequests Q d.
Proof.
  intros Hi HQ. apply wp_bind.
  apply (runs_select _ (select_by_status StatusPending)); [done|done| |]; intros; by apply HQ.
Qed.

Lemma map_Forall_filter_rows {R} (P : string → R → Prop) (q : string * R → Prop) `{!∀ x, Decision (q x)} (m : gmap string R) :
  map_Forall P m → map_Forall P (filter q m).
Proof. intros HP k r Hr. apply map_lookup_filter_Some in Hr as [Hr _]. by apply (HP k). Qed.

Lemma runs_DeleteByMsgID p ids Q d :
  db_inv d → (∀ r d', later d d' → Q r d') → runs (sqlite_DeleteEnvelopesByMsgID p ids) Q d.
Proof.
  intros Hi HQ. destruct ids as [|i ids]; [apply HQ; split; [reflexivity|done]|].
  apply wp_bind, runs_call. intros x d' Hs.
  apply (step_sql _ (λ d, let '(n, d) := delete_envelopes p (i :: ids) d in (inr n, d))) in Hs; [|done].
  destruct Hs as [[-> ->]|[-> (msg & -> & _)]].
  - assert (Hf : fine d (snd (delete_envelopes p (i :: ids) d))).
    { apply fine_envelopes; [done|]. apply map_Forall_filter_rows, Hi. }
    split; [done|]. intros d' Hl. apply HQ. by apply (later_fine _ _ _ Hf).
  - split; [by apply fine_refl|]. intros. by apply HQ.
Qed.

Lemma runs_DeleteOlderThan c Q d :
  db_inv d → (∀ r d', later d d' → Q r d') → runs (sqlite_DeleteEnvelopesOlderThan c) Q d.
Proof.
  intros Hi HQ. apply wp_bind, runs_call. intros x d' Hs.
  apply (step_sql _ (λ d, let '(n, d) := delete_older (formatTime c) d in (inr n, d))) in Hs; [|done].
  destruct Hs as [[-> ->]|[-> (msg & -> & _)]].
  - assert (Hf : fine d (snd (delete_older (formatTime c) d))).
    { apply fine_envelopes; [done|]. apply map_Forall_filter_rows, Hi. }
    split; [done|]. intros d' Hl. apply HQ. by apply (later_fine _ _ _ Hf).
  - split; [by apply fine_refl|]. intros. by apply HQ.
Qed.

(** A resolved row: what a transition to [to] makes of a pending one. *)
Lemma with_status_wf ps to owner path r :
  request_wf ps r → rr_status r = StatusPending → to ∈ [StatusDenied; StatusExpired] →
  request_wf ps (with_status to owner path r).
Proof.
  intros (h & Hh & _) Hp Hto. exists h. split; [done|]. simpl. split_and!.
  - by right; right.
  - intros ->. rewrite !elem_of_cons, elem_of_nil in Hto. by destruct Hto as [|[|]].
  - intros ->. rewrite !elem_of_cons, elem_of_nil in Hto. by destruct Hto as [|[|]].
Qed.

Lemma with_status_moves to owner path r :
  rr_status r = StatusPending → to ∈ [StatusApproved; StatusDenied; StatusExpired] →
  request_moves r (with_status to owner path r).
Proof. intros Hp Hto. by right. Qed.

Lemma runs_ExpirePending c Q d :
  db_inv d → (∀ r d', later d d' → Q r d') → runs (sqlite_ExpirePendingRequests c) Q d.
Proof.
  intros Hi HQ. apply wp_bind, runs_call. intros x d' Hs.
  apply (step_sql _ (λ d, let '(n, d) := expire StatusExpired StatusPending (formatTime c) d in (inr n, d))) in Hs;
    [|done].
  destruct Hs as [[-> ->]|[-> (msg & -> & _)]].
  - assert (Hf : fine d (snd (expire StatusExpired StatusPending (formatTime c) d))).
    { apply fine_map_requests; [done|..]; intros r; unfold expire_row; destruct (decide _) as [[Hp _]|_].
      - apply with_status_moves; [done|]. mem.
      - by left.
      - intros Hr. apply with_status_wf; [done..|]. right. by left.
      - done. }
    split; [done|]. intros d' Hl. apply HQ. by apply (later_fine _ _ _ Hf).
  - split; [by apply fine_refl|]. intros. by apply HQ.
Qed.

(** An INSERT that keeps the invariant. *)
Lemma runs_insert {R} (s : Stmt (sqlres unit)) column k (row : R) (t : DB → gmap string R)
    (put : gmap string R → DB → DB) context (Q : option error → DB → Prop) d :
  (∀ e w, exec e s w = sql e w (λ d, insert_row e column k (t d) (λ m, put m d) row d)) →
  db_inv d →
  (t d !! k = None → fine d (put (<[k := row]> (t d)) d)) →
  (∀ r d1 d', later d1 d' → later d d' →
    (r = None → d1 = put (<[k := row]> (t d)) d) → (r = Some ErrDuplicate → d1 = d ∧ is_Some (t d !! k)) → Q r d') →
  runs (let! r := call s in Ret (insert_result context r)) Q d.
Proof.
  intros Hx Hi Hput HQ. apply wp_bind, runs_call. intros x d' Hs.
  apply (step_insert s column k row t put d x d' Hx) in Hs.
  destruct Hs as [(-> & Hk & ->)|[-> (msg & -> & Hu)]].
  - split; [by apply Hput|]. intros d' Hl.
    apply (HQ None _ d' Hl); [by apply (later_fine _ _ _ (Hput Hk))|done|done].
  - split; [by apply fine_refl|]. intros d' Hl. simpl.
    destruct (isUniqueViolation msg) eqn:E; eapply (HQ _ d d'); try done. intros _. auto.
Qed.

Lemma runs_InsertEnvelope x Q d :
  db_inv d → is_Some (pairs d !! e_PathID x) → e_Direction x ∈ [AToB; BToA] →
  (∃ env, unmarshalOuter (e_OuterJSON x) = Some env ∧ MsgID env = e_MsgID x ∧ PathID env = e_PathID x) →
  (∀ r d', later d d' → Q r d') → runs (sqlite_InsertEnvelope x) Q d.
Proof.
  intros Hi Hp Hdir Hbody HQ.
  eapply (runs_insert _ "envelopes.msg_id" _ _ envelopes (λ m d, set_envelopes m d)); [done|done| |].
  - intros _. apply fine_envelopes; [done|]. by apply map_Forall_insert_2; [|apply Hi].
  - intros. by apply HQ.
Qed.

Lemma runs_InsertPairRequest x h raw Q d :
  db_inv d → r_Status x = StatusPending → r_PathID x = ""%string → r_OwnerJSON x = ""%string →
  unmarshalHalf (r_RequesterJSON x) = Some h → half_valid h raw → verifySelfSig (set_pubkeyRaw raw h) = true →
  (∀ r d', later d d' → Q r d') → runs (sqlite_InsertPairRequest x) Q d.
Proof.
  intros Hi Hs Hp Ho Hh Hv Hsig HQ.
  eapply (runs_insert _ "pair_requests.request_id" _ _ pair_requests (λ m d, set_requests m d)); [done|done| |].
  - intros Hk. apply fine_insert_request; [done..|]. exists h. simpl. rewrite Hs, Hp, Ho.
    split_and!; [split; [done|by exists raw]|by left|done|done].
  - intros. by apply HQ.
Qed.

Lemma runs_InsertPair x rr ro Q d :
  db_inv d → key_text (p_RequesterPubkey x) rr → key_text (p_OwnerPubkey x) ro →
  p_PathID x = computePathID rr ro → p_SigAlg x = "ed25519"%string →
  (∀ r d', later d d' →
    (r = None → ∃ row, pairs d' !! p_PathID x = Some row ∧ pr_requester_pubkey row = p_RequesterPubkey x) →
    Q r d') →
  runs (sqlite_InsertPair x) Q d.
Proof.
  intros Hi Hr Ho Hk Ha HQ.
  eapply (runs_insert _ "pairs.path_id" _ _ pairs (λ m d, set_pairs m d)); [done|done| |].
  - intros Hn. apply fine_insert_pair; [done..|]. exists rr, ro. by split_and!.
  - intros r d1 d' Hl1 Hl H1 _. apply HQ; [done|]. intros E. specialize (H1 E). subst d1.
    eexists. split; [apply (g_pairs _ _ (proj1 Hl1)); simpl; by rewrite lookup_insert_eq|done].
Qed.

(** The transition of one row keeps everything when the row may take it. *)
Lemma fine_update d to owner path id :
  db_inv d → to ∈ [StatusApproved; StatusDenied] →
  (to = StatusApproved → ∀ r, pair_requests d !! id = Some r → rr_status r = StatusPending →
     ∃ pathID p h, path = Some pathID ∧ pairs d !! pathID = Some p ∧
       unmarshalHalf (rr_requester_json r) = Some h ∧ pr_requester_pubkey p = Pubkey h) →
  fine d (snd (update_status to owner path id StatusPending d)).
Proof.
  intros Hi Hto Ha. unfold update_status.
  destruct (pair_requests d !! id) as [r|] eqn:E; [|by apply fine_refl].
  destruct (decide (rr_status r = StatusPending)) as [Hp|]; [|by apply fine_refl]. simpl.
  pose proof (i_requests _ Hi id r E) as Hw. destruct Hi as [H1 H2 H3].
  split; split; simpl; try done.
  - apply map_Forall_insert_2; [|done]. rewrite !elem_of_cons, elem_of_nil in Hto.
    destruct Hto as [->|[->|[]]].
    + destruct (Ha eq_refl r eq_refl Hp) as (pathID & p & h & -> & Hpair & Hh & Hk).
      destruct Hw as (h' & [Hh' Hv] & _). exists h'. split; [by split|]. simpl.
      split_and!; [right; by left|done|]. intros _. exists pathID, p. split_and!; [done..|]. congruence.
    + apply with_status_wf; [done..|by left].
  - intros k r' E'. destruct (decide (k = id)) as [->|Hne].
    + rewrite lookup_insert_eq. eexists. split; [done|]. simplify_eq. apply with_status_moves; [done|].
      rewrite !elem_of_cons, elem_of_nil in Hto. by destruct Hto as [->|[->|[]]]; mem.
    + rewrite lookup_insert_ne by done. exists r'. split; [done|by left].
Qed.

Lemma runs_UpdateStatus id to ownerJSON pathID Q d :
  db_inv d → to ∈ [StatusApproved; StatusDenied] →
  (to = StatusApproved → ∀ r, pair_requests d !! id = Some r → rr_status r = StatusPending →
     pathID ≠ ""%string ∧ ∃ p h, pairs d !! pathID = Some p ∧
       unmarshalHalf (rr_requester_json r) = Some h ∧ pr_requester_pubkey p = Pubkey h) →
  (∀ r d', later d d' → Q r d') → runs (sqlite_UpdatePairRequestStatus id to ownerJSON pathID) Q d.
Proof.
  intros Hi Hto Ha HQ. unfold sqlite_UpdatePairRequestStatus. apply wp_bind, runs_call. intros x d' Hs.
  apply (step_sql _ (λ d, let '(n, d) := update_status to (nullable ownerJSON) (nullable pathID) id
    StatusPending d in (inr n, d))) in Hs; [|done].
  assert (Hf : fine d (snd (update_status to (nullable ownerJSON) (nullable pathID) id StatusPending d))).
  { apply fine_update; [done..|]. intros E r Er Hp. destruct (Ha E r Er Hp) as (Hne & p & h & ?).
    exists pathID, p, h. split; [|done]. unfold nullable. by rewrite (proj2 (String.eqb_neq _ _) Hne). }
  assert (Hk : ∀ n d2, later d d2 → runs (if (n : Z) =? 0 then
      let! r := sqlite_GetPairRequest id in
      match r with
      | Err lookupErr => Ret (Some lookupErr)
      | Ok r =>
          if String.eqb (r_Status r) to then Ret None
          else if negb (String.eqb (r_Status r) StatusPending) then Ret (Some ErrConflict)
          else Ret (Some (ErrOther "storage: update pair status: row exists but no rows affected"))
      end
    else Ret None) Q d2).
  { intros n d2 Hl. destruct (n =? 0); [|by apply HQ]. apply wp_bind, runs_GetPairRequest; [apply Hl|].
    intros r d3 Hl' _. pose proof (later_trans _ _ _ Hl Hl').
    destruct r as [q|err]; [|by apply HQ]. destruct (String.eqb (r_Status q) to); [by apply HQ|].
    destruct (negb _); by apply HQ. }
  destruct Hs as [[-> ->]|[-> (msg & -> & _)]].
  - destruct (update_status to _ _ id StatusPending d) as [n d1]. simpl in Hf |- *.
    split; [done|]. intros d2 Hl. apply Hk. by apply (later_fine _ _ _ Hf).
  - split; [by apply fine_refl|]. intros d2 Hl. by apply HQ.
Qed.

(** ** The handlers *)

Abbreviation top := (λ _ _, True).

(** Programs that only answer. *)
Lemma runs_ret (r : Response) d : runs (Ret r) top d.
Proof. done. Qed.

Lemma later_refl d : db_inv d → later d d.
Proof. by split. Qed.

(** Directions PUT assigns. *)
Lemma directionFrom_in paired pk :
  directionFrom paired pk ≠ ""%string → directionFrom paired pk ∈ [AToB; BToA].
Proof.
  unfold directionFrom. destruct (String.eqb _ _); [by left|]. destruct (String.eqb _ _); [right; by left|done].
Qed.

Ltac identify who :=
  cbv zeta; match goal with |- context [Identify ?p ?a ?b] => destruct (Identify p a b) as [who|] end.

Lemma runs_put `{V : Verifier} r pathID d : db_inv d → runs (put r pathID) top d.
Proof.
  intros Hi. apply wp_bind, runs_GetPair; [done|]. intros found d1 H1 Hp.
  destruct found as [paired|err]; [|by destruct err].
  destruct (Hp paired eq_refl) as (row & Hrow & _).
  destruct (ReadAllLimited r _); [|done]. destruct (unmarshalOuter _) as [env|] eqn:Henv; [|done].
  destruct (negb (validEnvelopeSchema _)); [done|]. destruct (String.eqb_spec (PathID env) pathID) as [Hpath|]; [|done].
  cbn [negb]. destruct (negb (uuidv7Regex _)); [done|]. apply wp_bind, runs_now; [apply H1|]. intros now d2 H2.
  destruct (negb (tsInWindow _ _)); [done|]. destruct (decodeB64URL _); [|done].
  destruct (negb (String.eqb _ _)); [done|]. identify sender; [|done].
  destruct (String.eqb sender ""); [done|].
  destruct (String.eqb_spec (directionFrom paired sender) "") as [|Hd]; [done|].
  apply wp_bind, runs_now; [apply H2|]. intros received d3 H3. apply wp_bind, runs_InsertEnvelope.
  - apply H3.
  - exists row. apply (g_pairs _ _ (proj1 H3)), (g_pairs _ _ (proj1 H2)). done.
  - by apply directionFrom_in.
  - by exists env.
  - intros err d4 _. by destruct err as [[]|].
Qed.

Lemma runs_get `{V : Verifier} r pathID d : db_inv d → runs (get r pathID) top d.
Proof.
  intros Hi. apply wp_bind, runs_GetPair; [done|]. intros found d1 H1 _.
  destruct found as [paired|err]; [|by destruct err].
  identify caller; [|done]. destruct (String.eqb caller ""); [done|].
  destruct (negb _ && negb _); [done|]. destruct (String.eqb _ _); [done|].
  apply wp_bind, runs_ListEnvelopes; [apply H1|]. intros l d2 _. by destruct l.
Qed.

Lemma runs_ack `{V : Verifier} r pathID d : db_inv d → runs (ack r pathID) top d.
Proof.
  intros Hi. apply wp_bind, runs_GetPair; [done|]. intros found d1 H1 _.
  destruct found as [paired|err]; [|by destruct err].
  identify caller; [|done]. destruct (String.eqb caller ""); [done|].
  destruct (ReadAllLimited r _); [|done]. destruct (unmarshalIDs _) as [ids|]; [|done].
  destruct (_ =? 0); [done|]. destruct (maxAckBatch <? _); [done|]. destruct (String.eqb _ _); [done|].
  apply wp_bind, runs_ListEnvelopes; [apply H1|]. intros l d2 H2. destruct l; [|done].
  apply wp_bind, runs_DeleteByMsgID; [apply H2|]. intros n d3 _. by destruct n.
Qed.

Lemma runs_mailbox `{V : Verifier} r d : db_inv d → runs (Mailbox.dispatch r) top d.
Proof.
  intros Hi. unfold Mailbox.dispatch. destruct (String.eqb _ _); [done|].
  destruct (Split _ _) as [|pathID rest]; [done|]. destruct (String.eqb _ _); [done|].
  destruct (negb _); [done|]. destruct rest as [|verb [|? ?]]; [| |done].
  - destruct (String.eqb _ MethodPut); [by apply runs_put|].
    destruct (String.eqb _ MethodGet); [by apply runs_get|done].
  - destruct (_ && _); [by apply runs_ack|done].
Qed.

Lemma runs_createRequest r d : db_inv d → runs (createRequest r) top d.
Proof.
  intros Hi. unfold createRequest. destruct (ReadAllLimited r _) as [raw|]; [|done].
  destruct (unmarshalCreate raw) as [body|] eqn:Hb; [|done]. destruct (isEmpty _); [done|].
  destruct (256 <? _); [done|]. destruct (parseHalf (Requester body)) as [parsed|] eqn:Hp; [|done].
  apply wp_bind, runs_now; [done|]. intros now d1 H1. destruct (negb _); [done|].
  destruct (verifySelfSig parsed) eqn:Hv; cbn [negb]; [|done].
  apply wp_bind, runs_genID; [apply H1|]. intros id d2 H2.
  apply wp_bind, runs_now; [apply H2|]. intros now' d3 H3.
  pose proof (unmarshalCreate_utf8 _ _ Hb) as Hu. pose proof (parseHalf_utf8 _ _ Hu Hp) as Hu'.
  destruct (parseHalf_valid _ _ Hp) as (key & Hvalid & ->).
  apply wp_bind, (runs_InsertPairRequest _ (set_pubkeyRaw "" (set_pubkeyRaw key (Requester body))) key); try done.
  - apply H3.
  - by apply unmarshal_serialize.
  - by do 2 apply half_valid_raw.
  - intros err d4 _. by destruct err as [[]|].
Qed.

Lemma runs_getRequestStatus id d : db_inv d → runs (getRequestStatus id) top d.
Proof.
  intros Hi. unfold getRequestStatus. destruct (negb _); [done|].
  apply wp_bind, runs_GetPairRequest; [done|]. intros q d1 _ _. destruct q as [|err]; [done|by destruct err].
Qed.

Lemma runs_listPending r d : db_inv d → runs (listPending r) top d.
Proof.
  intros Hi. unfold listPending. destruct (negb _); [done|].
  apply wp_bind, runs_ListPending; [done|]. intros l d1 _. by destruct l.
Qed.

Lemma runs_deny id d : db_inv d → runs (deny id) top d.
Proof.
  intros Hi. unfold deny. destruct (negb _); [done|].
  apply wp_bind, runs_UpdateStatus; [done|by right; left|done|]. intros err d1 _. by destruct err as [[]|].
Qed.

Lemma request_moves_json r r' : request_moves r r' → rr_requester_json r' = rr_requester_json r.
Proof. by intros [->|(_ & _ & _ & _ & ? & _)]. Qed.

(** The stored half of a request never changes. *)
Definition requester_fixed (id : string) (h : half) (d : DB) : Prop :=
  ∃ r, pair_requests d !! id = Some r ∧ unmarshalHalf (rr_requester_json r) = Some h.

Lemma requester_fixed_later id h d d' : later d d' → requester_fixed id h d → requester_fixed id h d'.
Proof.
  intros [Hg _] (r & Hr & Hh). destruct (g_requests _ _ Hg _ _ Hr) as (r' & Hr' & Hm).
  exists r'. split; [done|]. by rewrite (request_moves_json _ _ Hm).
Qed.

Lemma scanPair_requester k row p : scanPair k row = Ok p → p_RequesterPubkey p = pr_requester_pubkey row.
Proof. unfold scanPair. destruct (parseTime _); [|done]. by intros [= <-]. Qed.

Lemma scanPairRequest_json k row q : scanPairRequest (k, row) = Ok q → r_RequesterJSON q = rr_requester_json row.
Proof. simpl. destruct (parseTime _); [|done]. destruct (parseTime _); [|done]. by intros [= <-]. Qed.

(** An approval's UPDATE, once the pair is there. *)
Lemma runs_mark_approved id ownerJSON pathID h row (Q : option error → DB → Prop) d :
  db_inv d → requester_fixed id h d → pathID ≠ ""%string → pairs d !! pathID = Some row →
  pr_requester_pubkey row = Pubkey h →
  (∀ err d', Q err d') →
  runs (sqlite_UpdatePairRequestStatus id StatusApproved ownerJSON pathID) Q d.
Proof.
  intros Hi (r & Hr & Hh) Hne Hrow Hk HQ. apply runs_UpdateStatus; [done|by left| |auto].
  intros _ r' Hr' _. simplify_eq. split; [done|]. by exists row, h.
Qed.

Lemma computePathID_nonempty a b : computePathID a b ≠ ""%string.
Proof. rewrite computePathID_ordered. done. Qed.

Lemma runs_approveInsert id raw h rr owner ro d :
  db_inv d → requester_fixed id h d →
  half_valid h rr → half_valid owner ro → pubkeyRaw owner = ro →
  runs (approveInsert id raw (set_pubkeyRaw rr h) owner) top d.
Proof.
  intros Hi Hfix Hh Ho Er. unfold approveInsert. cbv zeta. apply wp_bind, runs_now; [done|]. intros now d1 H1.
  set (pathID := computePathID _ _). pose proof (computePathID_nonempty rr ro) as Hne.
  assert (Hp : pathID = computePathID rr ro) by (unfold pathID; by rewrite Er). rewrite <- Hp in Hne.
  pose proof (requester_fixed_later _ _ _ _ H1 Hfix) as Hfix1.
  apply wp_bind, (runs_InsertPair _ rr ro); try done; [apply H1|apply Hh|apply Ho|apply Hh|].
  intros err d2 H2 Hnone. pose proof (requester_fixed_later _ _ _ _ H2 Hfix1) as Hfix2.
  destruct err as [[]|]; try done.
  - (* the pair was there *)
    apply wp_bind, runs_GetPair; [apply H2|]. intros existing d3 H3 Hex.
    pose proof (requester_fixed_later _ _ _ _ H3 Hfix2) as Hfix3.
    destruct existing as [existing|]; [|done].
    destruct (String.eqb_spec (p_RequesterPubkey existing) (Pubkey (set_pubkeyRaw rr h))) as [Ek|]; [|done].
    destruct (String.eqb _ _); [|done]. cbn [andb].
    destruct (Hex existing eq_refl) as (row & Hrow & Hscan). apply scanPair_requester in Hscan.
    apply wp_bind, (runs_mark_approved _ _ _ h row); try done; [apply H3|]. simpl in Ek. congruence.
  - destruct (Hnone eq_refl) as (row & Hrow & Hk).
    apply wp_bind, (runs_mark_approved _ _ _ h row); try done; [apply H2|]. intros err d3. by destruct err as [[]|].
Qed.

Lemma runs_approveResolved id body req d : db_inv d → runs (approveResolved id body req) top d.
Proof.
  intros Hi. unfold approveResolved. cbv zeta. destruct (_ && _); [|done]. destruct (parseHalf body) as [owner|]; [|done].
  destruct (verifySelfSig owner); [|done]. apply wp_bind, runs_GetPair; [done|]. intros p d1 _ _.
  destruct p; [|done]. by destruct (String.eqb _ _).
Qed.

Lemma runs_approve r id d : db_inv d → runs (approve r id) top d.
Proof.
  intros Hi. unfold approve, approvePending. destruct (negb (uuidRegex id)); [done|].
  destruct (ReadAllLimited r _) as [raw|]; [|done]. destruct (unmarshalApprove raw) as [body|]; [|done].
  apply wp_bind, runs_GetPairRequest; [done|]. intros q d1 H1 Hq. destruct q as [req|err]; [|by destruct err].
  destruct (Hq req eq_refl) as (row & row' & Hrow & Hmove & (h & [Hh (rr & Hv & _)] & _) & Hscan).
  destruct (negb (String.eqb _ _)); [apply runs_approveResolved, H1|].
  rewrite (scanPairRequest_json _ _ _ Hscan), Hh.
  destruct (parseHalf body) as [owner|] eqn:Hp; [|done]. destruct (negb (String.eqb _ _)); [done|].
  apply wp_bind, runs_now; [apply H1|]. intros now d2 H2. destruct (negb _); [done|]. destruct (negb _); [done|].
  destruct (parseHalf_valid _ _ Hp) as (ro & Hvo & ->). destruct (v_Pubkey _ _ Hv) as [Hd _]. rewrite Hd. change (default ""%string (Some rr)) with rr.
  apply (runs_approveInsert _ _ h rr _ ro); [apply H2| |done|by apply half_valid_raw|done].
  apply (requester_fixed_later _ _ _ _ H2). exists row'. split; [done|].
  by rewrite (request_moves_json _ _ Hmove).
Qed.

Lemma runs_public r d : db_inv d → runs (dispatchPublic r) top d.
Proof.
  intros Hi. unfold dispatchPublic. apply wp_bind, runs_now; [done|]. intros now d1 H1.
  apply wp_bind, runs_ExpirePending; [apply H1|]. intros n d2 [_ H2]. cbv zeta.
  destruct (String.eqb _ _); [done|]. destruct (Split _ _) as [|p [|id [|? ?]]]; try done.
  - destruct (_ && _); [by apply runs_createRequest|done].
  - destruct (_ && _); [by apply runs_getRequestStatus|done].
Qed.

Lemma runs_owner secret r d : db_inv d → runs (dispatchOwner secret r) top d.
Proof.
  intros Hi. unfold dispatchOwner. destruct (negb _); [done|]. apply wp_bind, runs_now; [done|]. intros now d1 H1.
  apply wp_bind, runs_ExpirePending; [apply H1|]. intros n d2 [_ H2]. cbv zeta.
  destruct (String.eqb _ _); [done|]. destruct (Split _ _) as [|p [|id [|verb [|? ?]]]]; try done.
  - destruct (_ && _); [by apply runs_listPending|done].
  - destruct (_ && _); [|done]. destruct (String.eqb verb "approve"); [by apply runs_approve|].
    destruct (String.eqb verb "deny"); [by apply runs_deny|done].
Qed.

Lemma runs_Once isCanceled c d : db_inv d → runs (Once isCanceled c) top d.
Proof.
  intros Hi. unfold Once. apply wp_bind, runs_now; [done|]. intros now d1 H1.
  apply wp_bind, runs_DeleteOlderThan; [apply H1|]. intros r1 d2 H2. destruct (sweep_result _ _ r1).
  apply wp_bind, runs_ExpirePending; [apply H2|]. intros r2 d3 _. by destruct (sweep_result _ _ r2).
Qed.

(** ** The relay *)

(** What goroutines run: a request to one of the three muxes, or a sweep. *)
Inductive relay_task `{V : Verifier} : Prog unit → Prop :=
| TaskMailbox r : relay_task (serve (Mailbox.dispatch r))
| TaskPublic r : relay_task (serve (dispatchPublic r))
| TaskOwner secret r : relay_task (serve (dispatchOwner secret r))
| TaskSweep isCanceled c : relay_task (serve (Once isCanceled c)).

Lemma relay_safe `{V : Verifier} p : relay_task p → safe db_inv guarantee p.
Proof.
  intros [r|r|secret r|isCanceled c] d Hi; apply wp_serve.
  - by apply runs_mailbox.
  - by apply runs_public.
  - by apply runs_owner.
  - by apply runs_Once.
Qed.

(** Databases the relay reaches from [d0]. *)
Definition reaches `{V : Verifier} (d0 : DB) (c : pool) : Prop := rtc (pool_step relay_task) (d0, []) c.

Lemma reaches_inv `{V : Verifier} d0 c :
  db_inv d0 → reaches d0 c → db_inv (fst c) ∧ guarantee d0 (fst c).
Proof. intros Hi Hr. eapply pool_invariant; [apply _|apply relay_safe|done|exact Hr]. Qed.
End invariant.
