(* ===== verification/Inbox.v ===== *)
(** * Inboxes

    Order, paging and growth of the lists [ListEnvelopes] answers with. *)

From S2P Require Import Prelude GoStrings GoTime Storage Sql StoreSpec.

Local Open Scope Z_scope.

(** The rows of an inbox, with their ids. *)
Definition rows (path_id : string) (dir : Direction) (since : string) (s : Store) : list (string * Envelope) :=
  sort_by fst (filter (addressed path_id dir since) (map_to_list (s_envelopes s))).

(** Envelopes are stored under their own id. *)
Definition store_keys (s : Store) : Prop := ∀ k v, s_envelopes s !! k = Some v → e_MsgID v = k.

Lemma inbox_rows p d since s : inbox p d since s = snd <$> rows p d since s.
Proof. done. Qed.

Lemma filter_all {A} (P : A → Prop) `{!∀ x, Decision (P x)} l : Forall P l → filter P l = l.
Proof. induction 1 as [|x l Hx _ IH]; [done|]. rewrite filter_cons_True by done. by rewrite IH. Qed.

Section sorted.
Context {A : Type}.
Implicit Types (l : list (string * A)).

Definition before (a b : string * A) : Prop := row_le fst a b.

Lemma before_iff a b : before a b ↔ str_ltb (fst a) (fst b) = true ∨ fst a = fst b.
Proof.
  unfold before, row_le. split; [intros [?|[? _]]; auto|].
  intros [?|E]; [by left|right]. split; [done|]. by rewrite E.
Qed.

Lemma before_not a b : before a b → str_ltb (fst b) (fst a) = false.
Proof.
  rewrite before_iff. intros [H|E]; [|by rewrite E, str_ltb_irrefl].
  destruct (str_ltb (fst b) (fst a)) eqn:E; [|done].
  pose proof (str_ltb_trans _ _ _ H E) as E'. by rewrite str_ltb_irrefl in E'.
Qed.

(** Two lists sorted by id with the same rows are the same, when ids differ. *)
Lemma sorted_unique l1 l2 :
  NoDup (fst <$> l1) → l1 ≡ₚ l2 → StronglySorted before l1 → StronglySorted before l2 → l1 = l2.
Proof.
  intros Hn Hp H1 H2. apply (StronglySorted_unique_strong before); [|done..].
  intros x y Hx Hy Hxy Hyx. rewrite <- Hp in Hy.
  assert (E : fst x = fst y) by (by apply (row_le_anti fst)).
  apply list_elem_of_lookup_1 in Hx as [i Hi]. apply list_elem_of_lookup_1 in Hy as [j Hj].
  assert (i = j) as ->; [|congruence].
  eapply (NoDup_lookup (fst <$> l1)); [done|by rewrite list_lookup_fmap, Hi|].
  by rewrite list_lookup_fmap, Hj, E.
Qed.

Lemma sort_sorted l : StronglySorted before (sort_by fst l).
Proof. apply StronglySorted_merge_sort; apply _. Qed.

Lemma sort_perm l : sort_by fst l ≡ₚ l.
Proof. apply merge_sort_Permutation. Qed.

Lemma sort_nodup l : NoDup (fst <$> l) → NoDup (fst <$> sort_by fst l).
Proof. intros H. by rewrite sort_perm. Qed.

Lemma sorted_filter (P : string * A → Prop) `{!∀ x, Decision (P x)} l :
  StronglySorted before l → StronglySorted before (filter P l).
Proof.
  induction 1 as [|x l Hl IH Hall]; [constructor|]. rewrite filter_cons. destruct (decide (P x)); [|done].
  constructor; [done|]. rewrite Forall_forall in Hall |- *. intros y Hy. apply Hall.
  by apply list_elem_of_filter in Hy as [_ ?].
Qed.

Lemma nodup_fst_filter (P : string * A → Prop) `{!∀ x, Decision (P x)} l :
  NoDup (fst <$> l) → NoDup (fst <$> filter P l).
Proof.
  intros Hn. induction l as [|x l IH]; [constructor|]. rewrite fmap_cons in Hn.
  apply NoDup_cons in Hn as [Hx Hn]. rewrite filter_cons. destruct (decide (P x)); [|by apply IH].
  rewrite fmap_cons. apply NoDup_cons. split; [|by apply IH]. intros Hin. apply Hx.
  apply list_elem_of_fmap in Hin as (y & -> & Hy). apply list_elem_of_filter in Hy as [_ Hy].
  by apply list_elem_of_fmap_2.
Qed.

Lemma sort_filter (P : string * A → Prop) `{!∀ x, Decision (P x)} l :
  NoDup (fst <$> l) → sort_by fst (filter P l) = filter P (sort_by fst l).
Proof.
  intros Hn. apply sorted_unique.
  - by apply sort_nodup, nodup_fst_filter.
  - by rewrite !sort_perm.
  - apply sort_sorted.
  - apply sorted_filter, sort_sorted.
Qed.

(** In a sorted list the rows after the last of a prefix are the rest. *)
Lemma filter_after_prefix l1 x l2 :
  NoDup (fst <$> (l1 ++ x :: l2)) → StronglySorted before (l1 ++ x :: l2) →
  filter (λ y, str_ltb (fst x) (fst y) = true) (l1 ++ x :: l2) = l2.
Proof.
  intros Hn Hs.
  assert (H1 : Forall (λ y, before y x) l1 ∧ Forall (before x) l2 ∧ Forall (λ y, fst x ≠ fst y) l2).
  { rewrite fmap_app, fmap_cons in Hn. apply NoDup_app in Hn as (_ & _ & Hn).
    apply NoDup_cons in Hn as [Hx _]. split_and!.
    - clear Hx. induction l1 as [|y l1 IH]; [constructor|]. inversion Hs as [|? ? Hs' Hall]; subst.
      constructor; [|by apply IH]. rewrite Forall_app, Forall_cons in Hall. apply Hall.
    - induction l1 as [|y l1 IH]; simpl in Hs; inversion Hs; subst; [done|by apply IH].
    - apply Forall_forall. intros y Hy E. apply Hx. rewrite E. by apply list_elem_of_fmap_2. }
  destruct H1 as (Hb & Ha & Hne). rewrite filter_app, filter_cons_False by (by rewrite str_ltb_irrefl).
  assert (E1 : filter (λ y, str_ltb (fst x) (fst y) = true) l1 = []).
  { induction Hb as [|y l Hy _ IH]; [done|].
    rewrite filter_cons_False; [apply IH|]; try (by rewrite (before_not _ _ Hy)).
    - by inversion Hn.
    - by inversion Hs. }
  rewrite E1. simpl. clear E1 Hn Hs Hb. induction Ha as [|y l Hy _ IH]; [done|]. inversion Hne; subst.
  rewrite filter_cons_True; [f_equal; by apply IH|]. apply before_iff in Hy as [?|?]; done.
Qed.
End sorted.

Lemma rows_nodup p d since s : NoDup (fst <$> rows p d since s).
Proof. apply sort_nodup, nodup_fst_filter, NoDup_fst_map_to_list. Qed.

Lemma rows_sorted p d since s : StronglySorted before (rows p d since s).
Proof. apply sort_sorted. Qed.

Lemma elem_rows p d since s k v :
  (k, v) ∈ rows p d since s ↔
  s_envelopes s !! k = Some v ∧ e_PathID v = p ∧ e_Direction v = d ∧ str_ltb since k = true.
Proof.
  unfold rows. rewrite sort_perm, list_elem_of_filter, elem_of_map_to_list. unfold addressed. simpl. tauto.
Qed.

(** A later cursor leaves the rows after it. *)
Lemma rows_after p d since c s :
  str_ltb since c = true →
  rows p d c s = filter (λ y, str_ltb c (fst y) = true) (rows p d since s).
Proof.
  intros Hc. apply sorted_unique; [apply rows_nodup| |apply rows_sorted|apply sorted_filter, rows_sorted].
  apply NoDup_Permutation.
  - eapply NoDup_fmap_1, rows_nodup.
  - eapply NoDup_fmap_1, nodup_fst_filter, rows_nodup.
  - intros [k v]. rewrite list_elem_of_filter, !elem_rows. simpl. split; [|by intros (? & ? & ? & ? & ?)].
    intros (? & ? & ? & Hk). split_and!; try done. by eapply str_ltb_trans.
Qed.

(** The page after a page is the rest of the inbox. *)
Lemma rows_next_page p d since s (n : nat) k v :
  last (firstn n (rows p d since s)) = Some (k, v) → rows p d k s = skipn n (rows p d since s).
Proof.
  intros Hl. apply last_Some in Hl as [l1 Hl].
  assert (E : rows p d since s = l1 ++ (k, v) :: skipn n (rows p d since s)).
  { rewrite <- (take_drop n (rows p d since s)) at 1. rewrite Hl, <- app_assoc. done. }
  assert (Hk : str_ltb since k = true).
  { apply (elem_rows p d since s k v). rewrite E. apply elem_of_app. right. by left. }
  rewrite (rows_after p d since k s Hk). rewrite E at 1.
  apply (filter_after_prefix l1 (k, v)); rewrite <- E; [apply rows_nodup|apply rows_sorted].
Qed.

Lemma rows_ids p d since s : store_keys s → e_MsgID <$> inbox p d since s = fst <$> rows p d since s.
Proof.
  intros Hs. rewrite inbox_rows, <- list_fmap_compose. apply list_fmap_ext.
  intros i [k v] Hi. apply list_elem_of_lookup_2, elem_rows in Hi as [Hi _]. by apply Hs.
Qed.

(** ** Reading an inbox page by page *)

(** What a client does that follows the cursor of every page, for at most
    [fuel] pages. *)
Fixpoint walk (fuel : nat) (p : string) (d : Direction) (since : string) (s : Store) : list Envelope :=
  let page := firstn pageSize (inbox p d since s) in
  match fuel, last page with
  | S fuel, Some e => page ++ walk fuel p d (e_MsgID e) s
  | _, _ => page
  end.

Lemma walk_inbox fuel p d since s :
  store_keys s → (length (inbox p d since s) <= pageSize * fuel)%nat → walk fuel p d since s = inbox p d since s.
Proof.
  revert since. induction fuel as [|fuel IH]; intros since Hs Hl.
  - simpl. destruct (inbox p d since s); [done|simpl in Hl; lia].
  - cbn [walk]. destruct (last (firstn pageSize (inbox p d since s))) as [e|] eqn:El.
    + rewrite inbox_rows, <- fmap_take, fmap_last in El.
      destruct (last (firstn pageSize (rows p d since s))) as [[k v]|] eqn:Er; [|done]. injection El as <-.
      assert (Hk : e_MsgID v = k).
      { assert (Hin : (k, v) ∈ rows p d since s).
        { apply last_Some_elem_of in Er. apply elem_of_take in Er as (i & Hi & _).
          by apply list_elem_of_lookup_2 in Hi. }
        apply elem_rows in Hin as [Hin _]. by apply Hs. }
      rewrite Hk. assert (En : inbox p d k s = skipn pageSize (inbox p d since s)).
      { rewrite !inbox_rows, (rows_next_page _ _ _ _ _ _ _ Er). apply fmap_drop. }
      rewrite IH, En; [apply take_drop|done|]. rewrite En, length_drop. lia.
    + apply last_None in El. destruct (inbox p d since s); done.
Qed.

(** ** Inboxes after the writes *)

Lemma rows_ext p d since s' (l : list (string * Envelope)) :
  NoDup (fst <$> l) → StronglySorted before l →
  (∀ k v, (k, v) ∈ l ↔ s_envelopes s' !! k = Some v ∧ e_PathID v = p ∧ e_Direction v = d ∧ str_ltb since k = true) →
  rows p d since s' = l.
Proof.
  intros Hn Hs Hiff. apply sorted_unique; [apply rows_nodup| |apply rows_sorted|done].
  apply NoDup_Permutation; [eapply NoDup_fmap_1, rows_nodup|by eapply NoDup_fmap_1|].
  intros [k v]. by rewrite elem_rows, Hiff.
Qed.

Lemma rows_filter p d since s (Q : string * Envelope → Prop) `{!∀ x, Decision (Q x)} :
  rows p d since (with_envelopes (filter Q (s_envelopes s)) s) = filter Q (rows p d since s).
Proof.
  apply rows_ext.
  - apply nodup_fst_filter, rows_nodup.
  - apply sorted_filter, rows_sorted.
  - intros k v. rewrite list_elem_of_filter, elem_rows. simpl. rewrite map_lookup_filter_Some. tauto.
Qed.

Lemma rows_insert_other p d since s k v :
  ¬ addressed p d since (k, v) → s_envelopes s !! k = None →
  rows p d since (with_envelopes (<[k := v]> (s_envelopes s)) s) = rows p d since s.
Proof.
  intros Ha Hk. apply rows_ext; [apply rows_nodup|apply rows_sorted|].
  intros k' v'. rewrite elem_rows. simpl. rewrite lookup_insert_Some. split.
  - intros (H1 & H2). split; [|done]. right. split; [|done]. intros ->. congruence.
  - intros ([[-> ->]|[Hne H1]] & H2); [|done]. by destruct Ha.
Qed.

Lemma rows_insert p d since s k v :
  addressed p d since (k, v) → s_envelopes s !! k = None →
  rows p d since (with_envelopes (<[k := v]> (s_envelopes s)) s) ≡ₚ (k, v) :: rows p d since s.
Proof.
  intros Ha Hk. apply NoDup_Permutation.
  - eapply NoDup_fmap_1, rows_nodup.
  - apply NoDup_cons. split; [|eapply NoDup_fmap_1, rows_nodup]. rewrite elem_rows. intros [? _]. congruence.
  - intros [k' v']. rewrite elem_of_cons, !elem_rows. simpl. rewrite lookup_insert_Some. split.
    + intros ([[-> ->]|[Hne H1]] & H2); [by left|by right].
    + intros [[= -> ->]|(H1 & H2)]; [by split; [left|]|]. split; [|done]. right. split; [|done].
      intros ->. congruence.
Qed.
