(* ===== verification/Samples.v ===== *)
(** * Sample environments

    Concrete environments, requests and stores the theorems are instantiated at. *)

From S2P Require Import Prelude GoStrings GoTime Codec Http Storage Sql SQLite StoreSpec SQLiteRefines Crypto Mailbox.
From S2P Require Import Pairflow PairflowSpec.

Local Open Scope Z_scope.

(** 2026-04-18T12:00:00Z *)
Definition noon : Time := 1776513600 * Second.

Definition calm : Env := MkEnv (λ _, noon) (λ _, "00000000-0000-4000-8000-000000000001"%string) (λ _, None)
  (λ column, "constraint failed: UNIQUE constraint failed: " +:+ column)%string.

(** Every other statement fails. *)
Definition stormy : Env := MkEnv (λ n, noon + Z.of_nat n) (env_id calm)
  (λ n, if Nat.odd n then Some "database is locked"%string else None) (env_unique calm).

#[export] Instance calm_driver : DriverOK calm.
Proof. split; [reflexivity|done]. Qed.

#[export] Instance stormy_driver : DriverOK stormy.
Proof.
  split; [reflexivity|]. intros n msg. simpl. destruct (Nat.odd n); [|done]. by intros [= <-].
Qed.

Lemma calm_quiet : quiet calm.
Proof. done. Qed.

Lemma noon_text : FormatUTC noon = "2026-04-18T12:00:00Z"%string.
Proof. reflexivity. Qed.

Lemma wire_dec t : bool_decide (wire_time t) = true → wire_time t.
Proof. apply bool_decide_eq_true. Qed.

Lemma calm_clock : wire_ttl_clock calm.
Proof. intros n. split; apply wire_dec; reflexivity. Qed.

Definition start : World := MkWorld empty_db 0 0 0.

Lemma start_holds : holds (w_db start) empty_store.
Proof. split; [reflexivity|]. split; apply map_Forall_empty. Qed.

(** An Ed25519 for concrete runs: a signature starts with the first 8 bytes of the key. *)
#[export] Instance toyEd : Ed25519 := λ pub msg sig, HasPrefix sig (take_bytes 8 pub).

(** ** A pair and a message *)

(** JSON texts are written with single quotes. *)
Fixpoint quoted (s : string) : string :=
  match s with
  | EmptyString => EmptyString
  | String c s => String (if Ascii.eqb c "'" then "034" else c) (quoted s)
  end.

Definition keyA : string := "AQEBAQEBAQEBAQEBAQEBAQEBAQEBAQEBAQEBAQEBAQE".
Definition keyB : string := "AgICAgICAgICAgICAgICAgICAgICAgICAgICAgICAgI".
Definition sigA : string := "AQEBAQEBAQEBAQEBAQEBAQEBAQEBAQEBAQEBAQEBAQEBAQEBAQEBAQEBAQEBAQEBAQEBAQEBAQEBAQEBAQEBAQ".
Definition sigB : string := "AgICAgICAgICAgICAgICAgICAgICAgICAgICAgICAgICAgICAgICAgICAgICAgICAgICAgICAgICAgICAgICAg".
Definition pathAB : string := "nxc_-Biv03ptw7yS-0RzEBEncAbbTvpukCPNdGjAIzXSKk0".

Definition pairAB : Pair := MkPair pathAB "alice" keyA "" "bob" keyB "" "ed25519" "P-256" noon.

Definition paired_store : Store := with_pairs {[pathAB := pairAB]} empty_store.

Definition paired : World := MkWorld (encode_db paired_store) 0 0 0.

Lemma paired_holds : holds (w_db paired) paired_store.
Proof.
  split; [reflexivity|]. split; [apply map_Forall_empty..|].
  apply map_Forall_singleton. split; [reflexivity|]. split; [apply wire_dec; reflexivity|reflexivity].
Qed.

Definition message_id : string := "01900000-0000-7000-8000-000000000000".

Definition message_body : string := quoted ("{'version':'1','msg_id':'01900000-0000-7000-8000-000000000000'," +:+
  "'ts':'2026-04-18T12:00:00Z','path_id':'" +:+ pathAB +:+ "','ciphertext_sha256':" +:+
  "'8f434346648f6b96df89dda901c5176b10a6d83961dd3c1ac88b59b2dc327aa4','ciphertext':'aGk'}").

(** The requester posts it. *)
Definition post_message : Request :=
  MkRequest "PUT" ("/mailbox/" +:+ pathAB) "" {["X-Nexus-Signature" := [sigA]]} message_body false.

Lemma post_accepted : Status (fst (run calm (put post_message pathAB) paired)) = StatusAccepted.
Proof. reflexivity. Qed.

Definition message : Envelope := MkEnvelope message_id pathAB AToB noon "aGk" sigA message_body.

Definition delivered_store : Store := with_envelopes {[message_id := message]} paired_store.

Definition delivered : World := MkWorld (encode_db delivered_store) 0 0 0.

Lemma delivered_holds : holds (w_db delivered) delivered_store.
Proof.
  split; [reflexivity|]. destruct (proj2 paired_holds) as [_ H2 H3]. split; [|exact H2|exact H3].
  apply map_Forall_singleton. split; [reflexivity|]. split; [apply wire_dec; reflexivity|reflexivity].
Qed.

(** The owner acknowledges it. *)
Definition ack_message : Request :=
  MkRequest "POST" ("/mailbox/" +:+ pathAB +:+ "/ack") "" {["X-Nexus-Signature" := [sigB]]}
    (quoted ("{'ids':['" +:+ message_id +:+ "']}")) false.

Lemma ack_accepted : run calm (ack ack_message pathAB) delivered = (evictedResponse 1, MkWorld (encode_db paired_store) 0 0 3).
Proof. reflexivity. Qed.

(** ** A request and its approval *)

Definition half_json (id key sig extra : string) : string :=
  quoted ("{'nexus_id':'" +:+ id +:+ "','sig_alg':'ed25519','pubkey':'" +:+ key +:+
    "','endpoint':'','nonce':'n','ts':'2026-04-18T12:00:00Z','self_sig':'" +:+ sig +:+ "'" +:+ extra +:+ "}").

Definition request_id1 : string := "00000000-0000-4000-8000-000000000001".

Definition create_alice : Request :=
  MkRequest "POST" "/pair/request" "" ∅
    (quoted "{'target_nexus_id':'bob','requester':" +:+ half_json "alice" keyA sigA "" +:+ "}") false.

Definition approve_body : string := quoted "{'owner':" +:+ half_json "bob" keyB sigB "" +:+ "}".

Definition approve_bob : Request :=
  MkRequest "POST" ("/pair/requests/" +:+ request_id1 +:+ "/approve") "" ∅ approve_body false.

Definition half_alice : half := MkHalf "alice" "ed25519" keyA "" "" "" "n" "2026-04-18T12:00:00Z" sigA "".
Definition half_bob : half := MkHalf "bob" "ed25519" keyB "" "" "" "n" "2026-04-18T12:00:00Z" sigB "".

Definition request_alice : PairRequest :=
  MkPairRequest request_id1 StatusPending noon (Add noon requestTTL) "" (serializeHalf half_alice) "" "bob".

Definition requested_store : Store := with_requests {[request_id1 := request_alice]} empty_store.

Definition requested : World := MkWorld (encode_db requested_store) 0 0 0.

Lemma requested_holds : holds (w_db requested) requested_store.
Proof.
  split; [reflexivity|]. split; [apply map_Forall_empty| |apply map_Forall_empty].
  apply map_Forall_singleton. split_and!; [reflexivity|..]; split; (reflexivity || (apply wire_dec; reflexivity)).
Qed.
