(* ===== verification/StorageTheorems.v ===== *)
(** * Theorems: storage *)

From S2P Require Import Prelude GoStrings GoTime Storage Sql SQLite StoreSpec SQLiteRefines Inbox Samples.

Local Open Scope Z_scope.

(** ** The comments of the interface, method by method *)

Lemma documented_insert e s :
  documented (OpInsertEnvelope e) s (performed (OpInsertEnvelope e) s) ↔ ¬ deviates (OpInsertEnvelope e) s.
Proof.
  cbn [documented performed deviates]. unfold spec_insert.
  destruct (s_envelopes s !! e_MsgID e) as [old|] eqn:E; cbn [fmap option_fmap option_map].
  - destruct (decide _) as [H|H].
    + split; [|done]. intros _ (old' & [= <-] & Hp). congruence.
    + split; [done|]. intros []. exists old. split; [done|]. congruence.
  - rewrite decide_False by done. split; [|done]. by intros _ (old & ? & _).
Qed.

Lemma trunc_le t : trunc t <= t.
Proof. unfold trunc, Second. pose proof (Z.mul_div_le t 1000000000). lia. Qed.

#[local] Instance by_received_sorted_dec l : Decision (StronglySorted by_received l).
Proof.
  induction l as [|x l [IH|IH]]; [left; constructor| |right; by inversion 1].
  destruct (decide (Forall (λ y, e_ReceivedAt x <= e_ReceivedAt y) l)) as [H|H].
  - left. by constructor.
  - right. by inversion 1.
Defined.

(** What an inbox leaves out of what its comment promises. *)
Lemma inbox_wanted p d since s :
  inbox p d since s ≡ₚ
  snd <$> filter (λ x, str_ltb since (fst x) = true) (filter (wanted p d since) (map_to_list (s_envelopes s))).
Proof.
  unfold inbox. rewrite (sort_perm _), list_filter_filter. apply fmap_Permutation.
  erewrite list_filter_iff; [done|]. intros [k v]. unfold addressed, wanted. simpl. tauto.
Qed.

Lemma documented_list p d since s :
  documented (OpListEnvelopes p d since) s (performed (OpListEnvelopes p d since) s) ↔
  ¬ deviates (OpListEnvelopes p d since) s.
Proof.
  cbn [documented performed deviates]. pose proof (inbox_wanted p d since s) as Hi.
  set (W := filter (wanted p d since) _) in *. split.
  - intros (l & [= <-] & Hp & Hs) Hd.
    apply Permutation_length in Hi as Hn, Hp as Hl. rewrite length_fmap in Hn, Hl. rewrite length_firstn in Hl.
    pose proof (length_filter (λ x, str_ltb since (fst x) = true) W) as Hle.
    rewrite firstn_all2 in Hs by lia. destruct Hd as [?|[?|(-> & e & He & Hpe & Hde)]]; [lia|done|].
    assert (Hin : ("", e)%string ∈ W).
    { apply list_elem_of_filter. split; [|by apply elem_of_map_to_list]. unfold wanted. simpl. auto. }
    pose proof (length_filter_lt (λ x, str_ltb "" (fst x) = true) W _ Hin ltac:(done)). lia.
  - intros Hd. assert (Hl : (length (inbox p d since s) <= pageSize)%nat) by (destruct (decide (length (inbox p d since s) <= pageSize)%nat); [done|exfalso; apply Hd; left; lia]).
    exists (inbox p d since s). rewrite firstn_all2 by done. split_and!; [done| |by apply dec_stable; intros ?; apply Hd; auto].
    rewrite Hi, filter_all; [done|]. apply Forall_forall. intros [k v] Hk. simpl.
    apply list_elem_of_filter in Hk as [(? & ? & [->|?]) Hk]; [|done]. apply elem_of_map_to_list in Hk.
    apply str_ltb_nil. intros ->. apply Hd. right; right. split; [done|]. by exists v.
Qed.

Lemma pending_sorted s : StronglySorted by_created (pending s).
Proof.
  unfold pending. induction (StronglySorted_merge_sort older
    (filter (λ r, r_Status (snd r) = StatusPending) (map_to_list (s_requests s)))) as [|x l _ IH Hx]; [constructor|].
  rewrite fmap_cons. constructor; [exact IH|]. apply Forall_fmap. eapply Forall_impl; [exact Hx|].
  intros y [?|[E _]]; unfold by_created; simpl; lia.
Qed.

Lemma documented_pending s : documented OpListPending s (performed OpListPending s).
Proof.
  exists (pending s). split_and!; [done| |apply pending_sorted]. unfold pending.
  rewrite merge_sort_Permutation.
  by rewrite (list_filter_fmap_iff snd _ (λ r, r_Status (snd r) = StatusPending)).
Qed.

Lemma documented_update id to o p s :
  documented (OpUpdateStatus id to o p) s (performed (OpUpdateStatus id to o p) s) ↔
  ¬ deviates (OpUpdateStatus id to o p) s.
Proof.
  cbn [documented performed deviates]. unfold spec_update.
  destruct (s_requests s !! id) as [r|] eqn:E.
  - destruct (decide (r_Status r = StatusPending)) as [H|H].
    + split; [|done]. intros _ (r' & [= <-] & ? & _). done.
    + destruct (decide (r_Status r = to)) as [H'|H'].
      * split; [|done]. intros _ (r' & [= <-] & _ & ?). done.
      * split; [done|]. intros []. by exists r.
  - split; [|done]. by intros _ (r & ? & _).
Qed.

Lemma documented_older c s :
  documented (OpDeleteOlderThan c) s (performed (OpDeleteOlderThan c) s) ↔
  ¬ deviates (OpDeleteOlderThan c) s.
Proof.
  cbn [documented performed deviates]. unfold spec_delete. pose proof (trunc_le c) as Hc. split.
  - intros H (id & e & He & Hlo & Hhi). apply (f_equal (λ x, s_envelopes (snd x) !! id)) in H. simpl in H.
    rewrite (map_lookup_filter_Some_2 _ _ _ e) in H; [|done|unfold outdated; simpl; lia].
    symmetry in H. apply map_lookup_filter_Some in H as [_ H]. apply H. exact Hhi.
  - intros Hn. assert (Hiff : ∀ k e, s_envelopes s !! k = Some e → outdated c (k, e) ↔ received_before c (k, e)).
    { intros k e He. unfold outdated, received_before. simpl. split; [lia|]. intros ?.
      destruct (decide (e_ReceivedAt e < trunc c)) as [?|?]; [done|]. exfalso. apply Hn. exists k, e. split; [done|lia]. }
    f_equal.
    + do 3 f_equal. apply map_filter_ext. exact Hiff.
    + f_equal. apply map_filter_ext. intros k e He. by rewrite (Hiff k e He).
Qed.

Lemma documented_expire c s :
  documented (OpExpirePending c) s (performed (OpExpirePending c) s) ↔
  ¬ deviates (OpExpirePending c) s.
Proof.
  cbn [documented performed deviates]. unfold spec_expire. pose proof (trunc_le c) as Hc. split.
  - intros H (id & r & Hr & Hs & Hlo & Hhi). apply (f_equal (λ x, s_requests (snd x) !! id)) in H. simpl in H.
    rewrite !lookup_fmap, Hr in H. simpl in H. unfold expire_request in H.
    rewrite decide_False in H by (unfold overdue; lia). rewrite decide_True in H by done.
    injection H as H. apply (f_equal r_Status) in H. simpl in H. by rewrite Hs in H.
  - intros Hn. assert (Hiff : ∀ k r, s_requests s !! k = Some r → overdue c r ↔ expiring c r).
    { intros k r Hr. unfold overdue, expiring. split; [intros []; split; [done|lia]|]. intros [Hs ?].
      destruct (decide (r_ExpiresAt r < trunc c)) as [?|?]; [done|]. exfalso. apply Hn. exists k, r. split_and!; [done..|lia|lia]. }
    f_equal.
    + do 3 f_equal. apply map_filter_ext. intros k r Hr. exact (Hiff k r Hr).
    + f_equal. apply map_fmap_ext. intros k r Hr. unfold expire_request. pose proof (Hiff k r Hr).
      destruct (decide (overdue c r)), (decide (expiring c r)); tauto.
Qed.

(** A method keeps to its comment exactly where it does not deviate. *)
Lemma documented_iff {X} (op : StoreOp X) s : documented op s (performed op s) ↔ ¬ deviates op s.
Proof.
  destruct op; try (split; [tauto|intros _]).
  - apply documented_insert.
  - apply documented_list.
  - done.
  - apply documented_older.
  - cbn. unfold spec_insert. by destruct (s_requests s !! _).
  - cbn. by destruct (s_requests s !! id).
  - apply documented_pending.
  - apply documented_update.
  - apply documented_expire.
  - cbn. unfold spec_insert. by destruct (s_pairs s !! _).
  - cbn. by destruct (s_pairs s !! _).
Qed.

(** C7: every method of the SQLite adapter, from tables that encode a store and
    with times of years 0 to 9999, reports a driver failure and leaves the tables
    as they were, which happens only when a statement failed, or answers and
    changes the tables as [performed] says.  The latter is what the comments of
    the interface say of the method, except exactly in four cases: inserting an
    envelope whose id belongs to an envelope of another pair is a duplicate too;
    a list that holds more than fifty envelopes stops there, one whose ids and
    times are ordered differently is in the order of the ids, and an empty cursor
    passes over an empty id; a resolved request answers a conflict when asked for
    another status; and rows of the very second of a cutoff with a fraction stay. *)
Theorem sqlite_keeps_contract (e : Env) `{!DriverOK e} X (op : StoreOp X) (s : Store) (w : World) :
  holds (w_db w) s → op_times op →
  let '(x, w') := run e (method op) w in
  (∃ s', (x, s') = performed op s ∧ holds (w_db w') s' ∧
     (documented op s (x, s') ↔ ¬ deviates op s)) ∨
  (∃ msg, x = failure op (ErrOther msg) ∧ w_db w' = w_db w ∧ ¬ quiet e).
Proof.
  intros Hh Ht. destruct (SQLite_laws e X op s w Hh Ht) as [w' H1 _ _|msg w' H1 _ H2 _ _].
  - left. exists (snd (performed op s)). rewrite <- surjective_pairing.
    split_and!; [done..|apply documented_iff].
  - right. by exists msg.
Qed.

(** The envelope of another pair under the id of [message]. *)
Definition foreign : Envelope := MkEnvelope message_id "another pair" AToB noon "aGk" sigA message_body.

Theorem sqlite_keeps_contract_witness :
  deviates (OpInsertEnvelope foreign) delivered_store ∧
  let '(x, w') := run stormy (method (OpInsertEnvelope foreign)) delivered in
  (∃ s', (x, s') = performed (OpInsertEnvelope foreign) delivered_store ∧ holds (w_db w') s' ∧
     (documented (OpInsertEnvelope foreign) delivered_store (x, s') ↔ ¬ deviates (OpInsertEnvelope foreign) delivered_store)) ∨
  (∃ msg, x = failure (OpInsertEnvelope foreign) (ErrOther msg) ∧ w_db w' = w_db delivered ∧ ¬ quiet stormy).
Proof.
  split; [by exists message|].
  apply (sqlite_keeps_contract stormy _ (OpInsertEnvelope foreign) delivered_store delivered delivered_holds).
  apply wire_dec. reflexivity.
Defined.

(** C8: times survive the TEXT columns: for years 0 to 9999, a time written and
    read back is the same time rounded down to the second, and comparing two
    stored times as TEXT, as the WHERE clauses and ORDER BY do, is comparing them
    as times in seconds. *)
Theorem stored_times (t u : Time) :
  wire_time t → wire_time u →
  parseTime (formatTime t) = Ok (t / Second * Second) ∧
  (str_ltb (formatTime t) (formatTime u) = true ↔ t / Second < u / Second).
Proof.
  intros Ht Hu. split; [by apply parseTime_formatTime|].
  rewrite formatTime_lt by done. symmetry. apply trunc_lt.
Qed.

Theorem stored_times_witness :
  parseTime (formatTime (noon + 5)) = Ok ((noon + 5) / Second * Second) ∧
  (str_ltb (formatTime (noon + 5)) (formatTime (noon + Second)) = true ↔
   (noon + 5) / Second < (noon + Second) / Second).
Proof. apply (stored_times (noon + 5) (noon + Second)); apply wire_dec; reflexivity. Defined.

(** A client that follows the cursor of every page reads its whole inbox:
    every stored envelope addressed to it, once, in the order of the ids. *)
Lemma cursor_walk_complete (fuel : nat) (p : string) (d : Direction) (s : Store) :
  store_ok s → (length (inbox p d "" s) <= pageSize * fuel)%nat →
  walk fuel p d "" s = inbox p d "" s ∧
  (∀ k v, s_envelopes s !! k = Some v → k ≠ ""%string → e_PathID v = p → e_Direction v = d →
     v ∈ inbox p d "" s) ∧
  NoDup (e_MsgID <$> inbox p d "" s).
Proof.
  intros Hs Hl.
  assert (Hk : store_keys s) by (intros k v Hv; by apply (ok_envelopes _ Hs k v Hv)).
  split_and!; [by apply walk_inbox| |].
  - intros k v Hv Hne Hp Hd. rewrite inbox_rows. apply list_elem_of_fmap. exists (k, v). split; [done|].
    apply elem_rows. split_and!; try done. by apply str_ltb_nil.
  - rewrite rows_ids by done. apply rows_nodup.
Qed.
