(* ===== verification/MailboxTheorems.v ===== *)
(** * Theorems: the mailbox *)

From S2P Require Import Prelude GoStrings GoTime Codec Sha256 Json JsonUtf8 Http Storage Sql SQLite StoreSpec.
From S2P Require Import SQLiteRefines Patterns Replay Crypto Mailbox MailboxSpec PairflowSpec Inbox Samples.

Local Open Scope Z_scope.

(** C9: PUT, for every request, store and verifier: an acceptable envelope with a
    new id is stored exactly as posted and answered 202; with a known id it is
    answered 409; anything else is rejected with 400, 401, 404 or 500; a driver
    failure is answered 500.  Only the first changes the store. *)
Theorem put_correct (V : Verifier) (e : Env) `{!DriverOK e} (r : Request) (pathID : string) (s : Store) (w : World) :
  wire_clock e → holds (w_db w) s →
  put_outcome e holds r pathID s w (run e (put r pathID) w).
Proof. intros Hc Hh. apply put_run; [apply _|done..]. Qed.

Definition any_request : Request := MkRequest "PUT" "/mailbox/x" "" ∅ "{}" false.

Theorem put_correct_witness :
  put_outcome (V := StubVerifier) calm holds any_request "x" empty_store start (run calm (put (V := StubVerifier) any_request "x") start).
Proof. apply (put_correct StubVerifier calm); [apply wire_ttl_wire, calm_clock|apply start_holds]. Defined.

(** The inbox an envelope goes to. *)
Definition goes_to (p : string) (d : Direction) (since : string) (v : Envelope) : Prop :=
  e_PathID v = p ∧ e_Direction v = d ∧ str_ltb since (e_MsgID v) = true.

#[export] Instance goes_to_dec p d since v : Decision (goes_to p d since v).
Proof. unfold goes_to. apply _. Defined.

(** After a PUT answered with 202, the inbox of the sender's direction on
    that path holds exactly one more envelope, the posted one; every other inbox
    is the same list as before. *)
Theorem put_delivers (V : Verifier) (e : Env) `{!DriverOK e} (r : Request) (pathID : string) (s : Store)
    (w w' : World) (resp : Response) :
  wire_clock e → holds (w_db w) s →
  run e (put r pathID) w = (resp, w') → Status resp = StatusAccepted →
  ∃ s' paired body env sender,
    holds (w_db w') s' ∧
    acceptable s r pathID (clock e w) paired body env sender ∧
    let v := posted r pathID paired body env sender (env_clock e (S (w_ticks w))) in
    ∀ p d since,
      if decide (goes_to p d since v) then inbox p d since s' ≡ₚ v :: inbox p d since s
      else inbox p d since s' = inbox p d since s.
Proof.
  intros Hc Hh Hr Hs. pose proof (put_run e holds r pathID s w Hc Hh) as Ho. rewrite Hr in Ho.
  inversion Ho as [paired body env sender w1 Ha Hn Hw E| |status code w1 ? Hst|]; subst; try done.
  2:{ simpl in Hs. subst. exfalso. revert Hst. by apply (bool_decide_unpack (_ ∉ _)). }
  eexists _, paired, body, env, sender. split; [done|]. split; [done|]. intros v p d since.
  assert (E : e_MsgID v = MsgID env) by done.
  rewrite !inbox_rows. destruct (decide (goes_to p d since v)) as [Hg|Hg].
  - apply (fmap_Permutation snd _ ((MsgID env, v) :: rows p d since s)).
    apply rows_insert; [by rewrite <- E|done].
  - f_equal. apply rows_insert_other; [by rewrite <- E|done].
Qed.

Lemma calm_wire : wire_clock calm.
Proof. apply wire_ttl_wire, calm_clock. Qed.

Theorem put_delivers_witness :
  ∃ s' paired body env sender,
    holds (w_db (snd (run calm (put post_message pathAB) Samples.paired))) s' ∧
    acceptable paired_store post_message pathAB (clock calm Samples.paired) paired body env sender ∧
    let v := posted post_message pathAB paired body env sender (env_clock calm 1) in
    ∀ p d since,
      if decide (goes_to p d since v) then inbox p d since s' ≡ₚ v :: inbox p d since paired_store
      else inbox p d since s' = inbox p d since paired_store.
Proof.
  apply (put_delivers EdVerifier calm post_message pathAB paired_store Samples.paired
    (snd (run calm (put post_message pathAB) Samples.paired)) (fst (run calm (put post_message pathAB) Samples.paired))).
  - exact calm_wire.
  - exact paired_holds.
  - apply surjective_pairing.
  - exact post_accepted.
Defined.

(** C10: GET, for every request, store and verifier: the first page, by id, of
    the inbox the signing half reads, from the cursor on; 400, 401, 404 or 500
    without a valid signature or cursor; the store stays as it is. *)
Theorem get_correct (V : Verifier) (e : Env) `{!DriverOK e} (r : Request) (pathID : string) (s : Store) (w : World) :
  holds (w_db w) s → get_outcome e holds r pathID s (run e (get r pathID) w).
Proof. intros Hh. apply get_run; [apply _|done]. Qed.

Theorem get_correct_witness :
  get_outcome calm holds post_message pathAB paired_store (run calm (get post_message pathAB) paired).
Proof. apply (get_correct EdVerifier calm), paired_holds. Defined.

(** C11: an answered ack evicted exactly the listed ids among the first page of
    the caller's own inbox; every other envelope, of this pair or another, is
    still there unchanged. *)
Theorem ack_correct (V : Verifier) (e : Env) `{!DriverOK e} (r : Request) (pathID : string) (s : Store)
    (w w' : World) (resp : Response) :
  holds (w_db w) s → run e (ack r pathID) w = (resp, w') →
  ∃ s', holds (w_db w') s' ∧
    (Status resp ≠ StatusOK → s' = s) ∧
    (Status resp = StatusOK → ∃ paired caller ids,
       s_pairs s !! pathID = Some paired ∧ ack_ids r = Some ids ∧ Z.of_nat (length ids) <= maxAckBatch ∧
       Identify paired (HeaderGet (Header r) "X-Nexus-Signature") (Path r) = Ok caller ∧ caller ≠ ""%string ∧
       s_requests s' = s_requests s ∧ s_pairs s' = s_pairs s ∧
       ∀ k v, s_envelopes s' !! k = Some v ↔
         s_envelopes s !! k = Some v ∧
         ¬ (k ∈ ids ∧ v ∈ firstn pageSize (inbox pathID (readDirectionFor paired caller) "" s))).
Proof.
  intros Hh Hr. pose proof (ack_run e holds r pathID s w Hh) as Ho. rewrite Hr in Ho.
  assert (Hk : store_keys s) by (intros k v Hv; by apply (ok_envelopes _ (proj2 Hh) k v Hv)).
  inversion Ho as [paired caller ids w1 Ha Hi Hn gone Hw|paired caller w1 Hp Hid Hne Hi Hw|resp1 w1 Hno Hst Hw|w1 Hq Hw]; subst.
  - eexists. split; [exact Hw|]. split; [done|]. intros _. exists paired, caller, ids.
    destruct Ha as [Hp Hid Hne Hm]. split_and!; try done; [lia|]. intros k v. simpl.
    rewrite map_lookup_filter_Some. split; intros [Hv Hg]; (split; [done|]); intros H; apply Hg.
    + destruct H as [Hki Hvi]. pose proof (Hk k v Hv) as Ek. split.
      * apply elem_of_take in Hvi as (i & Hi' & _). rewrite inbox_rows in Hi'.
        apply list_elem_of_lookup_2, list_elem_of_fmap in Hi' as ([k' v'] & E & Hin). simpl in E. subst v'.
        apply elem_rows in Hin as (_ & ? & _). done.
      * simpl. apply list_elem_of_filter. split; [done|]. rewrite <- Ek. by apply list_elem_of_fmap_2.
    + destruct H as [_ Hin]. simpl in Hin. apply list_elem_of_filter in Hin as [Hki Hin]. split; [done|].
      apply list_elem_of_fmap in Hin as (v' & Ek & Hin).
      assert (v' = v); [|by subst]. apply elem_of_take in Hin as Hin'. destruct Hin' as (i & Hi' & _).
      rewrite inbox_rows in Hi'. apply list_elem_of_lookup_2, list_elem_of_fmap in Hi' as ([k' v2] & E & Hr').
      simpl in E. subst v2. apply elem_rows in Hr' as (Hv' & _). pose proof (Hk k' v' Hv'). congruence.
  - exists s. split; [done|]. split; [done|]. intros _. exists paired, caller, [].
    split_and!; try done. intros k v. split; [|by intros [? _]]. intros Hv. split; [done|].
    intros [H _]. by apply not_elem_of_nil in H.
  - exists s. split; [done|]. split; [done|]. intros Hs. exfalso. rewrite Hs in Hst. revert Hst.
    by apply (bool_decide_unpack (_ ∉ _)).
  - exists s. done.
Qed.

Theorem ack_correct_witness :
  ∃ s', holds (encode_db paired_store) s' ∧
    (StatusOK ≠ StatusOK → s' = delivered_store) ∧
    (StatusOK = StatusOK → ∃ paired caller ids,
       s_pairs delivered_store !! pathAB = Some paired ∧ ack_ids ack_message = Some ids ∧
       Z.of_nat (length ids) <= maxAckBatch ∧
       Identify paired (HeaderGet (Header ack_message) "X-Nexus-Signature") (Path ack_message) = Ok caller ∧
       caller ≠ ""%string ∧
       s_requests s' = s_requests delivered_store ∧ s_pairs s' = s_pairs delivered_store ∧
       ∀ k v, s_envelopes s' !! k = Some v ↔
         s_envelopes delivered_store !! k = Some v ∧
         ¬ (k ∈ ids ∧ v ∈ firstn pageSize (inbox pathAB (readDirectionFor paired caller) "" delivered_store))).
Proof.
  apply (ack_correct EdVerifier calm ack_message pathAB delivered_store delivered
    (MkWorld (encode_db paired_store) 0 0 3) (evictedResponse 1) delivered_holds ack_accepted).
Defined.

(** A full inbox: 51 messages. *)
Definition nth_id (n : nat) : string := "m" +:+ Repeat "x" n.
Definition nth_message (n : nat) : Envelope := MkEnvelope (nth_id n) "nxc_p" AToB noon "" "" "{}".
Definition full_store : Store :=
  with_envelopes (list_to_map ((λ n, (nth_id n, nth_message n)) <$> seq 0 51)) empty_store.

(** An inbox of more than 50 messages has messages an ack cannot evict:
    listing the 51st, alone, evicts nothing, although up to 100 ids may be
    listed. *)
Theorem ack_misses_later_pages :
  ∃ s p d k, k ∈ e_MsgID <$> inbox p d "" s ∧ evictable p d [k] s = [].
Proof.
  exists full_store, "nxc_p"%string, AToB, (nth_id 50).
  assert (E : e_MsgID <$> inbox "nxc_p" AToB "" full_store = nth_id <$> seq 0 51) by reflexivity.
  split.
  - rewrite E. apply list_elem_of_fmap_2. apply elem_of_seq. lia.
  - reflexivity.
Qed.

(** *** What a sender signs *)

Record outer_utf8 (o : OuterEnvelope) : Prop := OuterUtf8 {
  ou_Version : utf8 (Version o);
  ou_MsgID : utf8 (MsgID o);
  ou_Ts : utf8 (Ts o);
  ou_PathID : utf8 (PathID o);
  ou_SHA : utf8 (CiphertextSHA256 o);
  ou_Ciphertext : utf8 (Ciphertext o)
}.

Lemma unmarshalOuter_utf8 s o : unmarshalOuter s = Some o → outer_utf8 o.
Proof.
  apply (Unmarshal_keeps outer_utf8); [|repeat constructor]. apply keeps_struct.
  repeat (constructor; [apply keeps_str; intros x t Hx []; by constructor|]). constructor.
Qed.

Lemma canonical_members_utf8 o : outer_utf8 o → Forall (λ kv, utf8 (fst kv) ∧ utf8 (snd kv)) (canonical_members o).
Proof. intros []. repeat (constructor; [split; [by apply utf8_ascii|done]|]). constructor. Qed.

Lemma unmarshal_canonical o : outer_utf8 o → unmarshalOuter (canonicalJSON o) = Some o.
Proof.
  intros Ho. unfold unmarshalOuter, canonicalJSON, Unmarshal.
  rewrite Parse_encode_object by (by apply canonical_members_utf8). by destruct o.
Qed.

(** What was decoded from a body is the only envelope with its canonical JSON. *)
Lemma canonical_unique body o :
  unmarshalOuter body = Some o →
  unmarshalOuter (canonicalJSON o) = Some o ∧
  ∀ body' o', unmarshalOuter body' = Some o' → canonicalJSON o' = canonicalJSON o → o' = o.
Proof.
  intros H. apply unmarshalOuter_utf8, unmarshal_canonical in H. split; [done|]. intros body' o' H' E.
  apply unmarshalOuter_utf8, unmarshal_canonical in H'. rewrite E in H'. congruence.
Qed.

(** The signed bytes determine the envelope: two envelopes decoded from bodies with
    the same canonical JSON are equal, and decoding it gives the envelope back. *)
Theorem canonical_binds (body body' : string) (o o' : OuterEnvelope) :
  unmarshalOuter body = Some o → unmarshalOuter body' = Some o' →
  unmarshalOuter (canonicalJSON o) = Some o ∧ (canonicalJSON o = canonicalJSON o' → o = o').
Proof.
  intros H H'. destruct (canonical_unique _ _ H) as [Hc Hu]. split; [done|]. intros E. symmetry. by eapply Hu.
Qed.

(** *** Routing *)

Lemma path_id_no_slash p : pathIDRegex p = true → no_byte "/" p = true.
Proof.
  intros H. apply pathIDRegex_iff in H as (r & -> & _ & Hr). unfold no_byte.
  rewrite all_bytes_app. simpl. eapply all_bytes_impl; [|exact Hr].
  intros c Hc. destruct (Ascii.eqb_spec c "/") as [->|]; [by vm_compute in Hc|done].
Qed.

Lemma trim_mailbox p : TrimPrefix ("/mailbox/" +:+ p) "/mailbox/" = p.
Proof. apply TrimPrefix_app. Qed.

Lemma trimmed_ne p : String.eqb p ("/mailbox/" +:+ p) = false.
Proof.
  apply String.eqb_neq. intros E. apply (f_equal String.length) in E.
  rewrite length_app_s in E. simpl in E. lia.
Qed.

Lemma dispatch_at (St : Storage) (V : Verifier) (r : Request) pathID :
  pathIDRegex pathID = true →
  (Path r = "/mailbox/" +:+ pathID → Method r = MethodPut → Mailbox.dispatch r = put r pathID) ∧
  (Path r = "/mailbox/" +:+ pathID → Method r = MethodGet → Mailbox.dispatch r = get r pathID) ∧
  (Path r = "/mailbox/" +:+ pathID +:+ "/ack" → Method r = MethodPost → Mailbox.dispatch r = ack r pathID).
Proof.
  intros Hp.
  assert (Hne : String.eqb pathID "" = false) by (apply String.eqb_neq; by intros ->).
  pose proof (path_id_no_slash _ Hp) as Hs.
  split_and!; intros Ep Em; unfold Mailbox.dispatch; rewrite Ep, trim_mailbox, trimmed_ne.
  - by rewrite Split_no_sep, Hne, Hp, Em by done.
  - by rewrite Split_no_sep, Hne, Hp, Em by done.
  - change (pathID +:+ "/ack") with (pathID +:+ String "/" "ack").
    rewrite Split_app by done. by rewrite (Split_no_sep "ack"), Hne, Hp, Em by done.
Qed.

(** On every well-formed path id the mux reaches PUT, GET and ack, each at
    its own path and method, and nothing else runs a statement: other requests
    are answered 400, 404 or 405 at once. *)
Theorem mailbox_routes (St : Storage) (V : Verifier) (r : Request) :
  (∀ pathID, pathIDRegex pathID = true →
     (Path r = "/mailbox/" +:+ pathID → Method r = MethodPut → Mailbox.dispatch r = put r pathID) ∧
     (Path r = "/mailbox/" +:+ pathID → Method r = MethodGet → Mailbox.dispatch r = get r pathID) ∧
     (Path r = "/mailbox/" +:+ pathID +:+ "/ack" → Method r = MethodPost → Mailbox.dispatch r = ack r pathID)) ∧
  ((∃ pathID, pathIDRegex pathID = true ∧
      Mailbox.dispatch r ∈ [put r pathID; get r pathID; ack r pathID]) ∨
   (∃ resp, Mailbox.dispatch r = Ret resp ∧
      Status resp ∈ [StatusBadRequest; StatusNotFound; StatusMethodNotAllowed])).
Proof.
  split; [intros pathID; apply dispatch_at|].
  unfold Mailbox.dispatch.
  assert (Hans : ∀ resp, Status resp ∈ [StatusBadRequest; StatusNotFound; StatusMethodNotAllowed] →
    ∀ p, p = Ret resp → (∃ pathID, pathIDRegex pathID = true ∧ p ∈ [put r pathID; get r pathID; ack r pathID]) ∨
      (∃ resp, p = Ret resp ∧ Status resp ∈ [StatusBadRequest; StatusNotFound; StatusMethodNotAllowed])).
  { intros resp Hst p ->. right. by exists resp. }
  destruct (String.eqb _ (Path r)); [eapply Hans; [|done]; mem|].
  destruct (Split _ _) as [|pathID rest]; [eapply Hans; [|done]; mem|].
  destruct (String.eqb pathID ""); [eapply Hans; [|done]; mem|].
  destruct (pathIDRegex pathID) eqn:Hp; cbn [negb]; [|eapply Hans; [|done]; mem].
  destruct rest as [|verb [|? ?]]; [| |eapply Hans; [|done]; mem].
  - destruct (String.eqb _ MethodPut); [left; exists pathID; split; [done|mem]|].
    destruct (String.eqb _ MethodGet); [left; exists pathID; split; [done|mem]|].
    eapply Hans; [|done]; mem.
  - destruct (_ && _); [left; exists pathID; split; [done|mem]|]. eapply Hans; [|done]; mem.
Qed.

(** *** Who signed *)

(** C19: with the Ed25519 verifier every envelope PUT accepts was signed, over its
    canonical JSON, by a key of the pair; and these bytes are its own: they decode
    to it, and no other envelope decoded from any body has them. *)
Theorem stored_is_signed (Ed : Ed25519) (s : Store) (r : Request) (pathID : string) (now : Time) (paired : Pair)
    (body : string) (env : OuterEnvelope) (sender : string) :
  acceptable s r pathID now paired body env sender →
  signs sender (HeaderGet (Header r) "X-Nexus-Signature") (canonicalJSON env) ∧
  (sender = p_RequesterPubkey paired ∨ sender = p_OwnerPubkey paired) ∧
  unmarshalOuter body = Some env ∧ PathID env = pathID ∧
  unmarshalOuter (canonicalJSON env) = Some env ∧
  ∀ body' env', unmarshalOuter body' = Some env' → canonicalJSON env' = canonicalJSON env → env' = env.
Proof.
  intros Ha. destruct Ha as [_ _ Hj _ Hp _ _ _ Hs Hk _]. destruct (Identify_signed _ _ _ _ Hs Hk) as [Hm Hsig].
  destruct (canonical_unique _ _ Hj). done.
Qed.

Definition sample_outer : OuterEnvelope :=
  MkOuterEnvelope "1" message_id "2026-04-18T12:00:00Z" pathAB
    "8f434346648f6b96df89dda901c5176b10a6d83961dd3c1ac88b59b2dc327aa4" "aGk".

Lemma post_acceptable :
  acceptable paired_store post_message pathAB noon pairAB message_body sample_outer keyA.
Proof.
  constructor; try reflexivity; [|discriminate|by left]. exists "hi"%string. split; reflexivity.
Qed.

Theorem stored_is_signed_witness :
  signs keyA (HeaderGet (Header post_message) "X-Nexus-Signature") (canonicalJSON sample_outer) ∧
  (keyA = p_RequesterPubkey pairAB ∨ keyA = p_OwnerPubkey pairAB) ∧
  unmarshalOuter message_body = Some sample_outer ∧ PathID sample_outer = pathAB ∧
  unmarshalOuter (canonicalJSON sample_outer) = Some sample_outer ∧
  ∀ body' env', unmarshalOuter body' = Some env' → canonicalJSON env' = canonicalJSON sample_outer → env' = sample_outer.
Proof. apply (stored_is_signed toyEd _ _ _ _ _ _ _ _ post_acceptable). Defined.

(** C20: the replay window, exactly: a timestamp passes when it is within five
    minutes of the clock, or 2^63 nanoseconds (292 years) or more ahead of it,
    where the subtraction saturates and its negation wraps. *)
Theorem replay_window_exact (ts : string) (now : Time) :
  tsInWindow ts now = true ↔
  ∃ t, parse_ts ts = Some t ∧ (Z.abs (now - t) <= 5 * Minute ∨ 2 ^ 63 <= t - now).
Proof. apply tsInWindow_iff. Qed.
