(* ===== verification/Reader.v ===== *)
(** * Reading a mailbox dry

    A reader that fetches the first page, acknowledges it and starts again gets
    every message once, in order, and leaves an empty inbox: a round for every
    fifty messages is enough. *)

From S2P Require Import Prelude GoStrings GoTime Json Http Storage Sql SQLite StoreSpec SQLiteRefines.
From S2P Require Import Crypto Mailbox MailboxSpec Inbox Samples.

Local Open Scope Z_scope.

(** ** The reader *)

(** The bodies an answered page carries. *)
Definition answered_bodies (resp : Response) : list string :=
  match RespBody resp with
  | BJson (GStruct ((_, GList l) :: _)) => omap (λ j, match j with GRaw body => Some body | _ => None end) l
  | _ => []
  end.

Definition body_id (body : string) : string := default ""%string (MsgID <$> unmarshalOuter body).

Section reader.
Context `{St : Storage} `{V : Verifier}.

(** The signed requests of the reader: for a page, and for an ack of some ids. *)
Context (pathID : string) (page : Request) (ackOf : list string → Request).

Fixpoint read_dry (rounds : nat) : Prog (list string) :=
  match rounds with
  | O => Ret []
  | S rounds =>
      let! resp := get page pathID in
      match answered_bodies resp with
      | [] => Ret []
      | bodies =>
          let! _ := ack (ackOf (body_id <$> bodies)) pathID in
          let! rest := read_dry rounds in
          Ret (bodies ++ rest)
      end
  end.

End reader.

(** ** Acknowledging a page *)

Section page.
Context (p : string) (d : Direction) (s : Store) (Hk : store_keys s).

(** The ids of the first page, and the store without it. *)
Definition page_ids : list string := e_MsgID <$> firstn pageSize (inbox p d "" s).
Definition after_page : Store := snd (spec_delete (acked p (evictable p d page_ids s)) s).

Lemma filter_none {A} (P : A → Prop) `{!∀ x, Decision (P x)} l : Forall (λ x, ¬ P x) l → filter P l = [].
Proof. induction 1 as [|x l Hx _ IH]; [done|]. by rewrite filter_cons_False. Qed.

Lemma evictable_page : evictable p d page_ids s = page_ids.
Proof. apply filter_all, Forall_forall. intros i. done. Qed.

Lemma page_rows : page_ids = fst <$> firstn pageSize (rows p d "" s).
Proof. unfold page_ids. by rewrite !fmap_take, rows_ids. Qed.

Lemma rows_after_page : rows p d "" after_page = skipn pageSize (rows p d "" s).
Proof.
  unfold after_page. rewrite evictable_page. cbn [spec_delete snd]. rewrite rows_filter.
  pose proof (rows_nodup p d "" s) as Hn. rewrite <- (take_drop pageSize (rows p d "" s)) in Hn at 1 |- * at 1.
  rewrite fmap_app in Hn. apply NoDup_app in Hn as (_ & Hn & _).
  rewrite filter_app, filter_none, filter_all; [done|apply Forall_forall..].
  - intros [k v] Hin [_ Hi]. rewrite page_rows in Hi. apply (Hn k Hi). by apply (list_elem_of_fmap_2 fst _ (k, v)).
  - intros [k v] Hin Hno. apply Hno. split.
    + apply elem_of_take in Hin as (i & Hi & _). apply list_elem_of_lookup_2, elem_rows in Hi. apply Hi.
    + rewrite page_rows. by apply (list_elem_of_fmap_2 fst _ (k, v)).
Qed.

Lemma inbox_after_page : inbox p d "" after_page = skipn pageSize (inbox p d "" s).
Proof. by rewrite !inbox_rows, rows_after_page, fmap_drop. Qed.

Lemma after_page_keys : store_keys after_page.
Proof. intros k v Hv. simpl in Hv. apply map_lookup_filter_Some in Hv as [Hv _]. by apply Hk. Qed.

(** What is gone is of this inbox. *)
Lemma after_page_envelopes k v :
  s_envelopes after_page !! k = Some v ↔ s_envelopes s !! k = Some v ∧ v ∉ firstn pageSize (inbox p d "" s).
Proof.
  unfold after_page. rewrite evictable_page. simpl. rewrite map_lookup_filter_Some.
  split; intros [Hv H]; (split; [done|]); intros Hg; apply H.
  - split; simpl; [|rewrite <- (Hk k v Hv); by apply list_elem_of_fmap_2].
    rewrite inbox_rows, <- fmap_take in Hg. apply list_elem_of_fmap in Hg as ([k' v'] & -> & Hin).
    apply elem_of_take in Hin as (i & Hi & _). apply list_elem_of_lookup_2, elem_rows in Hi. apply Hi.
  - destruct Hg as [_ Hg]. simpl in Hg. rewrite page_rows in Hg.
    apply list_elem_of_fmap in Hg as ([k' v'] & E & Hin). simpl in E. subst k'.
    rewrite inbox_rows, <- fmap_take. apply list_elem_of_fmap. exists (k, v').
    apply elem_of_take in Hin as Hin'. destruct Hin' as (i & Hi & _).
    apply list_elem_of_lookup_2, elem_rows in Hi as [Hi _]. by simplify_eq.
Qed.
End page.

(** ** A round *)

Section round.
Context `{V : Verifier} (e : Env) `{!DriverOK e} (Hq : quiet e).
Context (pathID : string) (page : Request) (ackOf : list string → Request).
Context (paired : Pair) (caller : string).

Abbreviation mine s := (inbox pathID (readDirectionFor paired caller) "" s).

(** The requests of the reader are the caller's, without a cursor; the ack of a
    page lists the page. *)
Record reader_requests (s : Store) : Prop := ReaderRequests {
  rd_page : authentic s page pathID (signedTarget page) paired caller;
  rd_since : QueryGet page "since" = ""%string;
  rd_ack : ∀ ids, authentic s (ackOf ids) pathID (Path (ackOf ids)) paired caller;
  rd_ids : ∀ n, let ids := e_MsgID <$> firstn pageSize (skipn n (mine s)) in
    ids ≠ [] → ack_ids (ackOf ids) = Some ids;
  rd_bodies : Forall (λ v, body_id (e_OuterJSON v) = e_MsgID v) (mine s)
}.

Lemma authentic_unique s r message paired' caller' :
  authentic s r pathID message paired caller → authentic s r pathID message paired' caller' →
  paired' = paired ∧ caller' = caller.
Proof. intros [H1 H2 _ _] [H1' H2' _ _]. simplify_eq. split; [done|congruence]. Qed.

Lemma answered_list l : answered_bodies (listResponse l) = e_OuterJSON <$> l.
Proof. induction l as [|v l IH]; [done|]. cbn. f_equal. exact IH. Qed.

Lemma page_run s w :
  holds (w_db w) s → reader_requests s →
  ∃ w', run e (get page pathID) w = (listResponse (firstn pageSize (mine s)), w') ∧ holds (w_db w') s.
Proof.
  intros Hh Hr. pose proof (get_run e holds page pathID s w Hh) as Ho.
  destruct (run e (get page pathID) w) as [resp w']. pose proof (rd_page _ Hr) as Hp.
  inversion Ho as [paired' caller' w1 Ha _ Hw|status code w1 Hno _ Hw|w1 Hno Hw]; subst; [|exfalso..].
  - destruct (authentic_unique _ _ _ _ _ Hp Ha) as [-> ->]. exists w'. by rewrite (rd_since _ Hr).
  - apply (Hno paired caller Hp). left. apply (rd_since _ Hr).
  - done.
Qed.

Lemma ack_page_run s w :
  holds (w_db w) s → reader_requests s → mine s ≠ [] →
  ∃ resp w', run e (ack (ackOf (page_ids pathID (readDirectionFor paired caller) s)) pathID) w = (resp, w') ∧
    holds (w_db w') (after_page pathID (readDirectionFor paired caller) s).
Proof.
  intros Hh Hr Hne. set (ids := page_ids _ _ _).
  pose proof (ack_run e holds (ackOf ids) pathID s w Hh) as Ho.
  destruct (run e (ack (ackOf ids) pathID) w) as [resp w']. pose proof (rd_ack _ Hr ids) as Ha.
  assert (Hids : ids ≠ []) by (unfold ids, page_ids; by destruct (mine s)).
  pose proof (rd_ids _ Hr 0 Hids : ack_ids (ackOf ids) = Some ids) as Hi.
  assert (Hl : (length ids <= pageSize)%nat).
  { unfold ids, page_ids. rewrite length_fmap, length_take. lia. }
  inversion Ho as [paired' caller' ids' w1 Ha' Hi' Hn gone Hw|paired' caller' w1 Hp Hid Hne' Hi' Hw
                  |resp1 w1 Hno Hst Hw|w1 Hno Hw]; subst; [|exfalso..].
  - destruct (authentic_unique _ _ _ _ _ Ha Ha') as [-> ->]. simplify_eq. by eexists _, w'.
  - congruence.
  - specialize (Hno _ _ _ Ha Hi). unfold maxAckBatch, pageSize in *. lia.
  - done.
Qed.

(** The requests still fit after a round. *)
Lemma reader_after s : store_keys s → reader_requests s →
  reader_requests (after_page pathID (readDirectionFor paired caller) s).
Proof.
  intros Hk Hr. pose proof (inbox_after_page pathID (readDirectionFor paired caller) s Hk) as Hi.
  split.
  - destruct (rd_page _ Hr). by constructor.
  - apply (rd_since _ Hr).
  - intros ids. destruct (rd_ack _ Hr ids). by constructor.
  - intros n. rewrite Hi, drop_drop. apply (rd_ids _ Hr).
  - rewrite Hi. apply Forall_drop, (rd_bodies _ Hr).
Qed.

Lemma page_bodies s : reader_requests s →
  body_id <$> (e_OuterJSON <$> firstn pageSize (mine s)) =
  page_ids pathID (readDirectionFor paired caller) s.
Proof.
  intros Hr. unfold page_ids. rewrite <- list_fmap_compose.
  pose proof (Forall_take _ pageSize _ (rd_bodies _ Hr)) as Hb.
  induction Hb as [|v l Hv _ IH]; [done|]. cbn. f_equal; [exact Hv|exact IH].
Qed.

(** What is left when the inbox was read dry. *)
Record dry (s s' : Store) : Prop := Dry {
  dry_inbox : mine s' = [];
  dry_requests : s_requests s' = s_requests s;
  dry_pairs : s_pairs s' = s_pairs s;
  dry_envelopes : ∀ k v,
    s_envelopes s' !! k = Some v ↔ s_envelopes s !! k = Some v ∧ v ∉ mine s
}.

Lemma dry_empty s : mine s = [] → dry s s.
Proof.
  intros E. split; try done. intros k v. rewrite E.
  split; [intros H; split; [exact H|apply not_elem_of_nil]|by intros [? _]].
Qed.

Lemma dry_page s s' : store_keys s →
  dry (after_page pathID (readDirectionFor paired caller) s) s' → dry s s'.
Proof.
  intros Hk [H1 H2 H3 H4]. split; [done..|]. intros k v.
  rewrite H4, after_page_envelopes, inbox_after_page by done.
  rewrite <- (take_drop pageSize (mine s)) at 3. rewrite not_elem_of_app.
  split; [intros [[? ?] ?]|intros (? & ? & ?)]; auto.
Qed.

Lemma read_dry_run rounds s w :
  holds (w_db w) s → reader_requests s → (length (mine s) <= pageSize * rounds)%nat →
  ∃ w' s', run e (read_dry pathID page ackOf rounds) w = (e_OuterJSON <$> mine s, w') ∧
    holds (w_db w') s' ∧ dry s s'.
Proof.
  revert s w. induction rounds as [|rounds IH]; intros s w Hh Hr Hl.
  { assert (E : mine s = []) by (destruct (mine s); [done|simpl in Hl; lia]).
    exists w, s. rewrite E. split; [done|]. split; [done|by apply dry_empty]. }
  assert (Hk : store_keys s) by (intros k v Hv; by apply (ok_envelopes _ (proj2 Hh) k v Hv)).
  cbn [read_dry]. rewrite run_bind. destruct (page_run s w Hh Hr) as (w1 & -> & H1).
  rewrite answered_list. pose proof (page_bodies s Hr) as Hb.
  destruct (e_OuterJSON <$> firstn pageSize (mine s)) as [|b bs] eqn:E.
  { assert (Em : mine s = []) by (by destruct (mine s)).
    exists w1, s. rewrite Em. split; [done|]. split; [done|by apply dry_empty]. }
  rewrite Hb, run_bind.
  destruct (ack_page_run s w1 H1 Hr) as (resp & w2 & -> & H2); [by intros Em; rewrite Em in E|].
  rewrite run_bind.
  destruct (IH _ w2 H2 (reader_after s Hk Hr)) as (w3 & s' & -> & H3 & Hd).
  { rewrite inbox_after_page, length_drop by done. lia. }
  exists w3, s'. split; [|split; [done|by apply dry_page]].
  cbn [run]. f_equal. rewrite <- E, inbox_after_page by done. by rewrite <- fmap_app, take_drop.
Qed.

End round.

(** C12: a mailbox can be read dry.  With no driver failures, a reader that fetches
    its first page, acknowledges the ids on it and starts again receives the bodies
    of its whole inbox, each once and in the order of the ids, and leaves the inbox
    empty, within one round for every fifty messages; every other envelope, request
    and pair stays as it is. *)
Theorem inbox_reads_dry (V : Verifier) (e : Env) `{!DriverOK e} (pathID : string) (page : Request)
    (ackOf : list string → Request) (paired : Pair) (caller : string) (rounds : nat) (s : Store) (w : World) :
  quiet e → holds (w_db w) s → reader_requests pathID page ackOf paired caller s →
  let mine s := inbox pathID (readDirectionFor paired caller) "" s in
  (length (mine s) <= listLimit * rounds)%nat →
  ∃ w' s', run e (read_dry pathID page ackOf rounds) w = (e_OuterJSON <$> mine s, w') ∧
    holds (w_db w') s' ∧ mine s' = [] ∧ s_requests s' = s_requests s ∧ s_pairs s' = s_pairs s ∧
    ∀ k v, s_envelopes s' !! k = Some v ↔ s_envelopes s !! k = Some v ∧ v ∉ mine s.
Proof.
  intros Hq Hh Hr mine Hl.
  destruct (read_dry_run e Hq pathID page ackOf paired caller rounds s w Hh Hr Hl)
    as (w' & s' & Hrun & Hh' & [H1 H2 H3 H4]).
  by exists w', s'.
Qed.

(** The owner fetches its page. *)
Definition fetch_page : Request :=
  MkRequest "GET" ("/mailbox/" +:+ pathAB) "" {["X-Nexus-Signature" := [sigB]]} "" false.

Lemma owner_inbox : inbox pathAB (readDirectionFor pairAB keyB) "" delivered_store = [message].
Proof. reflexivity. Qed.

Lemma owner_reads : reader_requests pathAB fetch_page (λ _, ack_message) pairAB keyB delivered_store.
Proof.
  pose proof owner_inbox as E. split.
  - split; [reflexivity|reflexivity|done|by right].
  - reflexivity.
  - intros ids. split; [reflexivity|reflexivity|done|by right].
  - intros n. rewrite E. destruct n as [|[|n]]; intros ids Hne;
      [vm_compute; reflexivity|exfalso; apply Hne; reflexivity..].
  - rewrite E. repeat constructor.
Qed.

Theorem inbox_reads_dry_witness :
  ∃ w' s', run calm (read_dry pathAB fetch_page (λ _, ack_message) 1) delivered = ([message_body], w') ∧
    holds (w_db w') s' ∧ inbox pathAB (readDirectionFor pairAB keyB) "" s' = [].
Proof.
  destruct (inbox_reads_dry EdVerifier calm pathAB fetch_page (λ _, ack_message) pairAB keyB 1
    delivered_store delivered calm_quiet delivered_holds owner_reads) as (w' & s' & H & Hh & He & _).
  - rewrite owner_inbox. simpl. lia.
  - exists w', s'. split; [exact H|]. split; [exact Hh|exact He].
Defined.
