(* ===== verification/PairingTheorems.v ===== *)
(** * Theorems: pairing *)

From S2P Require Import Prelude GoStrings GoTime Codec Sha256 Json JsonUtf8 Http Storage Sql SQLite StoreSpec.
From S2P Require Import SQLiteRefines Patterns Replay Crypto Mailbox Pairflow PairflowKeys PairflowSpec Sched Samples.

Local Open Scope Z_scope.

(** C21: POST /pair/request, for every request and store: a valid, fresh and
    self-signed half is staged as a pending request that expires 24 hours later,
    and answered 201; a colliding id is answered 500; anything else 400; a driver
    failure is answered 500 too; only the first changes the store. *)
Theorem create_correct (Ed : Ed25519) (e : Env) `{!DriverOK e} (r : Request) (s : Store) (w : World) :
  wire_ttl_clock e → holds (w_db w) s → create_outcome e holds r s w (run e (createRequest r) w).
Proof. intros Hc Hh. apply create_run; [apply _|done..]. Qed.

Theorem create_correct_witness :
  create_outcome calm holds create_alice empty_store start (run calm (createRequest create_alice) start).
Proof. apply (create_correct toyEd calm); [exact calm_clock|exact start_holds]. Defined.

(** C22: what the owner decides.  POST /pair/requests/:id/approve, for every request
    and store: the approval of a pending request activates the pair of the two keys
    and marks the request approved, with the serialized half; a pair that exists with
    the same keys is kept and the request marked with the raw body, with other keys
    it is a conflict; a repeated approval by the pair's owner is answered 200 as
    before; anything else is an error and changes nothing.  A driver failure changes
    nothing, with the answer 500, or 409 when the pair was not read, or 200 when only
    the mark of a request whose pair exists failed; or it leaves the pair activated
    and the request pending, with the answer 500.
    Deny of a well-formed id answers 200 for a pending request, which it marks denied,
    and for a denied one, 404 for an unknown id, 409 for an approved or expired one; a
    driver failure is answered 500 and changes nothing; any other id is answered 400. *)
Theorem approve_correct (Ed : Ed25519) (e : Env) `{!DriverOK e} (r : Request) (id : string) (s : Store) (w : World) :
  holds (w_db w) s →
  (wire_clock e → approve_outcome e holds r id s w (run e (approve r id) w)) ∧
  (uuidRegex id = true →
   let '(resp, w') := run e (deny id) w in
   (resp = fst (denied id s) ∧ holds (w_db w') (snd (denied id s))) ∨
   (¬ quiet e ∧ Status resp = StatusInternalServerError ∧ holds (w_db w') s)) ∧
  (uuidRegex id = false → run e (deny id) w = (errorJSON StatusBadRequest "invalid_request_id", w)).
Proof.
  intros Hh. split_and!; [intros Hc; apply approve_run; [apply _|done..]| |].
  - intros Hu. exact (deny_run e holds id s w Hu Hh).
  - intros Hu. unfold deny. by rewrite Hu.
Qed.

Theorem approve_correct_witness :
  approve_outcome calm holds approve_bob request_id1 requested_store requested
    (run calm (approve approve_bob request_id1) requested) ∧
  let '(resp, w') := run calm (deny request_id1) requested in
  (resp = fst (denied request_id1 requested_store) ∧ holds (w_db w') (snd (denied request_id1 requested_store))) ∨
  (¬ quiet calm ∧ Status resp = StatusInternalServerError ∧ holds (w_db w') requested_store).
Proof.
  destruct (approve_correct toyEd calm approve_bob request_id1 requested_store requested requested_holds) as (Ha & Hd & _).
  split; [apply Ha, wire_ttl_wire, calm_clock|apply Hd; reflexivity].
Defined.

(** ** What an approval leaves for the poll *)

(** The poll of an approved request whose stored half decodes to [owner]. *)
Definition polled (id pathID : string) (owner : option half) : Response :=
  writeJSON StatusOK (GMap ([("request_id", GStr id); ("status", GStr StatusApproved);
    ("path_id", GStr pathID)]%string ++
    match owner with Some h => [("owner_half"%string, halfToWire h)] | None => [] end)).

Lemma path_of_nonempty requester owner : pathID_of requester owner ≠ ""%string.
Proof. unfold pathID_of. by rewrite computePathID_ordered. Qed.

Lemma approved_statusResponse json pathID req :
  json ≠ ""%string → pathID ≠ ""%string →
  statusResponse (resolve StatusApproved json pathID req) = polled (r_RequestID req) pathID (unmarshalHalf json).
Proof.
  intros Hj%isEmpty_false Hp%isEmpty_false. unfold statusResponse. unfold isEmpty in *.
  cbn [resolve r_RequestID r_Status r_PathID r_OwnerJSON]. rewrite Hj, Hp, Hp, Hj. by destruct (unmarshalHalf json).
Qed.

(** The poll after an approval that marked the request. *)
Lemma poll_approved (e : Env) `{!DriverOK e} id s w json pathID req :
  quiet e → uuidRegex id = true → s_requests s !! id = Some (resolve StatusApproved json pathID req) →
  holds (w_db w) s → json ≠ ""%string → pathID ≠ ""%string →
  ∃ w', run e (getRequestStatus id) w = (polled id pathID (unmarshalHalf json), w').
Proof.
  intros Hq Hu Hr Hh Hj Hp. pose proof (ok_requests s (proj2 Hh) id _ Hr) as [Hid _]. cbn in Hid.
  destruct (poll_run e holds id s w _ Hq Hh Hu Hr) as (w' & -> & _). exists w'.
  by rewrite approved_statusResponse, Hid.
Qed.

(** C23: the stored form of a half is faithful: for every half decoded from a
    request body, whatever bytes the body held, decoding the stored JSON gives the
    half back.  So after the approval of a pending request whose pair is new, without
    driver failures, the poll shows the owner's half as it was submitted. *)
Theorem poll_shows_owner_half :
  (∀ (raw : string) (body owner : half), unmarshalApprove raw = Some body → parseHalf body = inl owner →
     unmarshalHalf (serializeHalf owner) = Some (set_pubkeyRaw "" owner)) ∧
  (∀ (Ed : Ed25519) (e : Env) `{!DriverOK e} (r : Request) (id : string) (s : Store) (w : World)
     (req : PairRequest) (raw : string) (body requester owner : half),
     quiet e → wire_clock e → holds (w_db w) s →
     approvable s r id (now_of e w) req raw requester owner → unmarshalApprove raw = Some body →
     let pathID := pathID_of requester owner in
     s_pairs s !! pathID = None →
     ∃ w1 w2, run e (approve r id) w = (approvedResponse id pathID (halfToWire requester), w1) ∧
       run e (getRequestStatus id) w1 = (polled id pathID (Some body), w2)).
Proof.
  assert (Hround : ∀ raw body owner, unmarshalApprove raw = Some body → parseHalf body = inl owner →
     unmarshalHalf (serializeHalf owner) = Some (set_pubkeyRaw "" owner)).
  { intros raw body owner Hb%unmarshalApprove_utf8 Hp. by apply unmarshal_serialize, (parseHalf_utf8 body). }
  split; [exact Hround|]. intros Ed e He r id s w req raw body requester owner Hq Hc Hh Ha Hb pathID Hnew.
  destruct (approve_new e holds r id s w _ _ _ _ Hq Hc Hh Ha Hnew) as (w1 & -> & H1).
  destruct (poll_approved e id _ w1 (serializeHalf owner) pathID req Hq (ap_id _ _ _ _ _ _ _ _ Ha)
    (lookup_insert_eq _ _ _) H1 ltac:(done) (path_of_nonempty _ _)) as (w2 & Hw2).
  exists w1, w2. split; [done|]. rewrite Hw2. destruct (ap_owner _ _ _ _ _ _ _ _ Ha) as (b & [_ Hb'] & Hp).
  assert (b = body) as -> by congruence. rewrite (Hround _ _ _ Hb Hp).
  by apply parseHalf_valid in Hp as (key & _ & ->).
Qed.

(** The approval of [approve_bob] in a store with the request of alice. *)
Definition raw_key (k : string) : string := default "" (decodeB64URL k).

Lemma approvable_bob s :
  s_requests s !! request_id1 = Some request_alice →
  approvable s approve_bob request_id1 noon request_alice approve_body
    (set_pubkeyRaw (raw_key keyA) half_alice) (set_pubkeyRaw (raw_key keyB) half_bob).
Proof.
  intros Hr. split; try reflexivity; [exact Hr|by exists half_bob|by exists half_alice].
Qed.

Lemma path_bob : pathID_of (set_pubkeyRaw (raw_key keyA) half_alice) (set_pubkeyRaw (raw_key keyB) half_bob) = pathAB.
Proof. reflexivity. Qed.

Theorem poll_shows_owner_half_witness :
  ∃ w1 w2, run calm (approve approve_bob request_id1) requested =
      (approvedResponse request_id1 pathAB (halfToWire half_alice), w1) ∧
    run calm (getRequestStatus request_id1) w1 = (polled request_id1 pathAB (Some half_bob), w2).
Proof.
  destruct poll_shows_owner_half as [_ H].
  apply (H toyEd calm _ approve_bob request_id1 requested_store requested request_alice approve_body half_bob
    (set_pubkeyRaw (raw_key keyA) half_alice) (set_pubkeyRaw (raw_key keyB) half_bob));
    [exact calm_quiet|exact (wire_ttl_wire _ calm_clock)|exact requested_holds|by apply approvable_bob|reflexivity|reflexivity].
Defined.

(** *** Two writes *)

(** A body with the one member [owner] holds no half of its own. *)
Lemma owner_member_half raw v : Parse raw = Some (JObj [("owner"%string, v)]) → unmarshalHalf raw = Some zeroHalf.
Proof. intros H. unfold unmarshalHalf, Unmarshal. rewrite H. reflexivity. Qed.

Section two_writes.
Context `{Ed : Ed25519} (e : Env) `{!DriverOK e} (Hq : quiet e) (Hc : wire_clock e).
Context (r : Request) (id : string) (s : Store) (w : World) (Hh : holds (w_db w) s).
Context (req : PairRequest) (raw : string) (requester owner : half)
  (Ha : approvable s r id (now_of e w) req raw requester owner).

Abbreviation pathID := (pathID_of requester owner).

Lemma approve_existing_poll p :
  s_pairs s !! pathID = Some p → same_keys p requester owner →
  ∃ w1 w2, run e (approve r id) w = (approvedResponse id pathID (halfToWire requester), w1) ∧
    run e (getRequestStatus id) w1 = (polled id pathID (unmarshalHalf raw), w2).
Proof.
  intros Hp Hk. destruct (approve_existing e holds r id s w _ _ _ _ p Hq Hc Hh Ha Hp Hk) as (w1 & -> & H1).
  destruct (ap_owner _ _ _ _ _ _ _ _ Ha) as (b & [_ Hb] & _).
  destruct (poll_approved e id _ w1 raw pathID req Hq (ap_id _ _ _ _ _ _ _ _ Ha)
    (lookup_insert_eq _ _ _) H1 ltac:(by intros ->) (path_of_nonempty _ _)) as (w2 & Hw2).
  by exists w1, w2.
Qed.

(** The store between the two writes. *)
Definition half_done : Store := with_pair pathID (activated requester owner (env_clock e (S (w_ticks w)))) s.

Lemma deny_pending s' w' :
  uuidRegex id = true → holds (w_db w') s' → s_requests s' !! id = Some req → r_Status req = StatusPending →
  ∃ w1, run e (deny id) w' =
      (writeJSON StatusOK (GMap [("request_id", GStr id); ("status", GStr StatusDenied)]%string), w1) ∧
    holds (w_db w1) (with_request id (resolve StatusDenied "" "" req) s').
Proof.
  intros Hu H' Hr Hs. pose proof (deny_run e holds id s' w' Hu H') as Hd.
  destruct (run e (deny id) w') as [resp w1]. unfold denied in Hd. rewrite Hr, decide_True in Hd by done.
  destruct Hd as [[-> H1]|(? & _)]; [|done]. by exists w1.
Qed.

(** A denial after the first write. *)
Lemma deny_between_writes :
  s_pairs s !! pathID = None →
  ∃ w', run_with e 4 (approve r id) (deny id) w =
      (errorJSON StatusConflict "request_not_pending_concurrent",
       writeJSON StatusOK (GMap [("request_id", GStr id); ("status", GStr StatusDenied)]%string), w') ∧
    holds (w_db w') (with_request id (resolve StatusDenied "" "" req) half_done).
Proof.
  intros Hnew. pose proof Ha as [Hu Hreq Hs (b & [Hb Hj] & Hp) (h & Hh' & Hrq) Halg Hts Hsig].
  unfold approve. rewrite Hu. cbn [negb]. rewrite Hb, Hj. cbn iota beta.
  rewrite run_with_single by (eexists _, _, _; split; [reflexivity|]; intros [|[]]; by eexists).
  change (GetPairRequest id) with (method (OpGetPairRequest id)).
  destruct (method_quiet e holds (OpGetPairRequest id) s w Hq Hh I) as (w1 & -> & [H1 T1 _]).
  cbn [performed fst snd] in *. rewrite Hreq. cbn [found]. rewrite Hs, (String.eqb_refl StatusPending). cbn iota beta delta [negb].
  unfold approvePending. rewrite Hh'. rewrite <- Hrq, Hp, Halg, (String.eqb_refl (SigAlg requester)). cbn iota beta delta [negb].
  rewrite run_with_single by (eexists _, _, _; split; [reflexivity|]; by eexists).
  rewrite run_call. cbn [exec]. rewrite T1. unfold now_of in Hts. rewrite Hts, Hsig. cbn [negb].
  unfold approveInsert. fold pathID.
  rewrite run_with_single by (eexists _, _, _; split; [reflexivity|]; by eexists).
  rewrite run_call. cbn [exec]. cbn [w_ticks next_tick]. rewrite T1.
  rewrite run_with_single by (eexists _, _, _; split; [reflexivity|]; by eexists).
  match goal with |- context [InsertPair ?q] =>
    change (InsertPair q) with (method (OpInsertPair q)); set (row := q) end.
  destruct (method_quiet e holds (OpInsertPair row) s (next_tick (next_tick w1)) Hq H1 (Hc _)) as (w2 & -> & [H2 _ _]).
  revert H2. cbn [performed]. unfold spec_insert. change (p_PathID row) with pathID. rewrite Hnew.
  cbn [fst snd]. intros H2. change (holds (w_db w2) half_done) in H2. rewrite run_with_now.
  destruct (deny_pending _ _ Hu H2 Hreq Hs) as (w3 & -> & H3). rewrite run_bind.
  change (UpdatePairRequestStatus ?a ?b ?c ?d) with (method (OpUpdateStatus a b c d)).
  destruct (method_quiet e holds (OpUpdateStatus id StatusApproved (serializeHalf owner) pathID) _ w3 Hq H3 I)
    as (w4 & -> & [H4 _ _]).
  revert H4. cbn [performed]. unfold spec_update. cbn [with_request with_requests s_requests].
  rewrite lookup_insert_eq. cbn [resolve r_Status]. rewrite !decide_False by done. cbn [fst snd run].
  intros H4. by exists w4.
Qed.
End two_writes.

(** C24: the path id of two keys does not depend on who asks, is a well-formed id,
    which the mailbox accepts, and pins the keys: two pairs of 32-byte keys share
    it only when they are the same two keys, or SHA-256 collides on their
    concatenations. *)
Theorem path_id_pins_keys (a b c d : string) :
  len a = PublicKeySize → len b = PublicKeySize → len c = PublicKeySize → len d = PublicKeySize →
  computePathID a b = computePathID b a ∧ pathIDRegex (computePathID a b) = true ∧
  (computePathID a b = computePathID c d →
   (a = c ∧ b = d) ∨ (a = d ∧ b = c) ∨
   (ordered a b ≠ ordered c d ∧ sha256 (ordered a b) = sha256 (ordered c d))).
Proof.
  intros Ha Hb Hc Hd. split; [by rewrite !computePathID_ordered, ordered_sym|].
  split; [apply computePathID_wellformed|]. intros E. apply computePathID_inj in E.
  destruct (decide (ordered a b = ordered c d)) as [Eo|Eo]; [|by right; right].
  apply ordered_cases in Eo as [?|?]; [by left|by right; left|congruence..].
Qed.

Theorem path_id_pins_keys_witness :
  let a := Repeat "a" 32 in let b := Repeat "b" 32 in
  computePathID a b = computePathID b a ∧ pathIDRegex (computePathID a b) = true ∧
  (computePathID a b = computePathID b a →
   (a = b ∧ b = a) ∨ (a = a ∧ b = b) ∨ (ordered a b ≠ ordered b a ∧ sha256 (ordered a b) = sha256 (ordered b a))).
Proof.
  apply (path_id_pins_keys (Repeat "a" 32) (Repeat "b" 32) (Repeat "b" 32) (Repeat "a" 32)); reflexivity.
Defined.

Definition half_dh (dhAlg dhPubkey endpoint : string) : half :=
  MkHalf "alice" "ed25519" keyA dhAlg dhPubkey endpoint "n" "2026-04-18T12:00:00Z" sigA
    (default "" (decodeB64URL keyA)).

(** Without one-line fields the preimage does not pin the key: fields may
    hold newlines, and two valid halves with different Diffie-Hellman keys have
    the same v2 preimage. *)
Lemma dh_key_not_pinned :
  ∃ h h', parseHalf h = inl h ∧ parseHalf h' = inl h' ∧ DhPubkey h ≠ DhPubkey h' ∧
    canonicalBytesV2 h = canonicalBytesV2 h'.
Proof.
  exists (half_dh "x" "AAAA" ("BBBB" +:+ newline +:+ "e")), (half_dh ("x" +:+ newline +:+ "AAAA") "BBBB" "e").
  split_and!; [reflexivity|reflexivity|discriminate|reflexivity].
Qed.

(** C25: an accepted half with a Diffie-Hellman key is signed over the v2
    preimage, which no v1 preimage equals and which, for fields of one line,
    determines every field, the Diffie-Hellman key included.  Fields may hold
    newlines, though, and for those it does not: two valid halves with different
    Diffie-Hellman keys share a preimage. *)
Theorem self_sig_covers_dh (Ed : Ed25519) (h h' : half) :
  verifySelfSig h = true → DhPubkey h ≠ ""%string →
  (∃ sig, decodeB64URL (SelfSig h) = Some sig ∧ len sig = SignatureSize ∧
     ed25519_Verify (pubkeyRaw h) (canonicalBytesV2 h) sig = true) ∧
  canonicalBytesV1 h' ≠ canonicalBytesV2 h ∧
  (one_line h → one_line h' → canonicalBytesV2 h' = canonicalBytesV2 h → claims h' = claims h) ∧
  (∃ h1 h2, parseHalf h1 = inl h1 ∧ parseHalf h2 = inl h2 ∧ DhPubkey h1 ≠ DhPubkey h2 ∧
     canonicalBytesV2 h1 = canonicalBytesV2 h2).
Proof.
  intros Hv Hne. split; [|split; [apply canonical_versions|split; [|exact dh_key_not_pinned]]].
  - unfold verifySelfSig in Hv. destruct (decodeB64URL (SelfSig h)) as [sig|]; [|done].
    destruct (Z.eqb_spec (len sig) SignatureSize) as [El|]; [|done]. cbn [negb] in Hv.
    rewrite (proj2 (isEmpty_false _) Hne) in Hv. by exists sig.
  - intros H1 H2. by apply canonicalBytesV2_claims.
Qed.

Theorem self_sig_covers_dh_witness :
  (∃ sig, decodeB64URL sigA = Some sig ∧ len sig = SignatureSize ∧
     ed25519_Verify (default "" (decodeB64URL keyA)) (canonicalBytesV2 (half_dh "X25519" keyB "")) sig = true) ∧
  canonicalBytesV1 half_bob ≠ canonicalBytesV2 (half_dh "X25519" keyB "") ∧
  (one_line (half_dh "X25519" keyB "") → one_line half_bob →
   canonicalBytesV2 half_bob = canonicalBytesV2 (half_dh "X25519" keyB "") →
   claims half_bob = claims (half_dh "X25519" keyB "")).
Proof.
  destruct (self_sig_covers_dh toyEd (half_dh "X25519" keyB "") half_bob) as (H1 & H2 & H3 & _);
    [reflexivity|discriminate|]. split; [exact H1|]. split; [exact H2|exact H3].
Defined.

(** A minted request id is a well-formed UUID for any 16 random bytes, so
    the requester can poll it. *)
Lemma request_id_wellformed (b : string) : String.length b = 16%nat → uuidRegex (newUUIDv4 b) = true.
Proof. apply newUUIDv4_shape. Qed.

(** C26: what the two writes of an approval leave behind, without driver failures.
    When the pair is active already with the same keys, the approval is answered 200
    and stores the raw body, so that the poll of the request shows what this body
    decodes to as a half of its own instead of the owner's half, which for a body
    with the one member "owner" is a half with every field empty.  When the pair is
    new, a denial between the two writes is answered 200 and the approval 409: the
    request is denied, yet the pair is active. *)
Theorem approval_leaves_traces (Ed : Ed25519) (e : Env) `{!DriverOK e} (r : Request) (id : string)
    (s : Store) (w : World) (req : PairRequest) (raw : string) (requester owner : half) :
  quiet e → wire_clock e → holds (w_db w) s →
  approvable s r id (now_of e w) req raw requester owner →
  let pathID := pathID_of requester owner in
  (∀ p, s_pairs s !! pathID = Some p → same_keys p requester owner →
     (∃ w1 w2, run e (approve r id) w = (approvedResponse id pathID (halfToWire requester), w1) ∧
        run e (getRequestStatus id) w1 = (polled id pathID (unmarshalHalf raw), w2)) ∧
     (∀ v, Parse raw = Some (JObj [("owner"%string, v)]) → unmarshalHalf raw = Some zeroHalf)) ∧
  (s_pairs s !! pathID = None →
   ∃ w', run_with e 4 (approve r id) (deny id) w =
       (errorJSON StatusConflict "request_not_pending_concurrent",
        writeJSON StatusOK (GMap [("request_id", GStr id); ("status", GStr StatusDenied)]%string), w') ∧
     holds (w_db w') (with_request id (resolve StatusDenied "" "" req)
       (with_pair pathID (activated requester owner (env_clock e (S (w_ticks w)))) s))).
Proof.
  intros Hq Hc Hh Ha pathID. split; [|by apply (deny_between_writes e Hq Hc r id s w Hh req raw)].
  intros p Hp Hk. split; [by eapply approve_existing_poll|exact (owner_member_half raw)].
Qed.

(** A second request of alice when the pair is active, and her first one. *)
Definition again_store : Store := with_requests {[request_id1 := request_alice]} paired_store.
Definition again : World := MkWorld (encode_db again_store) 0 0 0.

Lemma again_holds : holds (w_db again) again_store.
Proof.
  split; [reflexivity|]. split; [apply paired_holds|apply requested_holds|apply paired_holds].
Qed.

(** The raced pair is active: its mailbox accepts the message of alice. *)
Theorem approval_leaves_traces_witness :
  (∃ w1 w2, run calm (approve approve_bob request_id1) again =
       (approvedResponse request_id1 pathAB (halfToWire half_alice), w1) ∧
     run calm (getRequestStatus request_id1) w1 = (polled request_id1 pathAB (Some zeroHalf), w2)) ∧
  (∃ w', run_with calm 4 (approve approve_bob request_id1) (deny request_id1) requested =
       (errorJSON StatusConflict "request_not_pending_concurrent",
        writeJSON StatusOK (GMap [("request_id", GStr request_id1); ("status", GStr StatusDenied)]%string), w') ∧
     holds (w_db w') (with_request request_id1 (resolve StatusDenied "" "" request_alice)
       (with_pair pathAB pairAB requested_store)) ∧
     Status (fst (run calm (put post_message pathAB) w')) = StatusAccepted).
Proof.
  destruct (approval_leaves_traces toyEd calm approve_bob request_id1 again_store again request_alice approve_body
    (set_pubkeyRaw (raw_key keyA) half_alice) (set_pubkeyRaw (raw_key keyB) half_bob)
    calm_quiet (wire_ttl_wire _ calm_clock) again_holds (approvable_bob again_store eq_refl)) as [H _].
  destruct (approval_leaves_traces toyEd calm approve_bob request_id1 requested_store requested request_alice approve_body
    (set_pubkeyRaw (raw_key keyA) half_alice) (set_pubkeyRaw (raw_key keyB) half_bob)
    calm_quiet (wire_ttl_wire _ calm_clock) requested_holds (approvable_bob requested_store eq_refl)) as [_ H'].
  split.
  - apply (H pairAB); [reflexivity|split; reflexivity].
  - destruct (H' eq_refl) as (w' & Hr & Hw). exists w'. split; [exact Hr|]. split; [exact Hw|].
    assert (snd (run_with calm 4 (approve approve_bob request_id1) (deny request_id1) requested) = w') as <- by (by rewrite Hr).
    reflexivity.
Defined.
