(* ===== verification/Session.v ===== *)
(** * From a pairing request to the first message

    The handlers composed the way two users meet: the requester asks, the owner
    approves, the requester polls and posts, the owner fetches. *)

From S2P Require Import Prelude GoStrings GoTime Codec Sha256 Json Http Storage Sql SQLite StoreSpec.
From S2P Require Import SQLiteRefines Patterns Replay Crypto Mailbox MailboxSpec Pairflow PairflowKeys.
From S2P Require Import PairflowSpec Inbox Samples MailboxTheorems Reader.

Local Open Scope Z_scope.

Section session.
Context `{Ed : Ed25519}.

(** The five requests of a session; the owner learns the id of the pending request
    on the dashboard, the requester from the answer to its own. *)
Record Requests : Type := MkRequests {
  q_create : Request;
  q_approve : Request;
  q_put : Request;
  q_get : Request
}.

Record Answers : Type := MkAnswers {
  a_create : Response;
  a_approve : Response;
  a_poll : Response;
  a_put : Response;
  a_get : Response
}.

Definition session (q : Requests) (id pathID : string) : Prog Answers :=
  let! created := createRequest (q_create q) in
  let! approved := approve (q_approve q) id in
  let! polled := getRequestStatus id in
  let! posted := put (q_put q) pathID in
  let! fetched := get (q_get q) pathID in
  Ret (MkAnswers created approved polled posted fetched).

Context (e : Env).

(** Within the replay window of every clock reading. *)
Definition always_fresh (ts : string) : Prop := ∀ n, tsInWindow ts (env_clock e n) = true.

(** The requests are well-formed: two halves with different keys, self-signed; an
    envelope for their path signed by the requester; a fetch signed by the owner. *)
Record well_formed (q : Requests) (requester owner : half) (body : string) (env : OuterEnvelope) : Prop := WellFormed {
  wf_create : ∃ raw body, ReadAllLimited (q_create q) maxBodySize = Some raw ∧
    unmarshalCreate raw = Some body ∧ 1 <= len (TargetNexusID body) <= 256 ∧
    parseHalf (Requester body) = inl requester;
  wf_create_fresh : always_fresh (HTs requester);
  wf_create_sig : verifySelfSig requester = true;
  wf_approve : ∃ raw body, approval (q_approve q) raw body ∧ parseHalf body = inl owner;
  wf_approve_fresh : always_fresh (HTs owner);
  wf_approve_sig : verifySelfSig owner = true;
  wf_keys : Pubkey requester ≠ Pubkey owner;
  wf_put : ReadAllLimited (q_put q) (Z.shiftl 2 20) = Some body ∧ unmarshalOuter body = Some env;
  wf_schema : validEnvelopeSchema env = true;
  wf_path : PathID env = pathID_of requester owner;
  wf_msg_id : uuidv7Regex (MsgID env) = true;
  wf_put_fresh : always_fresh (Ts env);
  wf_hash : ∃ ct, decodeB64URL (Ciphertext env) = Some ct ∧ hex_encode (sha256 ct) = CiphertextSHA256 env;
  wf_put_sig : signs (Pubkey requester) (HeaderGet (Header (q_put q)) "X-Nexus-Signature") (canonicalJSON env);
  wf_since : QueryGet (q_get q) "since" = ""%string;
  wf_get_sig : signs (Pubkey owner) (HeaderGet (Header (q_get q)) "X-Nexus-Signature") (signedTarget (q_get q));
  wf_get_other : ¬ signs (Pubkey requester) (HeaderGet (Header (q_get q)) "X-Nexus-Signature")
                     (signedTarget (q_get q))
}.

(** Nothing of the session is known yet. *)
Record unknown (s : Store) (id pathID msg_id : string) : Prop := Unknown {
  un_request : s_requests s !! id = None;
  un_pair : s_pairs s !! pathID = None;
  un_message : s_envelopes s !! msg_id = None;
  un_inbox : map_Forall (λ _ v, e_PathID v ≠ pathID) (s_envelopes s)
}.

(** ** Step by step *)

Context `{!DriverOK e} (Hq : quiet e) (Hc : wire_ttl_clock e).
Context (q : Requests) (requester owner : half) (body : string) (env : OuterEnvelope).
Context (Hwf : well_formed q requester owner body env).

Abbreviation pathID := (pathID_of requester owner).

(** The keys of a parsed half. *)
Lemma parsed_key h h' : parseHalf h = inl h' → key_text (Pubkey h') (pubkeyRaw h') ∧ SigAlg h' = "ed25519"%string.
Proof. intros Hp. destruct (parseHalf_valid _ _ Hp) as (raw & [] & ->). done. Qed.

Lemma requester_key : key_text (Pubkey requester) (pubkeyRaw requester) ∧ SigAlg requester = "ed25519"%string.
Proof. destruct (wf_create _ _ _ _ _ Hwf) as (raw & b & _ & _ & _ & Hp). by eapply parsed_key. Qed.

Lemma owner_key : key_text (Pubkey owner) (pubkeyRaw owner) ∧ SigAlg owner = "ed25519"%string.
Proof. destruct (wf_approve _ _ _ _ _ Hwf) as (raw & b & _ & Hp). by eapply parsed_key. Qed.

Lemma create_step s w :
  holds (w_db w) s → s_requests s !! env_id e (w_ids w) = None →
  ∃ resp w' target now,
    run e (createRequest (q_create q)) w = (resp, w') ∧ Status resp = StatusCreated ∧
    holds (w_db w') (with_request (env_id e (w_ids w)) (staged (env_id e (w_ids w)) target requester now) s).
Proof.
  intros Hh Hn. destruct (wf_create _ _ _ _ _ Hwf) as (raw & b & Hb & Hu & Hl & Hp).
  assert (Hreq : requestable (q_create q) (now_of e w) (TargetNexusID b) requester).
  { exists raw, b. split_and!; try done; [apply Hl|apply Hl|apply (wf_create_fresh _ _ _ _ _ Hwf)
      |apply (wf_create_sig _ _ _ _ _ Hwf)]. }
  pose proof (create_run e holds (q_create q) s w Hc Hh) as Ho.
  destruct (run e (createRequest (q_create q)) w) as [resp w'].
  inversion Ho as [target parsed w1 Hr id now _ Hw|? ? ? _ [? Hs] _|? ? Hno _|? Hno _]; subst; [|exfalso..].
  - destruct Hr as (raw' & b' & Hb' & Hu' & _ & _ & Hp' & _).
    assert (b' = b) as -> by congruence. assert (parsed = requester) as -> by congruence.
    exists (writeJSON StatusCreated (GMap [
      ("request_id", GStr id); ("status", GStr StatusPending);
      ("expires_at", GStr (formatRFC3339 (Add now requestTTL)))]%string)), w', target, now. done.
  - congruence.
  - by apply (Hno _ _ Hreq).
  - done.
Qed.

(** What the stored half of the requester reads back as. *)
Lemma requester_stored :
  ∃ h, unmarshalHalf (serializeHalf requester) = Some h ∧
    requester = set_pubkeyRaw (default ""%string (decodeB64URL (Pubkey h))) h.
Proof.
  destruct (wf_create _ _ _ _ _ Hwf) as (raw & b & _ & Hu & _ & Hp).
  exists (set_pubkeyRaw "" requester). split.
  - apply unmarshal_serialize, (parseHalf_utf8 _ _ (unmarshalCreate_utf8 _ _ Hu) Hp).
  - destruct requester_key as [[Hd _] _]. cbn [Pubkey set_pubkeyRaw]. rewrite Hd. by destruct requester.
Qed.

Lemma approve_step s w id target now :
  uuidRegex id = true → s_pairs s !! pathID = None →
  let req := staged id target requester now in
  let s1 := with_request id req s in
  holds (w_db w) s1 →
  ∃ w' t,
    run e (approve (q_approve q) id) w = (approvedResponse id pathID (halfToWire requester), w') ∧
    holds (w_db w') (with_request id (resolve StatusApproved (serializeHalf owner) pathID req)
      (with_pair pathID (activated requester owner t) s1)).
Proof.
  intros Hu Hnew req s1 Hh. destruct (wf_approve _ _ _ _ _ Hwf) as (raw & b & Happ & Hp).
  assert (Ha : approvable s1 (q_approve q) id (now_of e w) req raw requester owner).
  { split; try done.
    - apply lookup_insert_eq.
    - by exists b.
    - apply requester_stored.
    - destruct requester_key as [_ ->], owner_key as [_ ->]. done.
    - apply (wf_approve_fresh _ _ _ _ _ Hwf).
    - apply (wf_approve_sig _ _ _ _ _ Hwf). }
  destruct (approve_new e holds _ id s1 w req raw requester owner Hq (wire_ttl_wire e Hc) Hh Ha Hnew) as (w' & Hrun & H').
  by eexists w', _.
Qed.

(** The poll of the approved request. *)
Definition polledResponse (id : string) : Response :=
  writeJSON StatusOK (GMap [("request_id", GStr id); ("status", GStr StatusApproved);
    ("path_id", GStr pathID); ("owner_half", halfToWire owner)]%string).

Lemma poll_step s w id target now :
  uuidRegex id = true → holds (w_db w) s →
  s_requests s !! id = Some (resolve StatusApproved (serializeHalf owner) pathID (staged id target requester now)) →
  ∃ w', run e (getRequestStatus id) w = (polledResponse id, w') ∧ holds (w_db w') s.
Proof.
  intros Hu Hh Hr. destruct (poll_run e holds id s w _ Hq Hh Hu Hr) as (w' & -> & H'). exists w'. split; [|exact H'].
  f_equal.
  destruct (wf_approve _ _ _ _ _ Hwf) as (raw & b & [_ Hb] & Hp). apply unmarshalApprove_utf8 in Hb.
  rewrite (approved_poll b owner pathID); [|exact Hb|exact Hp|by unfold pathID_of; rewrite computePathID_ordered].
  apply parseHalf_valid in Hp as (key & _ & Hp).
  assert (E : halfToWire owner = halfToWire b) by (by rewrite Hp). unfold polledResponse. by rewrite E.
Qed.

Lemma activated_keys t : pair_keys_ok (activated requester owner t).
Proof.
  destruct requester_key as [Hr Ha], owner_key as [Ho _].
  split; [exact Ha|]. split; [by exists (pubkeyRaw requester)|by exists (pubkeyRaw owner)].
Qed.

Lemma key_nonempty pk raw : key_text pk raw → pk ≠ ""%string.
Proof. intros [Hd Hl] ->. injection Hd as <-. done. Qed.

Lemma put_step s w t :
  holds (w_db w) s → s_pairs s !! pathID = Some (activated requester owner t) →
  s_envelopes s !! MsgID env = None →
  ∃ w' v, run e (put (q_put q) pathID) w =
      (writeJSON StatusAccepted (GMap [("msg_id"%string, GStr (MsgID env))]), w') ∧
    holds (w_db w') (with_envelopes (<[MsgID env := v]> (s_envelopes s)) s) ∧
    e_MsgID v = MsgID env ∧ e_PathID v = pathID ∧ e_Direction v = AToB ∧ e_OuterJSON v = body.
Proof.
  intros Hh Hpair Hnew. pose proof (wire_ttl_wire e Hc) as Hw.
  destruct (Identify_complete _ (HeaderGet (Header (q_put q)) "X-Nexus-Signature") (canonicalJSON env)
    (activated_keys t)) as (pk & Hi & Hpk & _). specialize (Hpk (wf_put_sig _ _ _ _ _ Hwf)). subst pk.
  assert (Ha : acceptable s (q_put q) pathID (clock e w) (activated requester owner t) body env (Pubkey requester)).
  { destruct Hwf as [_ _ _ _ _ _ _ [Hb Hj] Hs Hp Hm Hf Hx _ _ _ _].
    split; try done; [apply Hf|eapply key_nonempty, requester_key|by left]. }
  pose proof (put_run e holds (q_put q) pathID s w Hw Hh) as Ho.
  destruct (run e (put (q_put q) pathID) w) as [resp w'].
  inversion Ho as [p b env' sender w1 Ha' _ Hs|p b env' sender w1 Ha' [? Hs]|? ? ? Hno|? Hno]; subst.
  - destruct (acceptable_fun _ _ _ _ _ _ _ _ _ _ _ _ Ha Ha') as (-> & -> & -> & ->).
    eexists w', _. split; [reflexivity|]. split; [exact Hs|]. split_and!; try done.
    unfold posted, stored_envelope, directionFrom. cbn. by rewrite String.eqb_refl.
  - destruct (acceptable_fun _ _ _ _ _ _ _ _ _ _ _ _ Ha Ha') as (-> & -> & -> & ->). congruence.
  - by destruct (Hno _ _ _ _ Ha).
  - done.
Qed.

(** The owner reads what the requester posts. *)
Lemma owner_direction t : readDirectionFor (activated requester owner t) (Pubkey owner) = AToB.
Proof.
  unfold readDirectionFor. cbn. destruct (String.eqb_spec (Pubkey owner) (Pubkey requester)) as [E|_].
  - by destruct (wf_keys _ _ _ _ _ Hwf).
  - by rewrite String.eqb_refl.
Qed.

Lemma get_step s w t :
  holds (w_db w) s → s_pairs s !! pathID = Some (activated requester owner t) →
  ∃ w', run e (get (q_get q) pathID) w =
    (listResponse (firstn pageSize (inbox pathID AToB "" s)), w') ∧ holds (w_db w') s.
Proof.
  intros Hh Hpair. destruct Hwf as [_ _ _ _ _ _ _ _ _ _ _ _ _ _ Hs Hg Hn].
  destruct (Identify_complete _ (HeaderGet (Header (q_get q)) "X-Nexus-Signature") (signedTarget (q_get q))
    (activated_keys t)) as (pk & Hi & _ & Hpk & _). specialize (Hpk Hg Hn). subst pk.
  assert (Ha : authentic s (q_get q) pathID (signedTarget (q_get q)) (activated requester owner t) (Pubkey owner)).
  { split; [done|done|eapply key_nonempty, owner_key|by right]. }
  pose proof (get_run e holds (q_get q) pathID s w Hh) as Ho.
  destruct (run e (get (q_get q) pathID) w) as [resp w'].
  inversion Ho as [p caller w1 [Hp' Hi' _ _] _ Hw|? ? ? Hno|]; subst.
  - assert (p = activated requester owner t) as -> by congruence.
    pose proof (eq_trans (eq_sym Hi) Hi') as [= <-].
    exists w'. split; [|exact Hw]. rewrite Hs. by rewrite owner_direction.
  - destruct (Hno _ _ Ha). by left.
  - done.
Qed.

(** The only envelope of its inbox. *)
Lemma first_inbox s v :
  map_Forall (λ _ v, e_PathID v ≠ pathID) (s_envelopes s) → s_envelopes s !! e_MsgID v = None →
  e_PathID v = pathID → e_Direction v = AToB → uuidv7Regex (e_MsgID v) = true →
  inbox pathID AToB "" (with_envelopes (<[e_MsgID v := v]> (s_envelopes s)) s) = [v].
Proof.
  intros Hall Hn Hp Hd Hu.
  assert (E : rows pathID AToB "" s = []).
  { apply elem_of_nil_inv. intros [k x] Hx. apply elem_rows in Hx as (Hx & Hpx & _). by apply (Hall k x). }
  assert (Hg : addressed pathID AToB "" (e_MsgID v, v)).
  { split; [done|]. split; [done|]. cbn [fst]. apply uuidv7Regex_nonempty in Hu. by destruct (e_MsgID v). }
  pose proof (rows_insert pathID AToB "" s _ _ Hg Hn) as Hr. rewrite E in Hr.
  apply Permutation_singleton_r in Hr. by rewrite inbox_rows, Hr.
Qed.

Lemma session_run s w id :
  holds (w_db w) s → id = env_id e (w_ids w) → uuidRegex id = true → unknown s id pathID (MsgID env) →
  ∃ created v w', run e (session q id pathID) w =
    (MkAnswers created (approvedResponse id pathID (halfToWire requester)) (polledResponse id)
      (writeJSON StatusAccepted (GMap [("msg_id"%string, GStr (MsgID env))])) (listResponse [v]), w') ∧
    Status created = StatusCreated ∧ e_MsgID v = MsgID env ∧ e_OuterJSON v = body.
Proof.
  intros Hh -> Hu [Hr Hp Hm Hi]. unfold session.
  destruct (create_step s w Hh Hr) as (created & w1 & target & now & H1 & Hs & Hh1). rewrite run_bind, H1.
  destruct (approve_step s w1 _ target now Hu Hp Hh1) as (w2 & t & H2 & Hh2). rewrite run_bind, H2.
  destruct (poll_step _ w2 _ target now Hu Hh2) as (w3 & H3 & Hh3); [apply lookup_insert_eq|]. rewrite run_bind, H3.
  destruct (put_step _ w3 t Hh3) as (w4 & v & H4 & Hh4 & Ev & Epath & Edir & Ebody); [apply lookup_insert_eq|done|].
  rewrite run_bind, H4.
  destruct (get_step _ w4 t Hh4) as (w5 & H5 & _); [apply lookup_insert_eq|]. rewrite run_bind, H5.
  exists created, v, w5. split; [|done]. cbn [run]. rewrite <- Ev, first_inbox; try done; rewrite Ev; [done|].
  apply (wf_msg_id _ _ _ _ _ Hwf).
Qed.
End session.

(** C5: two users who meet through the relay get their first message across.
    With no driver failures and clocks of years 0 to 9999: the requester's valid half
    is staged (201), the owner's approval pairs the two keys, the requester's
    poll shows the owner's half and the path id, its signed envelope is accepted
    (202), and the owner's signed fetch returns a page with that envelope alone, its
    body byte for byte as it was posted. *)
Theorem first_message_delivered (Ed : Ed25519) (e : Env) `{!DriverOK e} (q : Requests) (requester owner : half)
    (body : string) (env : OuterEnvelope) (id : string) (s : Store) (w : World) :
  quiet e → wire_ttl_clock e → holds (w_db w) s →
  well_formed e q requester owner body env →
  id = env_id e (w_ids w) → uuidRegex id = true →
  unknown s id (pathID_of requester owner) (MsgID env) →
  ∃ created v w', run e (session q id (pathID_of requester owner)) w =
    (MkAnswers created
      (approvedResponse id (pathID_of requester owner) (halfToWire requester))
      (polledResponse requester owner id)
      (writeJSON StatusAccepted (GMap [("msg_id"%string, GStr (MsgID env))]))
      (listResponse [v]), w') ∧
    Status created = StatusCreated ∧ e_MsgID v = MsgID env ∧ e_OuterJSON v = body.
Proof. intros Hq Hc Hh Hwf. by apply session_run. Qed.

(** Alice asks, Bob approves, Alice posts, Bob fetches. *)
Definition requests_ab : Requests := MkRequests create_alice approve_bob post_message fetch_page.
Definition parsed_alice : half := set_pubkeyRaw (default "" (decodeB64URL keyA)) half_alice.
Definition parsed_bob : half := set_pubkeyRaw (default "" (decodeB64URL keyB)) half_bob.
Definition envelope_ab : OuterEnvelope :=
  default zeroOuter (unmarshalOuter message_body).

(** What [toyEd] accepts, whatever the message. *)
Definition toy_signed (k sigB64 : string) : bool :=
  match decodeB64URL k, decodeB64URL sigB64 with
  | Some raw, Some sig => (len raw =? PublicKeySize) && (len sig =? SignatureSize) && HasPrefix sig (take_bytes 8 raw)
  | _, _ => false
  end.

Lemma toy_signs k sigB64 m : signs k sigB64 m ↔ toy_signed k sigB64 = true.
Proof.
  unfold signs, key_text, toy_signed. split.
  - intros (raw & sig & [-> ->] & -> & -> & Hv). exact Hv.
  - destruct (decodeB64URL k) as [raw|]; [|done]. destruct (decodeB64URL sigB64) as [sig|]; [|done].
    intros H. bool_prop. by exists raw, sig.
Qed.

Lemma requests_ab_ok : well_formed calm requests_ab parsed_alice parsed_bob message_body envelope_ab.
Proof.
  split.
  - exists (BodyData create_alice), (default (MkCreateBody "" zeroHalf) (unmarshalCreate (BodyData create_alice))).
    split_and!; vm_compute; (reflexivity || discriminate).
  - intros n. vm_compute. reflexivity.
  - vm_compute. reflexivity.
  - exists approve_body, half_bob. split; [split|]; vm_compute; reflexivity.
  - intros n. vm_compute. reflexivity.
  - vm_compute. reflexivity.
  - discriminate.
  - split; vm_compute; reflexivity.
  - vm_compute. reflexivity.
  - vm_compute. reflexivity.
  - vm_compute. reflexivity.
  - intros n. vm_compute. reflexivity.
  - exists "hi"%string. split; vm_compute; reflexivity.
  - apply toy_signs. vm_compute. reflexivity.
  - reflexivity.
  - apply toy_signs. vm_compute. reflexivity.
  - rewrite toy_signs. vm_compute. discriminate.
Qed.

Theorem first_message_delivered_witness :
  ∃ created v w', run calm (session requests_ab request_id1 pathAB) start =
    (MkAnswers created (approvedResponse request_id1 pathAB (halfToWire half_alice))
      (polledResponse parsed_alice parsed_bob request_id1)
      (writeJSON StatusAccepted (GMap [("msg_id"%string, GStr message_id)])) (listResponse [v]), w') ∧
    Status created = StatusCreated ∧ e_MsgID v = message_id ∧ e_OuterJSON v = message_body.
Proof.
  apply (first_message_delivered toyEd calm requests_ab parsed_alice parsed_bob message_body envelope_ab
    request_id1 empty_store start calm_quiet calm_clock start_holds requests_ab_ok); [reflexivity..|].
  split; [reflexivity|reflexivity|reflexivity|apply map_Forall_empty].
Defined.
