(* ===== verification/RelayTheorems.v ===== *)
(** * Theorems: the relay as a whole *)

From S2P Require Import Prelude GoStrings GoTime Codec Sha256 Json JsonUtf8 Http Storage Sql SQLite StoreSpec.
From S2P Require Import SQLiteRefines Patterns Replay Crypto Mailbox Pairflow PairflowKeys Sweep Sched Concurrent Samples.

Local Open Scope Z_scope.

(** C1: in every state the relay reaches from empty tables, whatever requests
    arrive, fail and sweep in whatever interleaving of their statements: every
    pair is stored under the id of its two well-formed keys; every request holds
    a valid self-signed half, and an approved one names an active pair with its
    requester's key; every envelope belongs to an active pair and its stored body
    decodes to its two ids. *)
Theorem relay_invariant (Ed : Ed25519) (V : Verifier) (c : pool) :
  reaches empty_db c → db_inv (fst c).
Proof. intros H. by apply (reaches_inv empty_db c db_inv_empty). Qed.

Lemma expire_step (d : DB) :
  pair_requests d = ∅ → stmt_step (SqlExpire StatusExpired StatusPending (formatTime noon)) d (inr 0) d.
Proof.
  intros E. exists calm, (MkWorld d 0 0 0), (MkWorld d 0 0 1). split_and!; [apply _|done| |done].
  simpl. unfold sql, expire. simpl. rewrite E, fmap_empty. do 2 f_equal. unfold set_requests. rewrite <- E. by destruct d.
Qed.

Lemma now_step (d : DB) : stmt_step Now d noon d.
Proof. by exists calm, (MkWorld d 0 0 0), (MkWorld d 1 0 0). Qed.

(** Two statements of a poll executed. *)
Lemma poll_reaches (V : Verifier) (d : DB) :
  pair_requests d = ∅ → ∃ p, reaches (V := V) d (d, [p]).
Proof.
  intros Hd. eexists. eapply rtc_l; [apply PoolSpawn, (TaskPublic post_message)|].
  eapply rtc_l; [apply (PoolStep _ _ Now _ _ _ _ [] [] (now_step d))|].
  eapply rtc_l; [apply (PoolStep _ _ _ _ _ _ _ [] [] (expire_step d Hd))|].
  apply rtc_refl.
Qed.

(** Tables with one active pair. *)
Lemma paired_inv : db_inv (encode_db paired_store).
Proof.
  split; simpl; rewrite ?fmap_empty; try apply map_Forall_empty.
  rewrite map_fmap_singleton. apply map_Forall_singleton.
  exists (default "" (decodeB64URL keyA))%string, (default "" (decodeB64URL keyB))%string. split_and!; try reflexivity; split; reflexivity.
Qed.

Theorem relay_invariant_witness : db_inv empty_db.
Proof.
  destruct (poll_reaches StubVerifier empty_db eq_refl) as [p Hp]. exact (relay_invariant toyEd StubVerifier (empty_db, [p]) Hp).
Defined.

(** While the relay runs, no active pair changes or disappears, no request
    disappears, and a request that is approved, denied or expired never changes
    again; under every interleaving and driver failure. *)
Theorem relay_final (Ed : Ed25519) (V : Verifier) (d0 : DB) (c : pool) :
  db_inv d0 → reaches d0 c →
  (∀ k p, pairs d0 !! k = Some p → pairs (fst c) !! k = Some p) ∧
  (∀ k r, pair_requests d0 !! k = Some r →
     ∃ r', pair_requests (fst c) !! k = Some r' ∧
       rr_requester_json r' = rr_requester_json r ∧ rr_target_nexus_id r' = rr_target_nexus_id r ∧
       (rr_status r ≠ StatusPending → r' = r) ∧
       (rr_status r = StatusPending → rr_status r' ∈ [StatusPending; StatusApproved; StatusDenied; StatusExpired])).
Proof.
  intros Hi Hr. destruct (reaches_inv d0 c Hi Hr) as [_ [Hp Hq]]. split; [done|].
  intros k r Hk. destruct (Hq k r Hk) as (r' & Hr' & [->|(Hs & Hs' & _ & _ & Hj & Ht)]); [|].
  - exists r. split_and!; try done. intros ->. mem.
  - exists r'. split_and!; try done. intros _. by right.
Qed.

Theorem relay_final_witness :
  ∃ p, pairs (encode_db paired_store) !! pathAB = Some p ∧
    (∀ k p, pairs (encode_db paired_store) !! k = Some p → pairs (encode_db paired_store) !! k = Some p).
Proof.
  destruct (poll_reaches StubVerifier (encode_db paired_store) eq_refl) as [p Hp].
  exists (pair_row pairAB). split; [reflexivity|].
  exact (proj1 (relay_final toyEd StubVerifier _ (encode_db paired_store, [p]) paired_inv Hp)).
Defined.

(** C27: on every pair the relay ever stores the Ed25519 verifier answers
    without an error, so no mailbox request fails with verifier_error. *)
Theorem verifier_never_fails (Ed : Ed25519) (V : Verifier) (d0 : DB) (c : pool) (k : string)
    (row : PairRow) (p : Pair) :
  db_inv d0 → reaches d0 c → pairs (fst c) !! k = Some row → scanPair k row = Ok p →
  pair_keys_ok p ∧ ∀ sigB64 message, ∃ pk, EdVerifier p sigB64 message = Ok pk.
Proof.
  intros Hi Hr Hk Hs. destruct (reaches_inv d0 c Hi Hr) as [[Hp _ _] _].
  destruct (Hp k row Hk) as (rr & ro & Hrr & Hro & _ & Ha).
  assert (Hok : pair_keys_ok p).
  { unfold scanPair in Hs. destruct (parseTime _); [|done]. injection Hs as <-.
    split; [done|]. split; [by exists rr|by exists ro]. }
  split; [done|]. intros sigB64 message. destruct (Identify_complete p sigB64 message Hok) as (pk & H & _).
  by exists pk.
Qed.

Theorem verifier_never_fails_witness :
  pair_keys_ok pairAB ∧ ∀ sigB64 message, ∃ pk, EdVerifier pairAB sigB64 message = Ok pk.
Proof.
  apply (verifier_never_fails toyEd StubVerifier (encode_db paired_store) (encode_db paired_store, []) pathAB
    (pair_row pairAB) pairAB); [exact paired_inv|apply rtc_refl|reflexivity|reflexivity].
Defined.

(** *** The sweeper *)


(** Eight days after a message and a request came in. *)
Definition late : Env := MkEnv (λ _, noon + 8 * 24 * Hour) (env_id calm) (λ _, None) (env_unique calm).

#[local] Instance late_driver : DriverOK late.
Proof. split; [reflexivity|done]. Qed.





