(* ===== verification/Wire.v ===== *)
(** * What a reader decodes from a page

    The bytes GET answers with, read by a client that uses encoding/json: every
    page decodes to the posted bodies unless one of them nests nearly as deeply
    as the scanner allows, which the two brackets around it then exceed. *)

From S2P Require Import Json JsonUtf8 JsonText JsonTextSpec JsonRead.
From S2P Require Import Prelude GoStrings GoTime Codec Sha256 Http Storage Sql SQLite StoreSpec SQLiteRefines.
From S2P Require Import Crypto Replay Mailbox MailboxSpec PairflowSpec Inbox Samples Sched Concurrent MailboxTheorems Reader RelayTheorems.

Local Open Scope Z_scope.

(** ** Bodies of responses *)

Lemma wire_Parse v j :
  tree v = Some j → Parse (wire (BJson v)) = if decide (Z.of_nat (depth v) <= maxNestingDepth) then Some j else None.
Proof.
  intros Hj. destruct (Encode_Parse v j Hj) as (t & Ht & Hp). simpl. rewrite Ht.
  case_decide as Hd.
  - destruct (Parse_run t j Hp) as (m & R & Hm). apply (ends_Parse _ _ (MEndValue j)); [|constructor].
    rewrite run_app, R. cbn [mbind option_bind Json.run]. rewrite (ends_step j) by (done || by left). done.
  - pose proof (Encode_reads v) as H. unfold encodes in H. rewrite Hj in H. destruct H as (t' & Ht' & [_ Hw]).
    simplify_eq. specialize (Hw [] ltac:(done) ltac:(done)). unfold reads in Hw.
    rewrite decide_False in Hw by (simpl; lia). unfold Parse. by rewrite run_app, Hw.
Qed.

(** ** Pages *)

(** How deep the bodies of a page nest. *)
Definition page_depth (es : list Envelope) : nat := max_list (map (λ v, Nesting (e_OuterJSON v)) es).

Definition page_cursor (es : list Envelope) : string := default ""%string (e_MsgID <$> last es).

(** The page a reader sees. *)
Definition page_value (es : list Envelope) (js : list json) : json :=
  JObj [("envelopes", JArr js);
    ("cursor", if String.eqb (page_cursor es) "" then JNull else JStr (page_cursor es))]%string.

(** A stored envelope's body decodes to its ids. *)
Definition decodes (v : Envelope) : Prop :=
  ∃ o, unmarshalOuter (e_OuterJSON v) = Some o ∧ MsgID o = e_MsgID v ∧ PathID o = e_PathID v.

Lemma decodes_tree v : decodes v → ∃ j, Parse (e_OuterJSON v) = Some j.
Proof.
  intros (o & Ho & _). unfold unmarshalOuter, Unmarshal in Ho. destruct (Parse _) as [j|]; [by exists j|done].
Qed.

Lemma decodes_id v : decodes v → repair (e_MsgID v) = e_MsgID v.
Proof. intros (o & Ho & <- & _). apply unmarshalOuter_utf8 in Ho as []. by apply repair_utf8. Qed.

Lemma page_trees es :
  Forall decodes es → ∃ js, Forall2 (λ v j, Parse (e_OuterJSON v) = Some j) es js ∧
    mapM tree ((λ e, GRaw (e_OuterJSON e)) <$> es) = Some js.
Proof.
  induction 1 as [|v es Hv _ (js & H1 & H2)]; [by exists []|]. destruct (decodes_tree v Hv) as [j Hj].
  exists (j :: js). split; [by constructor|]. rewrite fmap_cons, mapM_option_cons. cbn [tree]. by rewrite Hj, H2.
Qed.

Lemma page_parses es :
  Forall decodes es →
  ∃ js, Forall2 (λ v j, Parse (e_OuterJSON v) = Some j) es js ∧
    Parse (wire (RespBody (listResponse es))) =
      if decide (Z.of_nat (page_depth es) + 2 <= maxNestingDepth) then Some (page_value es js) else None.
Proof.
  intros H. destruct (page_trees es H) as (js & Hf & Hm). exists js. split; [done|].
  set (cur := if String.eqb (page_cursor es) "" then GNull else GStr (page_cursor es)).
  assert (tree cur = Some (if String.eqb (page_cursor es) "" then JNull else JStr (page_cursor es))) as Hc.
  { unfold cur. destruct (String.eqb_spec (page_cursor es) "") as [|Hn]; [done|]. cbn [tree]. do 2 f_equal.
    unfold page_cursor in *. destruct (last es) as [v|] eqn:E; [|done]. simpl.
    apply decodes_id. rewrite Forall_forall in H. apply H. by apply last_Some_elem_of. }
  set (v := GStruct [("envelopes", GList ((λ e, GRaw (e_OuterJSON e)) <$> es)); ("cursor", cur)]%string).
  change (RespBody (listResponse es)) with (BJson v).
  assert (tree v = Some (page_value es js)) as Ht.
  { unfold v. cbn [tree]. rewrite !mapM_option_cons. cbn [tree fst snd]. rewrite Hm. cbn [mbind option_bind].
    fold (tree cur). rewrite Hc. reflexivity. }
  rewrite (wire_Parse v _ Ht). apply decide_ext.
  assert (depth v = 2 + page_depth es)%nat as ->; [|lia].
  assert (depth cur = 0)%nat as Hd by (unfold cur; by destruct (String.eqb _ _)).
  unfold v, page_depth. cbn [depth map snd max_list foldr]. rewrite Hd.
  assert (map depth ((λ e, GRaw (e_OuterJSON e)) <$> es) = map (λ v, Nesting (e_OuterJSON v)) es) as ->
    by apply map_map.
  simpl. lia.
Qed.

(** What is stored was decoded when it was posted. *)
Lemma inbox_decodes (Ed : Ed25519) p d since s :
  holds (encode_db s) s → @db_inv Ed (encode_db s) → Forall decodes (firstn pageSize (inbox p d since s)).
Proof.
  intros [_ Hok] Hi. apply Forall_take, Forall_forall. intros v Hv. rewrite inbox_rows in Hv.
  apply list_elem_of_fmap in Hv as ([k v'] & -> & Hin). apply elem_rows in Hin as (Hk & _ & _ & _).
  pose proof (ok_envelopes s Hok k v' Hk) as [He _].
  destruct (i_envelopes _ Hi k (envelope_row v')) as (_ & _ & o & Ho & Hm & Hp).
  - simpl. by rewrite lookup_fmap, Hk.
  - exists o. simpl in *. split_and!; [done|congruence|done].
Qed.

(** ** A message with a deep member *)

(** [n + 1] arrays around nothing. *)
Fixpoint nested (n : nat) : string := match n with O => "[]" | S n => "[" +:+ nested n +:+ "]" end.
Fixpoint nested_value (n : nat) : json := JArr match n with O => [] | S n => [nested_value n] end.

Lemma nested_writes n : writes (nested n) (nested_value n) (S n).
Proof.
  induction n as [|n IH]; [by apply (writes_array [])|].
  by apply (writes_array [MkItem (nested n) (nested_value n) (S n)]), list.Forall_singleton.
Qed.

Lemma nested_length n : String.length (nested n) = (2 * n + 2)%nat.
Proof. induction n as [|n IH]; [done|]. cbn [nested]. rewrite !length_app_s, IH. simpl. lia. Qed.

Lemma nested_head n : ∃ r, nested n = String "[" r.
Proof. destruct n; by eexists. Qed.

Lemma nested_deepest n st r :
  Z.of_nat (S n) + Z.of_nat (length st) <= maxNestingDepth →
  (S n + length st <= deepest (MBeginValue, st) (nested n +:+ r))%nat.
Proof.
  assert (∀ m st s, m = MBeginValue ∨ m = MBeginValueOrEmpty → Z.of_nat (length st) + 1 <= maxNestingDepth →
    deepest (m, st) (String "[" s) = (length st `max` deepest (MBeginValueOrEmpty, FArr [] :: st) s)%nat) as Hs.
  { intros m st' s Hm Hl. assert (step (m, st') "[" = Some (MBeginValueOrEmpty, FArr [] :: st')) as E.
    { destruct Hm as [->| ->]; change (push (FArr []) MBeginValueOrEmpty st' = Some (MBeginValueOrEmpty, FArr [] :: st'));
        unfold push; by rewrite (proj2 (Z.leb_le _ _) Hl). }
    cbn [deepest]. by rewrite E. }
  assert (∀ n m st r, m = MBeginValue ∨ m = MBeginValueOrEmpty →
    Z.of_nat (S n) + Z.of_nat (length st) <= maxNestingDepth →
    (S n + length st <= deepest (m, st) (nested n +:+ r))%nat) as H; [|exact (H n MBeginValue st r (or_introl eq_refl))].
  clear n st r. induction n as [|n IH]; intros m st r Hm Hl.
  - change (nested 0 +:+ r) with (String "[" (String "]" r)). rewrite Hs by (done || lia).
    pose proof (deepest_start (MBeginValueOrEmpty, FArr [] :: st) (String "]" r)). simpl snd in H. simpl length in H. lia.
  - cbn [nested]. change (("[" +:+ nested n +:+ "]") +:+ r) with (String "[" ((nested n +:+ "]") +:+ r)).
    rewrite app_assoc_s, Hs by (done || lia). specialize (IH MBeginValueOrEmpty (FArr [] :: st) ("]" +:+ r) (or_intror eq_refl)).
    simpl length in IH. lia.
Qed.

(** The sample message with one more member, which decoding ignores. *)
Definition deep_body (n : nat) : string := quoted "{'x':" +:+ nested n +:+ String "," (drop_bytes 1 message_body).

Section deep.
Context (n : nat) (Hn : Z.of_nat n + 2 <= maxNestingDepth).

Lemma deep_Parse : ∃ ms, Parse (deep_body n) = Some (JObj (("x"%string, nested_value n) :: ms)) ∧
  decode_struct outer_fields (JObj ms) zeroOuter = (sample_outer, true).
Proof.
  eexists. unfold Parse, deep_body. rewrite run_app.
  change (Json.run (MBeginValue, []) (quoted "{'x':")) with (Some (MBeginValue, [FVal [] "x"%string])).
  cbn [mbind option_bind].
  rewrite (run_item (MkItem (nested n) (nested_value n) (S n)) _ "," _ (MBeginString, [FKey [("x"%string, nested_value n)]]));
    [|apply nested_writes|done|done|done].
  rewrite decide_True by (simpl; lia). split; [reflexivity|reflexivity].
Qed.

Lemma deep_decodes : unmarshalOuter (deep_body n) = Some sample_outer.
Proof.
  destruct deep_Parse as (ms & Hp & Hd). unfold unmarshalOuter, Unmarshal. rewrite Hp. cbn [mbind option_bind].
  change (decode_struct outer_fields (JObj (("x"%string, nested_value n) :: ms)) zeroOuter)
    with (decode_struct outer_fields (JObj ms) zeroOuter). by rewrite Hd.
Qed.

Lemma deep_Nesting : (n + 2 <= Nesting (deep_body n))%nat.
Proof.
  unfold Nesting, deep_body.
  rewrite (deepest_app _ _ _ (MBeginValue, [FVal [] "x"%string])) by reflexivity.
  pose proof (nested_deepest n [FVal [] "x"%string] (String "," (drop_bytes 1 message_body))) as H.
  simpl length in H. lia.
Qed.

(** The requester posts it. *)
Definition post_deep : Request :=
  MkRequest "PUT" ("/mailbox/" +:+ pathAB) "" {["X-Nexus-Signature" := [sigA]]} (deep_body n) false.

Lemma deep_acceptable : acceptable paired_store post_deep pathAB noon pairAB (deep_body n) sample_outer keyA.
Proof.
  constructor; try reflexivity; [|apply deep_decodes|exists "hi"%string; split; reflexivity|discriminate|by left].
  apply ReadAllLimited_short; [|done]. cbn [BodyData post_deep]. unfold len, deep_body.
  rewrite !length_app_s. cbn [String.length]. rewrite nested_length.
  change (String.length (quoted "{'x':")) with 5%nat.
  change (String.length (drop_bytes 1 message_body)) with (String.length message_body - 1)%nat.
  assert (Z.of_nat (String.length message_body) < 1000) by done.
  change (Z.shiftl 2 20) with 2097152. unfold maxNestingDepth in Hn. lia.
Qed.
End deep.

(** *** It is accepted, and spoils the page it is on *)

Lemma owner_inbox_of body :
  inbox pathAB (readDirectionFor pairAB keyB) ""
    (with_envelopes (<[message_id := MkEnvelope message_id pathAB AToB noon "aGk" sigA body]> (s_envelopes paired_store))
      paired_store) = [MkEnvelope message_id pathAB AToB noon "aGk" sigA body].
Proof. reflexivity. Qed.

Lemma deep_put n :
  Z.of_nat n + 2 <= maxNestingDepth →
  ∃ r w, run calm (put (post_deep n) pathAB) paired = (r, w) ∧ Status r = StatusAccepted ∧
    holds (w_db w) (with_envelopes (<[message_id := MkEnvelope message_id pathAB AToB noon "aGk" sigA (deep_body n)]>
      (s_envelopes paired_store)) paired_store).
Proof.
  intros Hn. pose proof (deep_acceptable n Hn) as Ha.
  pose proof (put_run calm holds (post_deep n) pathAB paired_store paired (wire_ttl_wire _ calm_clock) paired_holds) as Ho.
  destruct (run calm (put (post_deep n) pathAB) paired) as [r w].
  inversion Ho as [p b o k w1 Ha' _ Hw|p b o k w1 _ [v Hv]|status code w1 Hno|w1 Hno]; subst.
  - destruct (acceptable_fun _ _ _ _ _ _ _ _ _ _ _ _ Ha Ha') as (-> & -> & -> & ->). eexists _, w.
    split; [reflexivity|]. split; [reflexivity|exact Hw].
  - done.
  - exfalso. by eapply Hno.
  - exfalso. by apply Hno, calm_quiet.
Qed.

Lemma deep_get n w :
  Z.of_nat n + 2 <= maxNestingDepth →
  let v := MkEnvelope message_id pathAB AToB noon "aGk" sigA (deep_body n) in
  holds (w_db w) (with_envelopes (<[message_id := v]> (s_envelopes paired_store)) paired_store) →
  ∃ w', run calm (get fetch_page pathAB) w = (listResponse [v], w').
Proof.
  intros Hn v Hh. set (s := with_envelopes _ _) in Hh.
  assert (authentic s fetch_page pathAB (signedTarget fetch_page) pairAB keyB) as Ha
    by (split; [reflexivity|reflexivity|done|by right]).
  pose proof (get_run calm holds fetch_page pathAB s w Hh) as Ho.
  destruct (run calm (get fetch_page pathAB) w) as [r w'].
  inversion Ho as [p k w1 Ha' _ Hw|status code w1 Hno|w1 Hno]; subst.
  - destruct (authentic_unique _ _ _ _ _ _ _ _ Ha Ha') as [-> ->]. exists w'.
    change (QueryGet fetch_page "since") with ""%string. unfold s, v. by rewrite owner_inbox_of.
  - exfalso. apply (Hno _ _ Ha). by left.
  - exfalso. by apply Hno, calm_quiet.
Qed.

(** C13: what GET sends can be read back.  In a state with the invariant every
    reached state has, whatever Ed25519 the signatures were checked with, a page
    answered with 200 is a list of bodies that decode to their ids, and its bytes
    are JSON for exactly these bodies and the cursor unless one of them nests
    deeper than 9998 brackets, when encoding/json refuses the whole page.  PUT
    accepts such a body: a message with 9999 arrays in a member nobody reads is
    answered 202, and the next page of its reader does not parse. *)
Theorem pages_decode :
  (∀ (Ed : Ed25519) (V : Verifier) (e : Env) `{!DriverOK e} (r : Request) (pathID : string) (s : Store) (w w' : World) (resp : Response),
    holds (w_db w) s → @db_inv Ed (w_db w) → run e (get r pathID) w = (resp, w') → Status resp = StatusOK →
    ∃ es js, resp = listResponse es ∧ Forall decodes es ∧
      Forall2 (λ v j, Parse (e_OuterJSON v) = Some j) es js ∧
      Parse (wire (RespBody resp)) =
        if decide (Z.of_nat (page_depth es) + 2 <= maxNestingDepth) then Some (page_value es js) else None) ∧
  (∃ body r1 w1 r2 w2,
    run calm (put (MkRequest "PUT" ("/mailbox/" +:+ pathAB) "" {["X-Nexus-Signature" := [sigA]]} body false) pathAB) paired
      = (r1, w1) ∧ Status r1 = StatusAccepted ∧
    run calm (get fetch_page pathAB) w1 = (r2, w2) ∧ Status r2 = StatusOK ∧ Parse (wire (RespBody r2)) = None).
Proof.
  split.
  - intros Ed V e He r pathID s w w' resp Hh Hi Hr Hs. pose proof (get_run e holds r pathID s w Hh) as Ho. rewrite Hr in Ho.
    inversion Ho as [p k w1 _ _ _ E|status code w1 _ Hst _ E|w1 _ _ E]; subst.
    + pose proof (proj1 Hh) as E. rewrite E in Hh, Hi.
      pose proof (inbox_decodes Ed pathID (readDirectionFor p k) (QueryGet r "since") s Hh Hi) as Hd.
      destruct (page_parses _ Hd) as (js & Hf & Hp). eexists _, js. split_and!; [done..|exact Hp].
    + simpl in Hs. subst status. exfalso. by set_unfold in Hst; destruct_or! Hst.
    + done.
  - assert (∃ n, Z.of_nat n = 9998) as [n En] by (exists (Z.to_nat 9998); lia).
    assert (Z.of_nat n + 2 <= maxNestingDepth) as Hn by (unfold maxNestingDepth; lia).
    destruct (deep_put n Hn) as (r1 & w1 & H1 & S1 & Hh). destruct (deep_get n w1 Hn Hh) as (w2 & H2).
    eexists (deep_body n), r1, w1, _, w2. split; [exact H1|]. split; [exact S1|]. split; [exact H2|]. split; [reflexivity|].
    destruct (page_parses [MkEnvelope message_id pathAB AToB noon "aGk" sigA (deep_body n)]) as (js & _ & ->).
    + apply list.Forall_singleton. exists sample_outer. split; [exact (deep_decodes n Hn)|split; reflexivity].
    + apply decide_False. pose proof (deep_Nesting n Hn). unfold page_depth. simpl. unfold maxNestingDepth in *. lia.
Qed.

(** The owner reads the sample message. *)
Lemma delivered_inv : db_inv (encode_db delivered_store).
Proof.
  destruct paired_inv as [H1 H2 _]. split; [exact H1|exact H2|].
  change (envelopes (encode_db delivered_store)) with (envelope_row <$> ({[message_id := message]} : gmap string Envelope)).
  rewrite map_fmap_singleton. apply map_Forall_singleton.
  split_and!; [by exists (pair_row pairAB)|set_solver|]. exists sample_outer. split; [reflexivity|done].
Qed.

Theorem pages_decode_witness :
  ∃ es js, fst (run calm (get fetch_page pathAB) delivered) = listResponse es ∧ Forall decodes es ∧
    Forall2 (λ v j, Parse (e_OuterJSON v) = Some j) es js ∧
    Parse (wire (RespBody (fst (run calm (get fetch_page pathAB) delivered)))) =
      if decide (Z.of_nat (page_depth es) + 2 <= maxNestingDepth) then Some (page_value es js) else None.
Proof.
  apply (proj1 pages_decode toyEd EdVerifier calm _ fetch_page pathAB delivered_store delivered
    (snd (run calm (get fetch_page pathAB) delivered)) _ delivered_holds delivered_inv);
    [apply surjective_pairing|reflexivity].
Defined.
