(* ===== verification/Trim.v ===== *)
(** * Trimming, suffixes and case folding of strings

    The parts of package strings that the gateway and the rate limiter use and
    the relay does not: TrimSpace with every Unicode space, TrimRight of one
    byte, HasSuffix, and EqualFold against an ASCII literal. *)

From S2P Require Import Prelude GoStrings.

Local Open Scope string_scope.

(** ** Trimming *)

Definition bytes_of (zs : list Z) : string := foldr (λ z, String (chr z)) EmptyString zs.

(** The UTF-8 encodings of the runes [unicode.IsSpace] accepts: U+0009 to
    U+000D, U+0020, U+0085, U+00A0, U+1680, U+2000 to U+200A, U+2028, U+2029,
    U+202F, U+205F and U+3000. *)
Definition spaces : list string :=
  map bytes_of
    ([[9]; [10]; [11]; [12]; [13]; [32]; [194; 133]; [194; 160]; [225; 154; 128];
      [226; 128; 168]; [226; 128; 169]; [226; 128; 175]; [226; 129; 159]; [227; 128; 128]]
     ++ map (λ k, [226; 128; k]) (seqZ 128 11))%list%Z.

(** Drops a leading piece as long as there is one; [fuel] bounds the number of
    pieces, and the length of [s] is enough. *)
Fixpoint trim_pieces (pieces : list string) (fuel : nat) (s : string) : string :=
  match fuel with
  | O => s
  | S fuel =>
      match find (HasPrefix s) pieces with
      | Some p => trim_pieces pieces fuel (TrimPrefix s p)
      | None => s
      end
  end.

Definition TrimLeftPieces (pieces : list string) (s : string) : string :=
  trim_pieces pieces (String.length s) s.

Definition TrimRightPieces (pieces : list string) (s : string) : string :=
  String.rev (TrimLeftPieces (map String.rev pieces) (String.rev s)).

(** [strings.TrimSpace].  A string that starts (ends) with the encoding of a
    space decodes to that space first (last), so comparing bytes is enough. *)
Definition TrimSpace (s : string) : string := TrimRightPieces spaces (TrimLeftPieces spaces s).

(** [strings.TrimRight(s, "/")] *)
Definition TrimRightSlash (s : string) : string := TrimRightPieces ["/"] s.

Definition HasSuffix (s p : string) : bool := HasPrefix (String.rev s) (String.rev p).

(** ** Reversal *)

Lemma rev_app_s a b acc : String.rev_app (a +:+ b) acc = String.rev_app b (String.rev_app a acc).
Proof. revert acc. induction a as [|c a IH]; intros acc; [done|]. rewrite app_cons_s. apply IH. Qed.

Lemma rev_app_rev (a acc b : string) :
  String.rev_app (String.rev_app a acc) b = String.rev_app acc (a +:+ b).
Proof. revert acc. induction a as [|c a IH]; intros acc; [done|]. rewrite app_cons_s. apply IH. Qed.

Lemma rev_involutive (a : string) : String.rev (String.rev a) = a.
Proof. unfold String.rev. rewrite rev_app_rev. apply app_nil_r_s. Qed.

(** ** Case folding *)

Definition lower_byte (c : ascii) : ascii :=
  if (65 <=? code c)%Z && (code c <=? 90)%Z then chr (code c + 32) else c.

Fixpoint ToLowerASCII (s : string) : string :=
  match s with
  | EmptyString => EmptyString
  | String c s => String (lower_byte c) (ToLowerASCII s)
  end.

(** [strings.EqualFold(s, t)] for an ASCII [t] without the letters k and s: no
    rune outside ASCII folds to another letter. *)
Definition EqualFoldASCII (s t : string) : bool := String.eqb (ToLowerASCII s) (ToLowerASCII t).

(** ** What trimming leaves *)

(** No space at either end. *)
Definition trimmed (s : string) : bool :=
  negb (existsb (HasPrefix s) spaces) && negb (existsb (HasPrefix (String.rev s)) (map String.rev spaces)).

Lemma find_existsb {A} (f : A → bool) l : existsb f l = false → find f l = None.
Proof. induction l as [|x l IH]; simpl; [done|]. intros [-> H]%orb_false_iff. auto. Qed.

Lemma trim_pieces_none pieces fuel s : existsb (HasPrefix s) pieces = false → trim_pieces pieces fuel s = s.
Proof. intros H. destruct fuel; [done|]. simpl. by rewrite find_existsb. Qed.

Lemma TrimSpace_trimmed s : trimmed s = true → TrimSpace s = s.
Proof.
  intros [H1%negb_true_iff H2%negb_true_iff]%andb_true_iff. unfold TrimSpace, TrimRightPieces, TrimLeftPieces.
  rewrite (trim_pieces_none _ _ s) by done. rewrite trim_pieces_none by done. apply rev_involutive.
Qed.

(** A byte that continues no piece ends the search for one. *)
Definition stops (c : ascii) (pieces : list string) : bool := forallb (λ p, no_byte c (drop_bytes 1 p)) pieces.

Lemma HasPrefix_stop s c r p : no_byte c p = true → HasPrefix (s +:+ String c r) p = HasPrefix s p.
Proof.
  revert s. induction p as [|b p IH]; intros s; [by destruct s|]. intros [Hb Hp]%andb_true_iff.
  destruct s as [|a s]; [|rewrite app_cons_s; simpl; by rewrite IH].
  rewrite app_nil_l_s. simpl. apply negb_true_iff in Hb. by rewrite Hb.
Qed.

Lemma pieces_stop pieces s c r :
  s ≠ "" → stops c pieces = true → existsb (HasPrefix (s +:+ String c r)) pieces = existsb (HasPrefix s) pieces.
Proof.
  intros Hs Hc. induction pieces as [|p pieces IH]; [done|]. apply andb_true_iff in Hc as [Hp Hc].
  simpl. rewrite (IH Hc). f_equal. destruct s as [|a s]; [done|]. destruct p as [|b p]; [done|].
  rewrite app_cons_s. simpl. by rewrite HasPrefix_stop.
Qed.

Definition blanks (n : nat) : string := Repeat " " n.

(** A blank at one end. *)
Lemma trim_blank pieces s :
  find (HasPrefix (" " +:+ s)) pieces = Some " " → TrimLeftPieces pieces (" " +:+ s) = TrimLeftPieces pieces s.
Proof.
  intros Hf. unfold TrimLeftPieces. change (" " +:+ s) with (String " " s) in *. cbn [String.length trim_pieces].
  rewrite Hf. change (String " " s) with (" " +:+ s). by rewrite TrimPrefix_app.
Qed.

Lemma find_blank pieces s :
  find (HasPrefix (String " " "" +:+ String "x" "")) pieces = Some " " →
  forallb (λ p, match p with EmptyString => false | String c _ => negb (Ascii.eqb c " ") || String.eqb p " " end) pieces = true →
  find (HasPrefix (" " +:+ s)) pieces = Some " ".
Proof.
  change (String " " "" +:+ String "x" "") with (String " " "x"). change (" " +:+ s) with (String " " s).
  induction pieces as [|p pieces IH]; [done|]. cbn [find forallb]. destruct p as [|c p]; [done|].
  cbn [HasPrefix]. intros Hf [Hc Hr]%andb_true_iff. destruct (Ascii.eqb_spec c " ") as [->|]; cbn [andb] in *; [|by apply IH].
  apply String.eqb_eq in Hc. injection Hc as ->. by destruct s.
Qed.

Lemma TrimLeft_blanks n s : TrimLeftPieces spaces (blanks n +:+ s) = TrimLeftPieces spaces s.
Proof.
  induction n as [|n IH]; [done|]. unfold blanks. cbn [Repeat]. rewrite app_assoc_s, trim_blank; [exact IH|].
  apply find_blank; reflexivity.
Qed.

Lemma rev_cons c s : String.rev (String c s) = String.rev s +:+ String c "".
Proof.
  assert (∀ s acc, String.rev_app s acc = String.rev s +:+ acc) as H; [|exact (H s (String c ""))].
  clear. unfold String.rev. induction s as [|a s IH]; intros acc; [done|]. simpl.
  rewrite (IH (String a "")), (IH (String a acc)), app_assoc_s. done.
Qed.

Lemma rev_append a b : String.rev (a +:+ b) = String.rev b +:+ String.rev a.
Proof.
  induction a as [|c a IH]; [by rewrite app_nil_l_s, app_nil_r_s|]. by rewrite app_cons_s, !rev_cons, IH, app_assoc_s.
Qed.

Lemma TrimRight_blanks n s : TrimRightPieces spaces (s +:+ blanks n) = TrimRightPieces spaces s.
Proof.
  unfold TrimRightPieces. f_equal. rewrite rev_append. generalize (String.rev s). clear s. intros s.
  assert (∀ n, String.rev (blanks n) = blanks n) as ->.
  { clear. assert (∀ n, blanks n +:+ " " = blanks (S n)) as H.
    { induction n as [|n IH]; [done|]. unfold blanks in *. cbn [Repeat] in *. by rewrite app_assoc_s, IH. }
    induction n as [|n IH]; [done|]. change (blanks (S n)) with (String " " (blanks n)). rewrite rev_cons, IH. apply H. }
  induction n as [|n IH]; [done|]. unfold blanks. cbn [Repeat]. rewrite app_assoc_s, trim_blank; [exact IH|].
  apply find_blank; reflexivity.
Qed.

(** A separator no space contains. *)
Definition separates (c : ascii) : bool := stops c spaces && stops c (map String.rev spaces).

Definition gap (w : string) : Prop := w ≠ "" ∧ all_bytes separates w = true.

Lemma last_byte (p : ascii → bool) w : w ≠ "" → all_bytes p w = true → ∃ y d, w = y +:+ String d "" ∧ p d = true.
Proof.
  induction w as [|c w IH]; [done|]. intros _ [Hc Hw]%andb_true_iff.
  destruct w as [|c' w]; [by exists "", c|]. destruct (IH ltac:(done) Hw) as (y & d & -> & Hd). by exists (String c y), d.
Qed.

(** Words with separators between them have no space at their ends either. *)
Lemma trimmed_gap a w b :
  trimmed a = true → trimmed b = true → a ≠ "" → b ≠ "" → gap w → trimmed (a +:+ w +:+ b) = true.
Proof.
  intros [Ha _]%andb_true_iff [_ Hb]%andb_true_iff Hna Hnb [Hw Hs]. unfold trimmed.
  destruct (last_byte _ w Hw Hs) as (y & d & E & [_ Hd]%andb_true_iff).
  apply andb_true_iff. split.
  - destruct w as [|c w]; [done|]. apply andb_true_iff in Hs as [[Hc _]%andb_true_iff _].
    by rewrite app_cons_s, pieces_stop.
  - rewrite E, !rev_append, !app_assoc_s. change (String.rev (String d "")) with (String d "").
    rewrite app_cons_s, pieces_stop; [done| |done].
    intros E'. apply Hnb. by rewrite <- (rev_involutive b), E'.
Qed.

Lemma TrimSpace_blanks n m s : trimmed s = true → s ≠ "" → TrimSpace (blanks n +:+ s +:+ blanks m) = s.
Proof.
  intros Ht Hs. unfold TrimSpace. rewrite TrimLeft_blanks. apply andb_true_iff in Ht as Ht'. destruct Ht' as [Hl _].
  assert (TrimLeftPieces spaces (s +:+ blanks m) = s +:+ blanks m) as ->.
  { apply trim_pieces_none. apply negb_true_iff in Hl. destruct m as [|m]; [unfold blanks; simpl; by rewrite app_nil_r_s|].
    change (blanks (S m)) with (String " " (blanks m)). by rewrite pieces_stop. }
  rewrite TrimRight_blanks. pose proof (TrimSpace_trimmed s Ht) as E. unfold TrimSpace in E.
  unfold TrimLeftPieces in E. by rewrite trim_pieces_none in E by (by apply negb_true_iff in Hl).
Qed.
