(* ===== verification/Schema.v ===== *)
(** * Creating the tables (internal/storage/sqlite.go)

    The schema script, its statements one by one, and what they declare.  The
    effect of a statement on a database file is SQLite's. *)

From S2P Require Import Prelude GoStrings Trim Storage SQLite.

Local Open Scope string_scope.

Definition schemaSQL : string :=
"
CREATE TABLE IF NOT EXISTS envelopes (
  msg_id      TEXT PRIMARY KEY,
  path_id     TEXT NOT NULL,
  direction   TEXT NOT NULL,
  received_at TEXT NOT NULL,
  ciphertext  TEXT NOT NULL,
  signature   TEXT NOT NULL,
  outer_json  TEXT NOT NULL
);
-- Index covers the cursor walk: WHERE path_id=? AND direction=? AND msg_id>?
-- ORDER BY msg_id. UUIDv7 is timestamp-ordered so msg_id alone is both
-- the filter and the stable order.
CREATE INDEX IF NOT EXISTS idx_envelopes_path_dir ON envelopes(path_id, direction, msg_id);
CREATE INDEX IF NOT EXISTS idx_envelopes_retention ON envelopes(received_at);

CREATE TABLE IF NOT EXISTS pair_requests (
  request_id      TEXT PRIMARY KEY,
  status          TEXT NOT NULL,
  created_at      TEXT NOT NULL,
  expires_at      TEXT NOT NULL,
  path_id         TEXT,
  requester_json  TEXT NOT NULL,
  owner_json      TEXT,
  -- target_nexus_id is not in the spec DDL but IS in the POST /pair/request
  -- payload. Stored so the owner dashboard can display the target without
  -- parsing requester_json.
  target_nexus_id TEXT NOT NULL
);
CREATE INDEX IF NOT EXISTS idx_pair_requests_status ON pair_requests(status, created_at);
CREATE INDEX IF NOT EXISTS idx_pair_requests_expiry ON pair_requests(status, expires_at);

CREATE TABLE IF NOT EXISTS pairs (
  path_id              TEXT PRIMARY KEY,
  requester_id         TEXT NOT NULL,
  requester_pubkey     TEXT NOT NULL,
  requester_dh_pubkey  TEXT NOT NULL,
  owner_id             TEXT NOT NULL,
  owner_pubkey         TEXT NOT NULL,
  owner_dh_pubkey      TEXT NOT NULL,
  sig_alg              TEXT NOT NULL,
  dh_alg               TEXT NOT NULL,
  activated_at         TEXT NOT NULL
);
".

Definition nl : string := String "010" "".

(** ** Splitting *)

(** A line up to the first two dashes. *)
Fixpoint cut_comment (line : string) : string :=
  if HasPrefix line "--" then ""
  else match line with
       | EmptyString => EmptyString
       | String c line => String c (cut_comment line)
       end.

Definition concat (ws : list string) : string := foldr String.app "" ws.

(** The script without comments, every line ended. *)
Definition cleaned (script : string) : string :=
  concat (map (λ line, cut_comment line +:+ nl) (Split script "010")).

Definition splitStatements (script : string) : list string :=
  filter (λ s, s ≠ "") (map TrimSpace (Split (cleaned script) ";")).

(** ** Opening *)

Definition pragmas : list string :=
  ["PRAGMA journal_mode = WAL"; "PRAGMA busy_timeout = 5000"; "PRAGMA foreign_keys = ON"].

(** A SQL driver: the state of its database, what opening a file, executing a
    statement and closing do to it, and their error texts. *)
Class Driver : Type := {
  Database : Type;
  Open : string → Database → option string * Database;
  Exec : string → Database → option string * Database;
  CloseDB : Database → Database
}.

(** [OpenSQLite]: its error, or [None], and the state it leaves. *)
Section OpenSQLite.
Context `{Driver}.

Fixpoint exec_pragmas (ps : list string) (d : Database) : option error * Database :=
  match ps with
  | [] => (None, d)
  | p :: ps =>
      match Exec p d with
      | (Some msg, d) => (Some (wrap ("storage: " +:+ p +:+ ": ") msg), CloseDB d)
      | (None, d) => exec_pragmas ps d
      end
  end.

Definition OpenSQLite (path : string) (d : Database) : option error * Database :=
  match Open path d with
  | (Some msg, d) => (Some (wrap "storage: open sqlite: " msg), d)   (* without the path *)
  | (None, d) => exec_pragmas pragmas d
  end.

End OpenSQLite.

(** ** Running *)

(** [CreateSchema] on a driver: its error, or [None], and the state it leaves. *)
Section CreateSchema.
Context {D : Type} (Exec : string → D → option string * D).

Fixpoint exec_all (stmts : list string) (d : D) : option error * D :=
  match stmts with
  | [] => (None, d)
  | stmt :: stmts =>
      match Exec stmt d with
      | (Some msg, d) => (Some (wrap "storage: create schema: " msg), d)   (* without the statement *)
      | (None, d) => exec_all stmts d
      end
  end.

Definition CreateSchema (d : D) : option error * D := exec_all (splitStatements schemaSQL) d.

End CreateSchema.
