(* ===== verification/Flag.v ===== *)
(** * package flag

    [flag.Parse] of Go's standard library, over the flags a program declares: [formal]
    gives the setter of a name, and [F] is what the flags fill in. *)

From S2P Require Import Prelude GoStrings GoTime GoDuration.

Local Open Scope string_scope.

(** ** Values *)

(** What a flag's [Set] does with its text; [None] is an error. *)
Inductive Setter (F : Type) : Type :=
| SetString (set : string → F → F)
| SetDuration (set : Duration → F → F)
| SetBool (set : bool → F → F).
Arguments SetString {F} set.
Arguments SetDuration {F} set.
Arguments SetBool {F} set.

(** [strconv.ParseBool] *)
Definition ParseBool (s : string) : option bool :=
  if bool_decide (s ∈ ["1"; "t"; "T"; "TRUE"; "true"; "True"]) then Some true
  else if bool_decide (s ∈ ["0"; "f"; "F"; "FALSE"; "false"; "False"]) then Some false
  else None.

Definition Set_ {F : Type} (st : Setter F) (value : string) (f : F) : option F :=
  match st with
  | SetString set => Some (set value f)
  | SetDuration set => d ← ParseDuration value; Some (set d f)
  | SetBool set => b ← ParseBool value; Some (set b f)
  end.

(** ** flag.Parse *)

Inductive FlagError : Type := ErrHelp | ErrFlag.

(** What an argument is: no flag (parsing stops), the terminator of flags, bad
    syntax, or a flag's name with the value after an equals sign. *)
Inductive Arg : Type :=
| NotAFlag
| Terminator
| BadSyntax
| Named (name : string) (value : option string).

(** The first equals sign of a name is not looked for at its first byte. *)
Definition split_value (name : string) : string * option string :=
  match name with
  | EmptyString => (name, None)
  | String c rest =>
      match CutByte rest "=" with
      | Some (n, v) => (String c n, Some v)
      | None => (name, None)
      end
  end.

Definition classify (s : string) : Arg :=
  match s with
  | String "-" (String a rest) =>
      let name := if Ascii.eqb a "-" then rest else String a rest in
      if Ascii.eqb a "-" && String.eqb rest "" then Terminator
      else if String.eqb name "" || HasPrefix name "-" || HasPrefix name "=" then BadSyntax
      else let '(n, v) := split_value name in Named n v
  | _ => NotAFlag
  end.

(** [FlagSet.Parse]; arguments that are no flags are left to the program, which
    ignores them. *)
Section Parse.
Context {F : Type} (formal : string → option (Setter F)).

Fixpoint Parse (args : list string) (f : F) : F + FlagError :=
  match args with
  | [] => inl f
  | s :: args =>
      match classify s with
      | NotAFlag | Terminator => inl f
      | BadSyntax => inr ErrFlag
      | Named name value =>
          match formal name with
          | None => inr (if String.eqb name "help" || String.eqb name "h" then ErrHelp else ErrFlag)
          | Some (SetBool set) =>
              match Set_ (SetBool set) (default "true" value) f with
              | Some f => Parse args f
              | None => inr ErrFlag
              end
          | Some st =>
              match value, args with
              | Some v, _ =>
                  match Set_ st v f with Some f => Parse args f | None => inr ErrFlag end
              | None, v :: args =>
                  match Set_ st v f with Some f => Parse args f | None => inr ErrFlag end
              | None, [] => inr ErrFlag
              end
          end
      end
  end.
End Parse.
