(* ===== verification/CommandLine.v ===== *)
(** * Starting the relay

    The command line of cmd/interchange/main.go and [main] up to the listeners: the
    eight flags ([Flag] has their parser), the version, the required id, and the
    database, opened and with its tables.  The driver is the class [Driver] of
    [Schema]. *)

From S2P Require Import Prelude GoStrings GoTime GoDuration Flag Storage SQLite Schema.

Local Open Scope string_scope.

(** ** The flags of main *)

Record Flags : Type := MkFlags {
  f_addr : string;
  f_tailnetAddr : string;
  f_interchangeID : string;
  f_dbPath : string;
  f_sweepInterval : Duration;
  f_envelopeMaxAge : Duration;
  f_ownerSecret : string;
  f_showVersion : bool
}.

Definition defaultFlags : Flags :=
  MkFlags ":8443" "127.0.0.1:8444" "" "interchange.db" Hour (7 * 24 * Hour) "" false.

(** [flag.CommandLine.formal] *)
Definition formal (name : string) : option (Setter Flags) :=
  if String.eqb name "addr" then Some (SetString (λ v f,
    MkFlags v (f_tailnetAddr f) (f_interchangeID f) (f_dbPath f) (f_sweepInterval f)
      (f_envelopeMaxAge f) (f_ownerSecret f) (f_showVersion f)))
  else if String.eqb name "tailnet-addr" then Some (SetString (λ v f,
    MkFlags (f_addr f) v (f_interchangeID f) (f_dbPath f) (f_sweepInterval f)
      (f_envelopeMaxAge f) (f_ownerSecret f) (f_showVersion f)))
  else if String.eqb name "id" then Some (SetString (λ v f,
    MkFlags (f_addr f) (f_tailnetAddr f) v (f_dbPath f) (f_sweepInterval f)
      (f_envelopeMaxAge f) (f_ownerSecret f) (f_showVersion f)))
  else if String.eqb name "db" then Some (SetString (λ v f,
    MkFlags (f_addr f) (f_tailnetAddr f) (f_interchangeID f) v (f_sweepInterval f)
      (f_envelopeMaxAge f) (f_ownerSecret f) (f_showVersion f)))
  else if String.eqb name "sweep-interval" then Some (SetDuration (λ v f,
    MkFlags (f_addr f) (f_tailnetAddr f) (f_interchangeID f) (f_dbPath f) v
      (f_envelopeMaxAge f) (f_ownerSecret f) (f_showVersion f)))
  else if String.eqb name "envelope-max-age" then Some (SetDuration (λ v f,
    MkFlags (f_addr f) (f_tailnetAddr f) (f_interchangeID f) (f_dbPath f) (f_sweepInterval f)
      v (f_ownerSecret f) (f_showVersion f)))
  else if String.eqb name "owner-secret" then Some (SetString (λ v f,
    MkFlags (f_addr f) (f_tailnetAddr f) (f_interchangeID f) (f_dbPath f) (f_sweepInterval f)
      (f_envelopeMaxAge f) v (f_showVersion f)))
  else if String.eqb name "version" then Some (SetBool (λ v f,
    MkFlags (f_addr f) (f_tailnetAddr f) (f_interchangeID f) (f_dbPath f) (f_sweepInterval f)
      (f_envelopeMaxAge f) (f_ownerSecret f) v))
  else None.

(** ** main, up to the listeners *)

(** How [main] goes on: it exits with a code, its last words given, or it serves
    with the flags. *)
Inductive Start : Type :=
| Exits (code : Z) (output : string)
| Serves (f : Flags).

Definition error_text (err : error) : string :=
  match err with
  | ErrNotFound => "not found"
  | ErrDuplicate => "duplicate"
  | ErrConflict => "conflict"
  | ErrOther msg => msg
  end.

Section main.
Context `{Driver} (Version : string).

(** [log.Fatal] exits without running the deferred [store.Close]. *)
Definition main (args : list string) (d : Database) : Start * Database :=
  match Parse formal args defaultFlags with
  | inr ErrHelp => (Exits 0 "usage", d)
  | inr ErrFlag => (Exits 2 "usage", d)
  | inl f =>
      if f_showVersion f then (Exits 0 ("interchange " +:+ Version), d)
      else if String.eqb (f_interchangeID f) ""
      then (Exits 1 "interchange: -id is required (owner nexus_id)", d)
      else
        match OpenSQLite (f_dbPath f) d with
        | (Some err, d) => (Exits 1 ("open storage: " +:+ error_text err), d)
        | (None, d) =>
            match CreateSchema Exec d with
            | (Some err, d) => (Exits 1 ("create schema: " +:+ error_text err), d)
            | (None, d) => (Serves f, d)
            end
        end
  end.

End main.
