(* ===== verification/Inspect.v ===== *)
(** * The database inspector (cmd/db-inspect/main.go)

    [main]: the flag, the two queries and what is printed for their rows.  The
    driver's part is a record: whether the file opens, the tables as each query finds
    them, the error of a query, and the row its iteration fails at.  The rows of a
    query without ORDER BY come in the order the database scans them. *)

From S2P Require Import Prelude GoStrings GoTime GoDuration Codec Base64 Http Storage Sql Flag JsonText JsonAny.

Local Open Scope string_scope.

(** ** The command line *)

Definition formal (name : string) : option (Setter string) :=
  if String.eqb name "db" then Some (SetString (λ v _, v)) else None.

Definition defaultPath : string := "./interchange.db".

(** ** The database *)

(** How a query goes: its error, or the number of rows read before an error, if
    there is one. *)
Record Outcome : Type := MkOutcome {
  o_error : option string;
  o_cut : option nat
}.

Definition clean : Outcome := MkOutcome None None.

Record Source : Type := MkSource {
  s_open : string → option string;
  s_first : DB * Outcome;
  s_second : DB * Outcome;
  s_scan : gmap string PairRow → list (string * PairRow)
}.

(** What [rows.Next] delivers. *)
Definition query {A} (o : Outcome) (rows : list A) : string + list A :=
  match o_error o with
  | Some msg => inl msg
  | None => inr (match o_cut o with Some n => firstn n rows | None => rows end)
  end.

(** [SELECT ... FROM envelopes ORDER BY msg_id] *)
Definition query_envelopes (src : Source) : string + list (string * EnvelopeRow) :=
  let '(d, o) := s_first src in query o (sort_by fst (map_to_list (envelopes d))).

(** [SELECT ... FROM pairs] *)
Definition query_pairs (src : Source) : string + list (string * PairRow) :=
  let '(d, o) := s_second src in query o (s_scan src (pairs d)).

(** ** What is printed *)

Definition nl : string := String "010" "".

Definition ctBytes (ct : string) : string :=
  let '(bytes, ok) := DecodeString RawURLEncoding ct in
  if ok then bytes else fst (DecodeString StdEncoding ct).

(** The value read from the stored JSON, with two blanks before each line. *)
Definition outerText (outer : string) : string := default "" (MarshalIndent "  " (UnmarshalAny outer)).

(** The format of the first [fmt.Printf]. *)
Definition envelope_format (msg_id path_id dir ct_len ct_hex sig : string) : string :=
  nl +:+ "msg_id  : " +:+ msg_id +:+ nl +:+ "path_id : " +:+ path_id +:+ nl +:+ "dir     : " +:+ dir +:+ nl +:+
  "ct len  : " +:+ ct_len +:+ nl +:+ "ct hex  : " +:+ ct_hex +:+ nl +:+ "sig     : " +:+ sig +:+ nl +:+
  "outer   :" +:+ nl.

Definition envelope_text (row : string * EnvelopeRow) : string :=
  let '(msgID, r) := row in
  let bytes := ctBytes (er_ciphertext r) in
  envelope_format msgID (er_path_id r) (er_direction r) (Itoa (len bytes)) (hex_encode bytes) (er_signature r) +:+
  outerText (er_outer_json r) +:+ nl.

Definition pair_text (row : string * PairRow) : string :=
  let '(pathID, r) := row in
  nl +:+ "path_id            : " +:+ pathID +:+ nl +:+
  "requester          : " +:+ pr_requester_id r +:+ nl +:+
  "requester_pubkey   : " +:+ pr_requester_pubkey r +:+ nl +:+
  "requester_dh_pubkey: " +:+ pr_requester_dh_pubkey r +:+ nl +:+
  "owner              : " +:+ pr_owner_id r +:+ nl +:+
  "owner_pubkey       : " +:+ pr_owner_pubkey r +:+ nl +:+
  "owner_dh_pubkey    : " +:+ pr_owner_dh_pubkey r +:+ nl +:+
  "sig_alg            : " +:+ pr_sig_alg r +:+ nl +:+
  "dh_alg             : " +:+ pr_dh_alg r +:+ nl.

(** The texts of the rows, one after the other. *)
Fixpoint print_all {A} (text : A → string) (rows : list A) : string :=
  match rows with
  | [] => ""
  | r :: rows => text r +:+ print_all text rows
  end.

(** ** main *)

Record Output : Type := MkOutput {
  exit_code : Z;
  stdout : string;
  stderr : string
}.

(** The second half, after [before] was printed. *)
Definition dump_pairs (src : Source) (before : string) : Output :=
  let before := before +:+ nl +:+ "=== pairs ===" +:+ nl in
  match query_pairs src with
  | inl msg => MkOutput 1 before (msg +:+ nl)
  | inr rows => MkOutput 0 (before +:+ print_all pair_text rows) ""
  end.

Definition dump (src : Source) : Output :=
  let header := "=== envelopes ===" +:+ nl in
  match query_envelopes src with
  | inl msg => MkOutput 1 header (msg +:+ nl)
  | inr rows => dump_pairs src (header +:+ print_all envelope_text rows)
  end.

Definition main (args : list string) (src : Source) : Output :=
  match Parse formal args defaultPath with
  | inr ErrHelp => MkOutput 0 "" "usage"
  | inr ErrFlag => MkOutput 2 "" "usage"
  | inl path =>
      match s_open src path with
      | Some msg => MkOutput 1 "" (msg +:+ nl)
      | None => dump src
      end
  end.
