(* ===== verification/InspectTheorems.v ===== *)
(** * What the inspector shows

    The dump of the tables: every row once, the JSON as the value that is stored, the
    ciphertext as its bytes or, for some padded texts, a part of them. *)

From S2P Require Import Prelude GoStrings GoTime Codec Base64 Sha256 Json JsonUtf8 Http Storage.
From S2P Require Import JsonText JsonTextSpec JsonRead JsonAny Sql SQLite StoreSpec SQLiteRefines Crypto Mailbox Samples Flag Inspect.

Local Open Scope Z_scope.

(** ** A row *)

Lemma strip_newlines_app a b : strip_newlines (a +:+ b) = strip_newlines a +:+ strip_newlines b.
Proof.
  induction a as [|c a IH]; [done|]. rewrite app_cons_s. simpl. destruct (_ || _); [done|]. by rewrite IH.
Qed.

Lemma strip_newlines_pads n : strip_newlines (Repeat "=" n) = Repeat "=" n.
Proof. induction n as [|n IH]; [done|]. cbn [Repeat]. rewrite app_cons_s, app_nil_l_s. cbn [strip_newlines]. by rewrite IH. Qed.

Lemma strip_newlines_bytes p s : all_bytes p s = true → all_bytes p (strip_newlines s) = true.
Proof.
  induction s as [|c s IH]; [done|]. simpl. intros [Hc Hs]%andb_true_iff. destruct (_ || _); [auto|]. simpl. by rewrite Hc, IH.
Qed.

(** What the program's decoder decodes, up to the padding it adds. *)
Lemma decodeB64URL_quanta s b :
  decodeB64URL s = Some b → ∃ n, decode_quanta (strip_newlines s +:+ Repeat "=" n) = Some b ∧
    (Nat.modulo (String.length s) 4 = 0%nat → n = 0%nat).
Proof.
  unfold decodeB64URL, URLDecode. destruct (Nat.eqb_spec (Nat.modulo (String.length s) 4) 0) as [E|E]; intros H.
  - exists 0%nat. by rewrite app_nil_r_s.
  - exists (4 - Nat.modulo (String.length s) 4)%nat. rewrite strip_newlines_app, strip_newlines_pads in H. done.
Qed.

(** No padding, or all of it and only letters of both alphabets. *)
Definition plain_base64 (s : string) : Prop :=
  no_pad s = true ∨ all_bytes std_letter s = true ∧ Nat.modulo (String.length s) 4 = 0%nat.

Lemma ctBytes_starts s b : decodeB64URL s = Some b → starts (ctBytes s) b.
Proof.
  intros (n & Hq & _)%decodeB64URL_quanta. unfold ctBytes, DecodeString.
  destruct (no_pad (strip_newlines s)) eqn:E.
  - rewrite (Decode_raw _ n b) by done. apply starts_refl.
  - pose proof (Decode_raw_padded _ E) as Hf. destruct (Decode RawURLEncoding _) as [x ok]. simpl in Hf. subst ok.
    by apply (Decode_std _ n).
Qed.

Lemma ctBytes_whole s b : decodeB64URL s = Some b → plain_base64 s → ctBytes s = b.
Proof.
  intros (n & Hq & Hn)%decodeB64URL_quanta Hp. unfold ctBytes, DecodeString.
  destruct (no_pad (strip_newlines s)) eqn:E; [by rewrite (Decode_raw _ n b)|].
  destruct Hp as [Hp|[Hl Hm]]; [unfold no_pad, no_byte in *; by rewrite strip_newlines_bytes in E|].
  pose proof (Decode_raw_padded _ E) as Hf. destruct (Decode RawURLEncoding _) as [x ok]. simpl in Hf. subst ok.
  rewrite (Hn Hm), app_nil_r_s in Hq. rewrite (Decode_std_whole _ b); [done|by apply strip_newlines_bytes|done].
Qed.

(** The bytes and the JSON shown for a row. *)
Record shows (r : EnvelopeRow) (bytes outer : string) : Prop := Shows {
  sh_outer : UnmarshalAny outer = UnmarshalAny (er_outer_json r);
  sh_prefix : ∀ b, decodeB64URL (er_ciphertext r) = Some b → starts bytes b;
  sh_whole : ∀ b, decodeB64URL (er_ciphertext r) = Some b → plain_base64 (er_ciphertext r) → bytes = b
}.

Lemma row_shown r : shows r (ctBytes (er_ciphertext r)) (outerText (er_outer_json r)).
Proof.
  split; [|intros b; apply ctBytes_starts|intros b; apply ctBytes_whole].
  destruct (MarshalIndent_decoded "  " (er_outer_json r) eq_refl) as (t & Ht & Hu). unfold outerText. by rewrite Ht.
Qed.

(** The printed block of an envelope. *)
Definition block (row : string * EnvelopeRow) (text : string) : Prop :=
  ∃ bytes outer, shows (snd row) bytes outer ∧
    text = envelope_format (fst row) (er_path_id (snd row)) (er_direction (snd row)) (Itoa (len bytes))
      (hex_encode bytes) (er_signature (snd row)) +:+ outer +:+ nl.

Lemma block_text row : block row (envelope_text row).
Proof. destruct row as [id r]. eexists _, _. split; [apply row_shown|done]. Qed.

Lemma print_all_blocks rows : ∃ bs, Forall2 block rows bs ∧ print_all envelope_text rows = foldr String.append "" bs.
Proof.
  exists (map envelope_text rows). split.
  - induction rows as [|row rows IH]; constructor; [apply block_text|done].
  - induction rows as [|row rows IH]; [done|]. simpl. by rewrite IH.
Qed.

(** ** The dump *)

(** The envelopes by id, each once. *)
Lemma table_sorted (t : gmap string EnvelopeRow) : StronglySorted by_key (sort_by fst (map_to_list t)).
Proof.
  assert (StronglySorted (row_le fst) (sort_by fst (map_to_list t))) as Hs by (apply StronglySorted_merge_sort; apply _).
  assert (sort_by fst (map_to_list t) ≡ₚ map_to_list t) as Hp by apply merge_sort_Permutation.
  assert (NoDup (fst <$> sort_by fst (map_to_list t))) as Hn by (rewrite Hp; apply NoDup_fst_map_to_list).
  revert Hs Hn. generalize (sort_by fst (map_to_list t)). intros l Hs. induction Hs as [|x l Hs IH Hx]; intros Hn; constructor.
  - apply IH. by inversion Hn.
  - apply NoDup_cons in Hn as [Hn _]. rewrite Forall_forall in *. intros y Hy. specialize (Hx y Hy).
    destruct Hx as [H|[H _]]; [done|]. destruct Hn. rewrite H. by apply list_elem_of_fmap_2.
Qed.

Definition seen {A} (o : Outcome) (rows : list A) : list A :=
  match o_cut o with Some n => firstn n rows | None => rows end.

Lemma query_rows {A} o (rows : list A) : o_error o = None → query o rows = inr (seen o rows).
Proof. unfold query. by intros ->. Qed.

Definition envelopes_header : string := "=== envelopes ===" +:+ nl.
Definition pairs_header : string := nl +:+ "=== pairs ===" +:+ nl.
Definition concat (bs : list string) : string := foldr String.append "" bs.

Lemma flag_db path :
  Parse formal ["-db"; path]%string defaultPath = inl path ∧ Parse formal ["--db"; path]%string defaultPath = inl path ∧
  Parse formal ["-db=" +:+ path]%string defaultPath = inl path ∧ Parse formal ["--db=" +:+ path]%string defaultPath = inl path.
Proof. by split_and!. Qed.

Lemma dump_rows src :
  ∃ es ps bs,
    es ≡ₚ map_to_list (envelopes (fst (s_first src))) ∧ StronglySorted by_key es ∧
    ps = s_scan src (pairs (fst (s_second src))) ∧
    Forall2 block (seen (snd (s_first src)) es) bs ∧
    dump src =
      match o_error (snd (s_first src)), o_error (snd (s_second src)) with
      | Some msg, _ => MkOutput 1 envelopes_header (msg +:+ nl)
      | None, Some msg => MkOutput 1 (envelopes_header +:+ concat bs +:+ pairs_header) (msg +:+ nl)
      | None, None =>
          MkOutput 0 (envelopes_header +:+ concat bs +:+ pairs_header +:+ print_all pair_text (seen (snd (s_second src)) ps)) ""
      end.
Proof.
  destruct (print_all_blocks (seen (snd (s_first src)) (sort_by fst (map_to_list (envelopes (fst (s_first src)))))))
    as (bs & Hb & Ht).
  exists (sort_by fst (map_to_list (envelopes (fst (s_first src))))), (s_scan src (pairs (fst (s_second src)))), bs.
  split_and!; [apply merge_sort_Permutation|apply table_sorted|reflexivity|exact Hb|].
  unfold dump, dump_pairs, query_envelopes, query_pairs. destruct src as [op [d1 o1] [d2 o2] scan]. cbn [s_first s_second s_scan fst snd] in *.
  destruct (o_error o1) as [msg|] eqn:E1; [unfold query; by rewrite E1|]. rewrite query_rows, Ht by done.
  destruct (o_error o2) as [msg|] eqn:E2; [unfold query; rewrite E2; by rewrite app_assoc_s|].
  rewrite query_rows by done. by rewrite !app_assoc_s.
Qed.

(** ** A ciphertext that is not shown whole *)

(** Base64url with padding, for four bytes; PUT accepts it. *)
Definition padded_body : string := quoted ("{'version':'1','msg_id':'01900000-0000-7000-8000-000000000000'," +:+
  "'ts':'2026-04-18T12:00:00Z','path_id':'" +:+ pathAB +:+ "','ciphertext_sha256':" +:+
  "'4bdeaa5225fc0ebaa0996963587bee268c807e00b3cc44e8122b501a331c097a','ciphertext':'QUJD-w=='}").

Definition post_padded : Request :=
  MkRequest "PUT" ("/mailbox/" +:+ pathAB) "" {["X-Nexus-Signature" := [sigA]]} padded_body false.

Definition padded_tables : DB := w_db (snd (Sql.run calm (put post_padded pathAB) paired)).

Lemma padded_shown_short :
  Status (fst (Sql.run calm (put post_padded pathAB) paired)) = StatusAccepted ∧
  ∃ r b, envelopes padded_tables !! message_id = Some r ∧ decodeB64URL (er_ciphertext r) = Some b ∧
    len b = 4 ∧ len (ctBytes (er_ciphertext r)) = 3.
Proof.
  split; [vm_compute; reflexivity|].
  exists (MkEnvelopeRow pathAB AToB "2026-04-18T12:00:00Z" "QUJD-w==" sigA padded_body), ("ABC" +:+ String (chr 251) "").
  split_and!; vm_compute; reflexivity.
Qed.

(** ** Properties *)

(** C40: what the inspector prints.  The file is the one the flag names.  When it
    opens, the dump has one block for every stored envelope, in the order of the
    ids, and one for every pair: the JSON shown reads as the value that is stored;
    the bytes shown are the first of the ciphertext, and all of them unless it is
    padded and short of padding or with a letter of the URL alphabet; PUT accepts a
    ciphertext of four bytes that is shown with three.  An error of opening or of a
    query is the exit code 1 with its text, after what was printed before; a read
    that fails later ends the rows without an error and with the exit code 0. *)
Theorem inspector_dumps (src : Source) :
  (∀ t, s_scan src t ≡ₚ map_to_list t) →
  (∀ args path, Parse formal args defaultPath = inl path →
     match s_open src path with
     | Some msg => main args src = MkOutput 1 "" (msg +:+ nl)
     | None =>
         ∃ es ps bs,
           es ≡ₚ map_to_list (envelopes (fst (s_first src))) ∧ StronglySorted by_key es ∧
           ps ≡ₚ map_to_list (pairs (fst (s_second src))) ∧
           Forall2 block (seen (snd (s_first src)) es) bs ∧
           main args src =
             match o_error (snd (s_first src)), o_error (snd (s_second src)) with
             | Some msg, _ => MkOutput 1 envelopes_header (msg +:+ nl)
             | None, Some msg => MkOutput 1 (envelopes_header +:+ concat bs +:+ pairs_header) (msg +:+ nl)
             | None, None =>
                 MkOutput 0 (envelopes_header +:+ concat bs +:+ pairs_header +:+
                   print_all pair_text (seen (snd (s_second src)) ps)) ""
             end
     end) ∧
  (∀ args, exit_code (main args src) = 0 ↔
     Parse formal args defaultPath = inr ErrHelp ∨
     ∃ path, Parse formal args defaultPath = inl path ∧ s_open src path = None ∧
       o_error (snd (s_first src)) = None ∧ o_error (snd (s_second src)) = None) ∧
  Status (fst (Sql.run calm (put post_padded pathAB) paired)) = StatusAccepted ∧
  (∃ r b, envelopes padded_tables !! message_id = Some r ∧ decodeB64URL (er_ciphertext r) = Some b ∧
     len b = 4 ∧ len (ctBytes (er_ciphertext r)) = 3).
Proof.
  intros Hscan. destruct (dump_rows src) as (es & ps & bs & He & Hs & -> & Hb & Hd). split; [|split].
  - intros args path Hp. unfold main. rewrite Hp. destruct (s_open src path) as [msg|]; [done|].
    exists es, (s_scan src (pairs (fst (s_second src)))), bs. by rewrite Hd.
  - intros args. unfold main. destruct (Parse formal args defaultPath) as [path|[]]; [|naive_solver..].
    destruct (s_open src path) as [msg|] eqn:Ho; [naive_solver|]. rewrite Hd.
    destruct (o_error (snd (s_first src))), (o_error (snd (s_second src))); naive_solver.
  - exact padded_shown_short.
Qed.

(** One delivered message, and the file [x.db]. *)
Definition demo : Source :=
  MkSource (λ path, if String.eqb path "x.db" then None else Some "no such file"%string)
    (w_db delivered, clean) (w_db delivered, clean) map_to_list.

Definition demo_text : string := quoted "=== envelopes ===

msg_id  : 01900000-0000-7000-8000-000000000000
path_id : nxc_-Biv03ptw7yS-0RzEBEncAbbTvpukCPNdGjAIzXSKk0
dir     : A_to_B
ct len  : 2
ct hex  : 6869
sig     : AQEBAQEBAQEBAQEBAQEBAQEBAQEBAQEBAQEBAQEBAQEBAQEBAQEBAQEBAQEBAQEBAQEBAQEBAQEBAQEBAQEBAQ
outer   :
{
    'ciphertext': 'aGk',
    'ciphertext_sha256': '8f434346648f6b96df89dda901c5176b10a6d83961dd3c1ac88b59b2dc327aa4',
    'msg_id': '01900000-0000-7000-8000-000000000000',
    'path_id': 'nxc_-Biv03ptw7yS-0RzEBEncAbbTvpukCPNdGjAIzXSKk0',
    'ts': '2026-04-18T12:00:00Z',
    'version': '1'
  }

=== pairs ===

path_id            : nxc_-Biv03ptw7yS-0RzEBEncAbbTvpukCPNdGjAIzXSKk0
requester          : alice
requester_pubkey   : AQEBAQEBAQEBAQEBAQEBAQEBAQEBAQEBAQEBAQEBAQE
requester_dh_pubkey: 
owner              : bob
owner_pubkey       : AgICAgICAgICAgICAgICAgICAgICAgICAgICAgICAgI
owner_dh_pubkey    : 
sig_alg            : ed25519
dh_alg             : P-256
".

Example demo_dump : main ["--db=x.db"]%string demo = MkOutput 0 demo_text "".
Proof. vm_compute. reflexivity. Qed.

(** Numbers, nesting and duplicate keys as they are shown. *)
Example shown_values :
  outerText (quoted "{'b':[1.50,1e3,{}],'a':1,'a':null,'c':1e400,'d':12345678901234567890}") =
  quoted "{
    'a': null,
    'b': [
      1.5,
      1000,
      {}
    ],
    'c': null,
    'd': 12345678901234567000
  }".
Proof. vm_compute. reflexivity. Qed.

Theorem inspector_dumps_witness :
  (∃ es ps bs, es ≡ₚ map_to_list (envelopes (w_db delivered)) ∧ Forall2 block es bs ∧
     demo_text = envelopes_header +:+ concat bs +:+ pairs_header +:+ print_all pair_text ps) ∧
  exit_code (main ["-db"]%string demo) ≠ 0.
Proof.
  destruct (inspector_dumps demo ltac:(by intros)) as (H & Hx & _). split.
  - specialize (H ["--db=x.db"]%string "x.db"%string eq_refl). cbn beta in H.
    change (s_open demo "x.db") with (@None string) in H. cbv iota in H.
    destruct H as (es & ps & bs & He & _ & _ & Hb & Hm). rewrite demo_dump in Hm. exists es, ps, bs.
    cbv beta iota delta [demo s_first s_second fst snd clean o_error o_cut seen] in He, Hb, Hm.
    split; [exact He|]. split; [exact Hb|].
    exact (f_equal stdout Hm).
  - intros [H0|(path & Hp & _)]%Hx; discriminate.
Defined.
