(* ===== verification/SchemaTheorems.v ===== *)
(** * Properties of the schema script *)

From S2P Require Import Prelude GoStrings Trim Storage SQLite Schema.

Local Open Scope string_scope.

(** ** Comments *)

Abbreviation commentless s := (Contains s "--" = false).

Lemma cut_comment_none s : commentless s → cut_comment s = s.
Proof.
  induction s as [|c s IH]; [done|]. intros [Hp Hs]%orb_false_iff. cbn [cut_comment].
  rewrite Hp. by rewrite IH.
Qed.

Lemma cut_comment_line c : cut_comment ("--" +:+ c) = "".
Proof. rewrite app_cons_s. cbn [cut_comment]. by rewrite <- app_cons_s, HasPrefix_app. Qed.

(** The lines of a text without comments have none. *)
Lemma Split_commentless s : commentless s → Forall (λ l, commentless l) (Split s "010").
Proof.
  induction s as [|c s IH]; [by repeat constructor|]. intros [Hp Hs]%orb_false_iff.
  specialize (IH Hs). pose proof (Join_Split s "010") as J. simpl.
  destruct (Ascii.eqb c "010"); [by constructor|]. pose proof (Split_nonempty s "010").
  destruct (Split s "010") as [|w ws]; [done|].
  inversion IH as [|? ? Hw Hws]; subst. constructor; [|done].
  apply orb_false_iff. split; [|done]. apply not_true_is_false. intros Ht.
  apply HasPrefix_spec in Ht as [r Hr]. apply not_true_iff_false in Hp. apply Hp, HasPrefix_spec.
  destruct ws as [|w' ws]; [by exists r|].
  exists (r +:+ nl +:+ Join (w' :: ws) nl). by rewrite <- app_assoc_s, <- Hr, app_cons_s.
Qed.

Lemma concat_app ws ws' : Schema.concat (ws ++ ws')%list = Schema.concat ws +:+ Schema.concat ws'.
Proof. induction ws as [|w ws IH]; [by rewrite app_nil_l_s|]. simpl. by rewrite IH, app_assoc_s. Qed.

Lemma concat_lines ws : ws ≠ [] → Schema.concat (map (λ l, l +:+ nl) ws) = Join ws nl +:+ nl.
Proof.
  induction ws as [|w [|w' ws] IH]; intros Hne; [done|apply app_nil_r_s|].
  change (Schema.concat (map (λ l, l +:+ nl) (w :: w' :: ws)))
    with ((w +:+ nl) +:+ Schema.concat (map (λ l, l +:+ nl) (w' :: ws))).
  rewrite IH by done. change (Join (w :: w' :: ws) nl) with (w +:+ nl +:+ Join (w' :: ws) nl).
  by rewrite !app_assoc_s.
Qed.

(** Cleaning works line by line, and leaves text without comments alone. *)
Lemma cleaned_app a b : cleaned (a +:+ nl +:+ b) = cleaned a +:+ cleaned b.
Proof.
  unfold cleaned. change (nl +:+ b) with (String "010" b).
  by rewrite Split_app_any, map_app, concat_app.
Qed.

Lemma cleaned_commentless s : commentless s → cleaned s = s +:+ nl.
Proof.
  intros Hs. unfold cleaned. rewrite <- (Join_Split s "010") at 2.
  change (String "010" "") with nl. rewrite <- concat_lines by apply Split_nonempty. f_equal.
  apply map_ext_in. intros l Hl. f_equal. apply cut_comment_none.
  pose proof (Split_commentless s Hs) as H. rewrite Forall_forall in H. apply H.
  by apply list_elem_of_In.
Qed.

Lemma cleaned_comment c : no_byte "010" c = true → cleaned ("--" +:+ c) = nl.
Proof.
  intros Hc. unfold cleaned. rewrite Split_no_sep by (unfold no_byte in *; by rewrite all_bytes_app, Hc).
  cbn [map Schema.concat foldr]. by rewrite cut_comment_line.
Qed.

(** ** Trimming *)

Lemma TrimLeft_newline s : TrimLeftPieces spaces (nl +:+ s) = TrimLeftPieces spaces s.
Proof.
  unfold TrimLeftPieces. change (nl +:+ s) with (String "010" s). cbn [String.length trim_pieces].
  assert (find (HasPrefix (String "010" s)) spaces = Some nl) as ->.
  { assert (HasPrefix s "" = true) as E by (by destruct s). cbn. by rewrite E. }
  change (String "010" s) with (nl +:+ s). by rewrite TrimPrefix_app.
Qed.

Lemma TrimSpace_newline s : TrimSpace (nl +:+ s) = TrimSpace s.
Proof. unfold TrimSpace. by rewrite TrimLeft_newline. Qed.

(** ** Scripts *)

(** A statement with comment lines before it. *)
Record item : Type := MkItem { comments : list string; statement : string }.

Definition item_ok (i : item) : Prop :=
  Forall (λ c, no_byte "010" c = true) (comments i) ∧
  commentless (statement i) ∧ no_byte ";" (statement i) = true ∧
  trimmed (statement i) = true ∧ statement i ≠ "".

Fixpoint item_text (cs : list string) (w : string) : string :=
  match cs with
  | [] => w +:+ ";" +:+ nl
  | c :: cs => ("--" +:+ c) +:+ nl +:+ item_text cs w
  end.

Fixpoint script_text (items : list item) : string :=
  match items with
  | [] => ""
  | i :: items => item_text (comments i) (statement i) +:+ script_text items
  end.

Lemma commentless_semi w : commentless w → no_byte ";" w = true → commentless (w +:+ ";").
Proof.
  induction w as [|c w IH]; [done|]. intros [Hp Hs]%orb_false_iff [Hc Hw]%andb_true_iff.
  rewrite app_cons_s. apply orb_false_iff. split; [|by apply IH].
  apply not_true_is_false. intros [r Hr]%HasPrefix_spec. apply not_true_iff_false in Hp. apply Hp.
  rewrite app_cons_s in Hr. injection Hr as -> Hr. destruct w as [|c' w]; [done|].
  rewrite app_cons_s in Hr. injection Hr as -> Hr. by destruct w.
Qed.

(** The cleaned script: each statement with the lines of its comments emptied. *)
Fixpoint blank (n : nat) (s : string) : string :=
  match n with O => s | S n => nl +:+ blank n s end.

Lemma cleaned_item cs w rest :
  Forall (λ c, no_byte "010" c = true) cs → commentless w → no_byte ";" w = true →
  cleaned (item_text cs w +:+ rest) = blank (length cs) (w +:+ ";" +:+ nl) +:+ cleaned rest.
Proof.
  intros Hcs Hw Hs. induction Hcs as [|c cs Hc _ IH]; cbn [item_text blank length].
  - rewrite !app_assoc_s, <- (app_assoc_s w ";" (nl +:+ rest)), cleaned_app.
    rewrite cleaned_commentless by (by apply commentless_semi). by rewrite !app_assoc_s.
  - rewrite !app_assoc_s, <- (app_assoc_s "--" c). rewrite cleaned_app, cleaned_comment by done. by rewrite IH.
Qed.

Fixpoint cleaned_text (items : list item) : string :=
  match items with
  | [] => nl
  | i :: items => blank (length (comments i)) (statement i +:+ ";" +:+ nl) +:+ cleaned_text items
  end.

Lemma cleaned_script items : Forall item_ok items → cleaned (script_text items) = cleaned_text items.
Proof.
  induction 1 as [|i items (Hc & Hw & Hs & _) _ IH]; [reflexivity|]. cbn [script_text cleaned_text].
  by rewrite cleaned_item, IH.
Qed.

Lemma blank_app n a b : blank n a +:+ b = blank n (a +:+ b).
Proof. induction n as [|n IH]; [done|]. cbn [blank]. by rewrite app_assoc_s, IH. Qed.

Lemma blank_blank k n s : blank k (blank n s) = blank (k + n) s.
Proof. induction k as [|k IH]; [done|]. cbn [blank Nat.add]. by rewrite IH. Qed.

Lemma blank_no_byte n s : no_byte ";" s = true → no_byte ";" (blank n s) = true.
Proof.
  intros Hs. induction n as [|n IH]; [done|]. unfold no_byte in *. cbn [blank].
  by rewrite all_bytes_app, IH.
Qed.

Lemma TrimSpace_blank n s : TrimSpace (blank n s) = TrimSpace s.
Proof. induction n as [|n IH]; [done|]. cbn [blank]. by rewrite TrimSpace_newline. Qed.

Lemma split_cleaned items k :
  Forall item_ok items →
  filter (λ s, s ≠ "") (map TrimSpace (Split (blank k (cleaned_text items)) ";")) = map statement items.
Proof.
  intros H. revert k. induction H as [|i items (_ & _ & Hs & Ht & Hne) _ IH]; intros k; cbn [cleaned_text].
  - rewrite Split_no_sep by (by apply blank_no_byte). cbn [map]. rewrite TrimSpace_blank. reflexivity.
  - rewrite blank_app, blank_blank, !app_assoc_s, <- blank_app.
    change (";" +:+ nl +:+ cleaned_text items) with (String ";" (blank 1 (cleaned_text items))).
    rewrite Split_app by (by apply blank_no_byte). cbn [map].
    rewrite TrimSpace_blank, TrimSpace_trimmed by done. rewrite filter_cons_True by done. by rewrite IH.
Qed.

(** ** What the schema declares *)

(** The table of a CREATE TABLE statement and its columns with what follows the
    name, as written. *)
Definition words (s : string) : list string := filter (λ w, w ≠ "") (Split s " ").

Definition column (s : string) : string * list string :=
  match words (TrimSpace s) with
  | [] => ("", [])
  | name :: declared => (name, declared)
  end.

Definition table_of (stmt : string) : option (string * list (string * list string)) :=
  '(head, rest) ← CutByte stmt "(";
  '(body, _) ← CutByte rest ")";
  match words head with
  | ["CREATE"; "TABLE"; "IF"; "NOT"; "EXISTS"; name] => Some (name, map column (Split body ","))
  | _ => None
  end.

Definition key : list string := ["TEXT"; "PRIMARY"; "KEY"].
Definition text : list string := ["TEXT"; "NOT"; "NULL"].
Definition maybe : list string := ["TEXT"].

(** The columns of the rows of [Storage]: the key of the table, then the fields of
    the record, an optional one where the column may be NULL. *)
Definition envelope_columns : list (string * list string) :=
  [("msg_id", key); ("path_id", text); ("direction", text); ("received_at", text);
   ("ciphertext", text); ("signature", text); ("outer_json", text)].
Definition request_columns : list (string * list string) :=
  [("request_id", key); ("status", text); ("created_at", text); ("expires_at", text);
   ("path_id", maybe); ("requester_json", text); ("owner_json", maybe); ("target_nexus_id", text)].
Definition pair_columns : list (string * list string) :=
  [("path_id", key); ("requester_id", text); ("requester_pubkey", text); ("requester_dh_pubkey", text);
   ("owner_id", text); ("owner_pubkey", text); ("owner_dh_pubkey", text); ("sig_alg", text);
   ("dh_alg", text); ("activated_at", text)].

(** A driver that notes what it executes, and fails where [fault] says. *)
Definition noting (fault : string → option string) (stmt : string) (done : list string) :
    option string * list string :=
  match fault stmt with Some msg => (Some msg, done) | None => (None, done ++ [stmt])%list end.

Lemma exec_all_noting fault stmts noted :
  let '(err, noted') := exec_all (noting fault) stmts noted in
  ∃ ran, noted' = (noted ++ ran)%list ∧
    match err with
    | None => ran = stmts
    | Some err => ∃ stmt msg rest, stmts = (ran ++ stmt :: rest)%list ∧ fault stmt = Some msg ∧
        err = wrap "storage: create schema: " msg
    end.
Proof.
  revert noted. induction stmts as [|stmt stmts IH]; intros noted; cbn [exec_all].
  { exists []. by rewrite app_nil_r. }
  unfold noting at 1. destruct (fault stmt) as [msg|] eqn:F.
  - exists []. split; [by rewrite app_nil_r|]. by exists stmt, msg, stmts.
  - specialize (IH (noted ++ [stmt])%list). destruct (exec_all _ _ _) as [err noted'].
    destruct IH as (ran & -> & H). exists (stmt :: ran). split; [by rewrite <- app_assoc|].
    destruct err as [err|]; [|by subst]. destruct H as (stmt' & msg & rest & -> & ? & ?).
    by exists stmt', msg, rest.
Qed.

(** C39: the schema script.  Splitting gives back the statements of any script
    that interleaves them with comment lines, even ones that hold semicolons; of
    the seven statements of the schema three declare exactly the tables and
    columns of the model; and creating the schema executes the seven in order, up
    to the first that fails, whose error it returns. *)
Theorem schema_statements (items : list item) (fault : string → option string) :
  Forall item_ok items →
  splitStatements (script_text items) = map statement items ∧
  length (splitStatements schemaSQL) = 7 ∧
  omap table_of (splitStatements schemaSQL) =
    [("envelopes", envelope_columns); ("pair_requests", request_columns); ("pairs", pair_columns)] ∧
  let '(err, ran) := CreateSchema (noting fault) [] in
  match err with
  | None => ran = splitStatements schemaSQL
  | Some err => ∃ stmt msg rest, splitStatements schemaSQL = (ran ++ stmt :: rest)%list ∧
      fault stmt = Some msg ∧ err = wrap "storage: create schema: " msg
  end.
Proof.
  intros H. split.
  { unfold splitStatements. rewrite cleaned_script by done. by apply (split_cleaned items 0). }
  split; [vm_compute; reflexivity|]. split; [vm_compute; reflexivity|].
  unfold CreateSchema. pose proof (exec_all_noting fault (splitStatements schemaSQL) []) as He.
  destruct (exec_all _ _ _) as [err ran]. by destruct He as (ran' & -> & He).
Qed.

Lemma schema_statements_witness :
  splitStatements (script_text [MkItem [" a; b"] "SELECT 1"; MkItem [] "SELECT 2"]) = ["SELECT 1"; "SELECT 2"].
Proof.
  refine (proj1 (schema_statements [MkItem [" a; b"] "SELECT 1"; MkItem [] "SELECT 2"] (λ _, None) _)).
  repeat constructor; discriminate.
Defined.
