(* ===== verification/CommandLineTheorems.v ===== *)
(** * When the relay starts

    The command line means what it says, and [main] reaches its listeners exactly
    with an id and a database that opened and has its tables. *)

From S2P Require Import Prelude GoStrings GoTime GoDuration Flag Storage SQLite Trim Schema SchemaTheorems CommandLine.

Local Open Scope string_scope.

(** ** Arguments *)

Definition flag_names : list string :=
  ["addr"; "tailnet-addr"; "id"; "db"; "sweep-interval"; "envelope-max-age"; "owner-secret"; "version"].

Lemma formal_names name st : formal name = Some st → name ∈ flag_names.
Proof.
  unfold formal. intros H. repeat case_hyp H; bool_prop; subst; try done; unfold flag_names; mem.
Qed.

(** A setting of a flag and how it is written: with one dash or two, with an equals
    sign or as two arguments. *)
Record Setting : Type := MkSetting {
  s_name : string;
  s_value : string;
  s_dashes : bool;
  s_equals : bool
}.

Definition dashes (two : bool) : string := if two then "--" else "-".

Definition written (s : Setting) : list string :=
  if s_equals s then [dashes (s_dashes s) +:+ s_name s +:+ "=" +:+ s_value s]
  else [dashes (s_dashes s) +:+ s_name s; s_value s].

(** A flag that is no switch has a value in either form. *)
Definition valued (name : string) : Prop :=
  match formal name with
  | Some (SetString _) | Some (SetDuration _) => True
  | _ => False
  end.

Definition sets (s : Setting) (f : Flags) : option Flags :=
  st ← formal (s_name s); Set_ st (s_value s) f.

Lemma classify_equals two name v :
  name ∈ flag_names → classify (dashes two +:+ name +:+ "=" +:+ v) = Named name (Some v).
Proof.
  unfold flag_names. intros H.
  repeat (apply elem_of_cons in H as [->|H]; [by destruct two|]). by apply elem_of_nil in H.
Qed.

Lemma classify_plain two name : name ∈ flag_names → classify (dashes two +:+ name) = Named name None.
Proof.
  unfold flag_names. intros H.
  repeat (apply elem_of_cons in H as [->|H]; [by destruct two|]). by apply elem_of_nil in H.
Qed.

(** A setting in front of other arguments. *)
Lemma Parse_written s args f f' :
  valued (s_name s) → sets s f = Some f' → Parse formal (written s ++ args) f = Parse formal args f'.
Proof.
  destruct s as [name v two eq]. unfold valued, sets. cbn [s_name s_value]. intros Hv Hs.
  destruct (formal name) as [st|] eqn:Hst; [|done]. cbn [mbind option_bind] in Hs.
  pose proof (formal_names _ _ Hst) as Hin.
  destruct eq; cbn [written s_equals s_dashes s_name s_value app Parse].
  - rewrite classify_equals, Hst by done. destruct st; [| |done]; by rewrite Hs.
  - rewrite classify_plain, Hst by done. destruct st; [| |done]; by rewrite Hs.
Qed.

(** All of them in order. *)
Fixpoint set_all (ss : list Setting) (f : Flags) : option Flags :=
  match ss with
  | [] => Some f
  | s :: ss => f ← sets s f; set_all ss f
  end.

Lemma Parse_settings ss f f' :
  Forall (λ s, valued (s_name s)) ss → set_all ss f = Some f' → Parse formal (ss ≫= written) f = inl f'.
Proof.
  intros Hv. revert f. induction Hv as [|s ss Hs _ IH]; intros f Hf; [by injection Hf as ->|].
  cbn [set_all] in Hf. apply bind_Some in Hf as (f1 & H1 & Hf).
  change ((s :: ss) ≫= written) with (written s ++ (ss ≫= written))%list.
  rewrite (Parse_written s _ f f1) by done. by apply IH.
Qed.

(** ** The database *)

Section database.
Context `{Driver}.

(** The driver executes statements one after the other, without an error. *)
Inductive executed : list string → Database → Database → Prop :=
| ExecutedNone d : executed [] d d
| ExecutedNext s ss d d1 d2 : Exec s d = (None, d1) → executed ss d1 d2 → executed (s :: ss) d d2.

Lemma executed_app ss ts d d' :
  executed (ss ++ ts) d d' ↔ ∃ d1, executed ss d d1 ∧ executed ts d1 d'.
Proof.
  split.
  - revert d. induction ss as [|s ss IH]; intros d He; [by exists d; split; [constructor|]|].
    inversion He as [|? ? ? d1 ? Hs Hr]; subst. destruct (IH _ Hr) as (d2 & ? & ?).
    exists d2. split; [by econstructor|done].
  - intros (d1 & H1 & H2). induction H1; [done|]. econstructor; [done|auto].
Qed.

Lemma exec_pragmas_ok ps d d' : exec_pragmas ps d = (None, d') ↔ executed ps d d'.
Proof.
  revert d. induction ps as [|p ps IH]; intros d; simpl.
  - split; [intros [= <-]; constructor|]. by inversion 1.
  - destruct (Exec p d) as [[msg|] d1] eqn:E.
    + split; [done|]. inversion 1; congruence.
    + rewrite IH. split; [by econstructor|]. inversion 1; subst. congruence.
Qed.

Lemma exec_all_ok ss d d' : exec_all Exec ss d = (None, d') ↔ executed ss d d'.
Proof.
  revert d. induction ss as [|p ss IH]; intros d; simpl.
  - split; [intros [= <-]; constructor|]. by inversion 1.
  - destruct (Exec p d) as [[msg|] d1] eqn:E.
    + split; [done|]. inversion 1; congruence.
    + rewrite IH. split; [by econstructor|]. inversion 1; subst. congruence.
Qed.

(** The file is open, its pragmas are set and its tables are there. *)
Definition ready (path : string) (d d' : Database) : Prop :=
  ∃ d1, Open path d = (None, d1) ∧ executed (pragmas ++ splitStatements schemaSQL) d1 d'.

Lemma OpenSQLite_ok path d d' :
  OpenSQLite path d = (None, d') ↔ ∃ d1, Open path d = (None, d1) ∧ executed pragmas d1 d'.
Proof.
  unfold OpenSQLite. destruct (Open path d) as [[msg|] d1]; [naive_solver|].
  rewrite exec_pragmas_ok. naive_solver.
Qed.

Lemma ready_iff path d d' :
  ready path d d' ↔ ∃ d2, OpenSQLite path d = (None, d2) ∧ CreateSchema Exec d2 = (None, d').
Proof.
  unfold ready, CreateSchema. setoid_rewrite OpenSQLite_ok. setoid_rewrite exec_all_ok.
  setoid_rewrite executed_app. naive_solver.
Qed.

(** C16: starting the relay.  Settings of flags, each with one dash or two, with an
    equals sign or as two arguments, in any order, mean what they set one after the
    other.  [main] goes on to serve exactly when the command line parses, does not
    ask for the version and names an id, the driver opens the file, and the three
    pragmas and the seven statements of the schema execute without an error, in
    that order; else it exits, with code 0 only for help and the version, and it
    touches no database before the command line is accepted. *)
Theorem relay_starts (Version : string) :
  (∀ ss f, Forall (λ s, valued (s_name s)) ss → set_all ss defaultFlags = Some f →
     Parse formal (ss ≫= written) defaultFlags = inl f) ∧
  (∀ args d f d', main Version args d = (Serves f, d') ↔
     Parse formal args defaultFlags = inl f ∧ f_showVersion f = false ∧ f_interchangeID f ≠ "" ∧
     ready (f_dbPath f) d d') ∧
  (∀ args d code out d', main Version args d = (Exits code out, d') →
     (code = 0%Z ∧ d' = d ∧ (Parse formal args defaultFlags = inr ErrHelp ∨
        ∃ f, Parse formal args defaultFlags = inl f ∧ f_showVersion f = true ∧ out = "interchange " +:+ Version)) ∨
     (code = 2%Z ∧ d' = d ∧ Parse formal args defaultFlags = inr ErrFlag) ∨
     (code = 1%Z ∧ ∃ f, Parse formal args defaultFlags = inl f ∧
        (f_interchangeID f = "" ∧ d' = d ∨ ¬ ∃ d2, ready (f_dbPath f) d d2))).
Proof.
  split; [intros ss f; apply Parse_settings|]. unfold main. split.
  - intros args d f d'. destruct (Parse formal args defaultFlags) as [f0|[]]; [|by split; [done|intros ([=] & _)]..].
    destruct (f_showVersion f0) eqn:Ev; [split; [done|intros ([= <-] & Hv & _); congruence]|].
    destruct (String.eqb_spec (f_interchangeID f0) ""); [split; [done|intros ([= <-] & _ & Hid & _); done]|].
    setoid_rewrite ready_iff. destruct (OpenSQLite (f_dbPath f0) d) as [[err|] d2] eqn:Eo.
    { split; [done|]. intros ([= <-] & _ & _ & d3 & Ho & _). congruence. }
    destruct (CreateSchema Exec d2) as [[err|] d3] eqn:Ec.
    { split; [done|]. intros ([= <-] & _ & _ & d4 & Ho & Hc). congruence. }
    split; [intros [= <- <-]; eauto 10|]. intros ([= <-] & _ & _ & d4 & Ho & Hc). congruence.
  - intros args d code out d'. destruct (Parse formal args defaultFlags) as [f0|[]]; [|intros [= <- <- <-]; auto..].
    destruct (f_showVersion f0) eqn:Ev; [intros [= <- <- <-]; left; eauto 10|].
    destruct (String.eqb_spec (f_interchangeID f0) ""); [intros [= <- <- <-]; right; right; eauto 10|].
    setoid_rewrite ready_iff.
    destruct (OpenSQLite (f_dbPath f0) d) as [[err|] d2] eqn:Eo.
    { intros [= <- <- <-]. right. right. split; [done|]. exists f0. split; [done|]. right.
      intros (d4 & d5 & Ho & _). congruence. }
    destruct (CreateSchema Exec d2) as [[err|] d3] eqn:Ec; [|done].
    intros [= <- <- <-]. right. right. split; [done|]. exists f0. split; [done|]. right.
    intros (d4 & d5 & Ho & Hc). congruence.
Qed.

End database.

Module Demo.

(** A driver that keeps what it executed. *)
#[export] Instance recorder : Driver := {
  Database := list string;
  Open path d := (None, [path]);
  Exec s d := (None, (d ++ [s])%list);
  CloseDB d := d
}.

Definition settings : list Setting :=
  [MkSetting "id" "nexus-1" false false; MkSetting "sweep-interval" "1m30s" true true;
   MkSetting "db" "a=b.db" false true].

Definition flags : Flags :=
  MkFlags ":8443" "127.0.0.1:8444" "nexus-1" "a=b.db" (90 * Second) (7 * 24 * Hour) "" false.

End Demo.

Section Witness.
Import Demo.

Lemma relay_starts_witness :
  Parse formal ["-id"; "nexus-1"; "--sweep-interval=1m30s"; "-db=a=b.db"] defaultFlags = inl flags ∧
  ready "a=b.db" [] ("a=b.db" :: pragmas ++ splitStatements schemaSQL)%list.
Proof.
  pose proof (relay_starts "dev") as (Hp & Hs & _). split.
  - apply (Hp settings flags); [|by vm_compute]. repeat constructor.
  - apply (Hs ["-id"; "nexus-1"; "--sweep-interval=1m30s"; "-db=a=b.db"] [] flags). vm_compute. reflexivity.
Defined.

End Witness.
