(* ===== verification/Edge.v ===== *)
(** * Identities at the gRPC edge

    internal/edge/edge.go: the verified identity, product entitlement, and the
    cwb-* metadata that carries it to a pillar, and how a pillar is dialed.

    Certificates, files and gRPC clients are the class [Transport].
    google.golang.org/grpc/metadata is a class: a map from lower-cased keys to
    values with the two operations the code calls, and the laws its
    documentation gives for them. *)

From S2P Require Import Prelude GoStrings Trim.

Local Open Scope string_scope.

(** ** Metadata *)

Class Metadata : Type := {
  MD : Type;
  md_empty : MD;
  md_Get : MD → string → list string;
  md_Set : MD → string → list string → MD;
  md_Delete : MD → string → MD
}.

(** Keys are lower-cased by every operation. *)
Class MetadataLaws `{Metadata} : Prop := {
  md_Get_empty k : md_Get md_empty k = [];
  md_Get_Set m k vs k' : vs ≠ [] →
    md_Get (md_Set m k vs) k' =
      if decide (ToLowerASCII k = ToLowerASCII k') then vs else md_Get m k';
  md_Get_Delete m k k' :
    md_Get (md_Delete m k) k' =
      if decide (ToLowerASCII k = ToLowerASCII k') then [] else md_Get m k'
}.

(** ** Identity *)

Module edge.

Record Identity : Type := MkIdentity {
  Subject : string;
  Kind : string;
  Org : string;
  ResponsibleHuman : string;
  Scopes : list string;
  Products : list string
}.

(** The zero value. *)
Definition zero : Identity := MkIdentity "" "" "" "" [] [].

Definition HasProduct (id : Identity) (product : string) : bool :=
  existsb (λ p, String.eqb p product) (Products id).

End edge.

Definition cwbMetaKeys : list string :=
  ["cwb-org"; "cwb-subject"; "cwb-kind"; "cwb-scopes"; "cwb-products"; "cwb-responsible-human"].

Section Edge.
Context `{MetadataLaws}.

Definition StripClientMetadata (md : MD) : MD := foldl md_Delete md cwbMetaKeys.

(** The metadata [OutgoingContext] attaches to the outgoing call. *)
Definition OutgoingContext (id : edge.Identity) : MD :=
  let md := md_Set md_empty "cwb-org" [edge.Org id] in
  let md := md_Set md "cwb-subject" [edge.Subject id] in
  let md := md_Set md "cwb-kind" [edge.Kind id] in
  let md := md_Set md "cwb-scopes" [Join (edge.Scopes id) " "] in
  let md := md_Set md "cwb-products" [Join (edge.Products id) " "] in
  if negb (String.eqb (edge.ResponsibleHuman id) "")
  then md_Set md "cwb-responsible-human" [edge.ResponsibleHuman id] else md.

(** The metadata the [WithMetadata] annotator of the gateway emits for the
    identity of the request's context
    (cmd/interchange-gateway/main.go [newGRPCMux]). *)
Definition annotate (ctx : option edge.Identity) : option MD :=
  match ctx with
  | None => None
  | Some id =>
      let md := md_Set md_empty "cwb-org" [edge.Org id] in
      let md := md_Set md "cwb-subject" [edge.Subject id] in
      let md := md_Set md "cwb-kind" [edge.Kind id] in
      let md := match edge.Scopes id with
                | [] => md
                | scopes => md_Set md "cwb-scopes" [Join scopes " "]
                end in
      let md := match edge.Products id with
                | [] => md
                | products => md_Set md "cwb-products" [Join products " "]
                end in
      Some (if negb (String.eqb (edge.ResponsibleHuman id) "")
            then md_Set md "cwb-responsible-human" [edge.ResponsibleHuman id] else md)
  end.

(** ** Lemmas *)

(** What a pillar reads under each key: the six fields of the identity. *)
Definition claims_of (id : edge.Identity) : list (string * list string) :=
  [("cwb-org", [edge.Org id]); ("cwb-subject", [edge.Subject id]); ("cwb-kind", [edge.Kind id]);
   ("cwb-scopes", match edge.Scopes id with [] => [] | ss => [Join ss " "] end);
   ("cwb-products", match edge.Products id with [] => [] | ps => [Join ps " "] end);
   ("cwb-responsible-human",
     if String.eqb (edge.ResponsibleHuman id) "" then [] else [edge.ResponsibleHuman id])].

Ltac md_simpl :=
  repeat first
    [ rewrite md_Get_Set by done
    | rewrite md_Get_empty
    | rewrite decide_True by reflexivity
    | rewrite decide_False by (vm_compute; discriminate) ].

Lemma annotate_claims id md k vs :
  annotate (Some id) = Some md → (k, vs) ∈ claims_of id → md_Get md k = vs.
Proof.
  intros [= <-] Hin. unfold claims_of in Hin.
  destruct (edge.Scopes id), (edge.Products id), (String.eqb (edge.ResponsibleHuman id) "");
    simpl; repeat (apply elem_of_cons in Hin as [[= -> ->]|Hin]); try (by apply elem_of_nil in Hin);
    md_simpl; done.
Qed.

Lemma foldl_Delete_Get ks md k :
  md_Get (foldl md_Delete md ks) k =
    if decide (ToLowerASCII k ∈ map ToLowerASCII ks) then [] else md_Get md k.
Proof.
  revert md; induction ks as [|k' ks IH]; intros md; simpl.
  - done.
  - rewrite IH, md_Get_Delete.
    repeat case_decide; rewrite ?elem_of_cons in *; intuition congruence.
Qed.

(** After the strip no client value remains under an identity key, and every
    other key keeps its values. *)
Lemma StripClientMetadata_Get md k :
  md_Get (StripClientMetadata md) k =
    if decide (ToLowerASCII k ∈ cwbMetaKeys) then [] else md_Get md k.
Proof. apply foldl_Delete_Get. Qed.

End Edge.

(** ** Dialing *)

(** The fields of [tls.Config] that are set. *)
Record TLSConfig (Certificate CertPool : Type) : Type := MkTLSConfig {
  Certificates : list Certificate;
  RootCAs : CertPool;
  MinVersion : Z
}.
Arguments MkTLSConfig {_ _}.

Definition VersionTLS13 : Z := 772.

(** crypto/tls, crypto/x509, os.ReadFile and google.golang.org/grpc.
    [CertPoolFromPEM] is a new pool with the certificates of a PEM text appended;
    [None]: there is none in it. *)
Class Transport : Type := {
  Certificate : Type;
  CertPool : Type;
  ClientConn : Type;
  LoadX509KeyPair : string → string → result Certificate;
  ReadFile : string → result string;
  CertPoolFromPEM : string → option CertPool;
  NewClient : string → TLSConfig Certificate CertPool → result ClientConn
}.

Definition DialPillar `{Transport} (addr certFile keyFile caFile : string) : result ClientConn :=
  cert ← LoadX509KeyPair certFile keyFile;
  caPEM ← ReadFile caFile;
  match CertPoolFromPEM caPEM with
  | None => Err (ErrOther ("edge.DialPillar: no certs parsed from CA " +:+ caFile))
  | Some pool => NewClient addr (MkTLSConfig [cert] pool VersionTLS13)
  end.

(** A connection comes with the client certificate, the pool and TLS 1.3. *)
Definition dialed_mtls `{Transport} (addr certFile keyFile caFile : string) (conn : ClientConn) : Prop :=
  ∃ cert caPEM pool, LoadX509KeyPair certFile keyFile = Ok cert ∧ ReadFile caFile = Ok caPEM ∧
    CertPoolFromPEM caPEM = Some pool ∧ NewClient addr (MkTLSConfig [cert] pool VersionTLS13) = Ok conn.

Lemma DialPillar_Ok `{Transport} addr certFile keyFile caFile conn :
  DialPillar addr certFile keyFile caFile = Ok conn ↔ dialed_mtls addr certFile keyFile caFile conn.
Proof.
  unfold DialPillar, dialed_mtls. rewrite bind_Ok. setoid_rewrite bind_Ok. split.
  - intros (cert & Hc & pem & Hp & Hn). destruct (CertPoolFromPEM pem) as [pool|] eqn:E; [|done].
    by exists cert, pem, pool.
  - intros (cert & pem & pool & Hc & Hp & E & Hn). exists cert. split; [done|]. exists pem. by rewrite E.
Qed.
