(* ===== verification/Gateway.v ===== *)
(** * The gateway's reverse proxy

    internal/gateway/gateway.go: routes, public paths, bearer tokens, identity
    headers and product gates.

    A handler takes the identity its request's context carries and the request,
    and its [Effect] is what it makes of them: an answer of its own, the request
    handed to a reverse proxy for a backend, the request handed to the gRPC mux
    of a pillar, or a panic.  The token verifier (herald) is a parameter, as is
    the parser of backend URLs, of which only success matters here. *)

From S2P Require Import Prelude GoStrings Http Trim Edge.

Local Open Scope string_scope.

(** ** Handlers *)

Inductive Effect : Type :=
| Respond (resp : Response)
| Proxied (backend : string) (r : Request)
| Invoked (pillar : string) (ctx : option edge.Identity) (r : Request)
| Panic.

Definition Handler : Type := option edge.Identity → Request → Effect.

(** [httputil.NewSingleHostReverseProxy] for a backend, and the gRPC mux of a
    pillar: what they do with the request is outside the gateway. *)
Definition ReverseProxy (backend : string) : Handler := λ _ r, Proxied backend r.
Definition GRPCMux (pillar : string) : Handler := λ ctx r, Invoked pillar ctx r.

Definition set_path (r : Request) (p : string) : Request :=
  MkRequest (Method r) p (RawQuery r) (Header r) (BodyData r) (BodyErr r).
Definition set_header (r : Request) (h : Headers) : Request :=
  MkRequest (Method r) (Path r) (RawQuery r) h (BodyData r) (BodyErr r).

(** ** Data *)

Record Identity : Type := MkIdentity {
  Subject : string;
  Kind : string;
  Org : string;
  ResponsibleHuman : string;
  Scopes : list string;
  Products : list string;
  Audience : list string
}.

(** [Verify]: the identity of a token, or an error. *)
Definition Verifier : Type := string → option Identity.

Record Config : Type := MkConfig {
  cfg_Verifier : option Verifier;
  AuthBypass : bool;
  Routes : gmap string string;
  PublicPaths : list string;
  RouteProducts : gmap string string;
  GRPCHandlers : gmap string Handler
}.

Record route : Type := MkRoute {
  prefix : string;
  backend : string;
  product : string;
  handler : option Handler
}.

Record Gateway : Type := MkGateway {
  bypass : bool;
  verify : option Verifier;
  routes : list route;
  publicEx : gset string;
  publicPx : list string
}.

Definition trustedHeaders : list string :=
  ["X-CWB-Org"; "X-CWB-Subject"; "X-CWB-Kind"; "X-CWB-Scopes";
   "X-CWB-Responsible-Human"; "X-CWB-Products"].

(** ** Building a gateway *)

(** The result of [sort.Slice] on the routes: the iteration order of a Go map is
    unspecified and the sort is not stable, so routes with prefixes of one length
    come in any order. *)
Class SortSlice : Type := sortRoutes : list route → list route.

Definition longer (a b : route) : Prop := (len (prefix b) <= len (prefix a))%Z.

Class SortSliceLaws `{SortSlice} : Prop := {
  sortRoutes_perm l : sortRoutes l ≡ₚ l;
  sortRoutes_sorted l : StronglySorted longer (sortRoutes l)
}.

(** Whether [url.Parse] accepts a backend. *)
Class UrlParser : Type := url_Parse : string → bool.

(** The loop over the public paths. *)
Fixpoint splitPublic (ps : list string) : gset string * list string :=
  match ps with
  | [] => (∅, [])
  | p :: ps =>
      let '(ex, px) := splitPublic ps in
      let p := TrimSpace p in
      if String.eqb p "" then (ex, px)
      else if HasSuffix p "/" then (ex, p :: px) else ({[p]} ∪ ex, px)
  end.

Section Gateway.
Context `{SortSlice, UrlParser}.

Definition proxyRoute (cfg : Config) (kv : string * string) : route :=
  let p := TrimRightSlash kv.1 in
  MkRoute p kv.2 (default "" (RouteProducts cfg !! p)) None.

Definition grpcRoute (kv : string * Handler) : route :=
  MkRoute (TrimRightSlash kv.1) "" "" (Some kv.2).

Definition New (cfg : Config) : result Gateway :=
  match AuthBypass cfg, cfg_Verifier cfg with
  | false, None => Err (ErrOther "gateway: Verifier required when AuthBypass is false")
  | _, _ =>
      let '(ex, px) := splitPublic (PublicPaths cfg) in
      if forallb (λ kv, url_Parse kv.2) (map_to_list (Routes cfg)) then
        let rs := (map (proxyRoute cfg) (map_to_list (Routes cfg)) ++
                   map grpcRoute (map_to_list (GRPCHandlers cfg)))%list in
        Ok (MkGateway (AuthBypass cfg) (cfg_Verifier cfg) (sortRoutes rs) ex px)
      else Err (ErrOther "gateway: route backend")
  end.

End Gateway.

(** ** Serving *)

(** One route of [match]: the remainder of the path, always with a leading slash. *)
Definition try_route (path : string) (rt : route) : option (route * string) :=
  if String.eqb path (prefix rt) || HasPrefix path (prefix rt +:+ "/") then
    let rest := TrimPrefix path (prefix rt) in
    Some (rt, if String.eqb rest "" then "/" else rest)
  else None.

Fixpoint first_route (rts : list route) (path : string) : option (route * string) :=
  match rts with
  | [] => None
  | rt :: rts => match try_route path rt with Some m => Some m | None => first_route rts path end
  end.

Definition match_route (g : Gateway) (path : string) : option (route * string) :=
  first_route (routes g) path.

Definition isPublic (g : Gateway) (path : string) : bool :=
  bool_decide (path ∈ publicEx g) || existsb (HasPrefix path) (publicPx g).

Definition hasProduct (products : list string) (p : string) : bool :=
  existsb (λ x, String.eqb x p) products.

(** [bearer]; the gateway and its main package have a copy each. *)
Definition bearer (r : Request) : string :=
  let h := HeaderGet (Header r) "Authorization" in
  if (len "Bearer " <? len h)%Z && EqualFoldASCII (take_bytes 7 h) "Bearer "
  then drop_bytes 7 h else "".

Definition injectIdentity (r : Request) (id : Identity) : Request :=
  let h := HeaderSet (Header r) "X-CWB-Org" (Org id) in
  let h := HeaderSet h "X-CWB-Subject" (Subject id) in
  let h := HeaderSet h "X-CWB-Kind" (Kind id) in
  let h := HeaderSet h "X-CWB-Scopes" (Join (Scopes id) " ") in
  let h := HeaderSet h "X-CWB-Products" (Join (Products id) " ") in
  set_header r
    (if negb (String.eqb (ResponsibleHuman id) "")
     then HeaderSet h "X-CWB-Responsible-Human" (ResponsibleHuman id) else h).

Definition strip (keys : list string) (r : Request) : Request :=
  set_header r (foldl HeaderDel (Header r) keys).

Definition quoted (s : string) : string := String "034" s +:+ String "034" "".

(** [http.Error] with a JSON object that holds an error code. *)
Definition refuse (code : string) (status : Z) : Effect :=
  Respond (HttpError ("{" +:+ quoted "error" +:+ ":" +:+ quoted code +:+ "}") status).

Definition serve (g : Gateway) : Handler := λ ctx r,
  match match_route g (Path r) with
  | None => refuse "no route" StatusNotFound
  | Some (rt, rest) =>
      match handler rt with
      | Some h => h ctx (set_path r rest)
      | None =>
          let r := strip trustedHeaders r in
          let proxy r := ReverseProxy (backend rt) ctx (set_path r rest) in
          if bypass g || isPublic g (Path r) then proxy r
          else
            let tok := bearer r in
            if String.eqb tok "" then refuse "missing bearer token" StatusUnauthorized
            else
              match verify g with
              | None => Panic
              | Some v =>
                  match v tok with
                  | None => refuse "invalid token" StatusUnauthorized
                  | Some id =>
                      let r := injectIdentity r id in
                      if negb (String.eqb (product rt) "") &&
                         negb (hasProduct (Products id) (product rt))
                      then refuse "product not enabled for org" StatusForbidden
                      else proxy r
                  end
              end
      end
  end.

(** ** Headers

    What the identity headers of a request say, key by key. *)

Definition header_of (r : Request) (k : string) : option (list string) :=
  Header r !! CanonicalHeaderKey k.

(** The identity headers of a verified identity. *)
Definition identity_headers (id : Identity) : list (string * option (list string)) :=
  [("X-CWB-Org", Some [Org id]); ("X-CWB-Subject", Some [Subject id]);
   ("X-CWB-Kind", Some [Kind id]); ("X-CWB-Scopes", Some [Join (Scopes id) " "]);
   ("X-CWB-Products", Some [Join (Products id) " "]);
   ("X-CWB-Responsible-Human",
     if String.eqb (ResponsibleHuman id) "" then None else Some [ResponsibleHuman id])].

(** The same request but for the headers under the keys [ks]. *)
Definition same_but (ks : list string) (r r' : Request) : Prop :=
  Method r' = Method r ∧ RawQuery r' = RawQuery r ∧ BodyData r' = BodyData r ∧
  BodyErr r' = BodyErr r ∧
  ∀ k, k ∉ map CanonicalHeaderKey ks → Header r' !! k = Header r !! k.

Lemma foldl_HeaderDel ks h k :
  foldl HeaderDel h ks !! k =
    if decide (k ∈ map CanonicalHeaderKey ks) then None else h !! k.
Proof.
  revert h; induction ks as [|k' ks IH]; intros h; simpl.
  - done.
  - rewrite IH. unfold HeaderDel.
    destruct (decide (k = CanonicalHeaderKey k')) as [->|Hne].
    + rewrite lookup_delete_eq, (decide_True (P := _ ∈ _ :: _)) by (by left). by case_decide.
    + rewrite lookup_delete_ne by done.
      repeat case_decide; rewrite ?elem_of_cons in *; intuition congruence.
Qed.

Lemma strip_header ks r k :
  Header (strip ks r) !! k =
    if decide (k ∈ map CanonicalHeaderKey ks) then None else Header r !! k.
Proof. apply foldl_HeaderDel. Qed.

Lemma strip_same_but ks r : same_but ks r (strip ks r).
Proof. repeat split. intros k Hk. by rewrite strip_header, decide_False. Qed.

Lemma strip_idem ks r k : k ∈ ks → header_of (strip ks r) k = None.
Proof.
  intros Hk. unfold header_of. rewrite strip_header, decide_True; [done|].
  by apply list_elem_of_fmap_2.
Qed.

Lemma same_but_trans ks r1 r2 r3 : same_but ks r1 r2 → same_but ks r2 r3 → same_but ks r1 r3.
Proof.
  intros (?&?&?&?&H12) (?&?&?&?&H23). repeat split; try congruence.
  intros k Hk. by rewrite H23, H12.
Qed.

(** Injection into a stripped request leaves exactly the identity's headers. *)
Lemma injectIdentity_headers r id k v :
  header_of r "X-CWB-Responsible-Human" = None →
  (k, v) ∈ identity_headers id → header_of (injectIdentity r id) k = v.
Proof.
  unfold header_of, injectIdentity, HeaderSet, identity_headers; simpl.
  intros Hrh Hin.
  repeat (apply elem_of_cons in Hin as [[= -> ->]|Hin]); try (by apply elem_of_nil in Hin);
    destruct (String.eqb (ResponsibleHuman id) ""); cbn [negb];
    repeat first [ rewrite lookup_insert_eq | rewrite lookup_insert_ne by (vm_compute; discriminate) ];
    done.
Qed.

Lemma injectIdentity_same_but r id : same_but trustedHeaders r (injectIdentity r id).
Proof.
  unfold injectIdentity, HeaderSet. repeat split; simpl. intros k Hk.
  cbn [map trustedHeaders] in Hk. rewrite !not_elem_of_cons in Hk. destruct Hk as (?&?&?&?&?&?&_).
  destruct (String.eqb _ _); simpl; by rewrite !lookup_insert_ne by congruence.
Qed.
