(* ===== verification/GatewayMain.v ===== *)
(** * The gateway binary

    cmd/interchange-gateway/main.go: the handlers of the gRPC edges
    ([authInject], [cairnComposite], [heraldComposite]) and the parsing of the
    route and public-path settings; [Startup] has [main]. *)

From S2P Require Import Prelude GoStrings Http Trim Edge Gateway.

Local Open Scope string_scope.

(** ** The edges *)

Definition audienceOK (gid : Identity) (product : string) : bool :=
  if String.eqb product "" || bool_decide (Audience gid = []) then true
  else existsb (λ a, String.eqb a product) (Audience gid).

(** The gateway's identity as the edge's: no audience. *)
Definition edgeIdentity (gid : Identity) : edge.Identity :=
  edge.MkIdentity (Subject gid) (Kind gid) (Org gid) (ResponsibleHuman gid)
    (Scopes gid) (Products gid).

(** The zero value, which the edges use when there is no verifier. *)
Definition zeroIdentity : Identity := MkIdentity "" "" "" "" [] [] [].

Definition verifyToken (v : option Verifier) (tok : string) : option Identity :=
  match v with
  | Some v => v tok
  | None => Some zeroIdentity
  end.

(** Each key with its grpc-gateway form, in the order they are deleted. *)
Definition metadataHeaders : list string :=
  k ← cwbMetaKeys; [k; "Grpc-Metadata-" +:+ k].

Definition authInject (next : Handler) (v : option Verifier) (product : string) : Handler :=
  λ _ r,
  let tok := bearer r in
  if String.eqb tok "" then refuse "missing bearer token" StatusUnauthorized
  else
    match verifyToken v tok with
    | None => refuse "invalid token" StatusUnauthorized
    | Some gid =>
        let id := edgeIdentity gid in
        if negb (String.eqb product "") && negb (edge.HasProduct id product)
        then refuse "product not enabled for org" StatusForbidden
        else if negb (audienceOK gid product)
        then refuse "token audience does not include this service" StatusForbidden
        else next (Some id) (strip metadataHeaders r)
    end.

Definition xcwbHeaders : list string :=
  ["X-CWB-Org"; "X-CWB-Subject"; "X-CWB-Kind"; "X-CWB-Scopes"; "X-CWB-Products";
   "X-CWB-Responsible-Human"].

Definition stripSpoofedIdentity (r : Request) : Request :=
  strip xcwbHeaders (strip metadataHeaders r).

Definition injectCWBHeaders (r : Request) (id : edge.Identity) : Request :=
  let h := HeaderSet (Header r) "X-CWB-Org" (edge.Org id) in
  let h := HeaderSet h "X-CWB-Subject" (edge.Subject id) in
  let h := HeaderSet h "X-CWB-Kind" (edge.Kind id) in
  let h := HeaderSet h "X-CWB-Scopes" (Join (edge.Scopes id) " ") in
  let h := HeaderSet h "X-CWB-Products" (Join (edge.Products id) " ") in
  set_header r
    (if negb (String.eqb (edge.ResponsibleHuman id) "")
     then HeaderSet h "X-CWB-Responsible-Human" (edge.ResponsibleHuman id) else h).

Definition cairnComposite (apiMux gitProxy : Handler) (v : option Verifier)
    (product : string) : Handler := λ ctx r,
  let tok := bearer r in
  if String.eqb tok "" then refuse "missing bearer token" StatusUnauthorized
  else
    match verifyToken v tok with
    | None => refuse "invalid token" StatusUnauthorized
    | Some gid =>
        let id := edgeIdentity gid in
        if negb (edge.HasProduct id product)
        then refuse "product not enabled for org" StatusForbidden
        else if negb (audienceOK gid product)
        then refuse "token audience does not include this service" StatusForbidden
        else
          let r := stripSpoofedIdentity r in
          if HasPrefix (Path r) "/api/" then apiMux (Some id) r
          else gitProxy ctx (injectCWBHeaders r id)
    end.

(** The paths of herald that need a token. *)
Definition adminPath (p : string) : bool :=
  HasPrefix p "/api/orgs" || HasPrefix p "/api/humans/" || String.eqb p "/api/me".

Definition heraldComposite (apiMux httpProxy : Handler) (v : option Verifier) : Handler :=
  λ ctx r,
  if negb (adminPath (Path r)) then httpProxy ctx (stripSpoofedIdentity r)
  else
    let tok := bearer r in
    if String.eqb tok "" then refuse "missing bearer token" StatusUnauthorized
    else
      match verifyToken v tok with
      | None => refuse "invalid token" StatusUnauthorized
      | Some gid => apiMux (Some (edgeIdentity gid)) (stripSpoofedIdentity r)
      end.

(** ** Settings *)

Definition routeProducts : gmap string string :=
  {["/cairn" := "cairn"; "/ledger" := "ledger"; "/knowledge" := "commonplace"]}.

(** One entry of the route list: [None] is a bad entry. *)
Definition parseEntry (entry : string) : option (string * string) :=
  match CutByte entry "=" with
  | Some (k, v) =>
      if String.eqb (TrimSpace k) "" || String.eqb (TrimSpace v) "" then None
      else Some (TrimSpace k, TrimSpace v)
  | None => None
  end.

Fixpoint parseEntries (entries : list string) (out : gmap string string)
    : result (gmap string string) :=
  match entries with
  | [] => Ok out
  | e :: es =>
      let entry := TrimSpace e in
      if String.eqb entry "" then parseEntries es out
      else
        match parseEntry entry with
        | None => Err (ErrOther ("bad route entry (want prefix=backend): " +:+ entry))
        | Some (k, v) => parseEntries es (<[k := v]> out)
        end
  end.

Definition parseRoutes (s : string) : result (gmap string string) :=
  let s := TrimSpace s in
  if String.eqb s "" then Ok ∅ else parseEntries (Split s ",") ∅.

Definition parsePublicPaths (s : string) : list string :=
  let s := TrimSpace s in
  if String.eqb s "" then []
  else filter (λ p, p ≠ "") (map TrimSpace (Split s ",")).
