(* ===== verification/Settings.v ===== *)
(** * The settings of the gateway as text

    INTERCHANGE_ROUTES and INTERCHANGE_PUBLIC_PATHS, written with any blanks around
    prefixes, backends, paths and separators, read back as what was written. *)

From S2P Require Import Prelude GoStrings Http Trim Edge Gateway GatewayMain.

Local Open Scope string_scope.

(** ** Words between blanks *)

(** A word of a list: not empty, without spaces at its ends, without the separator. *)
Record word (s : string) : Prop := Word {
  wd_trimmed : trimmed s = true;
  wd_nonempty : s ≠ "";
  wd_comma : no_byte "," s = true
}.

(** A word with its blanks. *)
Record padded : Type := Padded { pd_before : nat; pd_word : string; pd_after : nat }.

Definition padded_text (p : padded) : string := blanks (pd_before p) +:+ pd_word p +:+ blanks (pd_after p).

Lemma blanks_no_byte c n : Ascii.eqb " " c = false → no_byte c (blanks n) = true.
Proof.
  intros Hc. induction n as [|n IH]; [done|]. change (blanks (S n)) with (String " " (blanks n)).
  unfold no_byte in *. cbn [all_bytes]. by rewrite Hc, IH.
Qed.

Lemma no_byte_app c a b : no_byte c a = true → no_byte c b = true → no_byte c (a +:+ b) = true.
Proof. unfold no_byte. rewrite all_bytes_app. by intros -> ->. Qed.

Lemma app_nonempty (a b : string) : a ≠ "" → a +:+ b ≠ "".
Proof. by destruct a. Qed.

Lemma gap_app a b : all_bytes separates a = true → gap b → gap (a +:+ b).
Proof.
  intros Ha [Hn Hb]. split; [by destruct a, b|]. by rewrite all_bytes_app, Ha, Hb.
Qed.

Lemma blanks_separate n : all_bytes separates (blanks n) = true.
Proof. induction n as [|n IH]; [done|]. exact IH. Qed.

(** A byte with blanks around it. *)
Lemma gap_byte n c m : separates c = true → gap (blanks n +:+ String c (blanks m)).
Proof.
  intros Hc. apply gap_app; [apply blanks_separate|]. split; [done|]. cbn [all_bytes]. by rewrite Hc, blanks_separate.
Qed.

(** ** Lists of words *)

(** The list is read as its words, with the blanks at its own ends trimmed first. *)
Lemma words_text ps :
  ps ≠ [] → Forall (λ p, word (pd_word p)) ps →
  ∃ before core after, Join (map padded_text ps) "," = blanks before +:+ core +:+ blanks after ∧
    trimmed core = true ∧ core ≠ "" ∧
    ∀ n, map TrimSpace (Split (blanks n +:+ core) ",") = map pd_word ps.
Proof.
  intros Hne H. induction H as [|[a w b] ps [Ht Hn Hc] _ IH]; [done|]. simpl in Ht, Hn, Hc. destruct ps as [|p ps].
  - exists a, w, b. split_and!; [done..|]. intros n.
    rewrite Split_no_sep by (by apply no_byte_app; [apply blanks_no_byte|]). cbn [map pd_word].
    rewrite <- (app_nil_r_s w) at 1. change (w +:+ "") with (w +:+ blanks 0). by rewrite TrimSpace_blanks.
  - destruct IH as (a' & core & b' & E & Ht' & Hn' & Hs); [done|].
    exists a, (w +:+ (blanks b +:+ String "," (blanks a')) +:+ core), b'.
    split_and!.
    + change (Join (map padded_text (Padded a w b :: p :: ps)) ",")
        with (padded_text (Padded a w b) +:+ "," +:+ Join (map padded_text (p :: ps)) ",").
      rewrite E. unfold padded_text. cbn [pd_before pd_word pd_after]. by rewrite ?app_assoc_s, ?app_cons_s, ?app_assoc_s.
    + by apply trimmed_gap, gap_byte.
    + by destruct w.
    + intros n. assert (blanks n +:+ w +:+ (blanks b +:+ String "," (blanks a')) +:+ core =
        (blanks n +:+ w +:+ blanks b) +:+ String "," (blanks a' +:+ core)) as ->
        by (by rewrite ?app_assoc_s, ?app_cons_s).
      rewrite Split_app by (apply no_byte_app, no_byte_app; [by apply blanks_no_byte|done|by apply blanks_no_byte]).
      cbn [map pd_word]. rewrite Hs, TrimSpace_blanks by done. done.
Qed.

Lemma map_TrimSpace_words ps : Forall (λ p, word (pd_word p)) ps → map TrimSpace (map pd_word ps) = map pd_word ps.
Proof. induction 1 as [|p ps [Ht _ _] _ IH]; [done|]. simpl. by rewrite TrimSpace_trimmed, IH. Qed.

Lemma trim_text ps :
  ps ≠ [] → Forall (λ p, word (pd_word p)) ps →
  let s := TrimSpace (Join (map padded_text ps) ",") in
  s ≠ "" ∧ map TrimSpace (Split s ",") = map pd_word ps.
Proof.
  intros Hne H s. destruct (words_text ps Hne H) as (a & core & b & E & Ht & Hn & Hs).
  assert (s = core) as -> by (unfold s; by rewrite E, TrimSpace_blanks). split; [done|]. exact (Hs 0%nat).
Qed.

(** ** Public paths *)

Lemma parsePublicPaths_text ps :
  Forall (λ p, word (pd_word p)) ps → parsePublicPaths (Join (map padded_text ps) ",") = map pd_word ps.
Proof.
  intros H. destruct ps as [|p ps]; [done|]. destruct (trim_text (p :: ps)) as [Hn Hs]; [done..|].
  unfold parsePublicPaths. rewrite (proj2 (String.eqb_neq _ _) Hn), Hs. clear Hn Hs.
  induction H as [|q qs [_ Hq _] _ IH]; [done|]. cbn [map]. rewrite filter_cons_True by done. by rewrite IH.
Qed.

(** ** Routes *)

(** prefix=backend, with blanks around the equals sign. *)
Record Entry : Type := MkEntry {
  en_prefix : string;
  en_before : nat;
  en_after : nat;
  en_backend : string
}.

Record entry_ok (e : Entry) : Prop := EntryOk {
  eo_prefix : word (en_prefix e);
  eo_equals : no_byte "=" (en_prefix e) = true;
  eo_backend : word (en_backend e)
}.

Definition entry_word (e : Entry) : string :=
  en_prefix e +:+ (blanks (en_before e) +:+ String "=" (blanks (en_after e))) +:+ en_backend e.

Definition routes_of (es : list Entry) (m : gmap string string) : gmap string string :=
  foldl (λ m e, <[en_prefix e := en_backend e]> m) m es.

Lemma entry_word_word e : entry_ok e → word (entry_word e).
Proof.
  intros [[H1 H2 H3] _ [H4 H5 H6]]. split.
  - by apply trimmed_gap, gap_byte.
  - by apply app_nonempty.
  - apply no_byte_app; [done|]. apply no_byte_app; [|done].
    apply no_byte_app; [by apply blanks_no_byte|]. unfold no_byte. cbn [all_bytes]. by apply blanks_no_byte.
Qed.

Lemma CutByte_app a c b : no_byte c a = true → CutByte (a +:+ String c b) c = Some (a, b).
Proof.
  induction a as [|x a IH]; [intros _; rewrite app_nil_l_s; simpl; by rewrite Ascii.eqb_refl|].
  intros [Hx%negb_true_iff Ha]%andb_true_iff. rewrite app_cons_s. simpl. by rewrite Hx, (IH Ha).
Qed.

Lemma parseEntry_word e : entry_ok e → parseEntry (entry_word e) = Some (en_prefix e, en_backend e).
Proof.
  intros [[H1 H2 H3] Heq [H4 H5 H6]]. unfold parseEntry, entry_word.
  assert (en_prefix e +:+ (blanks (en_before e) +:+ String "=" (blanks (en_after e))) +:+ en_backend e =
    (en_prefix e +:+ blanks (en_before e)) +:+ String "=" (blanks (en_after e) +:+ en_backend e)) as ->
    by (by rewrite ?app_assoc_s, ?app_cons_s).
  rewrite CutByte_app by (by apply no_byte_app, blanks_no_byte).
  pose proof (TrimSpace_blanks 0 (en_before e) _ H1 H2) as E1. change (blanks 0 +:+ ?x) with x in E1.
  pose proof (TrimSpace_blanks (en_after e) 0 _ H4 H5) as E2.
  change (blanks 0) with "" in E2. rewrite app_nil_r_s in E2. rewrite E1, E2.
  by rewrite (proj2 (String.eqb_neq _ _) H2), (proj2 (String.eqb_neq _ _) H5).
Qed.

(** Reading entries looks at their trimmed words only. *)
Lemma parseEntries_trimmed ws ws' m : map TrimSpace ws = map TrimSpace ws' → parseEntries ws m = parseEntries ws' m.
Proof.
  revert ws' m. induction ws as [|w ws IH]; intros [|w' ws'] m; try done. cbn [map]. intros [= E Es].
  cbn [parseEntries]. rewrite E. destruct (String.eqb _ ""); [by apply IH|].
  destruct (parseEntry _) as [[k v]|]; [by apply IH|done].
Qed.

Lemma parseRoutes_words ps :
  Forall (λ p, word (pd_word p)) ps → parseRoutes (Join (map padded_text ps) ",") = parseEntries (map pd_word ps) ∅.
Proof.
  intros H. destruct ps as [|p ps]; [done|]. destruct (trim_text (p :: ps)) as [Hn Hs]; [done..|].
  unfold parseRoutes. rewrite (proj2 (String.eqb_neq _ _) Hn). apply parseEntries_trimmed.
  rewrite Hs. symmetry. by apply map_TrimSpace_words.
Qed.

Lemma parseEntries_app es ws m :
  Forall entry_ok es → parseEntries (map entry_word es ++ ws)%list m = parseEntries ws (routes_of es m).
Proof.
  intros H. revert m. induction H as [|e es He _ IH]; intros m; [done|]. cbn [map app parseEntries].
  destruct (entry_word_word e He) as [Ht Hn _]. rewrite TrimSpace_trimmed by done.
  rewrite (proj2 (String.eqb_neq _ _) Hn), parseEntry_word by done. apply IH.
Qed.

Lemma parseEntries_bad w ws m :
  word w → no_byte "=" w = true →
  parseEntries (w :: ws) m = Err (ErrOther ("bad route entry (want prefix=backend): " +:+ w)).
Proof.
  intros [Ht Hn _] Hw. cbn [parseEntries]. rewrite TrimSpace_trimmed by done. rewrite (proj2 (String.eqb_neq _ _) Hn).
  assert (parseEntry w = None) as ->; [|done]. unfold parseEntry. clear -Hw.
  assert (CutByte w "=" = None) as ->; [|done]. induction w as [|c w IH]; [done|].
  apply andb_true_iff in Hw as [Hc%negb_true_iff Hw]. simpl. by rewrite Hc, (IH Hw).
Qed.

Lemma words_padded ps : Forall word (map pd_word ps) → Forall (λ p, word (pd_word p)) ps.
Proof. by rewrite Forall_map. Qed.

(** The list of routes reads back: later entries win, and the first word without an
    equals sign is the error. *)
Lemma parseRoutes_text ps es :
  map pd_word ps = map entry_word es → Forall entry_ok es →
  parseRoutes (Join (map padded_text ps) ",") = Ok (routes_of es ∅).
Proof.
  intros E He. rewrite parseRoutes_words, E.
  - rewrite <- (app_nil_r (map entry_word es)). by rewrite parseEntries_app.
  - apply words_padded. rewrite E. apply Forall_map. eapply Forall_impl; [exact He|]. apply entry_word_word.
Qed.

Lemma parseRoutes_bad ps es w ws :
  map pd_word ps = (map entry_word es ++ w :: ws)%list → Forall entry_ok es → Forall word (w :: ws) → no_byte "=" w = true →
  parseRoutes (Join (map padded_text ps) ",") = Err (ErrOther ("bad route entry (want prefix=backend): " +:+ w)).
Proof.
  intros E He Hw Hb. rewrite parseRoutes_words, E.
  - rewrite parseEntries_app by done. apply parseEntries_bad; [by inversion Hw|done].
  - apply words_padded. rewrite E. apply Forall_app. split; [|done].
    apply Forall_map. eapply Forall_impl; [exact He|]. apply entry_word_word.
Qed.
