(* ===== verification/Startup.v ===== *)
(** * Starting the gateway

    [main] of cmd/interchange-gateway/main.go, from the settings to the server that
    listens: the verifier, the seven pillars it dials over mutual TLS, the
    composite edges and the configuration of the gateway; and how long it drains
    at shutdown.  The registration of the generated gRPC handlers is a class; an
    error that [log.Fatalf] reports is an error result.  What runs from there on is
    [Drain]. *)

From S2P Require Import Prelude GoStrings GoTime GoDuration Http Trim Edge Gateway GatewayMain.

Local Open Scope string_scope.

(** ** Settings *)

(** [env] *)
Definition or_default (v def : string) : string := if String.eqb v "" then def else v.

(** [routes[prefix]] with the default backend [main] falls back to. *)
Definition backendOf (routes : gmap string string) (prefix def : string) : string :=
  or_default (default "" (routes !! prefix)) def.

Definition shutdownTimeout (getenv : string → string) : Duration :=
  let v := getenv "INTERCHANGE_SHUTDOWN_TIMEOUT" in
  match (if String.eqb v "" then None else ParseDuration v) with
  | Some d => if (0 <? d)%Z then d else (25 * Second)%Z
  | None => (25 * Second)%Z
  end.

(** ** Pillars *)

(** The setting with the address of a pillar, its default, and the services whose
    generated handlers are registered on the connection, in order. *)
Record Pillar : Type := MkPillar {
  pl_name : string;
  pl_env : string;
  pl_default : string;
  pl_services : list string
}.

Definition knowledge : Pillar :=
  MkPillar "commonplace" "INTERCHANGE_COMMONPLACE_GRPC" "commonplace.cwb.svc:50051" ["cwbv1.KnowledgeService"].
Definition ledger : Pillar :=
  MkPillar "ledger" "INTERCHANGE_LEDGER_GRPC" "ledger.cwb.svc:50051"
    ["cwbv1.IssueService"; "cwbv1.ProjectService"; "cwbv1.OrgService"; "cwbv1.AdminService"].
Definition almanac : Pillar :=
  MkPillar "almanac" "INTERCHANGE_ALMANAC_GRPC" "almanac.cwb.svc:8083"
    ["cwbv1.ConfigService"; "cwbv1.SecretService"; "cwbv1.AlmanacAdminService"].
Definition mason : Pillar :=
  MkPillar "mason" "INTERCHANGE_MASON_GRPC" "mason.cwb.svc:8086" ["cwbv1.AppService"].
Definition atlas : Pillar :=
  MkPillar "atlas" "INTERCHANGE_ATLAS_GRPC" "atlas.cwb.svc.cluster.local:8089" ["cwbv1.StrataService"].
Definition cairn : Pillar :=
  MkPillar "cairn" "INTERCHANGE_CAIRN_GRPC" "cairn.cwb.svc:8102"
    ["cairnv1.RepoService"; "cairnv1.PullService"; "cairnv1.OrgService"].
Definition heraldPillar : Pillar :=
  MkPillar "herald" "INTERCHANGE_HERALD_GRPC" "herald.cwb.svc:8098" ["heraldv1.AdminService"].

(** The generated [Register...Handler] functions, by service. *)
Class Registrar `{Transport} : Type := RegisterHandler : string → ClientConn → option error.

Definition platformHandlers (v : option Verifier) (cairnHTTP heraldHTTP : string)
    : gmap string Handler :=
  {["/knowledge" := authInject (GRPCMux "commonplace") v "commonplace";
    "/ledger" := authInject (GRPCMux "ledger") v "ledger";
    "/cairn" := cairnComposite (GRPCMux "cairn") (ReverseProxy cairnHTTP) v "cairn";
    "/herald" := heraldComposite (GRPCMux "herald") (ReverseProxy heraldHTTP) v;
    "/almanac" := authInject (GRPCMux "almanac") v "";
    "/mason" := authInject (GRPCMux "mason") v "";
    "/atlas" := authInject (GRPCMux "atlas") v ""]}.

Section Dial.
Context `{Registrar} (getenv : string → string).

(** The first registration that fails. *)
Fixpoint register (services : list string) (conn : ClientConn) : option error :=
  match services with
  | [] => None
  | s :: services =>
      match RegisterHandler s conn with
      | Some e => Some e
      | None => register services conn
      end
  end.

Definition address (p : Pillar) : string := or_default (getenv (pl_env p)) (pl_default p).

Definition connect (p : Pillar) : result (string * ClientConn) :=
  conn ← DialPillar (address p) (getenv "INTERCHANGE_TLS_CERT") (getenv "INTERCHANGE_TLS_KEY")
           (getenv "INTERCHANGE_TLS_CA");
  match register (pl_services p) conn with
  | Some e => Err e
  | None => Ok (pl_name p, conn)
  end.

Fixpoint connect_all (ps : list Pillar) : result (list (string * ClientConn)) :=
  match ps with
  | [] => Ok []
  | p :: ps => c ← connect p; cs ← connect_all ps; Ok (c :: cs)
  end.

(** The verifier, by the issuer; none in bypass mode.  [heraldauth] is the verifier
    for an issuer and a JWKS address, if one can be made. *)
Definition configuredVerifier (bypass : bool) (heraldauth : string → string → option Verifier)
    : result (option Verifier) :=
  let issuer := getenv "INTERCHANGE_HERALD_ISSUER" in
  if bypass then Ok None
  else if String.eqb issuer "" then Err (ErrOther "INTERCHANGE_HERALD_ISSUER required")
  else match heraldauth issuer (getenv "INTERCHANGE_HERALD_JWKS_URL") with
       | Some v => Ok (Some v)
       | None => Err (ErrOther "herald verifier")
       end.

End Dial.

(** [url.Parse] of a backend. *)
Definition parsed `{UrlParser} (u : string) : result unit :=
  if url_Parse u then Ok tt else Err (ErrOther "http backend").

(** ** main *)

(** What listens: the address, the gateway behind its Handler, the connections by
    pillar, and the bound of the drain. *)
Record Server `{Transport} : Type := MkServer {
  sv_Addr : string;
  sv_Gateway : Gateway;
  sv_conns : list (string * ClientConn);
  sv_drain : Duration
}.

Definition main `{SortSlice, UrlParser, Registrar} (getenv : string → string)
    (heraldauth : string → string → option Verifier) : result Server :=
  let addr := or_default (getenv "INTERCHANGE_ADDR") ":8080" in
  let bypass := String.eqb (getenv "INTERCHANGE_AUTH_BYPASS") "1" in
  routes ← parseRoutes (getenv "INTERCHANGE_ROUTES");
  verifier ← configuredVerifier getenv bypass heraldauth;
  let publicPaths := parsePublicPaths (getenv "INTERCHANGE_PUBLIC_PATHS") in
  conns ← connect_all getenv [knowledge; ledger; almanac; mason; atlas];
  let cairnHTTP := backendOf routes "/cairn" "http://cairn.cwb.svc:8100" in
  let routes := delete "/cairn" routes in
  cairnConn ← connect getenv cairn;
  _ ← parsed cairnHTTP;
  let heraldHTTP := backendOf routes "/herald" "http://herald.cwb.svc:8099" in
  let routes := delete "/herald" routes in
  heraldConn ← connect getenv heraldPillar;
  _ ← parsed heraldHTTP;
  g ← New (MkConfig verifier bypass routes publicPaths routeProducts
             (platformHandlers verifier cairnHTTP heraldHTTP));
  Ok (MkServer _ addr g (conns ++ [cairnConn; heraldConn]) (shutdownTimeout getenv)).

(** ** What a server was made of *)

(** The pillars [main] dials, in order. *)
Definition pillars : list Pillar := [knowledge; ledger; almanac; mason; atlas; cairn; heraldPillar].

Lemma register_None `{Registrar} ss conn : register ss conn = None ↔ Forall (λ s, RegisterHandler s conn = None) ss.
Proof.
  induction ss as [|s ss IH]; simpl; [done|]. rewrite Forall_cons, <- IH.
  destruct (RegisterHandler s conn); naive_solver.
Qed.

Lemma parsed_Ok `{UrlParser} u x : parsed u = Ok x ↔ url_Parse u = true.
Proof. unfold parsed. destruct x, (url_Parse u); naive_solver. Qed.

Section Spec.
Context `{SortSlice, UrlParser, Registrar} (getenv : string → string).

(** A pillar's connection: mutual TLS to its address, with every service registered. *)
Definition connected (p : Pillar) (c : string * ClientConn) : Prop :=
  c.1 = pl_name p ∧
  dialed_mtls (address getenv p) (getenv "INTERCHANGE_TLS_CERT") (getenv "INTERCHANGE_TLS_KEY")
    (getenv "INTERCHANGE_TLS_CA") c.2 ∧
  Forall (λ s, RegisterHandler s c.2 = None) (pl_services p).

Lemma connect_Ok p c : connect getenv p = Ok c ↔ connected p c.
Proof.
  unfold connect, connected. rewrite bind_Ok. setoid_rewrite DialPillar_Ok. setoid_rewrite <- register_None. split.
  - intros (conn & Hd & Hr). destruct (register _ conn) eqn:E; [done|]. by injection Hr as <-.
  - destruct c as [name conn]. simpl. intros (-> & Hd & E). exists conn. by rewrite E.
Qed.

Lemma connect_all_Ok ps cs : connect_all getenv ps = Ok cs ↔ Forall2 connected ps cs.
Proof.
  revert cs. induction ps as [|p ps IH]; intros cs; simpl.
  - split; [by intros [= <-]|by intros ->%Forall2_nil_inv_l].
  - split.
    + intros (c & Hc & (cs' & Hcs & [= <-])%bind_Ok)%bind_Ok. constructor; [by apply connect_Ok|by apply IH].
    + intros (c & cs' & Hc & Hcs & ->)%Forall2_cons_inv_l. apply connect_Ok in Hc as ->. apply IH in Hcs.
      cbn [mbind result_bind]. by rewrite Hcs.
Qed.

Lemma configuredVerifier_Ok bypass heraldauth v :
  configuredVerifier getenv bypass heraldauth = Ok v ↔
  if bypass then v = None
  else getenv "INTERCHANGE_HERALD_ISSUER" ≠ "" ∧
    ∃ h, heraldauth (getenv "INTERCHANGE_HERALD_ISSUER") (getenv "INTERCHANGE_HERALD_JWKS_URL") = Some h ∧
      v = Some h.
Proof.
  unfold configuredVerifier. destruct bypass; [naive_solver|].
  destruct (String.eqb_spec (getenv "INTERCHANGE_HERALD_ISSUER") ""); [naive_solver|].
  destruct (heraldauth _ _); naive_solver.
Qed.

Definition bypassed : bool := String.eqb (getenv "INTERCHANGE_AUTH_BYPASS") "1".

Definition cairnBackend (rs : gmap string string) : string := backendOf rs "/cairn" "http://cairn.cwb.svc:8100".
Definition heraldBackend (rs : gmap string string) : string := backendOf rs "/herald" "http://herald.cwb.svc:8099".

(** The configuration [main] passes to [gateway.New]. *)
Definition configuration (rs : gmap string string) (v : option Verifier) : Config :=
  MkConfig v bypassed (delete "/herald" (delete "/cairn" rs)) (parsePublicPaths (getenv "INTERCHANGE_PUBLIC_PATHS"))
    routeProducts (platformHandlers v (cairnBackend rs) (heraldBackend rs)).

Record started (heraldauth : string → string → option Verifier) (sv : Server)
    (rs : gmap string string) (v : option Verifier) : Prop := Started {
  st_routes : parseRoutes (getenv "INTERCHANGE_ROUTES") = Ok rs;
  st_verifier : configuredVerifier getenv bypassed heraldauth = Ok v;
  st_conns : Forall2 connected pillars (sv_conns sv);
  st_cairn : url_Parse (cairnBackend rs) = true;
  st_herald : url_Parse (heraldBackend rs) = true;
  st_gateway : New (configuration rs v) = Ok (sv_Gateway sv);
  st_addr : sv_Addr sv = or_default (getenv "INTERCHANGE_ADDR") ":8080";
  st_drain : sv_drain sv = shutdownTimeout getenv
}.

Lemma main_Ok heraldauth sv :
  main getenv heraldauth = Ok sv ↔ ∃ rs v, started heraldauth sv rs v.
Proof.
  assert (Hb : ∀ rs, backendOf (delete "/cairn" rs) "/herald" "http://herald.cwb.svc:8099" = heraldBackend rs).
  { intros rs. unfold heraldBackend, backendOf. by rewrite lookup_delete_ne. }
  split.
  - intros (rs & Hrs & Hm)%bind_Ok. apply bind_Ok in Hm as (v & Hv & Hm). cbv zeta in Hm.
    apply bind_Ok in Hm as (cs & Hcs%connect_all_Ok & Hm). apply bind_Ok in Hm as (cc & Hcc%connect_Ok & Hm).
    apply bind_Ok in Hm as (? & Hcu%parsed_Ok & Hm). apply bind_Ok in Hm as (ch & Hch%connect_Ok & Hm).
    apply bind_Ok in Hm as (? & Hhu%parsed_Ok & Hm). apply bind_Ok in Hm as (g & Hg & [= <-]).
    rewrite Hb in *. exists rs, v. split; try done. cbn [sv_conns].
    change pillars with ([knowledge; ledger; almanac; mason; atlas] ++ [cairn; heraldPillar])%list.
    apply Forall2_app; [done|]. constructor; [done|constructor; [done|constructor]].
  - intros (rs & v & [Hrs Hv Hcs Hcu Hhu Hg Ha Hd]).
    change pillars with ([knowledge; ledger; almanac; mason; atlas] ++ [cairn; heraldPillar])%list in Hcs.
    apply Forall2_app_inv_l in Hcs as (cs & cs2 & Hcs%connect_all_Ok & Hcs2 & Ecs).
    apply Forall2_cons_inv_l in Hcs2 as (cc & cs3 & Hcc%connect_Ok & Hcs3 & ->).
    apply Forall2_cons_inv_l in Hcs3 as (ch & cs4 & Hch%connect_Ok & ->%Forall2_nil_inv_l & ->).
    assert (Hcu' : parsed (cairnBackend rs) = Ok tt) by (by apply parsed_Ok).
    assert (Hhu' : parsed (heraldBackend rs) = Ok tt) by (by apply parsed_Ok).
    unfold main. fold bypassed. rewrite Hrs. cbn [mbind result_bind]. rewrite Hv. cbn [mbind result_bind].
    rewrite Hcs. cbn [mbind result_bind]. rewrite Hcc. cbn [mbind result_bind]. fold (cairnBackend rs).
    rewrite Hcu'. cbn [mbind result_bind]. rewrite Hch. cbn [mbind result_bind]. rewrite Hb, Hhu'.
    cbn [mbind result_bind]. fold (configuration rs v). rewrite Hg. cbn [mbind result_bind].
    destruct sv; simpl in *. congruence.
Qed.

(** ** The drain *)

Lemma shutdownTimeout_bounds : (0 < shutdownTimeout getenv <= maxDuration)%Z.
Proof.
  unfold shutdownTimeout. set (d := if String.eqb _ _ then None else _).
  assert (Hd : ∀ x, d = Some x → (x <= maxDuration)%Z).
  { subst d. destruct (String.eqb _ _); [done|]. apply ParseDuration_max. }
  destruct d as [x|]; [|by split]. destruct (Z.ltb_spec 0 x); [|by split]. split; [done|by apply Hd].
Qed.

Lemma shutdownTimeout_terms ts :
  getenv "INTERCHANGE_SHUTDOWN_TIMEOUT" = terms_text ts → Forall term_ok ts →
  (0 < terms_value ts <= maxDuration)%Z → shutdownTimeout getenv = terms_value ts.
Proof.
  intros Hg Hts [Hp Hm]. assert (Hne : ts ≠ []) by (by intros ->). pose proof (ParseDuration_terms ts Hne Hts Hm) as E.
  unfold shutdownTimeout. rewrite Hg. destruct (String.eqb_spec (terms_text ts) "") as [En|_].
  - by rewrite En in E.
  - rewrite E. by destruct (Z.ltb_spec 0 (terms_value ts)); [|lia].
Qed.
End Spec.
