(* ===== verification/GatewaySpec.v ===== *)
(** * What the gateway lets through

    Admission of a request by its bearer token, the gates of the edges, the
    routes a gateway was built with, and the lemmas on them. *)

From S2P Require Import Prelude GoStrings Http Trim Edge Gateway GatewayMain.

Local Open Scope string_scope.

(** ** Admission *)

(** The request carries a bearer token and the verifier knows whose it is. *)
Definition admitted (v : option Verifier) (r : Request) (id : Identity) : Prop :=
  bearer r ≠ "" ∧ verifyToken v (bearer r) = Some id.

Definition entitled (product : string) (id : Identity) : Prop :=
  product = "" ∨ product ∈ Products id.

(** An ID-JAG token is only good for the services it names. *)
Definition for_service (product : string) (id : Identity) : Prop :=
  product = "" ∨ Audience id = [] ∨ product ∈ Audience id.

(** The ways a gated handler answers a request: it goes on with the verified
    identity, or refuses with 401 (no identity) or 403 (not allowed). *)
Inductive gated (v : option Verifier) (allowed : Identity → Prop) (r : Request)
    (go_on : Identity → Effect) : Effect → Prop :=
| gated_pass id :
    admitted v r id → allowed id → gated v allowed r go_on (go_on id)
| gated_401 resp :
    (∀ id, ¬ admitted v r id) → Status resp = StatusUnauthorized →
    gated v allowed r go_on (Respond resp)
| gated_403 resp id :
    admitted v r id → ¬ allowed id → Status resp = StatusForbidden →
    gated v allowed r go_on (Respond resp).

(** What the gRPC edges demand, and what the reverse-proxy routes do. *)
Definition edge_allows (product : string) (id : Identity) : Prop :=
  entitled product id ∧ for_service product id.

Lemma existsb_eqb (l : list string) p : existsb (λ a, String.eqb a p) l = true ↔ p ∈ l.
Proof.
  rewrite existsb_exists. setoid_rewrite String.eqb_eq. setoid_rewrite <- list_elem_of_In.
  naive_solver.
Qed.

Lemma audienceOK_spec id product : audienceOK id product = true ↔ for_service product id.
Proof.
  unfold audienceOK, for_service. destruct (String.eqb_spec product ""); simpl; [naive_solver|].
  case_bool_decide; simpl; [naive_solver|]. rewrite existsb_eqb. naive_solver.
Qed.

Lemma product_gate_spec id product :
  negb (String.eqb product "") && negb (existsb (λ x, String.eqb x product) (Products id)) = false
  ↔ entitled product id.
Proof.
  unfold entitled. destruct (String.eqb_spec product ""); simpl; [naive_solver|].
  rewrite negb_false_iff, existsb_eqb. naive_solver.
Qed.

(** The common shape of the gated handlers. *)
Lemma gate_cases v product r go_on :
  gated v (edge_allows product) r go_on
    (if String.eqb (bearer r) "" then refuse "missing bearer token" StatusUnauthorized
     else match verifyToken v (bearer r) with
          | None => refuse "invalid token" StatusUnauthorized
          | Some gid =>
              if negb (String.eqb product "") &&
                 negb (edge.HasProduct (edgeIdentity gid) product)
              then refuse "product not enabled for org" StatusForbidden
              else if negb (audienceOK gid product)
              then refuse "token audience does not include this service" StatusForbidden
              else go_on gid
          end).
Proof.
  destruct (String.eqb_spec (bearer r) "") as [E|E].
  { apply gated_401; [by intros id [? _] | done]. }
  destruct (verifyToken v (bearer r)) as [id|] eqn:V.
  2: { apply gated_401; [|done]. intros id [_ ?]; congruence. }
  assert (admitted v r id) as A by done.
  destruct (_ && _) eqn:P.
  { apply (gated_403 _ _ _ _ _ id); [done| |done].
    intros [He _]. apply product_gate_spec in He.
    unfold edge.HasProduct in P; simpl in P. congruence. }
  apply product_gate_spec in P.
  destruct (audienceOK id product) eqn:Au; simpl.
  - apply gated_pass; [done|]. split; [done|]. by apply audienceOK_spec.
  - apply (gated_403 _ _ _ _ _ id); [done| |done].
    intros [_ Hs]. apply audienceOK_spec in Hs. congruence.
Qed.

(** ** Requests passed on *)

Lemma HeaderGet_strip ks r k :
  CanonicalHeaderKey k ∉ map CanonicalHeaderKey ks →
  HeaderGet (Header (strip ks r)) k = HeaderGet (Header r) k.
Proof. intros Hk. unfold HeaderGet. by rewrite strip_header, decide_False. Qed.

Lemma bearer_same r r' :
  HeaderGet (Header r') "Authorization" = HeaderGet (Header r) "Authorization" →
  bearer r' = bearer r.
Proof. intros E. unfold bearer. by rewrite E. Qed.

Lemma bearer_strip_trusted r : bearer (strip trustedHeaders r) = bearer r.
Proof.
  apply bearer_same, HeaderGet_strip.
  by apply (bool_decide_eq_true_1 (_ ∉ map CanonicalHeaderKey trustedHeaders)).
Qed.

Lemma bearer_set_path r p : bearer (set_path r p) = bearer r.
Proof. done. Qed.

Lemma strip_keeps_absent ks r k : header_of r k = None → header_of (strip ks r) k = None.
Proof. intros Hk. unfold header_of. rewrite strip_header. by case_decide. Qed.

(** After the composite edges' strip no identity header is left. *)
Lemma stripSpoofed_absent r k :
  k ∈ trustedHeaders ∨ k ∈ metadataHeaders → header_of (stripSpoofedIdentity r) k = None.
Proof.
  unfold stripSpoofedIdentity. intros [Hk|Hk].
  - apply strip_idem. unfold trustedHeaders, xcwbHeaders in *. rewrite !elem_of_cons in *. tauto.
  - by apply strip_keeps_absent, strip_idem.
Qed.

Lemma injectCWB_inject r id : injectCWBHeaders r (edgeIdentity id) = injectIdentity r id.
Proof. done. Qed.

(** ** Routes *)

(** A route prefix covers a path that equals it or continues it with a slash. *)
Definition covers (p path : string) : Prop := path = p ∨ ∃ r, path = p +:+ "/" +:+ r.

(** What is left of the path under the prefix. *)
Definition remainder (p path rest : string) : Prop :=
  (path = p ∧ rest = "/") ∨ (path = p +:+ rest ∧ ∃ r, rest = "/" +:+ r).

Lemma try_route_Some path rt rt' rest :
  try_route path rt = Some (rt', rest) ↔
  rt' = rt ∧ covers (prefix rt) path ∧ remainder (prefix rt) path rest.
Proof.
  unfold try_route, covers, remainder.
  destruct (String.eqb_spec path (prefix rt)) as [->|Hne]; simpl.
  - assert (TrimPrefix (prefix rt) (prefix rt) = "") as ->
      by (rewrite <- (app_nil_r_s (prefix rt)) at 1; apply TrimPrefix_app).
    simpl. split; [intros [= <- <-]; naive_solver|]. intros (-> & _ & [[_ ->]|[E [r ->]]]); [done|].
    exfalso. apply (f_equal len) in E. rewrite !len_app in E. unfold len in E; simpl in E; lia.
  - destruct (HasPrefix path (prefix rt +:+ "/")) eqn:HP.
    + apply HasPrefix_spec in HP as [r ->]. rewrite app_assoc_s, TrimPrefix_app. simpl.
      split; [intros [= <- <-]; naive_solver|].
      intros (-> & _ & [[E _]|[E _]]).
      * exfalso; apply Hne; by rewrite app_assoc_s.
      * by apply app_inj_len in E as [_ <-].
    + split; [done|]. intros (_ & [?|[r E]] & _); [done|].
      exfalso. rewrite E, <- app_assoc_s, HasPrefix_app in HP. done.
Qed.

(** Two prefixes of one length that cover a path are the same. *)
Lemma covers_length p p' path :
  covers p path → covers p' path → len p = len p' → p = p'.
Proof.
  unfold len. intros Hp Hp' Hlen. apply Nat2Z.inj in Hlen.
  assert (∃ a, path = p +:+ a) as [a Ea].
  { destruct Hp as [->|[r ->]]; [exists ""; by rewrite app_nil_r_s|eauto]. }
  assert (∃ a, path = p' +:+ a) as [b Eb].
  { destruct Hp' as [->|[r ->]]; [exists ""; by rewrite app_nil_r_s|eauto]. }
  rewrite Ea in Eb. by apply app_inj_len in Eb as [-> _].
Qed.

Lemma covers_remainder p path : covers p path → ∃ rest, remainder p path rest.
Proof.
  intros [->|[r ->]]; [exists "/"; by left|].
  exists ("/" +:+ r). right. split; [done|by exists r].
Qed.

Lemma first_route_None rts path :
  first_route rts path = None ↔ ∀ rt, rt ∈ rts → ¬ covers (prefix rt) path.
Proof.
  induction rts as [|rt rts IH]; simpl.
  { split; [intros _ rt Hin; by apply elem_of_nil in Hin | done]. }
  destruct (try_route path rt) as [[rt' rest]|] eqn:T.
  - apply try_route_Some in T as (-> & Hc & _).
    split; [done|]. intros Hno. exfalso. apply (Hno rt); [by left|done].
  - rewrite IH. split.
    + intros Hno rt' [->|Hin]%elem_of_cons Hc; [|by apply (Hno rt')].
      destruct (covers_remainder _ _ Hc) as [rest Hr].
      assert (try_route path rt = Some (rt, rest)) by (by apply try_route_Some). congruence.
    + intros Hno rt' Hin. apply Hno. by right.
Qed.

Lemma first_route_Some rts path rt rest :
  StronglySorted longer rts → first_route rts path = Some (rt, rest) →
  rt ∈ rts ∧ covers (prefix rt) path ∧ remainder (prefix rt) path rest ∧
  ∀ rt', rt' ∈ rts → covers (prefix rt') path → (len (prefix rt') <= len (prefix rt))%Z.
Proof.
  induction rts as [|rt0 rts IH]; intros Hs; [done|]; simpl.
  apply StronglySorted_cons in Hs as [Hall Hs].
  destruct (try_route path rt0) as [m|] eqn:T.
  - intros [= ->]. apply try_route_Some in T as (-> & Hc & Hr).
    split; [by left|]. do 2 (split; [done|]).
    intros rt' [->|Hin]%elem_of_cons Hc'; [lia|].
    by apply (proj1 (Forall_forall _ _) Hall).
  - intros F. destruct (IH Hs F) as (Hin & Hc & Hr & Hmax).
    split; [by right|]. do 2 (split; [done|]).
    intros rt' [->|Hin']%elem_of_cons Hc'; [|by apply Hmax].
    exfalso. destruct (covers_remainder _ _ Hc') as [rest' Hr'].
    assert (try_route path rt0 = Some (rt0, rest')) by (by apply try_route_Some).
    congruence.
Qed.

Lemma remainder_inj p path rest rest' :
  remainder p path rest → remainder p path rest' → rest = rest'.
Proof.
  assert (∀ r, p ≠ p +:+ "/" +:+ r) as Hno.
  { intros r E. apply (f_equal len) in E. rewrite !len_app in E. unfold len in E; simpl in E; lia. }
  intros [[-> ->]|[-> [r ->]]] [[E ->]|[E [r' ->]]]; try done.
  - by apply Hno in E.
  - by symmetry in E; apply Hno in E.
  - by apply app_inj_len in E as [_ E].
Qed.

Lemma NoDup_fmap_elem {A B} (f : A → B) (l : list A) x y :
  NoDup (f <$> l) → x ∈ l → y ∈ l → f x = f y → x = y.
Proof.
  intros Hnd [i Hi]%list_elem_of_lookup [j Hj]%list_elem_of_lookup E.
  assert (i = j) as ->; [|congruence].
  apply (NoDup_lookup _ _ _ (f x) Hnd); rewrite list_lookup_fmap; [by rewrite Hi|].
  by rewrite Hj, E.
Qed.

(** With distinct prefixes the order of the routes does not matter. *)
Lemma first_route_perm rts rts' path :
  NoDup (prefix <$> rts) → rts ≡ₚ rts' →
  StronglySorted longer rts → StronglySorted longer rts' →
  first_route rts path = first_route rts' path.
Proof.
  intros Hnd Hp Hs Hs'.
  destruct (first_route rts path) as [[rt rest]|] eqn:F,
           (first_route rts' path) as [[rt' rest']|] eqn:F'; try done.
  - apply first_route_Some in F as (Hin & Hc & Hr & Hmax); [|done].
    apply first_route_Some in F' as (Hin' & Hc' & Hr' & Hmax'); [|done].
    assert (rt = rt') as <-.
    { rewrite <- Hp in Hin'. apply (NoDup_fmap_elem prefix rts); [done..|].
      apply (covers_length _ _ path); [done..|].
      apply Z.le_antisymm; [apply Hmax'; [by rewrite <- Hp|done] | by apply Hmax]. }
    by rewrite (remainder_inj _ _ _ _ Hr Hr').
  - apply first_route_Some in F as (Hin & Hc & _); [|done].
    rewrite Hp in Hin. by apply (proj1 (first_route_None rts' path) F' rt) in Hc.
  - apply first_route_Some in F' as (Hin & Hc & _); [|done].
    rewrite <- Hp in Hin. by apply (proj1 (first_route_None rts path) F rt') in Hc.
Qed.

(** The public paths do not depend on the sort. *)
Lemma New_public (S1 S2 : SortSlice) `{UrlParser} cfg g1 g2 path :
  @New S1 _ cfg = Ok g1 → @New S2 _ cfg = Ok g2 → isPublic g1 path = isPublic g2 path.
Proof.
  unfold New. destruct (splitPublic (PublicPaths cfg)) as [ex px].
  set (urls := forallb _ (map_to_list (Routes cfg))).
  destruct (AuthBypass cfg), (cfg_Verifier cfg), urls; try done;
    by intros [= <-] [= <-].
Qed.

Section Spec.
Context `{SortSliceLaws, UrlParser}.

(** What a gateway was built from. *)
Lemma New_Ok cfg g :
  New cfg = Ok g →
  bypass g = AuthBypass cfg ∧ verify g = cfg_Verifier cfg ∧
  (AuthBypass cfg = false → ∃ v, cfg_Verifier cfg = Some v) ∧
  StronglySorted longer (routes g) ∧
  routes g ≡ₚ map (proxyRoute cfg) (map_to_list (Routes cfg)) ++
              map grpcRoute (map_to_list (GRPCHandlers cfg)).
Proof.
  unfold New. destruct (splitPublic (PublicPaths cfg)) as [ex px] eqn:Sp.
  destruct (AuthBypass cfg) eqn:B, (cfg_Verifier cfg) as [v|] eqn:V; [..|done];
    (destruct (forallb _ _); [|done]); intros [= <-]; simpl;
    (split; [done|]; split; [done|]; split; [by eauto|]; split);
    first [apply sortRoutes_sorted | apply sortRoutes_perm].
Qed.

(** A route of the gateway is one of the configured backends or handlers. *)
Lemma New_routes cfg g rt :
  New cfg = Ok g →
  rt ∈ routes g ↔
  (∃ p u, Routes cfg !! p = Some u ∧ rt = proxyRoute cfg (p, u)) ∨
  (∃ p h, GRPCHandlers cfg !! p = Some h ∧ rt = grpcRoute (p, h)).
Proof.
  intros (_ & _ & _ & _ & ->)%New_Ok.
  rewrite elem_of_app, !list_elem_of_fmap. split.
  - intros [([p u] & -> & Hin)|([p h] & -> & Hin)]; apply elem_of_map_to_list in Hin; eauto 6.
  - intros [(p & u & Hp & ->)|(p & h & Hp & ->)]; [left|right];
      eexists; (split; [done|by apply elem_of_map_to_list]).
Qed.

(** The route of a path: covered by it, and no longer prefix covers it. *)
Lemma match_route_Some cfg g path rt rest :
  New cfg = Ok g → match_route g path = Some (rt, rest) →
  rt ∈ routes g ∧ covers (prefix rt) path ∧ remainder (prefix rt) path rest ∧
  ∀ rt', rt' ∈ routes g → covers (prefix rt') path → (len (prefix rt') <= len (prefix rt))%Z.
Proof. intros (_ & _ & _ & Hs & _)%New_Ok. by apply first_route_Some. Qed.

(** A route of a plain backend: what [serve] does with the request. *)
Definition forwarded (rt : route) (rest : string) (r : Request) (id : Identity) : Effect :=
  Proxied (backend rt) (set_path (injectIdentity (strip trustedHeaders r) id) rest).

Lemma serve_plain cfg g ctx r rt rest :
  New cfg = Ok g → match_route g (Path r) = Some (rt, rest) → handler rt = None →
  if bypass g || isPublic g (Path r)
  then serve g ctx r = Proxied (backend rt) (set_path (strip trustedHeaders r) rest)
  else gated (verify g) (entitled (product rt)) r (forwarded rt rest r) (serve g ctx r).
Proof.
  intros HN M Hh. unfold serve. rewrite M, Hh.
  change (Path (strip trustedHeaders r)) with (Path r).
  destruct (bypass g || isPublic g (Path r)) eqn:B; [done|].
  apply orb_false_iff in B as [B _].
  apply New_Ok in HN as (Hb & Hv & Hsome & _).
  destruct (Hsome) as [v Ev]; [congruence|]. rewrite Ev in Hv. rewrite Hv.
  rewrite bearer_strip_trusted.
  destruct (String.eqb_spec (bearer r) "") as [E|E].
  { apply gated_401; [by intros id [? _] | done]. }
  destruct (v (bearer r)) as [id|] eqn:V.
  2: { apply gated_401; [|done]. intros id [_ ?]; simpl in *; congruence. }
  assert (admitted (Some v) r id) as A by done.
  destruct (_ && _) eqn:P.
  - apply (gated_403 _ _ _ _ _ id); [done| |done].
    intros He. apply product_gate_spec in He. unfold hasProduct in P. congruence.
  - apply (gated_pass _ _ _ (forwarded rt rest r) id); [done|]. by apply product_gate_spec.
Qed.

(** What reaches the backend of a plain route. *)
Lemma forwarded_headers rt rest r id :
  ∃ r', forwarded rt rest r id = Proxied (backend rt) r' ∧ Path r' = rest ∧
    same_but trustedHeaders r r' ∧
    ∀ k v, (k, v) ∈ identity_headers id → header_of r' k = v.
Proof.
  eexists; split; [reflexivity|]. split; [done|]. split.
  - exact (same_but_trans _ _ _ _ (strip_same_but _ _) (injectIdentity_same_but _ _)).
  - intros k v Hk.
    apply (injectIdentity_headers (strip trustedHeaders r) id k v); [|done].
    apply strip_idem. unfold trustedHeaders. rewrite !elem_of_cons. tauto.
Qed.

End Spec.
