(* ===== verification/Platform.v ===== *)
(** * The configured gateway

    The edges of cmd/interchange-gateway/main.go as gates, and what the gateway
    [main] builds hands to the pillars and backends behind it. *)

From S2P Require Import Prelude GoStrings Http Trim Edge Gateway GatewayMain Startup GatewaySpec.

Local Open Scope string_scope.

(** ** The edges *)

Lemma authInject_gated next v product ctx r :
  gated v (edge_allows product) r
    (λ id, next (Some (edgeIdentity id)) (strip metadataHeaders r))
    (authInject next v product ctx r).
Proof. apply (gate_cases v product r (λ id, next (Some (edgeIdentity id)) _)). Qed.

(** Where the composite edge of cairn sends an admitted request. *)
Definition cairn_lanes (apiMux gitProxy : Handler) (ctx : option edge.Identity) (r : Request)
    (id : Identity) : Effect :=
  let r' := stripSpoofedIdentity r in
  if HasPrefix (Path r) "/api/" then apiMux (Some (edgeIdentity id)) r'
  else gitProxy ctx (injectIdentity r' id).

Lemma cairnComposite_gated apiMux gitProxy v product ctx r :
  product ≠ "" →
  gated v (edge_allows product) r (cairn_lanes apiMux gitProxy ctx r)
    (cairnComposite apiMux gitProxy v product ctx r).
Proof.
  intros Hp. pose proof (gate_cases v product r (cairn_lanes apiMux gitProxy ctx r)) as G.
  unfold cairnComposite. rewrite (proj2 (String.eqb_neq _ _) Hp) in G. exact G.
Qed.

Lemma edge_allows_core id : edge_allows "" id.
Proof. by split; left. Qed.

Lemma heraldComposite_gated apiMux httpProxy v ctx r :
  if adminPath (Path r)
  then gated v (λ _, True) r
         (λ id, apiMux (Some (edgeIdentity id)) (stripSpoofedIdentity r))
         (heraldComposite apiMux httpProxy v ctx r)
  else heraldComposite apiMux httpProxy v ctx r = httpProxy ctx (stripSpoofedIdentity r).
Proof.
  unfold heraldComposite. destruct (adminPath (Path r)); simpl; [|done].
  destruct (String.eqb_spec (bearer r) "") as [E|E].
  { apply gated_401; [by intros id [? _] | done]. }
  destruct (verifyToken v (bearer r)) as [id|] eqn:V.
  - by apply (gated_pass _ _ _ (λ id, apiMux (Some (edgeIdentity id)) _) id).
  - apply gated_401; [|done]. intros id [_ ?]; congruence.
Qed.

(** Injection after the composite strip carries exactly the verified identity. *)
Lemma injected_headers r id k v :
  (k, v) ∈ identity_headers id →
  header_of (injectIdentity (stripSpoofedIdentity r) id) k = v.
Proof.
  apply injectIdentity_headers, stripSpoofed_absent. left.
  unfold trustedHeaders. rewrite !elem_of_cons. tauto.
Qed.

(** ** The whole platform *)

(** The product that gates each pillar; the others are core. *)
Definition pillar_product (pillar : string) : string :=
  if decide (pillar ∈ ["commonplace"; "ledger"; "cairn"]) then pillar else "".

(** No identity header at all, or exactly the headers of [id]. *)
Definition anonymous (r : Request) : Prop := ∀ k, k ∈ trustedHeaders → header_of r k = None.
Definition speaks_for (id : Identity) (r : Request) : Prop :=
  ∀ k v, (k, v) ∈ identity_headers id → header_of r k = v.

(** What may leave a handler whose verifier is [v], for a request that entered
    as [r]: [open] says whether [r] is of the kind that needs no token, [allowed]
    which identities may reach which backend. *)
Inductive vouched (v : option Verifier) (open : Prop) (allowed : string → Identity → Prop) (r : Request) :
    Effect → Prop :=
| vouched_answer resp : vouched v open allowed r (Respond resp)
| vouched_pillar pillar id r' :
    admitted v r id → edge_allows (pillar_product pillar) id →
    (∀ k, k ∈ metadataHeaders → header_of r' k = None) →
    vouched v open allowed r (Invoked pillar (Some (edgeIdentity id)) r')
| vouched_backend b id r' :
    admitted v r id → allowed b id → speaks_for id r' → vouched v open allowed r (Proxied b r')
| vouched_open b r' :
    open → anonymous r' → vouched v open allowed r (Proxied b r').

(** A gated effect is vouched for when what it goes on to do is. *)
Lemma gated_vouched v demands open allowed r go_on e :
  gated v demands r go_on e →
  (∀ id, admitted v r id → demands id → vouched v open allowed r (go_on id)) →
  vouched v open allowed r e.
Proof. intros [id Ha Hal|resp _ _|resp id _ _ _] Hgo; [by apply Hgo|constructor..]. Qed.

Lemma strip_metadata_absent r k :
  k ∈ metadataHeaders → header_of (strip metadataHeaders r) k = None.
Proof. apply strip_idem. Qed.

Lemma authInject_vouched v open allowed r ctx pillar product :
  pillar_product pillar = product →
  vouched v open allowed r (authInject (GRPCMux pillar) v product ctx r).
Proof.
  intros <-. eapply gated_vouched; [apply authInject_gated|]. intros id Ha Hal.
  apply vouched_pillar; [done..|]. apply strip_metadata_absent.
Qed.

Lemma cairn_vouched v open (allowed : string → Identity → Prop) r ctx b :
  (∀ id, edge_allows "cairn" id → allowed b id) →
  vouched v open allowed r (cairnComposite (GRPCMux "cairn") (ReverseProxy b) v "cairn" ctx r).
Proof.
  intros Hb. eapply gated_vouched; [by apply cairnComposite_gated|]. intros id Ha Hal.
  unfold cairn_lanes. destruct (HasPrefix _ _).
  - apply vouched_pillar; [done..|]. intros k Hk. apply stripSpoofed_absent. by right.
  - apply (vouched_backend _ _ _ _ _ id); [done|by apply Hb|]. intros k val. apply injected_headers.
Qed.

Lemma herald_vouched v (open : Prop) allowed r ctx b :
  (adminPath (Path r) = false → open) →
  vouched v open allowed r (heraldComposite (GRPCMux "herald") (ReverseProxy b) v ctx r).
Proof.
  intros Hopen. pose proof (heraldComposite_gated (GRPCMux "herald") (ReverseProxy b) v ctx r) as G.
  destruct (adminPath (Path r)).
  - eapply gated_vouched; [exact G|]. intros id Ha _.
    apply vouched_pillar; [done|apply edge_allows_core|].
    intros k Hk. apply stripSpoofed_absent. by right.
  - rewrite G. apply vouched_open; [by apply Hopen|].
    intros k Hk. apply stripSpoofed_absent. by left.
Qed.

(** Setting the path changes neither the token nor the headers. *)
Lemma vouched_set_path v open allowed r p e :
  vouched v open allowed (set_path r p) e → vouched v open allowed r e.
Proof. intros Hv. destruct Hv; econstructor; done. Qed.

(** A path that needs no token: a public one, or one of herald's own. *)
Definition needs_no_token (g : Gateway) (path : string) : Prop :=
  isPublic g path = true ∨
  ∃ rt rest, match_route g path = Some (rt, rest) ∧ prefix rt = "/herald" ∧
    adminPath rest = false.

(** The identities a backend may get behind the gateway: on a plain route those with
    the product of its prefix, on the composite edge of cairn those with its product
    and its audience. *)
Definition backend_allows (g : Gateway) (path : string) (b : string) (id : Identity) : Prop :=
  ∃ rt rest, match_route g path = Some (rt, rest) ∧
    match handler rt with
    | None => b = backend rt ∧ entitled (default "" (routeProducts !! prefix rt)) id
    | Some _ => prefix rt = "/cairn" ∧ edge_allows "cairn" id
    end.

Section Platform.
Context `{SortSliceLaws, UrlParser, Registrar}.

Lemma configured getenv heraldauth sv :
  main getenv heraldauth = Ok sv → getenv "INTERCHANGE_AUTH_BYPASS" ≠ "1" →
  ∃ v rs cairnHTTP heraldHTTP,
    heraldauth (getenv "INTERCHANGE_HERALD_ISSUER") (getenv "INTERCHANGE_HERALD_JWKS_URL") = Some v ∧
    New (MkConfig (Some v) false rs (parsePublicPaths (getenv "INTERCHANGE_PUBLIC_PATHS"))
           routeProducts (platformHandlers (Some v) cairnHTTP heraldHTTP)) = Ok (sv_Gateway sv).
Proof.
  intros (rs & ov & [_ Hv _ _ _ Hg _ _])%main_Ok Hb. unfold configuration in Hg.
  assert (Ebp : bypassed getenv = false) by (by apply String.eqb_neq). rewrite Ebp in *.
  apply configuredVerifier_Ok in Hv as (_ & v & Hv & ->). eauto 6.
Qed.

Lemma platform_handlers_vouched v cairnHTTP heraldHTTP p h (open : Prop) allowed r ctx :
  platformHandlers v cairnHTTP heraldHTTP !! p = Some h →
  (p = "/herald" → adminPath (Path r) = false → open) →
  (p = "/cairn" → ∀ b id, edge_allows "cairn" id → allowed b id) →
  vouched v open allowed r (h ctx r).
Proof.
  unfold platformHandlers. intros Hp Hopen Hcairn.
  repeat (apply lookup_insert_Some in Hp as [[<- <-]|[_ Hp]];
          [first [by apply authInject_vouched | exact (cairn_vouched _ _ _ _ _ _ (Hcairn eq_refl _))
                 | apply herald_vouched; by apply Hopen]|]).
  apply lookup_singleton_Some in Hp as [<- <-]. by apply authInject_vouched.
Qed.

(** Every effect of the configured gateway is vouched for. *)
Lemma serve_vouched getenv heraldauth sv r :
  main getenv heraldauth = Ok sv → getenv "INTERCHANGE_AUTH_BYPASS" ≠ "1" →
  ∃ v, heraldauth (getenv "INTERCHANGE_HERALD_ISSUER")
         (getenv "INTERCHANGE_HERALD_JWKS_URL") = Some v ∧
    vouched (Some v) (needs_no_token (sv_Gateway sv) (Path r)) (backend_allows (sv_Gateway sv) (Path r)) r
      (serve (sv_Gateway sv) None r).
Proof.
  intros Hm Hb. destruct (configured _ _ _ Hm Hb) as (v & rs & cu & hu & Hv & HN).
  exists v. split; [done|]. set (g := sv_Gateway sv) in *.
  destruct (match_route g (Path r)) as [[rt rest]|] eqn:M.
  2: { unfold serve. rewrite M. constructor. }
  destruct (match_route_Some _ _ _ _ _ HN M) as (Hin & _).
  apply (New_routes _ _ _ HN) in Hin as [(p & u & _ & Ert)|(p & h & Hp & Ert)].
  - assert (handler rt = None) as Hh by by rewrite Ert.
    assert (product rt = default "" (routeProducts !! prefix rt)) as Hprod by by rewrite Ert.
    pose proof (serve_plain _ _ None _ _ _ HN M Hh) as P.
    destruct (New_Ok _ _ HN) as (Eb & Ev & _). simpl in Eb, Ev. rewrite Eb, Ev in P. simpl in P.
    destruct (isPublic g (Path r)) eqn:Pub.
    + rewrite P. apply vouched_open; [by left|].
      intros k Hk. by apply (strip_idem trustedHeaders r k).
    + eapply gated_vouched; [exact P|]. intros id Ha Hent.
      destruct (forwarded_headers rt rest r id) as (r' & -> & _ & _ & Hids).
      apply (vouched_backend _ _ _ _ _ id); [done| |done].
      exists rt, rest. rewrite Hh, <- Hprod. done.
  - assert (handler rt = Some h) as Hh by by rewrite Ert.
    unfold serve. rewrite M, Hh. apply (vouched_set_path _ _ _ _ rest).
    apply (platform_handlers_vouched _ _ _ _ _ _ _ _ _ Hp).
    + intros -> Ha. right. exists rt, rest. split_and!; [done|by rewrite Ert|done].
    + intros -> b id Hal. exists rt, rest. rewrite Hh. split_and!; [done|by rewrite Ert|done..].
Qed.

End Platform.
