(* ===== verification/GatewayTheorems.v ===== *)
(** * Properties of the gateway

    Who gets through to the pillars and backends, with what identity, by which
    route.  The witnesses run a gateway built by [main] from a concrete
    environment, with the routes sorted by a merge sort. *)

From S2P Require Import Prelude GoStrings GoTime Http Trim Edge Gateway GatewayMain Startup.
From S2P Require Import GatewaySpec Platform.

Local Open Scope string_scope.

(** ** A concrete gateway *)

Module Demo.

#[export] Instance longer_dec a b : Decision (longer a b).
Proof. unfold longer. apply _. Defined.

#[export] Instance by_merge_sort : SortSlice := merge_sort longer.

Lemma merge_sort_longer l : StronglySorted longer (merge_sort longer l).
Proof.
  assert (Total longer) by (intros a b; unfold longer; lia).
  assert (Transitive longer) by (intros a b c; unfold longer; lia).
  apply (StronglySorted_merge_sort _ _).
Qed.

#[export] Instance by_merge_sort_laws : SortSliceLaws.
Proof. split; intros l; [apply merge_sort_Permutation | apply merge_sort_longer]. Qed.

(** Another lawful sort: routes of one length come in the opposite order. *)
Definition backwards : SortSlice := λ l, merge_sort longer (reverse l).

Lemma backwards_laws : @SortSliceLaws backwards.
Proof.
  split; intros l; unfold sortRoutes, backwards; [|apply merge_sort_longer].
  by rewrite merge_sort_Permutation, reverse_Permutation.
Qed.

#[export] Instance any_url : UrlParser := λ _, true.

(** One key pair and one CA file; connections are their addresses. *)
#[export] Instance files : Transport := {
  Certificate := string;
  CertPool := string;
  ClientConn := string;
  LoadX509KeyPair cert key :=
    if String.eqb cert "tls.crt" && String.eqb key "tls.key" then Ok cert else Err (ErrOther "open");
  ReadFile name := if String.eqb name "ca.crt" then Ok "ca" else Err (ErrOther "open");
  CertPoolFromPEM := Some;
  NewClient addr _ := Ok addr
}.

#[export] Instance registrar : Registrar := λ _ _, None.

(** Metadata as a finite map with lower-cased keys. *)
#[export] Instance map_metadata : Metadata := {
  MD := gmap string (list string);
  md_empty := ∅;
  md_Get m k := default [] (m !! ToLowerASCII k);
  md_Set m k vs := match vs with [] => m | _ => <[ToLowerASCII k := vs]> m end;
  md_Delete m k := delete (ToLowerASCII k) m
}.

#[export] Instance map_metadata_laws : MetadataLaws.
Proof.
  split; simpl.
  - done.
  - intros m k [|v vs] k' Hne; [done|]. case_decide as E.
    + by rewrite E, lookup_insert_eq.
    + by rewrite lookup_insert_ne.
  - intros m k k'. case_decide as E.
    + by rewrite E, lookup_delete_eq.
    + by rewrite lookup_delete_ne.
Defined.

(** One user with two products, and a service token for the ledger. *)
Definition ada : Identity :=
  MkIdentity "ada" "human" "org1" "" ["read"; "write"] ["ledger"; "cairn"] [].
Definition robot : Identity :=
  MkIdentity "bot" "agent" "org1" "ada" ["read"] ["ledger"; "cairn"] ["ledger"].

Definition herald : Verifier := λ tok,
  if String.eqb tok "t-ada" then Some ada
  else if String.eqb tok "t-bot" then Some robot else None.

Definition getenv (k : string) : string :=
  if String.eqb k "INTERCHANGE_ROUTES" then " /wiki/=http://wiki , /wiki/old=http://archive"
  else if String.eqb k "INTERCHANGE_HERALD_ISSUER" then "http://herald"
  else if String.eqb k "INTERCHANGE_PUBLIC_PATHS" then "/wiki/public/, /wiki/about"
  else if String.eqb k "INTERCHANGE_TLS_CERT" then "tls.crt"
  else if String.eqb k "INTERCHANGE_TLS_KEY" then "tls.key"
  else if String.eqb k "INTERCHANGE_TLS_CA" then "ca.crt"
  else if String.eqb k "INTERCHANGE_LEDGER_GRPC" then "ledger:1"
  else if String.eqb k "INTERCHANGE_SHUTDOWN_TIMEOUT" then "1m10s"
  else "".

Definition heraldauth (_ _ : string) : option Verifier := Some herald.

Definition request (path : string) (hs : list (string * list string)) : Request :=
  MkRequest MethodGet path "" (list_to_map hs) "" false.

Definition as_ada (path : string) : Request :=
  request path [("Authorization", ["bearer t-ada"]); ("X-Cwb-Org", ["forged"]);
                ("Cwb-Org", ["forged"])].
Definition as_robot (path : string) : Request :=
  request path [("Authorization", ["Bearer t-bot"])].

Definition status_of (e : Effect) : option Z :=
  match e with Respond resp => Some (Status resp) | _ => None end.

(** What the gateway [main] builds does with a request. *)
Definition run (r : Request) : option Effect :=
  match main getenv heraldauth with
  | Ok sv => Some (serve (sv_Gateway sv) None r)
  | Err _ => None
  end.

Definition cfg : Config :=
  MkConfig (Some herald) false {["/wiki/" := "http://wiki"; "/wiki/old" := "http://archive"]}
    ["/wiki/public/"; "/wiki/about"] routeProducts
    (platformHandlers (Some herald) "http://cairn.cwb.svc:8100" "http://herald.cwb.svc:8099").

Definition built (g : result Gateway) : Gateway :=
  match g with
  | Ok g => g
  | Err _ => MkGateway true None [] ∅ []
  end.

Definition gw : Gateway := built (New cfg).
Definition gw_backwards : Gateway := built (@New backwards _ cfg).

Lemma gw_New : New cfg = Ok gw.
Proof. reflexivity. Qed.

Definition sv : Server := MkServer _ ":8080" gw [
  ("commonplace", "commonplace.cwb.svc:50051"); ("ledger", "ledger:1"); ("almanac", "almanac.cwb.svc:8083");
  ("mason", "mason.cwb.svc:8086"); ("atlas", "atlas.cwb.svc.cluster.local:8089");
  ("cairn", "cairn.cwb.svc:8102"); ("herald", "herald.cwb.svc:8098")] (70 * Second)%Z.

Lemma sv_main : main getenv heraldauth = Ok sv.
Proof. reflexivity. Qed.

Definition wiki : route := MkRoute "/wiki" "http://wiki" "" None.
Definition wiki_old : route := MkRoute "/wiki/old" "http://archive" "" None.

End Demo.

Section Theorems.
Context `{SortSliceLaws, UrlParser, Registrar}.

(** C29: behind the gateway of the binary, unless it runs in bypass mode, no
    request reaches a pillar or a backend on a forged identity, and none panics.
    A pillar is invoked only with the identity the configured verifier gives
    for the request's own bearer token, entitled to the pillar's product and in
    the audience, and without client metadata headers.  A backend gets exactly
    the identity headers of such an identity: on a plain route one entitled to the
    product of its prefix, whatever its audience, and on cairn's composite edge one
    entitled to cairn and in its audience.  A backend may be reached without
    a token only on a public path or one of herald's own paths, and then without
    any identity header. *)
Theorem platform_vouches getenv heraldauth sv r :
  main getenv heraldauth = Ok sv → getenv "INTERCHANGE_AUTH_BYPASS" ≠ "1" →
  ∃ v, heraldauth (getenv "INTERCHANGE_HERALD_ISSUER")
         (getenv "INTERCHANGE_HERALD_JWKS_URL") = Some v ∧
    vouched (Some v) (needs_no_token (sv_Gateway sv) (Path r)) (backend_allows (sv_Gateway sv) (Path r)) r
      (serve (sv_Gateway sv) None r).
Proof. apply serve_vouched. Qed.

(** C31: a route of a plain backend, on every branch.  In bypass mode or on a
    public path the request is forwarded without any identity header.  Otherwise
    it is forwarded with exactly the verified identity's headers when the token
    verifies and the product of the route, if it has one, is among the
    identity's; it is refused with 401 without a valid token and with 403
    without the product.  The forwarded request has the remaining path and is
    otherwise the client's. *)
Theorem plain_route_serves cfg g ctx r rt rest :
  New cfg = Ok g → match_route g (Path r) = Some (rt, rest) → handler rt = None →
  if bypass g || isPublic g (Path r)
  then ∃ r', serve g ctx r = Proxied (backend rt) r' ∧ Path r' = rest ∧
         same_but trustedHeaders r r' ∧ anonymous r'
  else gated (cfg_Verifier cfg) (entitled (product rt)) r (forwarded rt rest r) (serve g ctx r) ∧
       ∀ id, ∃ r', forwarded rt rest r id = Proxied (backend rt) r' ∧ Path r' = rest ∧
         same_but trustedHeaders r r' ∧ speaks_for id r'.
Proof.
  intros HN M Hh. pose proof (serve_plain _ _ ctx _ _ _ HN M Hh) as P.
  destruct (New_Ok _ _ HN) as (_ & Ev & _). rewrite Ev in P.
  destruct (bypass g || isPublic g (Path r)).
  - eexists; split; [exact P|]. split; [done|]. split; [apply strip_same_but|].
    intros k Hk. by apply (strip_idem trustedHeaders r k).
  - split; [exact P|]. intros id. apply forwarded_headers.
Qed.

End Theorems.

(** C32: the gRPC edges on every branch.  Each goes on only with a verified
    identity that has the product and audience it demands, refuses with 401
    without a valid token and with 403 otherwise; cairn's sends the API paths to
    its mux and every other path to the git backend with the identity's headers;
    herald's lets every path but the admin ones pass without a token and without
    identity headers.  The metadata a pillar then reads is exactly the verified
    identity. *)
Theorem edges_gate `{MetadataLaws} next gitProxy v product ctx r :
  product ≠ "" →
  gated v (edge_allows product) r
    (λ id, next (Some (edgeIdentity id)) (strip metadataHeaders r))
    (authInject next v product ctx r) ∧
  gated v (λ _, True) r
    (λ id, next (Some (edgeIdentity id)) (strip metadataHeaders r))
    (authInject next v "" ctx r) ∧
  gated v (edge_allows product) r (cairn_lanes next gitProxy ctx r)
    (cairnComposite next gitProxy v product ctx r) ∧
  (if adminPath (Path r)
   then gated v (λ _, True) r
          (λ id, next (Some (edgeIdentity id)) (stripSpoofedIdentity r))
          (heraldComposite next gitProxy v ctx r)
   else heraldComposite next gitProxy v ctx r = gitProxy ctx (stripSpoofedIdentity r)) ∧
  ∀ id md k vs, annotate (Some (edgeIdentity id)) = Some md →
    (k, vs) ∈ claims_of (edgeIdentity id) → md_Get md k = vs.
Proof.
  intros Hp. split; [apply authInject_gated|]. split.
  { pose proof (authInject_gated next v "" ctx r) as G. inversion G; subst.
    - by apply (gated_pass _ _ _ (λ id, next (Some (edgeIdentity id)) _)).
    - by apply gated_401.
    - by destruct (H3 (edge_allows_core _)). }
  split; [by apply cairnComposite_gated|]. split; [apply heraldComposite_gated|].
  intros id md k vs. apply annotate_claims.
Qed.

(** The order the routes come in does not matter. *)
Definition distinct_prefixes (cfg : Config) : Prop :=
  NoDup (map (TrimRightSlash ∘ fst) (map_to_list (Routes cfg)) ++
         map (TrimRightSlash ∘ fst) (map_to_list (GRPCHandlers cfg))).

Lemma route_order_irrelevant (S1 S2 : SortSlice) `{UrlParser}
    (L1 : @SortSliceLaws S1) (L2 : @SortSliceLaws S2) cfg g1 g2 ctx r :
  distinct_prefixes cfg →
  @New S1 _ cfg = Ok g1 → @New S2 _ cfg = Ok g2 → serve g1 ctx r = serve g2 ctx r.
Proof.
  intros Hnd H1 H2.
  assert (isPublic g1 (Path r) = isPublic g2 (Path r)) as Hpub by exact (New_public S1 S2 _ _ _ _ H1 H2).
  destruct (New_Ok _ _ H1) as (B1 & V1 & _ & So1 & P1).
  destruct (New_Ok _ _ H2) as (B2 & V2 & _ & So2 & P2).
  assert (match_route g1 (Path r) = match_route g2 (Path r)) as Hm.
  { apply first_route_perm; [|by rewrite P1, P2|done..].
    rewrite P1, fmap_app, <- !list_fmap_compose. exact Hnd. }
  unfold serve. rewrite Hm. destruct (match_route g2 (Path r)) as [[rt rest]|]; [|done].
  destruct (handler rt); [done|].
  change (Path (strip trustedHeaders r)) with (Path r).
  by rewrite Hpub, B1, B2, V1, V2.
Qed.

(** C33: routing picks the longest prefix.  The route found is one of the
    configured backends or handlers under its trimmed prefix, it covers the
    path, no covering route has a longer prefix, and the remainder is the path
    without the prefix, with a leading slash; no route is found only when none
    covers the path.  When no two configured prefixes are the same once their
    trailing slashes are trimmed, the order the routes come in does not matter:
    gateways built with any other lawful sort serve every request alike. *)
Theorem longest_prefix_wins `{SortSliceLaws, UrlParser} cfg g path :
  New cfg = Ok g →
  (distinct_prefixes cfg → ∀ (S' : SortSlice) (L' : @SortSliceLaws S') g' ctx r,
     @New S' _ cfg = Ok g' → serve g ctx r = serve g' ctx r) ∧
  (∀ rt, rt ∈ routes g ↔
     (∃ p u, Routes cfg !! p = Some u ∧
        rt = MkRoute (TrimRightSlash p) u
               (default "" (RouteProducts cfg !! TrimRightSlash p)) None) ∨
     (∃ p h, GRPCHandlers cfg !! p = Some h ∧
        rt = MkRoute (TrimRightSlash p) "" "" (Some h))) ∧
  match match_route g path with
  | Some (rt, rest) =>
      rt ∈ routes g ∧ covers (prefix rt) path ∧ remainder (prefix rt) path rest ∧
      ∀ rt', rt' ∈ routes g → covers (prefix rt') path →
        (len (prefix rt') <= len (prefix rt))%Z
  | None => ∀ rt, rt ∈ routes g → ¬ covers (prefix rt) path
  end.
Proof.
  intros HN. split; [intros Hd S' L' g' ctx r HN'; exact (route_order_irrelevant _ S' _ L' cfg g g' ctx r Hd HN HN')|].
  split; [intros rt; exact (New_routes _ _ rt HN)|].
  destruct (match_route g path) as [[rt rest]|] eqn:M.
  - exact (match_route_Some _ _ _ _ _ HN M).
  - by apply first_route_None.
Qed.

(** Bypass mode does not open the gated pillars.  Without a verifier a
    gated edge answers 401 to a request without a token and 403 to any other:
    the zero identity it uses has no products. *)
Remark bypass_refuses_gated next gitProxy product ctx r :
  product ≠ "" →
  let code := if String.eqb (bearer r) "" then StatusUnauthorized else StatusForbidden in
  (∃ resp, authInject next None product ctx r = Respond resp ∧ Status resp = code) ∧
  (∃ resp, cairnComposite next gitProxy None product ctx r = Respond resp ∧ Status resp = code).
Proof.
  intros Hp%String.eqb_neq code. unfold code, authInject, cairnComposite, refuse. rewrite Hp.
  destruct (String.eqb (bearer r) ""); split; by eexists.
Qed.

(** ** Witnesses *)

Section Witnesses.
Import Demo.

Lemma platform_vouches_witness :
  (∃ v, heraldauth "http://herald" "" = Some v ∧
     vouched (Some v) (needs_no_token gw "/wiki/old/x") (backend_allows gw "/wiki/old/x") (as_ada "/wiki/old/x")
       (serve gw None (as_ada "/wiki/old/x"))) ∧
  (∃ r', serve gw None (as_ada "/wiki/old/x") = Proxied "http://archive" r' ∧
     header_of r' "X-CWB-Org" = Some ["org1"]) ∧
  (∃ r', serve gw None (as_robot "/ledger/x") =
     Invoked "ledger" (Some (edgeIdentity robot)) r' ∧ Path r' = "/x").
Proof.
  split; [|split].
  - apply (platform_vouches getenv heraldauth sv (as_ada "/wiki/old/x"));
      [exact sv_main | discriminate].
  - eexists; split; reflexivity.
  - eexists; split; reflexivity.
Defined.

Lemma plain_route_serves_witness :
  gated (Some herald) (entitled "") (as_ada "/wiki/x")
    (forwarded wiki "/x" (as_ada "/wiki/x")) (serve gw None (as_ada "/wiki/x")) ∧
  (∃ r', serve gw None (request "/wiki/public/x" [("X-Cwb-Org", ["forged"])]) =
           Proxied "http://wiki" r' ∧ Path r' = "/public/x" ∧ anonymous r').
Proof.
  split.
  - exact (proj1 (plain_route_serves cfg gw None (as_ada "/wiki/x") wiki "/x"
                    gw_New eq_refl eq_refl)).
  - set (r := request "/wiki/public/x" [("X-Cwb-Org", ["forged"])]).
    assert (∃ r', serve gw None r = Proxied (backend wiki) r' ∧ Path r' = "/public/x" ∧
              same_but trustedHeaders r r' ∧ anonymous r') as (r' & E & P & _ & A)
      by exact (plain_route_serves cfg gw None r wiki "/public/x" gw_New eq_refl eq_refl).
    exists r'. split; [exact E|]. split; [exact P|exact A].
Defined.

Lemma edges_gate_witness :
  authInject (GRPCMux "ledger") (Some herald) "ledger" None (as_robot "/x") =
    Invoked "ledger" (Some (edgeIdentity robot)) (strip metadataHeaders (as_robot "/x")) ∧
  gated (Some herald) (edge_allows "ledger") (as_robot "/x")
    (λ id, GRPCMux "ledger" (Some (edgeIdentity id)) (strip metadataHeaders (as_robot "/x")))
    (authInject (GRPCMux "ledger") (Some herald) "ledger" None (as_robot "/x")) ∧
  match annotate (Some (edgeIdentity robot)) with
  | Some md => md_Get md "cwb-responsible-human" = ["ada"]
  | None => False
  end.
Proof.
  split; [reflexivity|].
  destruct (edges_gate (GRPCMux "ledger") (ReverseProxy "") (Some herald) "ledger" None
              (as_robot "/x")) as (G & _ & _ & _ & M); [discriminate|].
  split; [exact G|].
  apply (M robot _ "cwb-responsible-human" ["ada"]); [reflexivity|]. cbn. mem.
Defined.

Lemma longest_prefix_wins_witness :
  (map prefix (routes gw) ≠ map prefix (routes gw_backwards) ∧
   serve gw None (as_ada "/wiki/old/x") = serve gw_backwards None (as_ada "/wiki/old/x")) ∧
  match_route gw "/wiki/old/x" = Some (wiki_old, "/x") ∧
  match_route gw "/wiki/older" = Some (wiki, "/older") ∧
  match match_route gw "/wiki/old/x" with
  | Some (rt, rest) =>
      rt ∈ routes gw ∧ covers (prefix rt) "/wiki/old/x" ∧
      remainder (prefix rt) "/wiki/old/x" rest ∧
      ∀ rt', rt' ∈ routes gw → covers (prefix rt') "/wiki/old/x" →
        (len (prefix rt') <= len (prefix rt))%Z
  | None => ∀ rt, rt ∈ routes gw → ¬ covers (prefix rt) "/wiki/old/x"
  end.
Proof.
  destruct (longest_prefix_wins cfg gw "/wiki/old/x" gw_New) as (Ho & _ & Hm).
  split; [split; [by vm_compute|]|].
  - apply (Ho ltac:(by apply (bool_decide_eq_true_1 (NoDup _))) backwards backwards_laws). reflexivity.
  - split; [reflexivity|]. split; [reflexivity|exact Hm].
Defined.

End Witnesses.

(** ** A route the configuration does not take back

    [main] deletes the routes "/cairn" and "/herald" from the plain ones because
    the composite edges own those prefixes; an entry "/cairn/" stays, and after
    trimming two routes have the same prefix.  The token of a robot that is only
    good for the ledger is then refused or accepted by the sort. *)

Section Ambiguous.
Import Demo.

Definition getenv_cairn (k : string) : string :=
  if String.eqb k "INTERCHANGE_ROUTES" then "/cairn/=http://cairn:8100" else getenv k.

Definition backend_reached (e : Effect) : option string :=
  match e with Proxied b _ => Some b | _ => None end.

Definition served_by (order : SortSlice) (r : Request) : Effect :=
  serve (built (sv ← @main order _ _ _ getenv_cairn heraldauth; Ok (sv_Gateway sv))) None r.

Remark cairn_slash_route_is_ambiguous :
  backend_reached (served_by by_merge_sort (as_robot "/cairn/repo.git")) =
    Some "http://cairn:8100" ∧
  status_of (served_by backwards (as_robot "/cairn/repo.git")) = Some StatusForbidden.
Proof. by split; vm_compute. Qed.

End Ambiguous.
