(* ===== verification/StartupTheorems.v ===== *)
(** * When the gateway starts

    What the settings must be for the gateway binary to listen, what it then
    listens with, and how long it drains. *)

From S2P Require Import Prelude GoStrings GoTime GoDuration Http Trim Edge Gateway GatewayMain Startup.
From S2P Require Import Settings GatewayTheorems.

Local Open Scope string_scope.

Section Starts.
Context `{SortSlice, UrlParser, Registrar} (getenv : string → string)
  (heraldauth : string → string → option Verifier).

(** The settings with which [main] gets to listen. *)
Record startable (rs : gmap string string) (cs : list (string * ClientConn)) : Prop := Startable {
  sb_routes : parseRoutes (getenv "INTERCHANGE_ROUTES") = Ok rs;
  sb_verifier : getenv "INTERCHANGE_AUTH_BYPASS" = "1" ∨
    getenv "INTERCHANGE_HERALD_ISSUER" ≠ "" ∧
    is_Some (heraldauth (getenv "INTERCHANGE_HERALD_ISSUER") (getenv "INTERCHANGE_HERALD_JWKS_URL"));
  sb_conns : Forall2 (connected getenv) pillars cs;
  sb_composites : url_Parse (cairnBackend rs) = true ∧ url_Parse (heraldBackend rs) = true;
  sb_backends : ∀ p u, rs !! p = Some u → p ≠ "/cairn" → p ≠ "/herald" → url_Parse u = true
}.

Lemma New_starts cfg :
  (∃ g, New cfg = Ok g) ↔
  (AuthBypass cfg = true ∨ is_Some (cfg_Verifier cfg)) ∧
  ∀ p u, Routes cfg !! p = Some u → url_Parse u = true.
Proof.
  assert (Hall : forallb (λ kv, url_Parse kv.2) (map_to_list (Routes cfg)) = true ↔
    ∀ p u, Routes cfg !! p = Some u → url_Parse u = true).
  { rewrite forallb_forall. split.
    - intros Hf p u Hp. apply (Hf (p, u)), list_elem_of_In, elem_of_map_to_list, Hp.
    - intros Hf [p u] Hin. apply list_elem_of_In, elem_of_map_to_list in Hin. by apply (Hf p). }
  unfold New. rewrite <- Hall. destruct (splitPublic (PublicPaths cfg)) as [ex px].
  destruct (AuthBypass cfg), (cfg_Verifier cfg) as [v|], (forallb _ _); split;
    try (by intros [? ?]); try (by intros [[?|[? ?]] ?]); intros _; eauto.
Qed.

Lemma startable_iff :
  (∃ sv, main getenv heraldauth = Ok sv) ↔ ∃ rs cs, startable rs cs.
Proof.
  setoid_rewrite main_Ok. split.
  - intros (sv & rs & v & [Hrs Hv Hcs Hcu Hhu Hg _ _]). exists rs, (sv_conns sv). split; try done.
    + apply configuredVerifier_Ok in Hv. unfold bypassed in Hv.
      destruct (String.eqb_spec (getenv "INTERCHANGE_AUTH_BYPASS") "1"); [by left|right].
      destruct Hv as (Hi & h & Hh & _). split; [done|by exists h].
    + intros p u Hp Hn1 Hn2. destruct (proj1 (New_starts (configuration getenv rs v))) as [_ Hu]; [by eexists|].
      apply (Hu p). simpl. by rewrite !lookup_delete_ne.
  - intros (rs & cs & [Hrs Hv Hcs [Hcu Hhu] Hu]).
    assert (∃ v, configuredVerifier getenv (bypassed getenv) heraldauth = Ok v ∧
      (bypassed getenv = true ∨ is_Some v)) as (v & Hcv & Hbv).
    { setoid_rewrite configuredVerifier_Ok. unfold bypassed.
      destruct (String.eqb_spec (getenv "INTERCHANGE_AUTH_BYPASS") "1") as [|Hn]; [by exists None; split; [|left]|].
      destruct Hv as [?|(Hi & h & Hh)]; [done|]. exists (Some h). split; [eauto|by right; exists h]. }
    destruct (proj2 (New_starts (configuration getenv rs v))) as [g Hg].
    { split; [exact Hbv|]. intros p u. simpl. intros (Hn1 & (Hn2 & Hp)%lookup_delete_Some)%lookup_delete_Some.
      by apply (Hu p). }
    exists (MkServer _ (or_default (getenv "INTERCHANGE_ADDR") ":8080") g cs (shutdownTimeout getenv)), rs, v.
    by split.
Qed.

(** C34: starting the gateway.  The binary gets to listen exactly when the route
    list parses, a verifier can be made for the configured issuer or bypass mode is
    set, each of the seven pillars is dialed at its own address and all its services
    register, and every backend is a URL.  It then listens at the configured address
    with the gateway of those settings; each connection was made with the client
    certificate, the configured CA as its only roots and TLS 1.3 at least.  The drain
    at shutdown is positive and fits an int64; a sum of whole numbers of units, of at
    least a nanosecond, is taken as it is.  The route list reads back as the entries
    it was written from, with any blanks around them, later entries before earlier
    ones, and the first entry without an equals sign is the error that stops the
    start; so do the public paths. *)
Theorem gateway_starts :
  ((∃ sv, main getenv heraldauth = Ok sv) ↔ ∃ rs cs, startable rs cs) ∧
  (∀ sv, main getenv heraldauth = Ok sv ↔ ∃ rs v, started getenv heraldauth sv rs v) ∧
  (0 < shutdownTimeout getenv <= maxDuration)%Z ∧
  (∀ ts, getenv "INTERCHANGE_SHUTDOWN_TIMEOUT" = terms_text ts → Forall term_ok ts →
     (0 < terms_value ts <= maxDuration)%Z → shutdownTimeout getenv = terms_value ts) ∧
  (∀ ps es ws, getenv "INTERCHANGE_ROUTES" = Join (map padded_text ps) "," →
     map pd_word ps = (map entry_word es ++ ws)%list → Forall entry_ok es → Forall word ws →
     match ws with
     | [] => parseRoutes (getenv "INTERCHANGE_ROUTES") = Ok (routes_of es ∅)
     | w :: _ => no_byte "=" w = true → ∀ sv, main getenv heraldauth ≠ Ok sv
     end) ∧
  (∀ ps, Forall (λ p, word (pd_word p)) ps → parsePublicPaths (Join (map padded_text ps) ",") = map pd_word ps).
Proof.
  split; [apply startable_iff|]. split; [intros sv; apply main_Ok|].
  split; [apply shutdownTimeout_bounds|]. split; [intros ts; apply shutdownTimeout_terms|].
  split; [|intros ps; apply parsePublicPaths_text]. intros ps es ws Hg E He Hw. destruct ws as [|w ws].
  - rewrite app_nil_r in E. rewrite Hg. by apply parseRoutes_text.
  - intros Hb sv (rs & v & [Hrs _ _ _ _ _ _ _])%main_Ok. rewrite Hg in Hrs.
    by rewrite (parseRoutes_bad ps es w ws) in Hrs.
Qed.
End Starts.

Section Witness.
Import Demo.

(** The concrete gateway starts with the two routes its setting lists, and drains for
    one minute and ten seconds. *)
Theorem gateway_starts_witness :
  (∃ rs cs, startable Demo.getenv Demo.heraldauth rs cs) ∧
  shutdownTimeout Demo.getenv = (70 * Second)%Z ∧
  parseRoutes (Demo.getenv "INTERCHANGE_ROUTES") = Ok {["/wiki/" := "http://wiki"; "/wiki/old" := "http://archive"]}.
Proof.
  pose proof (gateway_starts Demo.getenv Demo.heraldauth) as (H & _ & _ & Hd & Hr & _). split; [|split].
  - apply H. exists Demo.sv. exact Demo.sv_main.
  - apply (Hd [MkTerm "1" "m" Minute; MkTerm "10" "s" Second]); [reflexivity| |by vm_compute].
    repeat constructor; (discriminate || mem).
  - apply (Hr [Padded 1 "/wiki/=http://wiki" 1; Padded 1 "/wiki/old=http://archive" 0]
      [MkEntry "/wiki/" 0 0 "http://wiki"; MkEntry "/wiki/old" 0 0 "http://archive"] []);
      [reflexivity|reflexivity| |constructor].
    repeat constructor; (discriminate || reflexivity).
Defined.

End Witness.
