(* ===== verification/Middleware.v ===== *)
(** * The rate limiter

    internal/middleware/middleware.go: rules, buckets per rule and client
    address, their cap and their eviction, and the two handlers.  The token
    bucket of golang.org/x/time/rate is a class.  Every call holds the limiter's
    mutex, so a run of the limiter is a sequence of [event]s. *)

From S2P Require Import Prelude GoStrings GoTime Http Trim.

Local Open Scope Z_scope.

(** ** The token bucket *)

(** [Rate] is Go's float64 of tokens per second.  [Allow] reads the clock
    itself. *)
Class TokenBucket : Type := {
  Rate : Type;
  Limiter : Type;
  NewLimiter : Rate → Z → Limiter;
  Allow : Limiter → Time → bool * Limiter
}.

Section Middleware.
Context `{TokenBucket}.

(** ** Data *)

Record RateRule : Type := MkRateRule { PerSecond : Rate; Burst : Z }.

Record RouteRule : Type := MkRouteRule {
  RuleMethod : string;
  Prefix : string;
  Rule : RateRule
}.

Record RateLimitConfig : Type := MkRateLimitConfig {
  Default : RateRule;
  RuleRoutes : list RouteRule;
  IdleEvictAfter : Duration;
  MaxBucketsPerRule : Z;
  TrustXFF : bool
}.

Record bucket : Type := MkBucket { limiter : Limiter; last : Time }.

(** [keyMap]: rule id, then address. *)
Abbreviation Buckets := (gmap string (gmap string bucket)).

(** The defaults [RateLimit] fills in. *)
Definition withDefaults (cfg : RateLimitConfig) : RateLimitConfig :=
  MkRateLimitConfig (Default cfg) (RuleRoutes cfg)
    (if IdleEvictAfter cfg =? 0 then 10 * Minute else IdleEvictAfter cfg)
    (if MaxBucketsPerRule cfg =? 0 then 50000 else MaxBucketsPerRule cfg)
    (TrustXFF cfg).

(** ** Rules and addresses *)

Definition rule_matches (r : Request) (rr : RouteRule) : bool :=
  (String.eqb (RuleMethod rr) "" || String.eqb (RuleMethod rr) (Method r)) &&
  HasPrefix (Path r) (Prefix rr).

Definition matchRule (cfg : RateLimitConfig) (r : Request) : RateRule * string :=
  match find (rule_matches r) (RuleRoutes cfg) with
  | Some rr => (Rule rr, RuleMethod rr +:+ ":" +:+ Prefix rr)
  | None => (Default cfg, "default"%string)
  end.

Fixpoint IndexByte (s : string) (c : ascii) : option nat :=
  match s with
  | EmptyString => None
  | String a s => if Ascii.eqb a c then Some 0%nat else S <$> IndexByte s c
  end.

Definition LastIndexByte (s : string) (c : ascii) : option nat :=
  match IndexByte (String.rev s) c with
  | Some k => Some (String.length s - 1 - k)%nat
  | None => None
  end.

(** The host of [net.SplitHostPort], or [None] for its errors. *)
Definition SplitHost (hostport : string) : option string :=
  i ← LastIndexByte hostport ":";
  if HasPrefix hostport "[" then
    e ← IndexByte hostport "]";
    if Nat.eqb (S e) i && no_byte "[" (drop_bytes 1 hostport) &&
       no_byte "]" (drop_bytes (S e) hostport)
    then Some (take_bytes (e - 1) (drop_bytes 1 hostport)) else None
  else
    let host := take_bytes i hostport in
    if no_byte ":" host && no_byte "[" hostport && no_byte "]" hostport
    then Some host else None.

(** [r.RemoteAddr] is not a part of [Request]: it is [remoteAddr]. *)
Definition clientIP (r : Request) (remoteAddr : string) (trustXFF : bool) : string :=
  let xff := HeaderGet (Header r) "X-Forwarded-For" in
  if trustXFF && negb (String.eqb xff "") then
    match IndexByte xff "," with
    | Some (S n) => TrimSpace (take_bytes (S n) xff)
    | _ => TrimSpace xff
    end
  else
    match SplitHost remoteAddr with
    | Some host => host
    | None => remoteAddr
    end.

(** ** Buckets *)

(** [allow], with the two readings of the clock it makes: [now] for [b.last] and
    [now'] inside [Allow]. *)
Definition allow (cfg : RateLimitConfig) (ruleID ip : string) (rule : RateRule)
    (now now' : Time) (keyMap : Buckets) : bool * Buckets :=
  let bucketsForRule := default ∅ (keyMap !! ruleID) in
  let use (l : Limiter) :=
    let '(ok, l) := Allow l now' in
    (ok, <[ruleID := <[ip := MkBucket l now]> bucketsForRule]> keyMap) in
  match bucketsForRule !! ip with
  | Some b => use (limiter b)
  | None =>
      if MaxBucketsPerRule cfg <=? Z.of_nat (size bucketsForRule)
      then (false, <[ruleID := bucketsForRule]> keyMap)
      else use (NewLimiter (PerSecond rule) (Burst rule))
  end.

Definition idle (cfg : RateLimitConfig) (now : Time) (b : bucket) : bool :=
  IdleEvictAfter cfg <? Sub now (last b).

(** One tick of [evictLoop]. *)
Definition evict (cfg : RateLimitConfig) (now : Time) (keyMap : Buckets) : Buckets :=
  filter (λ kv, kv.2 ≠ ∅) (filter (λ kv, idle cfg now kv.2 = false) <$> keyMap).

(** The period of [evictLoop]'s ticker; [time.NewTicker] panics for none. *)
Definition evictPeriod (cfg : RateLimitConfig) : option Duration :=
  let d := Z.quot (IdleEvictAfter cfg) 2 in if d <=? 0 then None else Some d.

Definition rateLimited : Response :=
  MkResponse StatusTooManyRequests
    [("Retry-After", "1"); ("Content-Type", "application/json")]%string
    (BText ("{" +:+ String "034" "error" +:+ String "034" ":" +:+
            String "034" "rate_limited" +:+ String "034" "}")).

(** The rule id and the address a request is limited by. *)
Definition request_key (cfg : RateLimitConfig) (r : Request) (remoteAddr : string)
    : string * string :=
  ((matchRule cfg r).2, clientIP r remoteAddr (TrustXFF cfg)).

(** The handler of [RateLimit]: [inl] is the answer 429, [inr] the call of the
    wrapped handler. *)
Definition RateLimit {A} (cfg : RateLimitConfig) (next : Request → A) (r : Request)
    (remoteAddr : string) (now now' : Time) (keyMap : Buckets) : (Response + A) * Buckets :=
  let '(rule, ruleID) := matchRule cfg r in
  let '(ok, keyMap) :=
    allow cfg ruleID (clientIP r remoteAddr (TrustXFF cfg)) rule now now' keyMap in
  (if ok then inr (next r) else inl rateLimited, keyMap).

(** ** Runs *)

Inductive event : Type :=
| EvRequest (r : Request) (remoteAddr : string) (now now' : Time)
| EvTick (now : Time).

(** What an event answers the client [key] (nothing, when it is not theirs) and
    the buckets after it. *)
Definition step (cfg : RateLimitConfig) (key : string * string) (ev : event) (keyMap : Buckets)
    : list bool * Buckets :=
  match ev with
  | EvRequest r a now now' =>
      let '(res, keyMap) := RateLimit cfg (λ _, ()) r a now now' keyMap in
      (if decide (request_key cfg r a = key)
       then [match res with inr _ => true | inl _ => false end] else [], keyMap)
  | EvTick now => ([], evict cfg now keyMap)
  end.

Fixpoint run (cfg : RateLimitConfig) (key : string * string) (evs : list event)
    (keyMap : Buckets) : list bool * Buckets :=
  match evs with
  | [] => ([], keyMap)
  | ev :: evs =>
      let '(a, keyMap) := step cfg key ev keyMap in
      let '(b, keyMap) := run cfg key evs keyMap in
      (a ++ b, keyMap)
  end.

(** ** One client alone

    The limiter as one client would see it with nobody else around and no cap:
    one bucket, refilled by time and forgotten when a tick finds it idle. *)
Fixpoint solo (cfg : RateLimitConfig) (key : string * string) (evs : list event)
    (b : option bucket) : list bool :=
  match evs with
  | [] => []
  | EvTick now :: evs =>
      solo cfg key evs (b ← b; if idle cfg now b then None else Some b)
  | EvRequest r a now now' :: evs =>
      if decide (request_key cfg r a = key) then
        let rule := (matchRule cfg r).1 in
        let l := from_option limiter (NewLimiter (PerSecond rule) (Burst rule)) b in
        let '(ok, l) := Allow l now' in
        ok :: solo cfg key evs (Some (MkBucket l now))
      else solo cfg key evs b
  end.

(** ** Lemmas *)

(** The bucket of a client. *)
Definition bucket_of (keyMap : Buckets) (key : string * string) : option bucket :=
  m ← keyMap !! key.1; m !! key.2.

Lemma bucket_of_empty key : bucket_of ∅ key = None.
Proof. unfold bucket_of. by rewrite lookup_empty. Qed.

(** The addresses a run sees under a rule. *)
Definition addresses (cfg : RateLimitConfig) (id : string) (evs : list event) : list string :=
  omap (λ ev, match ev with
              | EvRequest r a _ _ =>
                  if decide ((request_key cfg r a).1 = id) then Some (request_key cfg r a).2 else None
              | EvTick _ => None
              end) evs.

Lemma addresses_request cfg id r a now now' evs :
  addresses cfg id (EvRequest r a now now' :: evs) =
    (if decide ((request_key cfg r a).1 = id) then [(request_key cfg r a).2] else []) ++
    addresses cfg id evs.
Proof. unfold addresses. simpl. by case_decide. Qed.

Lemma bucket_of_insert keyMap id m key :
  bucket_of (<[id := m]> keyMap) key =
    if decide (key.1 = id) then m !! key.2 else bucket_of keyMap key.
Proof.
  unfold bucket_of. case_decide as E.
  - by rewrite E, lookup_insert_eq.
  - by rewrite lookup_insert_ne.
Qed.

Lemma bucket_of_default keyMap key : bucket_of keyMap key = default ∅ (keyMap !! key.1) !! key.2.
Proof. unfold bucket_of. by destruct (keyMap !! key.1); simpl; rewrite ?lookup_empty. Qed.

Lemma RateLimit_allow {A} cfg (next : Request → A) r a now now' keyMap :
  let res := allow cfg (request_key cfg r a).1 (request_key cfg r a).2
               (matchRule cfg r).1 now now' keyMap in
  (RateLimit cfg next r a now now' keyMap).1 = (if res.1 then inr (next r) else inl rateLimited) ∧
  (RateLimit cfg next r a now now' keyMap).2 = res.2.
Proof.
  unfold RateLimit, request_key. destruct (matchRule cfg r); simpl.
  by destruct (allow _ _ _ _ _ _ _).
Qed.

(** A call touches the bucket of its own key only. *)
Lemma allow_other cfg id ip rule now now' keyMap key :
  key ≠ (id, ip) →
  bucket_of (allow cfg id ip rule now now' keyMap).2 key = bucket_of keyMap key.
Proof.
  intros Hne. rewrite (bucket_of_default keyMap key). destruct key as [id' ip'].
  unfold allow; case_goal; simpl; rewrite bucket_of_insert, ?bucket_of_default; simpl;
    case_decide; subst; try done; rewrite ?lookup_insert_ne by congruence; done.
Qed.

(** What a call answers and leaves under its own key, when the cap leaves room. *)
Lemma allow_own cfg id ip rule now now' keyMap :
  (bucket_of keyMap (id, ip) = None →
   Z.of_nat (size (default ∅ (keyMap !! id))) < MaxBucketsPerRule cfg) →
  let l := from_option limiter (NewLimiter (PerSecond rule) (Burst rule))
             (bucket_of keyMap (id, ip)) in
  (allow cfg id ip rule now now' keyMap).1 = (Allow l now').1 ∧
  bucket_of (allow cfg id ip rule now now' keyMap).2 (id, ip) =
    Some (MkBucket (Allow l now').2 now).
Proof.
  rewrite bucket_of_default. unfold allow. simpl. intros Hcap.
  destruct (default ∅ (keyMap !! id) !! ip) as [b|] eqn:B; simpl.
  - destruct (Allow (limiter b) now') as [ok l]; simpl.
    by rewrite bucket_of_insert, decide_True, lookup_insert_eq.
  - rewrite (proj2 (Z.leb_gt _ _)) by by apply Hcap.
    destruct (Allow _ now') as [ok l]; simpl.
    by rewrite bucket_of_insert, decide_True, lookup_insert_eq.
Qed.

(** A new address at the cap is refused, and no bucket changes. *)
Lemma allow_full cfg key rule now now' keyMap :
  bucket_of keyMap key = None →
  MaxBucketsPerRule cfg <= Z.of_nat (size (default ∅ (keyMap !! key.1))) →
  let res := allow cfg key.1 key.2 rule now now' keyMap in
  (∀ A (a : A), (if res.1 then inr a else inl rateLimited) = inl rateLimited) ∧
  ∀ k, bucket_of res.2 k = bucket_of keyMap k.
Proof.
  rewrite bucket_of_default. intros Hnone Hfull%Z.leb_le. unfold allow. rewrite Hnone, Hfull.
  split; [done|]. intros k. simpl. rewrite bucket_of_insert, bucket_of_default.
  case_decide as E; [by rewrite E|done].
Qed.

Lemma evict_bucket_of cfg now keyMap key :
  bucket_of (evict cfg now keyMap) key =
    b ← bucket_of keyMap key; if idle cfg now b then None else Some b.
Proof.
  unfold evict, bucket_of. rewrite map_lookup_filter, lookup_fmap.
  destruct (keyMap !! key.1) as [m|]; simpl; [|done].
  case_guard as E; simpl.
  - rewrite map_lookup_filter. destruct (m !! key.2) as [b|]; simpl; [|done].
    case_guard; destruct (idle cfg now b); done || congruence.
  - assert (filter (λ kv, idle cfg now kv.2 = false) m !! key.2 = None) as F
      by by rewrite E, lookup_empty.
    rewrite map_lookup_filter in F. destruct (m !! key.2) as [b|]; simpl in *; [|done].
    case_guard; [done|]. by destruct (idle cfg now b).
Qed.

(** ** Isolation *)

(** The addresses with a bucket under a rule are among [ips]. *)
Definition known (id : string) (ips : gset string) (keyMap : Buckets) : Prop :=
  ∀ ip, is_Some (bucket_of keyMap (id, ip)) → ip ∈ ips.

Lemma known_size id ips keyMap ip :
  known id ips keyMap → bucket_of keyMap (id, ip) = None → ip ∈ ips →
  (size (default ∅ (keyMap !! id)) < size ips)%nat.
Proof.
  intros Hk Hnone Hin. rewrite <- size_dom.
  apply Nat.lt_le_trans with (size ({[ip]} ∪ dom (default ∅ (keyMap !! id)))).
  - rewrite size_union, size_singleton; [lia|].
    rewrite disjoint_singleton_l, not_elem_of_dom. by rewrite bucket_of_default in Hnone.
  - apply subseteq_size, union_subseteq; split; [by apply singleton_subseteq_l|].
    intros ip' [b Hb]%elem_of_dom. apply Hk. rewrite bucket_of_default. by eexists.
Qed.

(** A request gives a bucket to nobody but its own client. *)
Lemma RateLimit_bucket_of cfg r a now now' keyMap key :
  is_Some (bucket_of (RateLimit cfg (λ _, ()) r a now now' keyMap).2 key) →
  is_Some (bucket_of keyMap key) ∨ key = request_key cfg r a.
Proof.
  rewrite (proj2 (RateLimit_allow _ _ _ _ _ _ _)).
  destruct (request_key cfg r a) as [id ip].
  destruct (decide (key = (id, ip))) as [|Hne]; [by right|]. rewrite allow_other; auto.
Qed.

(** The buckets after an event, and the answer to one's own request. *)
Lemma step_snd cfg key ev keyMap :
  (step cfg key ev keyMap).2 =
    match ev with
    | EvRequest r a now now' => (RateLimit cfg (λ _, ()) r a now now' keyMap).2
    | EvTick now => evict cfg now keyMap
    end.
Proof. destruct ev; simpl; [|done]. by destruct (RateLimit _ _ _ _ _ _ _). Qed.

Lemma step_fst cfg key ev keyMap :
  (step cfg key ev keyMap).1 =
    match ev with
    | EvRequest r a now now' =>
        if decide (request_key cfg r a = key)
        then [(allow cfg key.1 key.2 (matchRule cfg r).1 now now' keyMap).1] else []
    | EvTick _ => []
    end.
Proof.
  destruct ev as [r a now now'|]; simpl; [|done].
  destruct (RateLimit_allow cfg (λ _, ()) r a now now' keyMap) as [E _].
  destruct (RateLimit _ _ _ _ _ _ _) as [res km].
  case_decide as K; [|done]. rewrite K in E. cbn [fst] in E. subst res. by destruct (allow _ _ _ _ _ _ _) as [[] ?].
Qed.

Lemma run_cons cfg key ev evs keyMap :
  (run cfg key (ev :: evs) keyMap).1 =
    (step cfg key ev keyMap).1 ++ (run cfg key evs (step cfg key ev keyMap).2).1.
Proof.
  simpl. destruct (step _ _ _ _) as [a km]; simpl. by destruct (run _ _ _ _).
Qed.

Lemma step_known cfg key ev keyMap id ips :
  known id ips keyMap → (∀ ip, ip ∈ addresses cfg id [ev] → ip ∈ ips) →
  known id ips (step cfg key ev keyMap).2.
Proof.
  intros Hk Hev ip Hs. rewrite step_snd in Hs. destruct ev as [r a now now'|now].
  - apply RateLimit_bucket_of in Hs as [Hs|Ekey]; [by apply Hk|].
    apply Hev. rewrite addresses_request, <- Ekey, decide_True by done. left.
  - rewrite evict_bucket_of in Hs. apply Hk. destruct (bucket_of keyMap (id, ip)); [done|].
    by destruct Hs.
Qed.

(** While a rule sees no more addresses than it may hold buckets, a client is
    answered as if it were alone. *)
Lemma run_solo cfg key evs keyMap (ips : gset string) :
  known key.1 ips keyMap → (∀ ip, ip ∈ addresses cfg key.1 evs → ip ∈ ips) →
  Z.of_nat (size ips) <= MaxBucketsPerRule cfg →
  (run cfg key evs keyMap).1 = solo cfg key evs (bucket_of keyMap key).
Proof.
  intros Hk Hips Hcap. revert keyMap Hk Hips. induction evs as [|ev evs IH]; [done|].
  intros keyMap Hk Hips.
  pose proof (step_known cfg key ev keyMap _ _ Hk) as Hk'.
  assert (∀ ip, ip ∈ addresses cfg key.1 [ev] ∨ ip ∈ addresses cfg key.1 evs → ip ∈ ips)
    as Hboth.
  { intros ip Hin. apply Hips. destruct ev; [|by destruct Hin as [Hin%elem_of_nil|]].
    rewrite addresses_request in Hin |- *. rewrite app_nil_r in Hin. by apply elem_of_app. }
  specialize (Hk' (λ ip Hin, Hboth ip (or_introl Hin))).
  pose proof (λ ip Hin, Hboth ip (or_intror Hin)) as Hips'.
  rewrite run_cons, (IH _ Hk' Hips'), step_snd, step_fst.
  destruct ev as [r a now now'|now]; cbn [solo]; [|by rewrite evict_bucket_of].
  rewrite (proj2 (RateLimit_allow _ _ _ _ _ _ _)).
  case_decide as K.
  - destruct key as [id ip]. rewrite K; cbn [fst snd].
    destruct (allow_own cfg id ip (matchRule cfg r).1 now now' keyMap) as [-> ->].
    { intros Hnone. apply Z.lt_le_trans with (Z.of_nat (size ips)); [|done].
      apply Nat2Z.inj_lt, (known_size _ _ _ ip); [done..|].
      apply Hips. rewrite addresses_request, K, decide_True by done. left. }
    by destruct (Allow _ _).
  - rewrite allow_other; [done|]. by destruct (request_key cfg r a).
Qed.

(** ** Bounds *)

(** No rule holds more buckets than the cap, and only the ids of rules occur. *)
Definition rule_ids (cfg : RateLimitConfig) : list string :=
  "default"%string :: map (λ rr, RuleMethod rr +:+ ":" +:+ Prefix rr) (RuleRoutes cfg).

Definition bounded (cfg : RateLimitConfig) (keyMap : Buckets) : Prop :=
  ∀ id m, keyMap !! id = Some m →
    Z.of_nat (size m) <= MaxBucketsPerRule cfg ∧ id ∈ rule_ids cfg.

Lemma matchRule_id cfg r : (matchRule cfg r).2 ∈ rule_ids cfg.
Proof.
  unfold matchRule, rule_ids. destruct (find _ _) as [rr|] eqn:F; [|by left].
  apply find_some in F as [Hin _]. right.
  apply list_elem_of_fmap. exists rr. split; [done|]. by apply list_elem_of_In.
Qed.

Lemma allow_bounded cfg id ip rule now now' keyMap :
  0 <= MaxBucketsPerRule cfg → id ∈ rule_ids cfg → bounded cfg keyMap →
  bounded cfg (allow cfg id ip rule now now' keyMap).2.
Proof.
  intros Hmax Hid Hb.
  assert (Z.of_nat (size (default ∅ (keyMap !! id))) <= MaxBucketsPerRule cfg) as Hsize.
  { destruct (keyMap !! id) as [m|] eqn:E; [apply (Hb _ _ E)|done]. }
  assert (∀ m, Z.of_nat (size m) <= MaxBucketsPerRule cfg → bounded cfg (<[id := m]> keyMap)) as Hins.
  { intros m Hm id' m' [[<- <-]|[_ E]]%lookup_insert_Some; [done|by apply Hb]. }
  unfold allow. destruct (_ !! ip) eqn:B.
  - destruct (Allow _ _); simpl. apply Hins. by rewrite map_size_insert_Some by eauto.
  - destruct (MaxBucketsPerRule cfg <=? _) eqn:C; [by apply Hins|].
    destruct (Allow _ _); simpl. apply Hins. rewrite map_size_insert_None by done.
    apply Z.leb_gt in C. lia.
Qed.

Lemma evict_bounded cfg now keyMap : bounded cfg keyMap → bounded cfg (evict cfg now keyMap).
Proof.
  intros Hb id m Hm. unfold evict in Hm.
  apply map_lookup_filter_Some in Hm as [Hm _]. rewrite lookup_fmap in Hm.
  destruct (keyMap !! id) as [m0|] eqn:E; [|done]. injection Hm as <-.
  destruct (Hb _ _ E) as [Hs Hid]. split; [|done].
  etrans; [|exact Hs]. apply Nat2Z.inj_le, map_size_filter.
Qed.

Lemma run_bounded cfg key evs keyMap :
  0 <= MaxBucketsPerRule cfg → bounded cfg keyMap → bounded cfg (run cfg key evs keyMap).2.
Proof.
  intros Hmax. revert keyMap. induction evs as [|ev evs IH]; intros keyMap Hb; [done|].
  assert (bounded cfg (step cfg key ev keyMap).2) as Hs.
  { rewrite step_snd. destruct ev; [|by apply evict_bounded].
    rewrite (proj2 (RateLimit_allow _ _ _ _ _ _ _)).
    apply allow_bounded; [done|apply matchRule_id|done]. }
  specialize (IH _ Hs). simpl. destruct (step _ _ _ _); simpl in *. by destruct (run _ _ _ _).
Qed.

End Middleware.
