(* ===== verification/MiddlewareTheorems.v ===== *)
(** * Properties of the rate limiter

    Isolation of clients, the bound on memory, and eviction.  The witnesses use
    a token bucket that counts nanoseconds of credit. *)

From S2P Require Import Prelude GoStrings GoTime Http Trim Middleware.

Local Open Scope Z_scope.

Section Theorems.
Context `{TokenBucket}.

(** C36: clients do not disturb one another.  From the start and as long as the
    rule sees no more addresses than it may hold buckets, the requests a client
    makes under a rule are answered exactly as by its own token bucket, fed with
    its own requests alone and forgotten when a tick of the eviction loop finds
    it idle, however the requests of others and the ticks are interleaved. *)
Theorem clients_are_isolated cfg key evs :
  Z.of_nat (size (list_to_set (addresses cfg key.1 evs) : gset string)) <= MaxBucketsPerRule cfg →
  (run cfg key evs ∅).1 = solo cfg key evs None.
Proof.
  intros Hcap.
  rewrite <- (bucket_of_empty key).
  apply (run_solo cfg key evs ∅ (list_to_set (addresses cfg key.1 evs))); [| |done].
  - intros ip Hs. rewrite bucket_of_empty in Hs. by destruct Hs.
  - intros ip Hin. by apply elem_of_list_to_set.
Qed.

(** C37: the memory of the limiter is bounded and its refusals are harmless.
    After any run from the start there are buckets only for the configured rules
    and the default one, and at most the cap for each; at the cap a new address
    is answered 429 without the wrapped handler and no bucket changes; and a
    tick drops exactly the buckets idle for longer than the limit. *)
Theorem limiter_is_bounded {A} cfg key evs (next : Request → A) r a now now' :
  0 <= MaxBucketsPerRule cfg →
  let keyMap := (run cfg key evs ∅).2 in
  (∀ id m, keyMap !! id = Some m →
     Z.of_nat (size m) <= MaxBucketsPerRule cfg ∧ id ∈ rule_ids cfg) ∧
  (bucket_of keyMap (request_key cfg r a) = None →
   MaxBucketsPerRule cfg <= Z.of_nat (size (default ∅ (keyMap !! (request_key cfg r a).1))) →
   (RateLimit cfg next r a now now' keyMap).1 = inl rateLimited ∧
   ∀ k, bucket_of (RateLimit cfg next r a now now' keyMap).2 k = bucket_of keyMap k) ∧
  ∀ k b, bucket_of (evict cfg now keyMap) k = Some b ↔
    bucket_of keyMap k = Some b ∧ Sub now (last b) <= IdleEvictAfter cfg.
Proof.
  intros Hmax keyMap. split; [|split].
  - apply (run_bounded cfg key evs ∅ Hmax). by intros id m Hm%lookup_empty_Some.
  - intros Hnone Hfull. destruct (RateLimit_allow cfg next r a now now' keyMap) as [-> ->].
    destruct (allow_full _ _ (matchRule cfg r).1 now now' _ Hnone Hfull) as [Ha Hb].
    split; [apply Ha|exact Hb].
  - intros k b. rewrite evict_bucket_of. destruct (bucket_of keyMap k) as [b0|]; simpl; [|naive_solver].
    unfold idle. destruct (Z.ltb_spec (IdleEvictAfter cfg) (Sub now (last b0))); naive_solver lia.
Qed.

End Theorems.

(** ** Witnesses *)

Module Demo.

(** Nanoseconds per token, the burst, the credit and the time of the last call. *)
Record credit : Type := MkCredit { per : Z; cap : Z; have : Z; seen : option Time }.

#[export] Instance credits : TokenBucket := {
  Rate := Z;
  Limiter := credit;
  NewLimiter per burst := MkCredit per (burst * per) (burst * per) None;
  Allow l t :=
    let earned := match seen l with Some s => t - s | None => 0 end in
    let have := Z.min (cap l) (have l + earned) in
    if per l <=? have then (true, MkCredit (per l) (cap l) (have - per l) (Some t))
    else (false, MkCredit (per l) (cap l) have (Some t))
}.

(** One rule for pairing requests (a token a second, burst of two); two buckets. *)
Definition cfg : RateLimitConfig :=
  withDefaults
    (MkRateLimitConfig (MkRateRule Second 10)
       [MkRouteRule MethodPost "/pair/request" (MkRateRule Second 2)] 0 2 true).

Definition pairing : Request := MkRequest MethodPost "/pair/request" "" ∅ "" false.

(** Two clients in turn, then a tick after eleven minutes, then a third. *)
Definition traffic : list event :=
  [EvRequest pairing "10.0.0.1:99" 0 0; EvRequest pairing "10.0.0.2:99" 1 1;
   EvRequest pairing "10.0.0.1:98" 2 2; EvRequest pairing "10.0.0.1:97" 3 3;
   EvRequest pairing "10.0.0.2:97" 4 4; EvRequest pairing "10.0.0.1:96" Second Second].

Definition alice : string * string := ("POST:/pair/request", "10.0.0.1")%string.

End Demo.

Section Witnesses.
Import Demo.

Lemma clients_are_isolated_witness :
  (run cfg alice traffic ∅).1 = [true; true; false; true] ∧
  (run cfg alice traffic ∅).1 = solo cfg alice traffic None.
Proof.
  split; [reflexivity|]. apply (clients_are_isolated cfg alice traffic).
  vm_compute. discriminate.
Defined.

Lemma limiter_is_bounded_witness :
  let keyMap := (run cfg alice traffic ∅).2 in
  let stranger r := RateLimit cfg (λ _, ()) pairing "10.0.0.3:1" r r keyMap in
  (∀ id m, keyMap !! id = Some m → Z.of_nat (size m) <= 2 ∧ id ∈ rule_ids cfg) ∧
  (stranger Second).1 = inl rateLimited ∧
  (∀ k b, bucket_of (evict cfg (700 * Second) keyMap) k = Some b ↔
     bucket_of keyMap k = Some b ∧ Sub (700 * Second) (last b) <= 10 * Minute).
Proof.
  destruct (limiter_is_bounded cfg alice traffic (λ _, ()) pairing "10.0.0.3:1"
              (700 * Second) (700 * Second)) as (Hsize & _ & Hev); [discriminate|].
  destruct (limiter_is_bounded cfg alice traffic (λ _, ()) pairing "10.0.0.3:1"
              Second Second) as (_ & Hfull & _); [discriminate|].
  split; [exact Hsize|]. split; [|exact Hev].
  apply Hfull; [reflexivity | vm_compute; discriminate].
Defined.

End Witnesses.
