(* ===== verification/Recovery.v ===== *)
(** * The recovery from panics

    [Recover] of internal/middleware/middleware.go over the part of
    http.ResponseWriter it needs.  A handler is a program on the writer that may
    end in a panic; [Recover] turns a panic into an answer. *)

From S2P Require Import Prelude GoStrings GoTime Http Middleware Storage Sql.

Local Open Scope Z_scope.

(** ** http.ResponseWriter *)

(** The header map, what WriteHeader has sent, and the body so far.  Statuses are
    final ones (200 and up), bodies of any length are allowed. *)
Record Writer : Type := MkWriter {
  rw_header : Headers;
  rw_sent : option (Z * Headers);
  rw_body : list Body
}.

Definition newWriter : Writer := MkWriter ∅ None [].

Definition SetHeader (k v : string) (w : Writer) : Writer :=
  MkWriter (HeaderSet (rw_header w) k v) (rw_sent w) (rw_body w).

(** A second call is superfluous. *)
Definition WriteHeader (status : Z) (w : Writer) : Writer :=
  match rw_sent w with
  | Some _ => w
  | None => MkWriter (rw_header w) (Some (status, rw_header w)) (rw_body w)
  end.

Definition Write (chunk : Body) (w : Writer) : Writer :=
  let w := WriteHeader StatusOK w in
  MkWriter (rw_header w) (rw_sent w) (rw_body w ++ [chunk]).

(** A handler on its writer: whether it ended in a panic. *)
Definition Handling : Type := Writer → Prog (Writer * bool).

(** A handler that answers with a response. *)
Definition respond (resp : Response) (w : Writer) : Writer :=
  Write (RespBody resp) (WriteHeader (Status resp)
    (foldl (λ w kv, SetHeader kv.1 kv.2 w) w (RespHeader resp))).

Definition answering (p : Prog Response) : Handling :=
  λ w, let! resp := p in Ret (respond resp w, false).

(** What the client gets when the handler is done: the connection is cut after a
    panic nobody recovered from. *)
Definition received (end_ : Writer * bool) : option (Z * Headers * list Body) :=
  let '(w, panicked) := end_ in
  if panicked then None
  else let w := WriteHeader StatusOK w in
       match rw_sent w with
       | Some (status, h) => Some (status, h, rw_body w)
       | None => None
       end.

(** ** Recover *)

Definition internalError : Body :=
  BText ("{" +:+ String "034" "error" +:+ String "034" ":" +:+
         String "034" "internal" +:+ String "034" "}").

Definition recovered (w : Writer) : Writer :=
  Write internalError (WriteHeader StatusInternalServerError
    (SetHeader "Content-Type" "application/json" w)).

Definition Recover (next : Handling) : Handling := λ w,
  let! (end_ : Writer * bool) := next w in
  Ret (if end_.2 then recovered end_.1 else end_.1, false).

(** The public chain of main: the limiter inside the recovery. *)
Definition recoverLimited `{TokenBucket} (cfg : RateLimitConfig) (next : Request → Handling)
    (r : Request) (remoteAddr : string) (now now' : Time) (keyMap : gmap string (gmap string bucket))
    : Handling * gmap string (gmap string bucket) :=
  let '(res, keyMap) := RateLimit cfg next r remoteAddr now now' keyMap in
  (Recover (match res with inl resp => answering (Ret resp) | inr h => h end), keyMap).

(** ** What it does *)

Lemma recovered_fresh w :
  rw_sent w = None →
  received (recovered w, false) =
    Some (500, HeaderSet (rw_header w) "Content-Type" "application/json", rw_body w ++ [internalError]).
Proof. intros Hs. unfold received, recovered, Write, WriteHeader, SetHeader. simpl. by rewrite Hs. Qed.

Lemma recovered_sent w status h :
  rw_sent w = Some (status, h) →
  received (recovered w, false) = Some (status, h, rw_body w ++ [internalError]).
Proof. intros Hs. unfold received, recovered, Write, WriteHeader, SetHeader. simpl. by rewrite Hs. Qed.

Lemma run_Recover e next w s :
  run e (Recover next w) s =
    let '(end_, s) := run e (next w) s in ((if (end_ : Writer * bool).2 then recovered end_.1 else end_.1, false), s).
Proof. unfold Recover. rewrite run_bind. by destruct (run e (next w) s) as [[w' []] s']. Qed.

(** A client's view of a run of a handler on a new writer, and the world after it. *)
Definition served (e : Env) (h : Handling) (s : World) : option (Z * Headers * list Body) * World :=
  let '(end_, s) := run e (h newWriter) s in (received end_, s).

Lemma served_Recover e next s :
  served e (Recover next) s =
    let '((w, panicked), s) := run e (next newWriter) s in
    (received (if panicked then recovered w else w, false), s).
Proof. unfold served. rewrite run_Recover. by destruct (run e _ s) as [[w []] s']. Qed.

Section Theorems.
Context `{TokenBucket}.

(** C17: a panic does not get past the public handler.  Whatever the handler behind
    the limiter does, the client gets an answer: 429 when its bucket is empty; the
    handler's own answer when it does not panic; 500 with the JSON error text and
    the headers set so far when it panics before it has sent anything; and when it
    panics later, the status and the headers it had sent, and the body it had
    written with the error text behind it.  The statements the handler executed
    stay executed, and the buckets are those the limiter left. *)
Theorem panics_are_answered cfg (next : Request → Handling) r a now now' keyMap e s :
  let '(handler, keyMap') := recoverLimited cfg next r a now now' keyMap in
  keyMap' = (RateLimit cfg next r a now now' keyMap).2 ∧
  match (RateLimit cfg next r a now now' keyMap).1 with
  | inl _ =>
      served e handler s =
        (Some (429, HeaderSet (HeaderSet ∅ "Retry-After" "1") "Content-Type" "application/json",
               [RespBody rateLimited]), s)
  | inr h => h = next r ∧
      let '((w, panicked), s') := run e (next r newWriter) s in
      (served e handler s).2 = s' ∧
      (panicked = false → (served e handler s).1 = received (w, false)) ∧
      (panicked = true → rw_sent w = None →
         (served e handler s).1 =
           Some (500, HeaderSet (rw_header w) "Content-Type" "application/json",
                 rw_body w ++ [internalError])) ∧
      (panicked = true → ∀ status h, rw_sent w = Some (status, h) →
         (served e handler s).1 = Some (status, h, rw_body w ++ [internalError]))
  end.
Proof.
  unfold recoverLimited. pose proof (RateLimit_allow cfg next r a now now' keyMap) as [Hres _].
  destruct (RateLimit cfg next r a now now' keyMap) as [res keyMap'] eqn:E. cbn [fst snd] in *.
  split; [done|]. destruct (allow _ _ _ _ _ _ _).1; subst res; [|done].
  split; [done|]. rewrite served_Recover. destruct (run e (next r newWriter) s) as [[w p] s'].
  split; [done|]. split_and!; intros ->; [done|..].
  - apply recovered_fresh.
  - intros status h. apply recovered_sent.
Qed.

End Theorems.

(** A handler that sets a header, and panics before or after it has written. *)
Module Demo.

#[export] Instance open_bucket : TokenBucket := {
  Rate := unit; Limiter := unit; NewLimiter _ _ := tt; Allow l _ := (true, l)
}.

Definition cfg : RateLimitConfig := withDefaults (MkRateLimitConfig (MkRateRule tt 1) [] 0 0 true).

Definition failing (late : bool) (r : Request) : Handling := λ w,
  let! _ := call Now in
  let w := SetHeader "X-Page" "1" w in
  Ret (if late then Write (BText "half") w else w, true).

Definition env : Env := MkEnv (λ _, 0) (λ _, ""%string) (λ _, None) (λ c, c).
Definition world : World := MkWorld empty_db 0 0 0.

End Demo.

Section Witness.
Import Demo.

Let request : Request := MkRequest MethodGet "/" "" ∅ "" false.
Let handler late : Handling := (recoverLimited cfg (failing late) request "10.0.0.1:9" 0 0 ∅).1.

Lemma panics_are_answered_witness :
  (served env (handler false) world).1 =
    Some (500, HeaderSet (HeaderSet ∅ "X-Page" "1") "Content-Type" "application/json", [internalError]) ∧
  (served env (handler true) world).1 =
    Some (200, HeaderSet ∅ "X-Page" "1", [BText "half"; internalError]).
Proof.
  pose proof (panics_are_answered cfg (failing false) request "10.0.0.1:9" 0 0 ∅ env world) as H0.
  pose proof (panics_are_answered cfg (failing true) request "10.0.0.1:9" 0 0 ∅ env world) as H1.
  split.
  - exact (proj1 (proj2 (proj2 (proj2 (proj2 H0)))) eq_refl eq_refl).
  - exact (proj2 (proj2 (proj2 (proj2 (proj2 H1)))) eq_refl _ _ eq_refl).
Defined.

End Witness.
