(* ===== verification/Mux.v ===== *)
(** * http.ServeMux

    The request multiplexer of net/http for the patterns the program registers:
    a path, or a path with a trailing slash for its subtree; no methods, hosts or
    wildcards.  The mux cleans the escaped path of a request, answers a path that
    was not clean or lacks the slash of a subtree with a redirect, and otherwise
    picks the most specific pattern. *)

From S2P Require Import Prelude GoStrings Http Trim.

Local Open Scope string_scope.

(** ** Paths *)

(** [url.PathUnescape] *)
Fixpoint PathUnescape (s : string) : option string :=
  match s with
  | EmptyString => Some EmptyString
  | String c r =>
      if Ascii.eqb c "%" then
        match r with
        | String a (String b r) =>
            va ← hex_nibble a; vb ← hex_nibble b;
            rest ← PathUnescape r;
            Some (String (chr (va * 16 + vb)) rest)
        | _ => None
        end
      else rest ← PathUnescape r; Some (String c rest)
  end.

(** The elements of a rooted path without empty and dot elements; a double dot
    takes back the element before it. *)
Fixpoint clean_go (acc segs : list string) : list string :=
  match segs with
  | [] => reverse acc
  | s :: segs =>
      if String.eqb s "" || String.eqb s "." then clean_go acc segs
      else if String.eqb s ".." then clean_go (tail acc) segs
      else clean_go (s :: acc) segs
  end.

(** [path.Clean] of a rooted path. *)
Definition CleanRooted (p : string) : string := "/" +:+ Join (clean_go [] (Split p "/")) "/".

(** [cleanPath] of net/http. *)
Definition cleanPath (p : string) : string :=
  let p := if HasPrefix p "/" then p else "/" +:+ p in
  let np := CleanRooted p in
  if HasSuffix p "/" && negb (String.eqb np "/") then np +:+ "/" else np.

(** ** Patterns *)

(** The literal segments of a pattern, and whether it ends in a slash. *)
Definition pattern_of (s : string) : list string * bool :=
  let segs := Split (TrimPrefix s "/") "/" in
  if bool_decide (last segs = Some "") then (removelast segs, true) else (segs, false).

(** The segments of a path; one that cannot be unescaped stays as it is. *)
Definition path_segments (path : string) : list string :=
  map (λ s, default s (PathUnescape s)) (Split (TrimPrefix path "/") "/").

Definition pattern_matches (pat : list string * bool) (segs : list string) : bool :=
  if snd pat then bool_decide (take (length (fst pat)) segs = fst pat) &&
                  Nat.ltb (length (fst pat)) (length segs)
  else bool_decide (segs = fst pat).

(** [exactMatch]: a subtree pattern is matched exactly by its own slash path. *)
Definition exact_match (pat : list string * bool) (path : string) : bool :=
  if snd pat then HasSuffix path "/" &&
                  Nat.eqb (S (S (length (fst pat)))) (length (Split path "/"))
  else true.

Section Mux.
Context {A : Type}.

(** A mux is its registrations. *)
Abbreviation Mux := (list (string * A)).

(** The registration with the most literal segments among those that match. *)
Fixpoint mux_match (mux : Mux) (path : string) : option ((list string * bool) * A) :=
  match mux with
  | [] => None
  | (p, h) :: mux =>
      let rest := mux_match mux path in
      let pat := pattern_of p in
      if pattern_matches pat (path_segments path) then
        match rest with
        | Some (pat', h') =>
            if Nat.ltb (length (fst pat)) (length (fst pat')) then Some (pat', h')
            else Some (pat, h)
        | None => Some (pat, h)
        end
      else rest
  end.

Inductive MuxAnswer : Type :=
| MuxServe (h : A)
| MuxRedirect (path : string)      (* with the query of the request *)
| MuxNotFound
| MuxBadRequest.

(** [matchOrRedirect]: the path to redirect to, when the subtree of a path
    without its slash is registered. *)
Definition slash_redirect (mux : Mux) (r : Request) (path : string) : option string :=
  if from_option (λ m, exact_match (fst m) path) false (mux_match mux path) || HasSuffix path "/"
  then None
  else if from_option (λ m, exact_match (fst m) (path +:+ "/")) false (mux_match mux (path +:+ "/"))
  then Some (cleanPath (Path r) +:+ "/") else None.

Definition MethodConnect := "CONNECT".

(** [findHandler]; [escaped] is [r.URL.EscapedPath()]. *)
Definition ServeMux (mux : Mux) (r : Request) (escaped : string) : MuxAnswer :=
  if String.eqb escaped "*" then MuxBadRequest
  else
    let path := if String.eqb (Method r) MethodConnect then escaped else cleanPath escaped in
    match slash_redirect mux r path with
    | Some to => MuxRedirect to
    | None =>
        if negb (String.eqb path escaped) then MuxRedirect path
        else
          match mux_match mux path with
          | Some (_, h) => MuxServe h
          | None => MuxNotFound
          end
    end.

(** A handler the mux serves is one of those registered. *)
Lemma mux_match_in mux path pat h : mux_match mux path = Some (pat, h) → ∃ p, (p, h) ∈ mux.
Proof.
  revert pat h. induction mux as [|[p h0] mux IH]; intros pat h; [done|]; simpl.
  destruct (pattern_matches _ _).
  - destruct (mux_match mux path) as [[pat' h']|].
    + destruct (Nat.ltb _ _); intros [= <- <-].
      * destruct (IH _ _ eq_refl) as [p' Hp']. exists p'. by right.
      * exists p. by left.
    + intros [= <- <-]. exists p. by left.
  - intros E. destruct (IH _ _ E) as [p' Hp']. exists p'. by right.
Qed.

Lemma ServeMux_in mux r escaped h : ServeMux mux r escaped = MuxServe h → ∃ p, (p, h) ∈ mux.
Proof.
  unfold ServeMux. destruct (String.eqb escaped "*"); [done|].
  destruct (slash_redirect _ _ _); [done|]. destruct (negb _); [done|].
  destruct (mux_match _ _) as [[pat h']|] eqn:M; [|done]. intros [= ->]. by eapply mux_match_in.
Qed.

End Mux.
Arguments MuxAnswer A : clear implicits.
