(* ===== verification/MuxSpec.v ===== *)
(** * Which pattern a mux picks

    For paths without escapes, matching by segments is a test for a prefix or for
    equality, and cleaning keeps such a path a rooted one without escapes. *)

From S2P Require Import Prelude GoStrings Http Trim Mux.

Local Open Scope string_scope.

(** ** Strings *)

Lemma Split_no_byte c s sep : no_byte c s = true → Forall (λ w, no_byte c w = true) (Split s sep).
Proof.
  unfold no_byte. induction s as [|a s IH]; [by repeat constructor|].
  simpl. intros [Ha Hs]%andb_true_iff. specialize (IH Hs). destruct (Ascii.eqb a sep).
  - by constructor.
  - destruct (Split s sep) as [|w ws].
    + constructor; [simpl; by rewrite Ha|done].
    + inversion IH as [|? ? Hw Hws]; subst. constructor; [|done]. simpl. by rewrite Ha.
Qed.

Lemma Join_no_byte c ws sep :
  no_byte c sep = true → Forall (λ w, no_byte c w = true) ws → no_byte c (Join ws sep) = true.
Proof.
  unfold no_byte. intros Hsep H. induction H as [|w ws Hw Hws IH]; [done|].
  destruct ws as [|w' ws]; [done|]. change (all_bytes (λ a, negb (Ascii.eqb a c))
    (w +:+ sep +:+ Join (w' :: ws) sep) = true). by rewrite !all_bytes_app, Hw, Hsep, IH.
Qed.

(** The segments of a string with a slash in front, and with one behind. *)
Lemma Split_rooted t : Split (String "/" t) "/" = "" :: Split t "/".
Proof. done. Qed.

Lemma Split_snoc s t sep : no_byte sep t = true → Split (s +:+ String sep t) sep = (Split s sep ++ [t])%list.
Proof. intros Ht. by rewrite Split_app_any, (Split_no_sep t). Qed.

(** ** Cleaning *)

Abbreviation unescaped s := (no_byte "%" s = true).

Lemma PathUnescape_plain s : unescaped s → PathUnescape s = Some s.
Proof.
  unfold no_byte. induction s as [|c s IH]; [done|]. simpl.
  intros [Hc%negb_true_iff Hs]%andb_true_iff. by rewrite Hc, (IH Hs).
Qed.

Lemma clean_go_Forall (P : string → Prop) acc segs :
  Forall P acc → Forall P segs → Forall P (clean_go acc segs).
Proof.
  intros Ha Hs. revert acc Ha. induction Hs as [|s segs Hs _ IH]; intros acc Ha; simpl.
  - by apply Forall_reverse.
  - destruct (_ || _); [by apply IH|]. destruct (String.eqb s ".."); apply IH.
    + by destruct Ha.
    + by constructor.
Qed.

(** A cleaned path is rooted. *)
Lemma cleanPath_rooted p : unescaped p → ∃ t, cleanPath p = String "/" t ∧ unescaped t.
Proof.
  intros Hp. unfold cleanPath.
  set (p' := if HasPrefix p "/" then p else "/" +:+ p).
  assert (unescaped p') as Hp'.
  { subst p'. destruct (HasPrefix p "/"); [done|]. unfold no_byte in *. by rewrite all_bytes_app. }
  set (t := Join (clean_go [] (Split p' "/")) "/").
  assert (unescaped t) as Ht.
  { apply Join_no_byte; [done|]. apply clean_go_Forall; [done|]. by apply Split_no_byte. }
  change (CleanRooted p') with (String "/" t).
  destruct (_ && _); [|by exists t].
  exists (t +:+ "/"). split; [done|]. unfold no_byte in *. by rewrite all_bytes_app, Ht.
Qed.

(** A cleaned path has no dot segments. *)
Definition no_dots (s : string) : Prop := s ≠ "." ∧ s ≠ "..".

Definition element (s : string) : Prop := no_dots s ∧ no_byte "/" s = true.

Lemma clean_go_elements acc segs :
  Forall element acc → Forall (λ s, no_byte "/" s = true) segs → Forall element (clean_go acc segs).
Proof.
  intros Ha Hs. revert acc Ha. induction Hs as [|s segs Hs _ IH]; intros acc Ha; simpl.
  - by apply Forall_reverse.
  - destruct (String.eqb s "" || String.eqb s ".") eqn:E; [by apply IH|].
    apply orb_false_iff in E as [_ E2%String.eqb_neq].
    destruct (String.eqb_spec s "..") as [|E3]; apply IH.
    + by destruct Ha.
    + by constructor.
Qed.

Lemma Split_no_sep_byte s sep : Forall (λ w, no_byte sep w = true) (Split s sep).
Proof.
  unfold no_byte. induction s as [|c s IH]; [by repeat constructor|]. simpl.
  destruct (Ascii.eqb c sep) eqn:E; [by constructor|].
  destruct (Split s sep) as [|w ws]; [repeat constructor; simpl; by rewrite E|].
  inversion IH as [|? ? Hw Hws]; subst. constructor; [|done]. simpl. by rewrite E.
Qed.

Lemma cleanPath_no_dots p : Forall no_dots (Split (cleanPath p) "/").
Proof.
  unfold cleanPath. set (p' := if HasPrefix p "/" then p else "/" +:+ p). clearbody p'.
  pose proof (clean_go_elements [] _ (Forall_nil_2 _) (Split_no_sep_byte p' "/")) as H.
  unfold CleanRooted. set (l := clean_go [] (Split p' "/")) in *. clearbody l.
  assert (Hl : Forall no_dots (Split ("/" +:+ Join l "/") "/")).
  { change (Split ("/" +:+ Join l "/") "/") with ("" :: Split (Join l "/") "/").
    constructor; [done|]. destruct l as [|w l]; [by repeat constructor|].
    rewrite Split_Join; [|done|]; eapply Forall_impl; [exact H| |exact H|]; by intros ? []. }
  destruct (_ && _); [|exact Hl]. change "/" with (String "/" "") at 3.
  rewrite Split_snoc by done. apply Forall_app. split; [exact Hl|]. by repeat constructor.
Qed.

(** ** Matching *)

Lemma path_segments_plain t : unescaped t → path_segments (String "/" t) = Split t "/".
Proof.
  intros Ht. unfold path_segments. change (String "/" t) with ("/" +:+ t). rewrite TrimPrefix_app.
  pose proof (Split_no_byte "%" t "/" Ht) as H. induction H as [|w ws Hw _ IH]; [done|].
  simpl. by rewrite (PathUnescape_plain _ Hw), IH.
Qed.

(** The subtree of one segment. *)
Lemma matches_subtree w t :
  no_byte "/" w = true → pattern_matches ([w], true) (Split t "/") = HasPrefix t (w +:+ "/").
Proof.
  intros Hw. unfold pattern_matches. cbn [fst snd length]. apply eq_true_iff_eq.
  rewrite andb_true_iff, bool_decide_eq_true, Nat.ltb_lt, HasPrefix_spec. split.
  - intros [E Hl]. pose proof (Join_Split t "/") as J.
    destruct (Split t "/") as [|a [|b l]]; simpl in *; [lia..|]. injection E as ->.
    rewrite <- J. exists (Join (b :: l) "/"). by rewrite app_assoc_s.
  - intros [r ->]. rewrite app_assoc_s. change ("/" +:+ r) with (String "/" r).
    rewrite Split_app by done. split; [done|]. simpl. pose proof (Split_nonempty r "/").
    destruct (Split r "/"); [done|simpl; lia].
Qed.

(** All paths. *)
Lemma matches_root t : pattern_matches ([], true) (Split t "/") = true.
Proof.
  unfold pattern_matches. simpl. pose proof (Split_nonempty t "/"). by destruct (Split t "/").
Qed.

(** One path. *)
Lemma matches_path ws t :
  ws ≠ [] → Forall (λ w, no_byte "/" w = true) ws →
  pattern_matches (ws, false) (Split t "/") = String.eqb t (Join ws "/").
Proof.
  intros Hne Hws. unfold pattern_matches. cbn [fst snd]. apply eq_true_iff_eq.
  rewrite bool_decide_eq_true, String.eqb_eq. split.
  - intros <-. by rewrite Join_Split.
  - intros ->. by rewrite Split_Join.
Qed.

(** The exact matches of a subtree pattern. *)
Lemma exact_root t : exact_match ([], true) (String "/" t +:+ "/") = false.
Proof.
  unfold exact_match. cbn [fst snd].
  rewrite Split_snoc, Split_rooted, length_app by done. simpl.
  pose proof (Split_nonempty t "/"). destruct (Split t "/") as [|? l]; [done|].
  rewrite andb_false_iff. right. by destruct l.
Qed.

(** With a slash behind, the subtree of one segment is matched exactly by its own
    path only. *)
Lemma exact_subtree w r :
  no_byte "/" w = true →
  exact_match ([w], true) (String "/" (w +:+ String "/" r) +:+ "/") = false.
Proof.
  intros Hw. unfold exact_match. cbn [fst snd length].
  rewrite Split_snoc, Split_rooted, Split_app, length_app by done.
  pose proof (Split_nonempty r "/"). destruct (Split r "/") as [|? l]; [done|].
  rewrite andb_false_iff. right. by destruct l.
Qed.

Lemma HasSuffix_slash s : HasSuffix (s +:+ "/") "/" = true.
Proof.
  unfold HasSuffix, String.rev. rewrite rev_app_s. apply (HasPrefix_app "/").
Qed.

(** ** Paths with escapes *)

(** Unescaping a path unescapes its segments: no escape contains a slash. *)
Lemma PathUnescape_slash s t u :
  no_byte "/" s = true → PathUnescape (s +:+ String "/" t) = Some u →
  ∃ a b, PathUnescape s = Some a ∧ PathUnescape t = Some b ∧ u = a +:+ String "/" b.
Proof.
  assert (∀ n s t u, (String.length s <= n)%nat → no_byte "/" s = true → PathUnescape (s +:+ String "/" t) = Some u →
    ∃ a b, PathUnescape s = Some a ∧ PathUnescape t = Some b ∧ u = a +:+ String "/" b) as H; [|by eapply H].
  clear. induction n as [|n IH]; intros s t u Hn Hs; (destruct s as [|c s]; [|simpl in Hn]); try lia.
  1,2: rewrite app_nil_l_s; simpl; destruct (PathUnescape t) as [b|]; [|done]; intros [= <-]; by exists "", b.
  apply andb_true_iff in Hs as [Hc%negb_true_iff Hs]. rewrite app_cons_s. cbn [PathUnescape].
  destruct (Ascii.eqb c "%").
  - destruct s as [|x s]; [rewrite app_nil_l_s; by destruct t|]. apply andb_true_iff in Hs as [Hx%negb_true_iff Hs].
    destruct s as [|y s].
    { change (String x "" +:+ String "/" t) with (String x (String "/" t)). cbn iota.
      change (hex_nibble "/") with (@None Z). by destruct (hex_nibble x). }
    apply andb_true_iff in Hs as [Hy%negb_true_iff Hs]. rewrite !app_cons_s.
    destruct (hex_nibble x) as [vx|]; [|done]. destruct (hex_nibble y) as [vy|]; [|done]. cbn [mbind option_bind].
    destruct (PathUnescape (s +:+ String "/" t)) as [rest|] eqn:E; [|done]. intros [= <-].
    simpl in Hn. destruct (IH s t rest ltac:(lia) Hs E) as (a & b & -> & Hb & ->).
    exists (String (chr (vx * 16 + vy)) a), b. done.
  - destruct (PathUnescape (s +:+ String "/" t)) as [rest|] eqn:E; [|done]. intros [= <-].
    destruct (IH s t rest ltac:(lia) Hs E) as (a & b & -> & Hb & ->). by exists (String c a), b.
Qed.

Lemma PathUnescape_Join ws u :
  Forall (λ w, no_byte "/" w = true) ws → ws ≠ [] → PathUnescape (Join ws "/") = Some u →
  Join (map (λ s, default s (PathUnescape s)) ws) "/" = u.
Proof.
  intros H. revert u. induction H as [|w ws Hw _ IH]; intros u Hne Hu; [done|].
  destruct ws as [|w' ws]; [simpl in *; by rewrite Hu|].
  change (Join (w :: w' :: ws) "/") with (w +:+ String "/" (Join (w' :: ws) "/")) in Hu.
  destruct (PathUnescape_slash _ _ _ Hw Hu) as (a & b & Ha & Hb & ->).
  rewrite <- (IH b) by done. cbn [map]. by rewrite Ha.
Qed.

(** A path is a pattern, or in the subtree of one. *)
Definition under (p path : string) : Prop := if HasSuffix p "/" then HasPrefix path p = true else path = p.

Lemma mux_match_sound {A} (mux : list (string * A)) path pat h :
  mux_match mux path = Some (pat, h) →
  ∃ p, (p, h) ∈ mux ∧ pat = pattern_of p ∧ pattern_matches pat (path_segments path) = true.
Proof.
  revert pat h. induction mux as [|[p h0] mux IH]; intros pat h; [done|]. cbn [mux_match].
  assert (Hrest : mux_match mux path = Some (pat, h) → ∃ p0, (p0, h) ∈ (p, h0) :: mux ∧ pat = pattern_of p0 ∧
    pattern_matches pat (path_segments path) = true).
  { intros H. destruct (IH _ _ H) as (q & Hq & Hm). exists q. split; [by right|done]. }
  destruct (pattern_matches (pattern_of p) (path_segments path)) eqn:E; [|exact Hrest].
  destruct (mux_match mux path) as [[pat' h']|].
  - destruct (Nat.ltb _ _); [by intros [= <- <-]; apply Hrest|]. intros [= <- <-]. exists p. split; [by left|done].
  - intros [= <- <-]. exists p. split; [by left|done].
Qed.

(** A rooted pattern is its segments, behind slashes. *)
Lemma pattern_text q :
  match pattern_of (String "/" q) with
  | ([], true) => q = ""
  | (ws, true) => q = Join ws "/" +:+ "/"
  | (ws, false) => q = Join ws "/" ∧ HasSuffix (String "/" q) "/" = false
  end.
Proof.
  unfold pattern_of. change (String "/" q) with ("/" +:+ q). rewrite TrimPrefix_app.
  pose proof (Join_Split q "/") as J. pose proof (Split_nonempty q "/") as Hne.
  case_bool_decide as Hl.
  - destruct (exists_last Hne) as (ws & w & E). rewrite E in J, Hl |- *. rewrite last_snoc in Hl. injection Hl as ->.
    rewrite removelast_last. rewrite <- J. clear. destruct ws as [|w ws]; [done|].
    revert w. induction ws as [|w' ws IH]; intros w; [done|].
    change (Join ((w :: w' :: ws) ++ [""]) "/") with (w +:+ "/" +:+ Join ((w' :: ws) ++ [""]) "/").
    change (Join (w :: w' :: ws) "/") with (w +:+ "/" +:+ Join (w' :: ws) "/"). by rewrite IH, !app_assoc_s.
  - enough (HasSuffix ("/" +:+ q) "/" = false) as Hs by (by destruct (Split q "/")).
    destruct (HasSuffix ("/" +:+ q) "/") eqn:E; [|done]. exfalso. apply Hl.
    unfold HasSuffix in E. apply HasPrefix_spec in E as [x E]. change (String.rev "/") with "/" in E.
    assert ("/" +:+ q = String.rev x +:+ "/") as E' by (by rewrite <- (rev_involutive ("/" +:+ q)), E, rev_append).
    destruct (String.rev x) as [|c y].
    + destruct q; done.
    + rewrite app_cons_s in E'. injection E' as _ E'. rewrite app_nil_l_s in E'. rewrite E'.
      change "/" with (String "/" "") at 1. rewrite Split_snoc by done. by rewrite last_snoc.
Qed.

Lemma pattern_under q segs :
  pattern_matches (pattern_of (String "/" q)) segs = true → under (String "/" q) (String "/" (Join segs "/")).
Proof.
  pose proof (pattern_text q) as Hq. unfold under, pattern_matches.
  destruct (pattern_of (String "/" q)) as [ws [|]]; cbn [fst snd].
  - intros [E%bool_decide_eq_true Hl%Nat.ltb_lt]%andb_true_iff.
    assert (HasPrefix (String "/" (Join segs "/")) (String "/" q) = true ∧ HasSuffix (String "/" q) "/" = true) as [Hp ->];
      [|done]. destruct ws as [|w ws]; [subst q; split; [by destruct (Join segs "/")|done]|]. subst q.
    split; [|apply (HasSuffix_slash (String "/" (Join (w :: ws) "/")))].
    destruct (lookup_lt_is_Some_2 segs (length (w :: ws)) Hl) as [x Hx].
    rewrite <- (take_drop_middle segs _ x Hx), E. clear. apply HasPrefix_spec.
    exists (Join (x :: drop (S (length (w :: ws))) segs) "/"). change (String "/" ?x) with ("/" +:+ x).
    rewrite app_assoc_s. f_equal. generalize (drop (S (length (w :: ws))) segs). intros l. clear. revert w.
    induction ws as [|w' ws IH]; intros w; [by rewrite app_assoc_s|].
    change (Join ((w :: w' :: ws) ++ x :: l) "/") with (w +:+ "/" +:+ Join ((w' :: ws) ++ x :: l) "/").
    change (Join (w :: w' :: ws) "/") with (w +:+ "/" +:+ Join (w' :: ws) "/"). by rewrite IH, !app_assoc_s.
  - intros ->%bool_decide_eq_true. assert (q = Join ws "/" ∧ HasSuffix (String "/" q) "/" = false) as [E ->];
      [by destruct ws|by rewrite E].
Qed.

(** The handler a mux picks for a path, escapes or not, is registered for the path
    the handler sees. *)
Lemma ServeMux_under {A} (mux : list (string * A)) r escaped h :
  Forall (λ ph, HasPrefix ph.1 "/" = true) mux → Method r ≠ MethodConnect → PathUnescape escaped = Some (Path r) →
  ServeMux mux r escaped = MuxServe h → ∃ p, (p, h) ∈ mux ∧ under p (Path r).
Proof.
  intros Hroot Hm Hu. unfold ServeMux. rewrite (proj2 (String.eqb_neq _ _) Hm).
  destruct (String.eqb escaped "*"); [done|]. destruct (slash_redirect _ _ _); [done|].
  destruct (String.eqb_spec (cleanPath escaped) escaped) as [Hc|]; [|done]. cbn [negb]. rewrite Hc.
  destruct (mux_match mux escaped) as [[pat h']|] eqn:Em; [|done]. intros [= ->].
  destruct (mux_match_sound _ _ _ _ Em) as (p & Hp & -> & Hpm). exists p. split; [done|].
  rewrite Forall_forall in Hroot. apply Hroot in Hp as Hr. apply HasPrefix_spec in Hr as [q Eq]. simpl in Eq. subst p.
  assert (∃ t, escaped = "/" +:+ t) as [t Et].
  { rewrite <- Hc. unfold cleanPath, CleanRooted. destruct (_ && _); rewrite ?app_assoc_s; by eexists. }
  subst escaped. change (PathUnescape ("/" +:+ t)) with (rest ← PathUnescape t; Some (String "/" rest)) in Hu.
  destruct (PathUnescape t) as [u|] eqn:Et; [|done]. injection Hu as Eu.
  assert (Join (path_segments ("/" +:+ t)) "/" = u) as Es.
  { unfold path_segments. rewrite TrimPrefix_app. apply PathUnescape_Join; [apply Split_no_sep_byte|apply Split_nonempty|].
    by rewrite (Join_Split t "/"). }
  rewrite <- Eu, <- Es. by apply pattern_under.
Qed.
