(* ===== verification/Ingress.v ===== *)
(** * The gateway's front door

    The mux of [Gateway.Handler] in internal/gateway/gateway.go, in front of
    [Gateway.serve]: which paths it lets through, and what a public path is then
    worth. *)

From S2P Require Import Prelude GoStrings Http Trim Edge Gateway GatewayMain Startup GatewaySpec.
From S2P Require Import Platform GatewayTheorems Mux MuxSpec.

Local Open Scope string_scope.

(** ** The handler *)

Definition healthz : Handler := λ _ _,
  Respond (MkResponse StatusOK [("Content-Type", "application/json")]
    (BText ("{" +:+ quoted "status" +:+ ":" +:+ quoted "ok" +:+ "," +:+
            quoted "service" +:+ ":" +:+ quoted "interchange-gateway" +:+ "}"))).

Definition ingressMux (g : Gateway) : list (string * Handler) := [("/healthz", healthz); ("/", serve g)].

(** An effect, or a redirect to a path with the query of the request. *)
Inductive Served : Type :=
| Answered (e : Effect)
| Redirected (path query : string).

(** [Handler]: a request with its escaped path. *)
Definition GatewayHandler (g : Gateway) (r : Request) (escaped : string) : Served :=
  match ServeMux (ingressMux g) r escaped with
  | MuxServe h => Answered (h None r)
  | MuxRedirect path => Redirected path (RawQuery r)
  | MuxNotFound => Answered (Respond HttpNotFound)
  | MuxBadRequest =>
      Answered (Respond (MkResponse StatusBadRequest [("Connection", "close")] (BText "")))
  end.

(** ** Routing *)

Lemma ingress_match g t :
  unescaped t →
  mux_match (ingressMux g) (String "/" t) =
    Some (if String.eqb t "healthz" then (["healthz"], false, healthz) else ([], true, serve g)).
Proof.
  intros Ht. unfold ingressMux. cbn [mux_match]. rewrite !path_segments_plain by done.
  change (pattern_of "/") with (@nil string, true). change (pattern_of "/healthz") with (["healthz"], false).
  rewrite matches_root, !matches_path by (done || by repeat constructor).
  change (Join ["healthz"] "/") with "healthz". by destruct (String.eqb t "healthz").
Qed.

Lemma ingress_slash g r t : unescaped t → slash_redirect (ingressMux g) r (String "/" t) = None.
Proof.
  intros Ht. unfold slash_redirect. change (String "/" t +:+ "/") with (String "/" (t +:+ "/")).
  rewrite !ingress_match by (unfold no_byte in *; rewrite ?all_bytes_app, ?Ht; done). cbn [from_option].
  assert (String.eqb (t +:+ "/") "healthz" = false) as ->.
  { apply String.eqb_neq. intros E. pose proof (HasSuffix_slash t) as H. by rewrite E in H. }
  cbn [fst]. change (String "/" (t +:+ "/")) with (String "/" t +:+ "/"). rewrite exact_root.
  by destruct (_ || _).
Qed.

Lemma GatewayHandler_plain g r :
  unescaped (Path r) → Path r ≠ "*" → Method r ≠ MethodConnect →
  GatewayHandler g r (Path r) =
    if negb (String.eqb (cleanPath (Path r)) (Path r)) then Redirected (cleanPath (Path r)) (RawQuery r)
    else Answered (if String.eqb (Path r) "/healthz" then healthz None r else serve g None r).
Proof.
  intros Hp Hs Hm. destruct (cleanPath_rooted _ Hp) as (t & Hq & Ht).
  unfold GatewayHandler, ServeMux. apply String.eqb_neq in Hs, Hm. rewrite Hs, Hm, Hq, ingress_slash by done.
  destruct (String.eqb_spec (String "/" t) (Path r)) as [E|E]; cbn [negb]; [|done].
  rewrite ingress_match, <- E by done. change (String.eqb (String "/" t) "/healthz") with (String.eqb t "healthz").
  by destruct (String.eqb t "healthz").
Qed.

(** ** What gets through *)

(** A public path asked for through an escaped dot segment. *)
Definition sneaky_escaped : string := "/wiki/public/%2e%2e/secret".
Definition sneaky : Request := GatewayTheorems.Demo.request "/wiki/public/../secret" [].

(** C30: the front door.  A path without escapes is redirected to its clean form, so
    what is served, to /healthz or to the routes, has no dot segments: a public
    subtree is confined to itself.  A dot segment that comes escaped is neither
    cleaned nor redirected: a gateway that [main] configures with a public subtree
    hands a request without a token, whose clean path is not public, to the
    backend, dot segment included. *)
Theorem public_subtrees_leak :
  (∀ g r, unescaped (Path r) → Path r ≠ "*" → Method r ≠ MethodConnect →
     GatewayHandler g r (Path r) =
       (if negb (String.eqb (cleanPath (Path r)) (Path r))
        then Redirected (cleanPath (Path r)) (RawQuery r)
        else Answered (if String.eqb (Path r) "/healthz" then healthz None r else serve g None r)) ∧
     (∀ e, GatewayHandler g r (Path r) = Answered e → Forall no_dots (Split (Path r) "/"))) ∧
  (∃ (order : SortSlice) (urls : UrlParser) (files : Transport) (registrar : Registrar) getenv heraldauth sv
       r escaped backend r',
     @SortSliceLaws order ∧ main getenv heraldauth = Ok sv ∧ getenv "INTERCHANGE_AUTH_BYPASS" ≠ "1" ∧
     PathUnescape escaped = Some (Path r) ∧ bearer r = "" ∧ isPublic (sv_Gateway sv) (cleanPath (Path r)) = false ∧
     GatewayHandler (sv_Gateway sv) r escaped = Answered (Proxied backend r') ∧
     Path r' = "/public/../secret").
Proof.
  split.
  - intros g r Hp Hs Hm. pose proof (GatewayHandler_plain g r Hp Hs Hm) as E. split; [exact E|].
    intros e He. rewrite E in He.
    destruct (String.eqb_spec (cleanPath (Path r)) (Path r)) as [Hc|Hc]; [|done].
    rewrite <- Hc. apply cleanPath_no_dots.
  - exists Demo.by_merge_sort, Demo.any_url, Demo.files, Demo.registrar, Demo.getenv, Demo.heraldauth, Demo.sv.
    exists sneaky, sneaky_escaped.
    exists "http://wiki", (set_path (strip trustedHeaders sneaky) "/public/../secret").
    split; [exact Demo.by_merge_sort_laws|]. split; [exact Demo.sv_main|]. split_and!; by vm_compute.
Qed.
