(* ===== verification/Drain.v ===== *)
(** * The running gateway

    cmd/interchange-gateway/main.go from the server [Startup.main] makes to the end
    of the process: the goroutine that listens, connections with their requests,
    the select between its error and the signal, and the bounded drain.  One step
    is one step of one goroutine. *)

From S2P Require Import Prelude GoStrings GoTime Http Trim Edge Gateway GatewayMain Startup.
From S2P Require Import Mux MuxSpec GatewaySpec Platform GatewayTheorems Ingress.

Local Open Scope Z_scope.

(** ** State *)

(** A connection that waits for a request, or is served one. *)
Inductive Conn : Type :=
| Idle
| Busy (r : Request) (escaped : string) (e : Served).

Inductive ServerStatus : Type := NotListening | Listening | ShutDown.

(** Where [main] is: at its select, behind [stop()], in [srv.Shutdown]; the exits of
    the process with a status, by the end of [main] or [log.Fatalf], and by a signal
    that nobody waits for any more. *)
Inductive Main : Type :=
| AtSelect
| Stopped
| Draining
| Exited (code : Z)
| Killed.

Section Running.
Context `{Tr : Transport}.

(** [gp_serving]: [ListenAndServe] has not returned; [gp_errCh]: the channel with room
    for one error; [gp_done]: the context of the signal is done; [gp_ctx]: the
    deadline of the drain; [gp_lnerr]: the error of closing the listener. *)
Record GProcess : Type := MkGProcess {
  gp_main : Main;
  gp_status : ServerStatus;
  gp_serving : bool;
  gp_conns : list Conn;
  gp_errCh : option error;
  gp_done : bool;
  gp_ctx : option Time;
  gp_lnerr : option error;
  gp_clock : Time
}.

Definition newGProcess (t : Time) : GProcess :=
  MkGProcess AtSelect NotListening true [] None false None None t.

Definition set_main (m : Main) (s : GProcess) : GProcess :=
  MkGProcess m (gp_status s) (gp_serving s) (gp_conns s) (gp_errCh s) (gp_done s) (gp_ctx s) (gp_lnerr s) (gp_clock s).

Definition set_conns (cs : list Conn) (s : GProcess) : GProcess :=
  MkGProcess (gp_main s) (gp_status s) (gp_serving s) cs (gp_errCh s) (gp_done s) (gp_ctx s) (gp_lnerr s) (gp_clock s).

Definition set_clock (t : Time) (s : GProcess) : GProcess :=
  MkGProcess (gp_main s) (gp_status s) (gp_serving s) (gp_conns s) (gp_errCh s) (gp_done s) (gp_ctx s) (gp_lnerr s) t.

Definition set_listening (s : GProcess) : GProcess :=
  MkGProcess (gp_main s) Listening (gp_serving s) (gp_conns s) (gp_errCh s) (gp_done s) (gp_ctx s) (gp_lnerr s)
    (gp_clock s).

(** [ListenAndServe] returns: with an error into the channel, or with
    ErrServerClosed, which is dropped. *)
Definition serveFailed (e : error) (s : GProcess) : GProcess :=
  MkGProcess (gp_main s) NotListening false (gp_conns s) (Some e) (gp_done s) (gp_ctx s) (gp_lnerr s) (gp_clock s).

Definition serveReturned (s : GProcess) : GProcess :=
  MkGProcess (gp_main s) (gp_status s) false (gp_conns s) (gp_errCh s) (gp_done s) (gp_ctx s) (gp_lnerr s) (gp_clock s).

(** A signal while the context waits for one. *)
Definition signalled (s : GProcess) : GProcess :=
  MkGProcess (gp_main s) (gp_status s) (gp_serving s) (gp_conns s) (gp_errCh s) true (gp_ctx s) (gp_lnerr s) (gp_clock s).

(** [srv.Shutdown] with a new context: no connection is accepted any more. *)
Definition beginDrain (sv : Server) (lnerr : option error) (s : GProcess) : GProcess :=
  MkGProcess Draining ShutDown (gp_serving s) (gp_conns s) (gp_errCh s) (gp_done s)
    (Some (gp_clock s + sv_drain sv)) lnerr (gp_clock s).

(** ** Steps *)

Context (sv : Server).

Inductive main_step (s : GProcess) : GProcess → Prop :=
| MainServeError e :
    gp_main s = AtSelect → gp_errCh s = Some e → main_step s (set_main (Exited 1) s)
| MainSignalled :
    gp_main s = AtSelect → gp_done s = true → main_step s (set_main Stopped s)
| MainShutdown lnerr :
    gp_main s = Stopped → main_step s (beginDrain sv lnerr s)
| MainDrained :
    gp_main s = Draining → gp_conns s = [] →
    main_step s (set_main (Exited match gp_lnerr s with None => 0 | Some _ => 1 end) s)
| MainDeadline deadline :
    gp_main s = Draining → gp_ctx s = Some deadline → deadline <= gp_clock s →
    main_step s (set_main (Exited 1) s).

Inductive conn_step (s : GProcess) : GProcess → Prop :=
| ConnAccepted :
    gp_status s = Listening → conn_step s (set_conns (Idle :: gp_conns s) s)
| ConnClosed before after :
    gp_conns s = before ++ Idle :: after → conn_step s (set_conns (before ++ after) s)
| ConnRequest before after r escaped :
    gp_conns s = before ++ Idle :: after →
    conn_step s (set_conns (before ++ Busy r escaped (GatewayHandler (sv_Gateway sv) r escaped) :: after) s)
| ConnAnswered before after r escaped e :
    gp_conns s = before ++ Busy r escaped e :: after →
    (* kept alive until the server shuts down *)
    conn_step s (set_conns (before ++ (match gp_status s with ShutDown => [] | _ => [Idle] end) ++ after) s).

Inductive any_step (s : GProcess) : GProcess → Prop :=
| StepTime t : gp_clock s <= t → any_step s (set_clock t s)
| StepSignal : gp_main s = AtSelect → any_step s (signalled s)
| StepSignalAgain : gp_main s ≠ AtSelect → any_step s (set_main Killed s)
| StepListens :
    gp_serving s = true → gp_status s = NotListening → any_step s (set_listening s)
| StepServeFails e :
    gp_serving s = true → gp_status s ≠ ShutDown → any_step s (serveFailed e s)
| StepServeReturns :
    gp_serving s = true → gp_status s = ShutDown → any_step s (serveReturned s)
| StepMain s' : main_step s s' → any_step s s'
| StepConn s' : conn_step s s' → any_step s s'.

Definition alive (s : GProcess) : Prop := gp_main s ∈ [AtSelect; Stopped; Draining].

Definition step (s s' : GProcess) : Prop := alive s ∧ any_step s s'.

Definition reachable (t : Time) (s : GProcess) : Prop := rtc step (newGProcess t) s.
End Running.

(** ** Where [main] is *)

Section Spec.
Context `{Tr : Transport} (sv : Server).
Implicit Type s : GProcess.

Abbreviation step := (step sv).
Abbreviation reachable := (reachable sv).

Definition timed_out s : Prop := ∃ deadline, gp_ctx s = Some deadline ∧ deadline <= gp_clock s.

(** What an exit status says. *)
Definition exit_reason s (code : Z) : Prop :=
  (code = 1 ∧ is_Some (gp_errCh s) ∧ gp_status s ≠ ShutDown) ∨
  (gp_done s = true ∧ gp_status s = ShutDown ∧
   ((code = 0 ∧ gp_conns s = []) ∨ (code = 1 ∧ (timed_out s ∨ is_Some (gp_lnerr s))))).

Definition ordered s : Prop :=
  match gp_main s with
  | AtSelect => gp_status s ≠ ShutDown ∧ gp_ctx s = None ∧ gp_lnerr s = None
  | Stopped => gp_done s = true ∧ gp_status s ≠ ShutDown ∧ gp_ctx s = None ∧ gp_lnerr s = None
  | Draining => gp_done s = true ∧ gp_status s = ShutDown ∧ is_Some (gp_ctx s)
  | Exited code => exit_reason s code
  | Killed => gp_done s = true
  end.

(** What is in progress is what the handler makes of its request. *)
Definition genuine (c : Conn) : Prop :=
  match c with Idle => True | Busy r escaped e => e = GatewayHandler (sv_Gateway sv) r escaped end.

Record sound s : Prop := Sound {
  so_ordered : ordered s;
  so_conns : Forall genuine (gp_conns s)
}.

Lemma cut_at (P : Conn → Prop) s before c after :
  gp_conns s = before ++ c :: after → Forall P (gp_conns s) → Forall P before ∧ P c ∧ Forall P after.
Proof. intros ->. rewrite Forall_app, Forall_cons. tauto. Qed.

Lemma conn_genuine s s' : conn_step sv s s' → Forall genuine (gp_conns s) → Forall genuine (gp_conns s').
Proof.
  intros Hs Hg. destruct Hs as [|before after E|before after r escaped E|before after r escaped e E]; simpl; [by constructor|..];
    destruct (cut_at _ _ _ _ _ E Hg) as (Hb & Hc & Ha); rewrite ?Forall_app, ?Forall_cons.
  - done.
  - done.
  - split; [done|]. split; [|done]. by destruct (gp_status s); repeat constructor.
Qed.

(** A connection does nothing to the rest of the process, and once the server shut
    down there are no more of them. *)
Record moves s s' : Prop := Moves {
  mv_main : gp_main s' = gp_main s;
  mv_status : gp_status s' = gp_status s;
  mv_errCh : gp_errCh s' = gp_errCh s;
  mv_done : gp_done s' = gp_done s;
  mv_ctx : gp_ctx s' = gp_ctx s;
  mv_lnerr : gp_lnerr s' = gp_lnerr s;
  mv_clock : gp_clock s' = gp_clock s;
  mv_conns : gp_status s = ShutDown → (length (gp_conns s') <= length (gp_conns s))%nat
}.

Lemma conn_moves s s' : conn_step sv s s' → moves s s'.
Proof.
  intros Hs. destruct Hs as [E|before after E|before after r escaped E|before after r escaped e E];
    split; try done; simpl; rewrite ?E; intros H; rewrite ?H in *; rewrite ?length_app; simpl; rewrite ?length_app; simpl; (done || lia).
Qed.

Lemma alive_main s : alive s ↔ gp_main s = AtSelect ∨ gp_main s = Stopped ∨ gp_main s = Draining.
Proof. unfold alive. rewrite !elem_of_cons, elem_of_nil. tauto. Qed.

Lemma sound_step s s' : sound s → step s s' → sound s'.
Proof.
  intros [Ho Hc] [Hl Hs]. apply alive_main in Hl. unfold ordered in Ho. split.
  - assert (Hcases : ∀ P : Prop,
      (gp_main s = AtSelect → gp_status s ≠ ShutDown → gp_ctx s = None → gp_lnerr s = None → P) →
      (gp_main s = Stopped → gp_done s = true → gp_status s ≠ ShutDown → gp_ctx s = None → gp_lnerr s = None → P) →
      (gp_main s = Draining → gp_done s = true → gp_status s = ShutDown → is_Some (gp_ctx s) → P) → P).
    { intros P H1 H2 H3. destruct Hl as [E|[E|E]]; rewrite E in Ho; destruct_and! Ho; auto. }
    destruct Hs as [t Ht|Hm|Hm|Hv Hst|e Hv Hst|Hv Hst|s' Hs|s' Hs]; unfold ordered; simpl;
      try (apply Hcases; intros E; rewrite ?E; intros; (done || congruence)).
    + clear Hl Hcases. destruct Hs as [e Hm He|Hm Hd|lnerr Hm|Hm Hn|dl Hm Hx Hle]; simpl; rewrite Hm in Ho.
      * left. simpl. split; [done|]. split; [by exists e|tauto].
      * by destruct_and! Ho.
      * destruct_and! Ho. split_and!; [done|done|by eexists].
      * right. simpl. destruct Ho as (Hd & Hst & _). split; [done|]. split; [done|].
        destruct (gp_lnerr s) as [e|]; [right|by left]. split; [done|]. right. by exists e.
      * right. simpl. destruct Ho as (Hd & Hst & _). split; [done|]. split; [done|]. right. split; [done|].
        left. by exists dl.
    + destruct (conn_moves _ _ Hs) as [E1 E2 E3 E4 E5 E6 _ _]. rewrite E1.
      apply Hcases; intros E; rewrite E, ?E2, ?E4, ?E5, ?E6; done.
  - destruct Hs as [| | | | | |s' []|s' Hs]; try done. by eapply conn_genuine.
Qed.

Lemma reachable_sound t s : reachable t s → sound s.
Proof.
  intros H. assert (sound (newGProcess t)) as H0 by (by repeat split). revert H0.
  induction H as [|s1 s2 s3 Hs _ IH]; [done|]. intros H0. by eapply IH, sound_step.
Qed.

(** ** The drain *)

Lemma drain_begins s s' :
  sound s → step s s' → gp_status s ≠ ShutDown → gp_status s' = ShutDown →
  gp_done s = true ∧ gp_ctx s' = Some (gp_clock s + sv_drain sv).
Proof.
  intros [Ho _] [_ Hs] Hu Hd.
  destruct Hs as [| | | | | |s' Hs|s' Hs]; try done.
  - destruct Hs as [| |lnerr Hm| |]; try done. unfold ordered in Ho. rewrite Hm in Ho. by destruct Ho.
  - by rewrite (mv_status _ _ (conn_moves _ _ Hs)) in Hd.
Qed.

Lemma drain_goes_on s s' :
  sound s → step s s' → gp_status s = ShutDown →
  gp_status s' = ShutDown ∧ gp_ctx s' = gp_ctx s ∧ (length (gp_conns s') <= length (gp_conns s))%nat.
Proof.
  intros [Ho _] [_ Hs] Hd. destruct Hs as [| | |Hv Hst|e Hv Hst| |s' Hs|s' Hs]; try done; try congruence.
  - destruct Hs as [| |lnerr Hm| |]; try done. unfold ordered in Ho. rewrite Hm in Ho. by destruct_and! Ho.
  - destruct (conn_moves _ _ Hs) as [_ E2 _ _ E5 _ _ E8]. split_and!; [congruence|done|auto].
Qed.

(** ** The end of the process *)

Lemma main_can s s' : alive s → main_step sv s s' → step s s'.
Proof. intros Hl Hm. split; [done|]. by apply StepMain. Qed.

(** From the signal to the drain. *)
Lemma to_drain s :
  sound s → alive s → gp_done s = true →
  ∃ n s', (n <= 2)%nat ∧ nsteps step n s s' ∧ sound s' ∧ gp_main s' = Draining ∧
    gp_clock s' = gp_clock s ∧ (gp_lnerr s = None → gp_lnerr s' = None).
Proof.
  intros Hs Hl Hd. apply alive_main in Hl as Hm.
  assert (Hstop : ∀ s, sound s → gp_main s = Stopped → ∃ s', step s s' ∧ sound s' ∧ gp_main s' = Draining ∧
    gp_clock s' = gp_clock s ∧ gp_lnerr s' = None).
  { intros s0 H0 Hm0. assert (step s0 (beginDrain sv None s0)) as Hst
      by (apply main_can; [apply alive_main; auto|by apply MainShutdown]).
    exists (beginDrain sv None s0). split; [done|]. split; [by eapply sound_step|done]. }
  destruct Hm as [Hm|[Hm|Hm]].
  - assert (step s (set_main Stopped s)) as H1 by (apply main_can; [done|by apply MainSignalled]).
    destruct (Hstop (set_main Stopped s)) as (s' & H2 & Hs' & Hm' & Hc & Hn); [by eapply sound_step|done|].
    exists 2%nat, s'. split; [lia|]. split; [by eapply nsteps_l, nsteps_once|done].
  - destruct (Hstop s Hs Hm) as (s' & H2 & Hs' & Hm' & Hc & Hn).
    exists 1%nat, s'. split; [lia|]. split; [by apply nsteps_once|done].
  - exists 0%nat, s. split; [lia|]. split; [constructor|done].
Qed.

(** At the deadline [main] can exit whatever is in progress. *)
Lemma drain_bounded s :
  sound s → gp_main s = Draining → ∃ s' code, nsteps step 2 s s' ∧ gp_main s' = Exited code.
Proof.
  intros [Ho _] Hm. unfold ordered in Ho. rewrite Hm in Ho. destruct Ho as (_ & _ & dl & Hdl).
  set (s1 := set_clock (Z.max dl (gp_clock s)) s). exists (set_main (Exited 1) s1), 1. split; [|done].
  assert (alive s ∧ alive s1) as [Hl Hl1] by (by rewrite !alive_main; simpl; rewrite Hm; auto).
  assert (step s s1) as H1 by (split; [done|]; apply StepTime; lia).
  assert (step s1 (set_main (Exited 1) s1)) as H2.
  { apply main_can; [done|]. apply (MainDeadline _ s1 dl); [done|done|]. simpl. lia. }
  by eapply nsteps_l, nsteps_once.
Qed.

(** The requests in progress can be answered, and every connection closed. *)
Lemma drain_answers cs s :
  sound s → gp_main s = Draining → gp_conns s = cs →
  ∃ s', rtc step s s' ∧ gp_main s' = Draining ∧ gp_conns s' = [] ∧ gp_clock s' = gp_clock s ∧ gp_lnerr s' = gp_lnerr s.
Proof.
  revert s. induction cs as [|c cs IH]; intros s Hs Hm Hc; [by exists s|].
  assert (gp_status s = ShutDown) as Hd by (pose proof (so_ordered s Hs) as Ho; unfold ordered in Ho; rewrite Hm in Ho; tauto).
  assert (step s (set_conns cs s)) as H1.
  { split; [apply alive_main; auto|]. apply StepConn. destruct c as [|r escaped e].
    - by apply (ConnClosed _ s [] cs).
    - pose proof (ConnAnswered sv s [] cs r escaped e Hc) as H. by rewrite Hd in H. }
  destruct (IH (set_conns cs s)) as (s' & H2 & Hm' & Hn & Ht & Hl); [by eapply sound_step|done|done|].
  exists s'. split; [by eapply rtc_l|done].
Qed.

Lemma drain_ends s :
  sound s → alive s → gp_done s = true →
  (∃ n s' code, (n <= 4)%nat ∧ nsteps step n s s' ∧ gp_main s' = Exited code) ∧
  (gp_lnerr s = None → ∃ s', rtc step s s' ∧ gp_main s' = Exited 0 ∧ gp_clock s' = gp_clock s).
Proof.
  intros Hs Hl Hd. destruct (to_drain s Hs Hl Hd) as (n & s1 & Hn & H1 & Hs1 & Hm1 & Hc1 & Hln). split.
  - destruct (drain_bounded s1 Hs1 Hm1) as (s2 & code & H2 & Hm2). exists (n + 2)%nat, s2, code.
    split; [lia|]. split; [by eapply nsteps_trans|done].
  - intros Hno. destruct (drain_answers _ s1 Hs1 Hm1 eq_refl) as (s2 & H2 & Hm2 & Hn2 & Hc2 & Hl2).
    exists (set_main (Exited 0) s2). split; [|split; [done|simpl; congruence]].
    etrans; [by eapply rtc_nsteps_2|]. eapply rtc_r; [exact H2|].
    apply main_can; [apply alive_main; auto|]. pose proof (MainDrained sv s2 Hm2 Hn2) as H.
    by rewrite Hl2, (Hln Hno) in H.
Qed.
End Spec.

(** ** What is served *)

Section Serves.
Context `{SortSliceLaws, UrlParser, Registrar}.

(** Every answer of the front door is vouched for. *)
Lemma front_door_vouched getenv heraldauth sv :
  main getenv heraldauth = Ok sv → getenv "INTERCHANGE_AUTH_BYPASS"%string ≠ "1"%string →
  ∃ v, heraldauth (getenv "INTERCHANGE_HERALD_ISSUER"%string) (getenv "INTERCHANGE_HERALD_JWKS_URL"%string) = Some v ∧
    ∀ r escaped e, GatewayHandler (sv_Gateway sv) r escaped = Answered e →
      vouched (Some v) (needs_no_token (sv_Gateway sv) (Path r)) (backend_allows (sv_Gateway sv) (Path r)) r e.
Proof.
  intros Hm Hb. destruct (configured _ _ _ Hm Hb) as (v & _ & _ & _ & Hv & _). exists v. split; [done|].
  intros r escaped e. unfold GatewayHandler. destruct (ServeMux _ r escaped) as [h|to| |] eqn:E; [|done|..].
  - intros [= <-]. apply ServeMux_in in E as [p Hp]. unfold ingressMux in Hp.
    rewrite !elem_of_cons, elem_of_nil in Hp. destruct Hp as [[= _ ->]|[[= _ ->]|[]]]; [apply vouched_answer|].
    destruct (serve_vouched _ _ _ r Hm Hb) as (v' & Hv' & Hs). congruence.
  - intros [= <-]. apply vouched_answer.
  - intros [= <-]. apply vouched_answer.
Qed.

(** C35: the running gateway.  In every state of the process [main] ends up in: what
    is being served came through the front door and is vouched for; the server shuts
    down only after the signal, for the configured time, and from then on accepts
    nothing and its deadline stays; the process exits with 0 only after the signal
    and with no connection left, with 1 only when listening failed before a
    shutdown, its deadline has passed or the listener could not be closed, and dies
    of a signal only after another one.  From every state after the signal it can
    exit within four steps, the deadline included, whatever is in progress, and with
    every request answered before any time passes. *)
Theorem gateway_drains getenv heraldauth sv t s :
  main getenv heraldauth = Ok sv → reachable sv t s →
  (getenv "INTERCHANGE_AUTH_BYPASS"%string ≠ "1"%string →
   ∃ v, heraldauth (getenv "INTERCHANGE_HERALD_ISSUER"%string) (getenv "INTERCHANGE_HERALD_JWKS_URL"%string) = Some v ∧
     ∀ r escaped e, Busy r escaped (Answered e) ∈ gp_conns s →
       vouched (Some v) (needs_no_token (sv_Gateway sv) (Path r)) (backend_allows (sv_Gateway sv) (Path r)) r e) ∧
  (∀ s', step sv s s' → gp_status s ≠ ShutDown → gp_status s' = ShutDown →
     gp_done s = true ∧ gp_ctx s' = Some (gp_clock s + shutdownTimeout getenv)) ∧
  (∀ s', step sv s s' → gp_status s = ShutDown →
     gp_status s' = ShutDown ∧ gp_ctx s' = gp_ctx s ∧ (length (gp_conns s') <= length (gp_conns s))%nat) ∧
  (∀ code, gp_main s = Exited code → exit_reason s code) ∧
  (gp_main s = Killed → gp_done s = true) ∧
  (alive s → gp_done s = true →
   (∃ n s' code, (n <= 4)%nat ∧ nsteps (step sv) n s s' ∧ gp_main s' = Exited code) ∧
   (gp_lnerr s = None → ∃ s', rtc (step sv) s s' ∧ gp_main s' = Exited 0 ∧ gp_clock s' = gp_clock s)).
Proof.
  intros Hm Hr. apply reachable_sound in Hr as Hs. split_and!.
  - intros Hb. destruct (front_door_vouched _ _ _ Hm Hb) as (v & Hv & Hf). exists v. split; [done|].
    intros r escaped e Hin. apply (Hf r escaped). pose proof (so_conns _ _ Hs) as Hg. rewrite Forall_forall in Hg.
    by specialize (Hg _ Hin).
  - apply main_Ok in Hm as (rs & v & [_ _ _ _ _ _ _ Hd]). rewrite <- Hd. intros s'. by apply drain_begins.
  - intros s'. by apply drain_goes_on.
  - intros code Hc. pose proof (so_ordered _ _ Hs) as Ho. unfold ordered in Ho. by rewrite Hc in Ho.
  - intros Hc. pose proof (so_ordered _ _ Hs) as Ho. unfold ordered in Ho. by rewrite Hc in Ho.
  - by apply drain_ends.
Qed.
End Serves.

(** ** A drain *)

Section Witness.
Import GatewayTheorems.Demo.

Let steps := step sv.

(** The concrete gateway listens, serves a request and gets the signal. *)
Definition listening : GProcess := set_listening (newGProcess 0).
Definition serving : GProcess :=
  set_conns [Busy (as_ada "/wiki/x") "/wiki/x" (GatewayHandler gw (as_ada "/wiki/x") "/wiki/x")] listening.
Definition notified : GProcess := signalled serving.

Lemma notified_reachable : reachable sv 0 notified.
Proof.
  eapply rtc_l; [split; [apply alive_main; by left|]; by apply StepListens|].
  eapply rtc_l; [split; [apply alive_main; by left|]; by apply StepConn, ConnAccepted|].
  eapply rtc_l; [split; [apply alive_main; by left|];
    by apply StepConn, (ConnRequest _ _ [] [] (as_ada "/wiki/x") "/wiki/x")|].
  apply rtc_once. split; [apply alive_main; by left|]. by apply StepSignal.
Qed.

Lemma gateway_drains_witness :
  (∃ v, heraldauth "http://herald" "" = Some v ∧ ∀ r escaped e, Busy r escaped (Answered e) ∈ gp_conns notified →
     vouched (Some v) (needs_no_token gw (Path r)) (backend_allows gw (Path r)) r e) ∧
  ∃ s, rtc steps notified s ∧ gp_main s = Exited 0 ∧ gp_clock s = 0.
Proof.
  pose proof (gateway_drains getenv heraldauth sv 0 notified sv_main notified_reachable) as (Hv & _ & _ & _ & _ & Hd).
  split.
  - apply Hv. discriminate.
  - apply Hd; [apply alive_main; by left|reflexivity|reflexivity].
Defined.
End Witness.
