(* ===== verification/Document.v ===== *)
(** * The structs of the discovery document

    The types of internal/discovery/discovery.go, examples.go and example_aead.go,
    and what encoding/json makes of them: members in the order of the fields, under
    the names of their tags, maps with sorted keys, nil pointers as null. *)

From S2P Require Import Prelude GoStrings Http Sql.

Local Open Scope string_scope.

(** ** json.Marshal *)

Class Marshal (A : Type) : Type := marshal : A → gojson.

#[export] Instance string_marshal : Marshal string := GStr.
#[export] Instance int_marshal : Marshal Z := GInt.
#[export] Instance any_marshal : Marshal gojson := λ v, v.
#[export] Instance pointer_marshal {A} `{Marshal A} : Marshal (option A) := from_option marshal GNull.
#[export] Instance slice_marshal {A} `{Marshal A} : Marshal (list A) := λ l, GList (map marshal l).
#[export] Instance map_marshal {A} `{Marshal A} : Marshal (gmap string A) := λ m,
  GMap (map (λ kv, (kv.1, marshal kv.2)) (sort_by fst (map_to_list m))).

(** ** The types *)

Record Endpoints : Type := MkEndpoints {
  ep_Discovery : string;
  ep_Health : string;
  ep_Put : string;
  ep_Pull : string;
  ep_Ack : string;
  ep_PairRequest : string;
  ep_PairStatus : string;
  ep_PairApprove : option string;
  ep_PairDeny : option string
}.

#[export] Instance Endpoints_marshal : Marshal Endpoints := λ x, GStruct [
  ("discovery", marshal (ep_Discovery x));
  ("health", marshal (ep_Health x));
  ("put", marshal (ep_Put x));
  ("pull", marshal (ep_Pull x));
  ("ack", marshal (ep_Ack x));
  ("pair_request", marshal (ep_PairRequest x));
  ("pair_status", marshal (ep_PairStatus x));
  ("pair_approve", marshal (ep_PairApprove x));
  ("pair_deny", marshal (ep_PairDeny x))].

Record Auth : Type := MkAuth {
  au_Scheme : string;
  au_Header : string;
  au_Note : string
}.

#[export] Instance Auth_marshal : Marshal Auth := λ x, GStruct [
  ("scheme", marshal (au_Scheme x));
  ("header", marshal (au_Header x));
  ("note", marshal (au_Note x))].

Record Signing : Type := MkSigning {
  si_Algorithms : list string;
  si_Default : string;
  si_KeyFormat : gmap string string;
  si_SignatureFormat : string;
  si_Header : string;
  si_WhatIsSigned : string
}.

#[export] Instance Signing_marshal : Marshal Signing := λ x, GStruct [
  ("algorithms", marshal (si_Algorithms x));
  ("default", marshal (si_Default x));
  ("key_format", marshal (si_KeyFormat x));
  ("signature_format", marshal (si_SignatureFormat x));
  ("header", marshal (si_Header x));
  ("what_is_signed", marshal (si_WhatIsSigned x))].

Record Encryption : Type := MkEncryption {
  en_KeyExchange : string;
  en_KeyExchangeValues : list string;
  en_KeyFormat : gmap string string;
  en_KDF : string;
  en_KDFInfo : string;
  en_Symmetric : string;
  en_Nonce : string;
  en_AAD : string
}.

#[export] Instance Encryption_marshal : Marshal Encryption := λ x, GStruct [
  ("key_exchange", marshal (en_KeyExchange x));
  ("key_exchange_values", marshal (en_KeyExchangeValues x));
  ("key_format", marshal (en_KeyFormat x));
  ("kdf", marshal (en_KDF x));
  ("kdf_info", marshal (en_KDFInfo x));
  ("symmetric", marshal (en_Symmetric x));
  ("nonce", marshal (en_Nonce x));
  ("aad", marshal (en_AAD x))].

Record CanonicalJSON : Type := MkCanonicalJSON {
  cj_Standard : string;
  cj_Rules : string;
  cj_ErgonomicNote : string
}.

#[export] Instance CanonicalJSON_marshal : Marshal CanonicalJSON := λ x, GStruct [
  ("standard", marshal (cj_Standard x));
  ("rules", marshal (cj_Rules x));
  ("ergonomic_note", marshal (cj_ErgonomicNote x))].

Record CryptoInfo : Type := MkCryptoInfo {
  cr_Signing : Signing;
  cr_Encryption : Encryption;
  cr_CanonicalJSON : CanonicalJSON
}.

#[export] Instance CryptoInfo_marshal : Marshal CryptoInfo := λ x, GStruct [
  ("signing", marshal (cr_Signing x));
  ("encryption", marshal (cr_Encryption x));
  ("canonical_json", marshal (cr_CanonicalJSON x))].

Record EnvelopeInfo : Type := MkEnvelopeInfo {
  ev_Version : string;
  ev_Outer : string;
  ev_Inner : string;
  ev_MsgIDFormat : string;
  ev_TsFormat : string
}.

#[export] Instance EnvelopeInfo_marshal : Marshal EnvelopeInfo := λ x, GStruct [
  ("version", marshal (ev_Version x));
  ("outer", marshal (ev_Outer x));
  ("inner", marshal (ev_Inner x));
  ("msg_id_format", marshal (ev_MsgIDFormat x));
  ("ts_format", marshal (ev_TsFormat x))].

Record ContentHandling : Type := MkContentHandling {
  ch_Note : string;
  ch_Wrapping : string;
  ch_Treatment : string;
  ch_MimeAllowlist : list string;
  ch_MaxBodyBytes : Z
}.

#[export] Instance ContentHandling_marshal : Marshal ContentHandling := λ x, GStruct [
  ("note", marshal (ch_Note x));
  ("wrapping", marshal (ch_Wrapping x));
  ("treatment", marshal (ch_Treatment x));
  ("mime_allowlist", marshal (ch_MimeAllowlist x));
  ("max_body_bytes", marshal (ch_MaxBodyBytes x))].

Record HalfSchema : Type := MkHalfSchema {
  hs_NexusID : string;
  hs_SigAlg : string;
  hs_Pubkey : string;
  hs_DhAlg : string;
  hs_DhPubkey : string;
  hs_Endpoint : string;
  hs_Nonce : string;
  hs_Ts : string;
  hs_SelfSig : string
}.

#[export] Instance HalfSchema_marshal : Marshal HalfSchema := λ x, GStruct [
  ("nexus_id", marshal (hs_NexusID x));
  ("sig_alg", marshal (hs_SigAlg x));
  ("pubkey", marshal (hs_Pubkey x));
  ("dh_alg", marshal (hs_DhAlg x));
  ("dh_pubkey", marshal (hs_DhPubkey x));
  ("endpoint", marshal (hs_Endpoint x));
  ("nonce", marshal (hs_Nonce x));
  ("ts", marshal (hs_Ts x));
  ("self_sig", marshal (hs_SelfSig x))].

Record Pairing : Type := MkPairing {
  pa_Method : string;
  pa_Flow : list string;
  pa_SelfSigCanonicalV2 : string;
  pa_SelfSigCanonicalV1Deprecated : string;
  pa_CanonicalVersioningNote : string;
  pa_RequestTTLHours : Z;
  pa_Note : string;
  pa_HalfSchema : HalfSchema;
  pa_ApprovalResponseShape : string;
  pa_PollResponseShape : string
}.

#[export] Instance Pairing_marshal : Marshal Pairing := λ x, GStruct [
  ("method", marshal (pa_Method x));
  ("flow", marshal (pa_Flow x));
  ("self_sig_canonical_v2", marshal (pa_SelfSigCanonicalV2 x));
  ("self_sig_canonical_v1_deprecated", marshal (pa_SelfSigCanonicalV1Deprecated x));
  ("_canonical_versioning_note", marshal (pa_CanonicalVersioningNote x));
  ("request_ttl_hours", marshal (pa_RequestTTLHours x));
  ("note", marshal (pa_Note x));
  ("half_schema", marshal (pa_HalfSchema x));
  ("approval_response_shape", marshal (pa_ApprovalResponseShape x));
  ("poll_response_shape", marshal (pa_PollResponseShape x))].

Record Limits : Type := MkLimits {
  li_ReplayWindowSeconds : Z;
  li_BodyMaxBytes : Z;
  li_AttachmentStorage : string
}.

#[export] Instance Limits_marshal : Marshal Limits := λ x, GStruct [
  ("replay_window_seconds", marshal (li_ReplayWindowSeconds x));
  ("body_max_bytes", marshal (li_BodyMaxBytes x));
  ("attachment_storage", marshal (li_AttachmentStorage x))].

Record ExampleTestKeys : Type := MkExampleTestKeys {
  tk_Note : string;
  tk_AliceSeedHex : string;
  tk_AlicePubkeyB64u : string;
  tk_BobSeedHex : string;
  tk_BobPubkeyB64u : string
}.

#[export] Instance ExampleTestKeys_marshal : Marshal ExampleTestKeys := λ x, GStruct [
  ("note", marshal (tk_Note x));
  ("alice_ed25519_seed_hex", marshal (tk_AliceSeedHex x));
  ("alice_ed25519_pubkey_base64url", marshal (tk_AlicePubkeyB64u x));
  ("bob_ed25519_seed_hex", marshal (tk_BobSeedHex x));
  ("bob_ed25519_pubkey_base64url", marshal (tk_BobPubkeyB64u x))].

Record ExamplePairHalfVersion : Type := MkExamplePairHalfVersion {
  pv_Note : string;
  pv_Preimage : string;
  pv_Signature : string;
  pv_WireJSON : gmap string string
}.

#[export] Instance ExamplePairHalfVersion_marshal : Marshal ExamplePairHalfVersion := λ x, GStruct [
  ("note", marshal (pv_Note x));
  ("self_sig_preimage_lf_separated", marshal (pv_Preimage x));
  ("self_sig_base64url", marshal (pv_Signature x));
  ("wire_json", marshal (pv_WireJSON x))].

Record ExamplePairHalf : Type := MkExamplePairHalf {
  ph_Note : string;
  ph_V2 : ExamplePairHalfVersion;
  ph_V1 : ExamplePairHalfVersion
}.

#[export] Instance ExamplePairHalf_marshal : Marshal ExamplePairHalf := λ x, GStruct [
  ("note", marshal (ph_Note x));
  ("v2_current", marshal (ph_V2 x));
  ("v1_deprecated", marshal (ph_V1 x))].

Record ExampleOuter : Type := MkExampleOuter {
  eo_Note : string;
  eo_CanonicalJSON : string;
  eo_WireBytesNote : string;
  eo_CiphertextSHA256 : string;
  eo_XNexusSignature : string
}.

#[export] Instance ExampleOuter_marshal : Marshal ExampleOuter := λ x, GStruct [
  ("note", marshal (eo_Note x));
  ("canonical_json_with_lf_for_readability", marshal (eo_CanonicalJSON x));
  ("wire_bytes_note", marshal (eo_WireBytesNote x));
  ("ciphertext_sha256_hex", marshal (eo_CiphertextSHA256 x));
  ("x_nexus_signature_header_value", marshal (eo_XNexusSignature x))].

Record ExampleEncryption : Type := MkExampleEncryption {
  ee_Note : string;
  ee_NonceHex : string;
  ee_AADNote : string;
  ee_AlgorithmReminder : string
}.

#[export] Instance ExampleEncryption_marshal : Marshal ExampleEncryption := λ x, GStruct [
  ("note", marshal (ee_Note x));
  ("nonce_hex_12_bytes", marshal (ee_NonceHex x));
  ("aad_note", marshal (ee_AADNote x));
  ("algorithm_reminder", marshal (ee_AlgorithmReminder x))].

Record ExampleInner : Type := MkExampleInner {
  ei_Note : string;
  ei_Plaintext : gmap string gojson;
  ei_Encryption : ExampleEncryption
}.

#[export] Instance ExampleInner_marshal : Marshal ExampleInner := λ x, GStruct [
  ("note", marshal (ei_Note x));
  ("plaintext", marshal (ei_Plaintext x));
  ("encryption_recipe", marshal (ei_Encryption x))].

Record ExamplePathID : Type := MkExamplePathID {
  pi_Note : string;
  pi_Recipe : string;
  pi_Result : string
}.

#[export] Instance ExamplePathID_marshal : Marshal ExamplePathID := λ x, GStruct [
  ("note", marshal (pi_Note x));
  ("recipe", marshal (pi_Recipe x));
  ("path_id", marshal (pi_Result x))].

Record AEADExample : Type := MkAEADExample {
  AEADNote : string;
  AlicePrivHex : string;
  AlicePubB64u : string;
  BobPrivHex : string;
  BobPubB64u : string;
  SharedSecretHex : string;
  SymKeyHex : string;
  HKDFInfo : string;
  HKDFSaltHex : string;
  AEADPathID : string;
  AEADMsgID : string;
  AADHex : string;
  NonceHex : string;
  Plaintext : string;
  CiphertextWithTagHex : string;
  WireCiphertextHex : string;
  WireCiphertextB64 : string;
  AEADSHA256Hex : string;
  AEADVerifyHint : string
}.

#[export] Instance AEADExample_marshal : Marshal AEADExample := λ x, GStruct [
  ("note", marshal (AEADNote x));
  ("alice_p256_private_scalar_hex", marshal (AlicePrivHex x));
  ("alice_p256_public_sec1_base64url", marshal (AlicePubB64u x));
  ("bob_p256_private_scalar_hex", marshal (BobPrivHex x));
  ("bob_p256_public_sec1_base64url", marshal (BobPubB64u x));
  ("shared_secret_hex_32_bytes", marshal (SharedSecretHex x));
  ("derived_aes256gcm_key_hex_32_bytes", marshal (SymKeyHex x));
  ("hkdf_info_string", marshal (HKDFInfo x));
  ("hkdf_salt_hex_32_zero_bytes", marshal (HKDFSaltHex x));
  ("path_id", marshal (AEADPathID x));
  ("msg_id", marshal (AEADMsgID x));
  ("aad_hex_path_id_concat_msg_id_utf8", marshal (AADHex x));
  ("nonce_hex_12_bytes", marshal (NonceHex x));
  ("plaintext", marshal (Plaintext x));
  ("ciphertext_with_tag_hex", marshal (CiphertextWithTagHex x));
  ("wire_ciphertext_hex_nonce_then_aead_output", marshal (WireCiphertextHex x));
  ("wire_ciphertext_base64url", marshal (WireCiphertextB64 x));
  ("ciphertext_sha256_hex", marshal (AEADSHA256Hex x));
  ("verify_hint", marshal (AEADVerifyHint x))].

Record Examples : Type := MkExamples {
  ex_Note : string;
  ex_TestKeys : ExampleTestKeys;
  ex_PairHalf : ExamplePairHalf;
  ex_OuterEnvelope : ExampleOuter;
  ex_InnerEnvelope : ExampleInner;
  ex_PathIDDerivation : ExamplePathID;
  ex_AEADVector : AEADExample
}.

#[export] Instance Examples_marshal : Marshal Examples := λ x, GStruct [
  ("note", marshal (ex_Note x));
  ("test_keys", marshal (ex_TestKeys x));
  ("pair_half", marshal (ex_PairHalf x));
  ("outer_envelope", marshal (ex_OuterEnvelope x));
  ("inner_envelope", marshal (ex_InnerEnvelope x));
  ("path_id_derivation", marshal (ex_PathIDDerivation x));
  ("aead_vector", marshal (ex_AEADVector x))].

Record Document : Type := MkDocument {
  doc_Version : string;
  doc_Protocol : string;
  doc_InterchangeID : string;
  doc_TrustModel : string;
  doc_Endpoints : Endpoints;
  doc_Auth : Auth;
  doc_Crypto : CryptoInfo;
  doc_Envelope : EnvelopeInfo;
  doc_MessageKinds : list string;
  doc_ContentHandling : ContentHandling;
  doc_Pairing : Pairing;
  doc_Limits : Limits;
  doc_Examples : Examples
}.

#[export] Instance Document_marshal : Marshal Document := λ x, GStruct [
  ("version", marshal (doc_Version x));
  ("protocol", marshal (doc_Protocol x));
  ("interchange_id", marshal (doc_InterchangeID x));
  ("trust_model", marshal (doc_TrustModel x));
  ("endpoints", marshal (doc_Endpoints x));
  ("auth", marshal (doc_Auth x));
  ("crypto", marshal (doc_Crypto x));
  ("envelope", marshal (doc_Envelope x));
  ("message_kinds", marshal (doc_MessageKinds x));
  ("content_handling", marshal (doc_ContentHandling x));
  ("pairing", marshal (doc_Pairing x));
  ("limits", marshal (doc_Limits x));
  ("examples", marshal (doc_Examples x))].
