(* ===== verification/Discovery.v ===== *)
(** * The discovery document

    internal/discovery: the capabilities document, its worked examples, and the
    handler that serves it.  Every example value is computed from two fixed seeds
    when the process starts.  Ed25519 keys, ECDH, HKDF and AES-GCM are classes;
    their laws are what the packages document. *)

From S2P Require Import Prelude GoStrings Codec Sha256 Http Crypto Pairflow JsonText Document.

Local Open Scope string_scope.
Local Open Scope list_scope.

(** ** Primitives *)

(** [ed25519.NewKeyFromSeed], [PrivateKey.Public] and [ed25519.Sign]. *)
Class Ed25519Keys : Type := {
  PrivateKey : Type;
  NewKeyFromSeed : string → PrivateKey;
  Public : PrivateKey → string;
  Sign : PrivateKey → string → string
}.

Class Ed25519Laws `{Ed : Ed25519} `{Ed25519Keys} : Prop := {
  Public_length k : len (Public k) = PublicKeySize;
  Sign_length k m : len (Sign k m) = SignatureSize;
  Sign_verifies k m : ed25519_Verify (Public k) m (Sign k m) = true
}.

(** crypto/ecdh on P-256, HKDF-SHA256 of golang.org/x/crypto, AES-GCM.  [None] is
    an error. *)
Class AeadSuite : Type := {
  ECDHKey : Type;
  ecdh_NewPrivateKey : string → option ECDHKey;
  ecdh_PublicKey : ECDHKey → string;
  ECDH : ECDHKey → string → option string;
  hkdf_read : string → string → string → nat → option string;
  gcm_Seal : string → string → string → string → option string;
  gcm_Open : string → string → string → string → option string
}.

(** RFC 5869: 255 blocks of SHA-256.  NIST SP 800-38D: 2^32 - 2 blocks of AES. *)
Definition hkdfLimit : Z := 255 * 32.
Definition gcmLimit : Z := (2 ^ 32 - 2) * 16.

Class AeadLaws `{AeadSuite} : Prop := {
  ecdh_small n : (0 < n < 256)%Z →
    is_Some (ecdh_NewPrivateKey (Repeat (String "000" "") 31 +:+ String (chr n) ""));
  ECDH_total k k' : is_Some (ECDH k (ecdh_PublicKey k'));
  ECDH_agree k k' : ECDH k (ecdh_PublicKey k') = ECDH k' (ecdh_PublicKey k);
  hkdf_length secret salt info n : (Z.of_nat n <= hkdfLimit)%Z →
    ∃ key, hkdf_read secret salt info n = Some key ∧ String.length key = n;
  gcm_total key nonce pt aad : len key = 32%Z → len nonce = 12%Z → (len pt <= gcmLimit)%Z →
    is_Some (gcm_Seal key nonce pt aad);
  gcm_Open_Seal key nonce pt aad ct :
    gcm_Seal key nonce pt aad = Some ct → gcm_Open key nonce ct aad = Some pt
}.

(** ** Decoders *)

(** [hex.DecodeString] *)
Fixpoint hex_decode (s : string) : option string :=
  match s with
  | EmptyString => Some ""
  | String a (String b r) =>
      va ← hex_nibble a; vb ← hex_nibble b; rest ← hex_decode r;
      Some (String (chr (va * 16 + vb)) rest)
  | String _ EmptyString => None
  end.

(** The bytes [base64.RawURLEncoding.DecodeString] returns, which are those
    before the first mistake, if there is one. *)
Fixpoint raw_quanta (s : string) : string :=
  match s with
  | String a (String b (String c (String d r))) =>
      match b64_val a, b64_val b, b64_val c, b64_val d with
      | Some va, Some vb, Some vc, Some vd =>
          let v := (va * 262144 + vb * 4096 + vc * 64 + vd)%Z in
          String (chr (v / 65536)) (String (chr (v / 256 mod 256)) (String (chr (v mod 256)) (raw_quanta r)))
      | _, _, _, _ => ""
      end
  | String a (String b (String c EmptyString)) =>
      match b64_val a, b64_val b, b64_val c with
      | Some va, Some vb, Some vc =>
          let v := (va * 262144 + vb * 4096 + vc * 64)%Z in
          String (chr (v / 65536)) (String (chr (v / 256 mod 256)) "")
      | _, _, _ => ""
      end
  | String a (String b EmptyString) =>
      match b64_val a, b64_val b with
      | Some va, Some vb => String (chr ((va * 262144 + vb * 4096) / 65536)) ""
      | _, _ => ""
      end
  | _ => ""
  end.

Definition RawURLDecode (s : string) : string := raw_quanta (strip_newlines s).

(** [base64.StdEncoding.DecodeString]: plus and slash are the last two digits. *)
Fixpoint std_to_url (s : string) : option string :=
  match s with
  | EmptyString => Some ""
  | String c r =>
      r ← std_to_url r;
      if Ascii.eqb c "+" then Some (String "-" r)
      else if Ascii.eqb c "/" then Some (String "_" r)
      else if Ascii.eqb c "-" || Ascii.eqb c "_" then None
      else Some (String c r)
  end.

Definition StdDecode (s : string) : option string := s ← std_to_url s; URLDecode s.

(** ** Example values *)

Definition aliceSeedHex : string := Repeat "0" 64.
Definition bobSeedHex : string := Repeat "01" 32.
Definition exampleNexusID := "alice-nexus".
Definition exampleEndpoint := "https://alice.example.org:10000".
Definition exampleNonce := "AAECAwQFBgcICQoLDA0ODw".
Definition exampleTs := "2026-04-30T00:00:00Z".
Definition exampleDhAlg := "P-256".
Definition exampleAliceDhPubB64u :=
  "BKj9Hfm4WU9ZUfCJuvLiAYgyVaTT64WTITLGp30yjYGvqXNd1LaZNeXqzaV7D34eGaR2Fiz9cJQTmfUy2nLHZP0".

Definition exampleCiphertextB64 : string := "AAECAwQFBgcICQoLDQAA" +:+ Repeat "AAAA" 24 +:+ "AAA=".
Definition exampleMsgID := "01979b0a-c0de-7eef-a000-000000000001".

(** [compare] *)
Fixpoint compare (a b : string) : Z :=
  match a, b with
  | String x a, String y b =>
      if negb (Ascii.eqb x y) then (if code x <? code y then -1 else 1)%Z else compare a b
  | a, b => if (len a <? len b)%Z then -1 else if (len b <? len a)%Z then 1 else 0
  end.

Definition derivePathID (aPubB64u bPubB64u : string) : string :=
  let a := RawURLDecode aPubB64u in
  let b := RawURLDecode bPubB64u in
  let '(first, second) := if (compare a b <? 0)%Z then (a, b) else (b, a) in
  "nxc_" +:+ RawURLEncode (sha256 (first +:+ second)).

Definition dq : string := String "034" "".

(** A JSON member with a string value. *)
Definition member (key value : string) : string := dq +:+ key +:+ dq +:+ ":" +:+ dq +:+ value +:+ dq.

(** The hash of a ciphertext in standard base64; a decoding error panics. *)
Definition ciphertextHash (b64 : string) : option string :=
  raw ← StdDecode b64; Some (hex_encode (sha256 raw)).

Definition exampleCiphertextSHA256Hex : option string := ciphertextHash exampleCiphertextB64.

Section Values.
Context `{Ed25519Keys}.

(** [mustEdKey]: [None] is the panic on a bad seed. *)
Definition mustEdKey (seedHex : string) : option (string * PrivateKey) :=
  seed ← hex_decode seedHex;
  if (len seed =? 32)%Z then
    let priv := NewKeyFromSeed seed in Some (RawURLEncode (Public priv), priv)
  else None.

(** The package variables that hold keys. *)
Record Keys : Type := MkKeys {
  alicePubB64u : string;
  alicePrivKey : PrivateKey;
  bobPubB64u : string
}.

Definition initKeys : option Keys :=
  '(alicePub, alicePriv) ← mustEdKey aliceSeedHex;
  '(bobPub, _) ← mustEdKey bobSeedHex;
  Some (MkKeys alicePub alicePriv bobPub).

Definition buildPreimageV1 (ks : Keys) : string :=
  Join ["v1"; exampleNexusID; "ed25519"; alicePubB64u ks; exampleEndpoint; exampleNonce; exampleTs]
    newline.

Definition buildPreimageV2 (ks : Keys) : string :=
  Join ["v2"; exampleNexusID; "ed25519"; alicePubB64u ks; exampleDhAlg; exampleAliceDhPubB64u;
        exampleEndpoint; exampleNonce; exampleTs] newline.

Definition signPreimage (priv : PrivateKey) (preimage : string) : string :=
  RawURLEncode (Sign priv preimage).

Definition signCanonical (priv : PrivateKey) (canonical : string) : string :=
  RawURLEncode (Sign priv canonical).

(** [buildExampleOuter], given the hash of the ciphertext. *)
Definition buildExampleOuter (ks : Keys) (digestHex : string) : string :=
  "{" +:+ Join [member "ciphertext" exampleCiphertextB64; member "ciphertext_sha256" digestHex;
    member "msg_id" exampleMsgID;
    member "path_id" (derivePathID (alicePubB64u ks) (bobPubB64u ks));
    member "ts" exampleTs; member "version" "1"] "," +:+ "}".

(** ** The AEAD vector *)

Definition exampleAEADInfo := "nexus-casket-channel-v1".
Definition exampleNonceSize : Z := 12.
Definition exampleAEADNonceHex := "000102030405060708090a0b".
Definition exampleAlicePrivHex : string := Repeat "0" 63 +:+ "1".
Definition exampleBobPrivHex : string := Repeat "0" 63 +:+ "2".

Definition exampleAEADPlaintext : string :=
  "{" +:+ Join [member "origin_nexus" "alice-nexus"; member "dest_nexus" "bob-nexus";
    member "kind" "proposal"; member "content_type" "text/markdown";
    member "body" "Hello, Bob. This is a test message.";
    dq +:+ "attachments" +:+ dq +:+ ":[]"] "," +:+ "}".

Definition exampleAEADNote : string :=
  "Self-contained AEAD vector. An external implementer reproduces this by " +:+
      "computing ECDH P-256 between the published alice and bob private scalars, " +:+
      "running HKDF-SHA256 over the shared secret with the published salt + info " +:+
      "to derive a 32-byte AES-256-GCM key, then encrypting the published plaintext " +:+
      "with the published 12-byte nonce and AAD = utf8(path_id) || utf8(msg_id). " +:+
      "The output should match wire_ciphertext_hex byte-for-byte.".

Definition exampleAEADVerifyHint : string :=
  "To verify: AES-256-GCM Open(key=derived_aes256gcm_key_hex, " +:+
      "nonce=nonce_hex, aad=aad_hex, ciphertext+tag=ciphertext_with_tag_hex) " +:+
      "should return the plaintext byte-for-byte.".

Context `{AeadSuite}.

Definition mustECDHFromHex (hexStr : string) : option ECDHKey :=
  scalar ← hex_decode hexStr;
  if (len scalar =? 32)%Z then ecdh_NewPrivateKey scalar else None.

(** [None] is one of the panics. *)
Definition computeAEADExample (ks : Keys) : option AEADExample :=
  alicePriv ← mustECDHFromHex exampleAlicePrivHex;
  bobPriv ← mustECDHFromHex exampleBobPrivHex;
  shared ← ECDH alicePriv (ecdh_PublicKey bobPriv);
  let salt := Repeat (String "000" "") 32 in
  symKey ← hkdf_read shared salt exampleAEADInfo 32;
  let pathID := derivePathID (alicePubB64u ks) (bobPubB64u ks) in
  let aad := pathID +:+ exampleMsgID in
  nonce ← hex_decode exampleAEADNonceHex;
  if negb (len nonce =? exampleNonceSize)%Z then None
  else
    ctWithTag ← gcm_Seal symKey nonce exampleAEADPlaintext aad;
    let wireCt := nonce +:+ ctWithTag in
    Some (MkAEADExample exampleAEADNote exampleAlicePrivHex (RawURLEncode (ecdh_PublicKey alicePriv))
      exampleBobPrivHex (RawURLEncode (ecdh_PublicKey bobPriv))
      (hex_encode shared) (hex_encode symKey) exampleAEADInfo (hex_encode salt)
      pathID exampleMsgID (hex_encode aad) exampleAEADNonceHex exampleAEADPlaintext
      (hex_encode ctWithTag) (hex_encode wireCt) (RawURLEncode wireCt) (hex_encode (sha256 wireCt))
      exampleAEADVerifyHint).

(** ** The document *)

(** What the process computes before it serves. *)
Record Values : Type := MkValues {
  v_keys : Keys;
  v_digest : string;
  v_aead : AEADExample
}.

Definition initValues : option Values :=
  ks ← initKeys; digest ← exampleCiphertextSHA256Hex; aead ← computeAEADExample ks;
  Some (MkValues ks digest aead).

Section Document.
Context (v : Values).
Definition examplePreimageV1 : string := buildPreimageV1 (v_keys v).
Definition examplePreimageSigV1 : string := signPreimage (alicePrivKey (v_keys v)) examplePreimageV1.
Definition examplePreimageV2 : string := buildPreimageV2 (v_keys v).
Definition examplePreimageSigV2 : string := signPreimage (alicePrivKey (v_keys v)) examplePreimageV2.
Definition exampleOuterCanonical : string := buildExampleOuter (v_keys v) (v_digest v).
Definition exampleOuterWireHex : string := hex_encode exampleOuterCanonical.
Definition exampleOuterSig : string := signCanonical (alicePrivKey (v_keys v)) exampleOuterCanonical.
Definition examplePathID : string := derivePathID (alicePubB64u (v_keys v)) (bobPubB64u (v_keys v)).

Definition testKeysDoc : ExampleTestKeys :=
  {| tk_Note := "Two Ed25519 keypairs from fixed 32-byte seeds. Alice = 32 bytes of 0x00. Bob = 32 " +:+
      "bytes of 0x01. Public keys derived per RFC 8032; provided base64url-encoded (raw, " +:+
      "no padding).";
     tk_AliceSeedHex := aliceSeedHex;
     tk_AlicePubkeyB64u := (alicePubB64u (v_keys v));
     tk_BobSeedHex := bobSeedHex;
     tk_BobPubkeyB64u := (bobPubB64u (v_keys v)) |}.

Definition pairHalfDoc : ExamplePairHalf :=
  {| ph_Note := "A pair-half submitted to POST /pair/request as the requester field, or to POST " +:+
      "/pair/requests/<id>/approve as the owner field. Two preimage versions are " +:+
      "published: v2 is current (signature covers dh_alg + dh_pubkey, preventing " +:+
      "substitution); v1 is deprecated but still accepted by relays during the migration " +:+
      "window. New implementations MUST write v2.";
     ph_V2 := {| pv_Note := "v2 (current). Preimage covers ECDH material so a relay or wire observer cannot swap " +:+
      "dh_pubkey without invalidating the signature.";
          pv_Preimage := examplePreimageV2;
          pv_Signature := examplePreimageSigV2;
          pv_WireJSON := {["nexus_id" := exampleNexusID;
                           "sig_alg" := "ed25519";
                           "pubkey" := (alicePubB64u (v_keys v));
                           "dh_alg" := exampleDhAlg;
                           "dh_pubkey" := exampleAliceDhPubB64u;
                           "endpoint" := exampleEndpoint;
                           "nonce" := exampleNonce;
                           "ts" := exampleTs;
                           "self_sig" := examplePreimageSigV2]} |};
     ph_V1 := {| pv_Note := "v1 (DEPRECATED). dh_pubkey is NOT covered by the signature in v1, making it " +:+
      "vulnerable to substitution. Provided here only for reference during migration. Do " +:+
      "not use for new pair attempts.";
          pv_Preimage := examplePreimageV1;
          pv_Signature := examplePreimageSigV1;
          pv_WireJSON := {["nexus_id" := exampleNexusID;
                           "sig_alg" := "ed25519";
                           "pubkey" := (alicePubB64u (v_keys v));
                           "endpoint" := exampleEndpoint;
                           "nonce" := exampleNonce;
                           "ts" := exampleTs;
                           "self_sig" := examplePreimageSigV1]} |} |}.

Definition outerEnvelopeDoc : ExampleOuter :=
  {| eo_Note := "The cleartext routing layer transmitted over the wire. Sender canonicalizes (RFC " +:+
      "8785), signs the canonical bytes with their Ed25519 key, and sends the canonical " +:+
      "JSON as the request body with X-Nexus-Signature: <base64url-sig>.";
     eo_CanonicalJSON := exampleOuterCanonical;
     eo_WireBytesNote := "The actual HTTP body is the canonical JSON above WITHOUT the trailing LF added for " +:+
      "display. Hex of the wire bytes (no terminator): " +:+ exampleOuterWireHex;
     eo_CiphertextSHA256 := (v_digest v);
     eo_XNexusSignature := exampleOuterSig |}.

Definition innerEnvelopeDoc : ExampleInner :=
  {| ei_Note := "The plaintext that gets AEAD-sealed before becoming the outer envelope's ciphertext " +:+
      "field. The recipe shows how to produce the ciphertext from this plaintext.";
     ei_Plaintext := {["origin_nexus" := GStr "alice-nexus";
                       "dest_nexus" := GStr "bob-nexus";
                       "kind" := GStr "proposal";
                       "in_reply_to" := GNull;
                       "content_type" := GStr "text/markdown";
                       "body" := GStr "Hello, Bob. This is a test message.";
                       "attachments" := GList []]};
     ei_Encryption := {| ee_Note := "1) Canonicalize the plaintext to bytes per RFC 8785. 2) Compute AAD = UTF-8 string " +:+
      "bytes of (path_id || msg_id), no separator. Both values are ASCII so UTF-8 == raw " +:+
      "string bytes. 3) Encrypt with AES-256-GCM using HKDF-SHA256(ECDH-shared-secret) as " +:+
      "the key, the 12-byte random nonce, and the AAD from step 2. 4) Prepend the nonce to " +:+
      "the GCM output (ciphertext||tag). The result is the bytes that go into the outer " +:+
      "envelope's `ciphertext` field (then base64url-encoded for transport).";
          ee_NonceHex := "000102030405060708090a0b";
          ee_AADNote := "AAD = path_id || msg_id (UTF-8 bytes, no separator). For the values in this " +:+
      "example: path_id='" +:+ examplePathID +:+ "' (47 chars) || msg_id='01979b0a-c0de-7eef-a000-000000000001' (36 chars) = 83 " +:+
      "bytes. Binding the AEAD output to (path, message) means a ciphertext extracted from " +:+
      "one envelope cannot be successfully decrypted against a different path_id or msg_id " +:+
      "— authentication fails at decrypt time.";
          ee_AlgorithmReminder := "AES-256-GCM, 12-byte nonce prepended to ciphertext, 16-byte auth tag is the " +:+
      "trailing 16 bytes of the GCM output." |} |}.

Definition pathIDDerivationDoc : ExamplePathID :=
  {| pi_Note := "path_id is computed identically by both peers and the interchange. It binds the " +:+
      "channel to the two pubkeys.";
     pi_Recipe := "1) Sort the two raw pubkeys (32 bytes each) lexicographically. 2) Concatenate them " +:+
      "in sorted order. 3) SHA-256 the concatenation. 4) base64url-encode the digest (raw, " +:+
      "no padding). 5) Prefix with literal 'nxc_'. Result is the path_id.";
     pi_Result := examplePathID |}.

Definition buildExamples : Examples :=
  {| ex_Note := "Wire-format examples derived from two deterministic Ed25519 test seeds. Use these " +:+
      "to validate your own canonicalization, signing, and pair-half assembly. DO NOT use " +:+
      "these seeds for any live identity.";
     ex_TestKeys := testKeysDoc;
     ex_PairHalf := pairHalfDoc;
     ex_OuterEnvelope := outerEnvelopeDoc;
     ex_InnerEnvelope := innerEnvelopeDoc;
     ex_PathIDDerivation := pathIDDerivationDoc;
     ex_AEADVector := (v_aead v) |}.

Definition endpointsDoc : Endpoints :=
  {| ep_Discovery := "GET /.well-known/nexus-interchange";
     ep_Health := "GET /health";
     ep_Put := "PUT /mailbox/:pathId";
     ep_Pull := "GET /mailbox/:pathId?since=<msg_id>";
     ep_Ack := "POST /mailbox/:pathId/ack";
     ep_PairRequest := "POST /pair/request";
     ep_PairStatus := "GET /pair/requests/:id";
     ep_PairApprove := None;
     ep_PairDeny := None |}.

Definition authDoc : Auth :=
  {| au_Scheme := "Ed25519";
     au_Header := "X-Nexus-Signature";
     au_Note := "Detached signature over canonical JSON request body (PUT) or path+query (GET). POST " +:+
      "/mailbox/:pathId/ack signs path+query (same as GET, despite being a POST) — the " +:+
      "body is JSON but is NOT included in the signature preimage. Key pinned at pairing." |}.

Definition cryptoDoc : CryptoInfo :=
  {| cr_Signing := {| si_Algorithms := ["ed25519"];
          si_Default := "ed25519";
          si_KeyFormat := {["ed25519" := "raw 32-byte public key, base64url-encoded"]};
          si_SignatureFormat := "detached 64-byte Ed25519 signature, base64url-encoded";
          si_Header := "X-Nexus-Signature";
          si_WhatIsSigned := "PUT: canonical JSON of outer envelope; GET: UTF-8 of path+query (e.g. " +:+
      "/mailbox/nxc_xxx?since=yyy); ack: POST /mailbox/:pathId/ack signs path+query (same " +:+
      "as GET, despite being a POST) — the body JSON is NOT included in the signature " +:+
      "preimage." |};
     cr_Encryption := {| en_KeyExchange := "P-256 ECDH (default) or X25519 ECDH (negotiated via pairing-half dh_alg; see " +:+
      "key_exchange_values for accepted labels). Both sides MUST match.";
          en_KeyExchangeValues := ["P-256";
                                   "X25519"];
          en_KeyFormat := {["p256" := "65-byte uncompressed SEC1 point (0x04 || 32 || 32)";
                            "x25519" := "raw 32-byte public key"]};
          en_KDF := "HKDF-SHA256 over ECDH shared secret → 32-byte symmetric key";
          en_KDFInfo := "nexus-casket-channel-v1";
          en_Symmetric := "AES-256-GCM";
          en_Nonce := "96-bit random nonce, prepended to ciphertext";
          en_AAD := "UTF-8 string bytes of `path_id` concatenated with UTF-8 string bytes of `msg_id`. " +:+
      "No separator, no length prefix. path_id and msg_id are ASCII so UTF-8 == raw string " +:+
      "bytes. Pass the concatenated bytes as the AEAD AAD on both encrypt and decrypt. " +:+
      "This binds the AEAD-tagged ciphertext to the specific path and message — replaying " +:+
      "to a different path_id or msg_id fails authentication at decrypt. Both sides know " +:+
      "these values before encrypting." |};
     cr_CanonicalJSON := {| cj_Standard := "RFC 8785 (JSON Canonicalization Scheme / JCS)";
          cj_Rules := "keys sorted lexicographically by code-point order, no insignificant whitespace, " +:+
      "strings JSON-encoded per standard, no trailing newline";
          cj_ErgonomicNote := "The interchange re-canonicalizes parsed JSON server-side before verifying. Clients " +:+
      "that use any JSON library producing structurally equivalent output (same keys, same " +:+
      "values, same types) will interop correctly even if they cannot produce byte-exact " +:+
      "RFC 8785 output. Clients that reshape values during serialization (e.g. emit 1.0 " +:+
      "instead of 1, or reorder nested arrays) will fail with 401 signature_invalid." |} |}.

Definition envelopeDoc : EnvelopeInfo :=
  {| ev_Version := "1";
     ev_Outer := "cleartext canonical JSON — version, msg_id, ts, path_id, ciphertext_sha256, " +:+
      "ciphertext";
     ev_Inner := "AEAD-sealed — origin_nexus, dest_nexus, kind, in_reply_to, content_type, body, " +:+
      "attachments";
     ev_MsgIDFormat := "UUIDv7 (timestamp-ordered) minted by sender";
     ev_TsFormat := "ISO 8601 UTC, e.g. 2026-04-24T09:14:23Z" |}.

Definition contentHandlingDoc : ContentHandling :=
  {| ch_Note := "Informational — describes how a compliant receiver will present inbound peer " +:+
      "content to its AI aspects.";
     ch_Wrapping := "<peer_message from=" +:+ dq +:+ "<nexus_id>" +:+ dq +:+ " msg_id=" +:+ dq +:+ "<...>" +:+
      dq +:+ " kind=" +:+ dq +:+ "<...>" +:+ dq +:+ " received=" +:+ dq +:+ "<ts>" +:+ dq +:+
      ">[body verbatim]</peer_message>";
     ch_Treatment := "Wrapped content is DATA, never instructions. Receivers MUST NOT execute tool calls, " +:+
      "trigger approval flows, or take protocol actions from peer content without separate " +:+
      "operator confirmation.";
     ch_MimeAllowlist := ["text/markdown";
                          "text/plain";
                          "application/json"];
     ch_MaxBodyBytes := 1048576 |}.

Definition pairingDoc : Pairing :=
  {| pa_Method := "request + operator approval";
     pa_Flow := [("1. Requester POSTs /pair/request with requester half (nexus_id, sig_alg, pubkey, " +:+
      "dh_alg, dh_pubkey, endpoint, nonce, ts, self_sig). Self-sig MUST be over the v2 " +:+
      "canonical preimage.");
                 ("2. Interchange validates self-sig, stores as pending, returns {request_id, status: " +:+
      "pending}.");
                 "3. Owner reviews pending requests via tailnet endpoint.";
                 ("4. Owner approves: POST /pair/requests/<id>/approve with owner half (same schema). " +:+
      "Interchange computes pathId, activates pair, returns {status: approved, path_id, " +:+
      "requester_half} so the owner has the requester's full ECDH material to instantiate " +:+
      "a local paired channel.");
                 ("5. Requester polls GET /pair/requests/<id> until status == approved. Approved " +:+
      "response returns {path_id, owner_half} so the requester has the owner's full ECDH " +:+
      "material to instantiate a local paired channel.");
                 ("6. Both sides use /mailbox/<pathId> from there on. No out-of-band PairingToken " +:+
      "exchange is required — both halves carry the dh_pubkey under signature coverage.")];
     pa_SelfSigCanonicalV2 := "line-oriented UTF-8, fields joined by \n (0x0A), no trailing newline:" +:+ newline +:+ "v2" +:+
      newline +:+ "<nexus_id>" +:+ newline +:+ "<sig_alg>" +:+ newline +:+ "<pubkey base64url>" +:+
      newline +:+ "<dh_alg>" +:+ newline +:+ "<dh_pubkey base64url>" +:+ newline +:+
      "<endpoint or empty>" +:+ newline +:+ "<nonce base64url>" +:+ newline +:+ "<ts>";
     pa_SelfSigCanonicalV1Deprecated := "line-oriented UTF-8, fields joined by \n (0x0A), no trailing newline:" +:+ newline +:+ "v1" +:+
      newline +:+ "<nexus_id>" +:+ newline +:+ "<sig_alg>" +:+ newline +:+ "<pubkey base64url>" +:+
      newline +:+ "<endpoint or empty>" +:+ newline +:+ "<nonce base64url>" +:+ newline +:+ "<ts>";
     pa_CanonicalVersioningNote := "v2 is the preimage version current implementations MUST write. v1 is accepted by " +:+
      "verifiers during the v1→v2 transition window but new halves SHOULD use v2 — v1 " +:+
      "omits the ECDH pubkey from signature coverage, leaving dh_pubkey vulnerable to " +:+
      "substitution at storage. The first line of the preimage (`v1` or `v2`) declares " +:+
      "which preimage shape is in use; relays accept either while v1 callers still exist, " +:+
      "then deprecate.";
     pa_RequestTTLHours := 24;
     pa_Note := "pair_approve: null and pair_deny: null in endpoints block signal these are " +:+
      "tailnet-only. A requester cannot approve itself. Trust establishment is always " +:+
      "operator-human mediated.";
     pa_HalfSchema := {| hs_NexusID := "<requester or owner nexus id>";
          hs_SigAlg := "ed25519 (only value at v1)";
          hs_Pubkey := "<base64url, 32-byte raw Ed25519 public key>";
          hs_DhAlg := "P-256 or X25519";
          hs_DhPubkey := "<base64url, 65-byte SEC1 P-256 OR 32-byte raw X25519>";
          hs_Endpoint := "<https URL or empty>";
          hs_Nonce := "<base64url, 16+ random bytes>";
          hs_Ts := "<ISO 8601 UTC, e.g. 2026-04-30T00:00:00Z>";
          hs_SelfSig := "<base64url, 64-byte detached Ed25519 signature over v2 canonical preimage>" |};
     pa_ApprovalResponseShape := "{" +:+ dq +:+ "request_id" +:+ dq +:+ ": " +:+ dq +:+ "<uuid>" +:+ dq +:+ ", " +:+ dq +:+
      "status" +:+ dq +:+ ": " +:+ dq +:+ "approved" +:+ dq +:+ ", " +:+ dq +:+ "path_id" +:+ dq +:+
      ": " +:+ dq +:+ "nxc_<base64url>" +:+ dq +:+ ", " +:+ dq +:+ "requester_half" +:+ dq +:+
      ": <half schema>}";
     pa_PollResponseShape := "{" +:+ dq +:+ "request_id" +:+ dq +:+ ": " +:+ dq +:+ "<uuid>" +:+ dq +:+ ", " +:+ dq +:+
      "status" +:+ dq +:+ ": " +:+ dq +:+ "pending|approved|denied|expired" +:+ dq +:+ ", " +:+ dq +:+
      "path_id" +:+ dq +:+ ": " +:+ dq +:+ "<nxc_...>" +:+ dq +:+ ", " +:+ dq +:+ "owner_half" +:+
      dq +:+ ": <half schema, present when approved>}" |}.

Definition limitsDoc : Limits :=
  {| li_ReplayWindowSeconds := 300;
     li_BodyMaxBytes := 1048576;
     li_AttachmentStorage := "object storage reference in inner envelope (v1.1)" |}.

Definition New (interchangeID : string) : Document :=
  {| doc_Version := "1";
     doc_Protocol := "nexus-frame-relay/1";
     doc_InterchangeID := interchangeID;
     doc_TrustModel := "operator_approval";
     doc_Endpoints := endpointsDoc;
     doc_Auth := authDoc;
     doc_Crypto := cryptoDoc;
     doc_Envelope := envelopeDoc;
     doc_MessageKinds := ["proposal";
                          "question";
                          "reply";
                          "accept";
                          "reject";
                          "announce"];
     doc_ContentHandling := contentHandlingDoc;
     doc_Pairing := pairingDoc;
     doc_Limits := limitsDoc;
     doc_Examples := buildExamples |}.

End Document.

(** ** Serving *)

Definition DiscoveryPath := "/.well-known/nexus-interchange".

(** The document as it is sent; without a text the process would panic. *)
Definition discoveryBody (v : Values) (interchangeID : string) : option string :=
  MarshalIndent "" (marshal (New v interchangeID)).

(** [Handler]: the body is built once. *)
Definition DiscoveryHandler (v : Values) (interchangeID : string) (r : Request) : Response :=
  if negb (String.eqb (Method r) MethodGet) then
    HttpErrorWith [("Allow", "GET")] "method not allowed" StatusMethodNotAllowed
  else
    MkResponse StatusOK
      [("Content-Type", "application/json; charset=utf-8"); ("Cache-Control", "public, max-age=300")]
      (BText (default "" (discoveryBody v interchangeID))).

End Values.
