(* ===== verification/DiscoverySpec.v ===== *)
(** * The published examples are genuine

    What the decoders of the examples invert, that their path id is the relay's,
    and that their canonical JSON is the one the relay signs and checks. *)

From S2P Require Import Prelude GoStrings GoTime Codec Sha256 Json Http Storage Sql StoreSpec.
From S2P Require Import Patterns Replay Crypto Mailbox MailboxSpec Pairflow PairflowKeys.
From S2P Require Import MailboxTheorems Discovery.

Local Open Scope Z_scope.

(** ** Decoders *)

Lemma hex_nibble_digit n : 0 <= n < 16 → hex_nibble (hex_digit n) = Some n.
Proof.
  intros Hn. unfold hex_nibble, hex_digit, between.
  destruct (Z.ltb_spec n 10); rewrite code_chr by lia; case_goal; bool_prop; f_equal; lia.
Qed.

Lemma hex_decode_encode s : hex_decode (hex_encode s) = Some s.
Proof.
  induction s as [|c s IH]; [done|]. pose proof (code_range c). cbn [hex_encode hex_decode].
  rewrite !hex_nibble_digit by div_lia. cbn. rewrite IH. cbn. do 2 f_equal. apply chr_eq. div_lia.
Qed.

Lemma raw_quanta_encode s : raw_quanta (RawURLEncode s) = s.
Proof.
  induction s as [|a|a b|a b c r IH] using string_ind3; [done|..];
    pose proof (code_range a); try pose proof (code_range b); try pose proof (code_range c);
    cbn [RawURLEncode raw_quanta]; rewrite !b64_val_chr by div_lia; rewrite ?IH;
    cbv zeta; repeat f_equal; apply chr_eq; div_lia.
Qed.

Lemma RawURLDecode_encode s : RawURLDecode (RawURLEncode s) = s.
Proof.
  unfold RawURLDecode. rewrite strip_newlines_id; [apply raw_quanta_encode|].
  eapply all_bytes_impl; [|apply RawURLEncode_alphabet]. by intros c ->.
Qed.

(** ** Path ids *)

Lemma compare_less a b : (compare a b <? 0) = bytesLess a b.
Proof.
  revert b. induction a as [|x a IH]; intros [|y b]; simpl; try done.
  destruct (Ascii.eqb x y); [apply IH|]. simpl. by destruct (code x <? code y).
Qed.

(** The examples derive the path id as the relay does. *)
Lemma derivePathID_computes a b :
  derivePathID (RawURLEncode a) (RawURLEncode b) = computePathID a b.
Proof.
  unfold derivePathID. rewrite !RawURLDecode_encode, compare_less, computePathID_ordered.
  rewrite ordered_sym. unfold ordered. by destruct (bytesLess a b).
Qed.

(** ** Canonical JSON of plain strings *)

(** Characters JSON strings hold as they are. *)
Definition plain_char (c : ascii) : bool :=
  between 32 126 c && negb (Ascii.eqb c "\") && negb (Ascii.eqb c "034").

(** A test against a character that is not plain. *)
Lemma plain_not c d : plain_char c = true → plain_char d = false → Ascii.eqb c d = false.
Proof. intros Hc Hd. apply Ascii.eqb_neq. congruence. Qed.

Lemma plain_ascii c : plain_char c = true → 32 <= code c < 127.
Proof.
  unfold plain_char, between. intros [[[H1 H2]%andb_true_iff _]%andb_true_iff _]%andb_true_iff. lia.
Qed.

Lemma escape_plain s : all_bytes plain_char s = true → escape false s = s.
Proof.
  induction s as [|c s IH]; [done|]. cbn [all_bytes]. intros [Hc Hs]%andb_true_iff.
  cbn [escape]. pose proof (plain_ascii c Hc).
  rewrite (proj2 (Z.ltb_lt _ _)) by lia. rewrite IH by done. unfold escape_ascii.
  rewrite !(plain_not c) by done. by rewrite (proj2 (Z.ltb_ge _ _)) by lia.
Qed.

Lemma plain_utf8 s : all_bytes plain_char s = true → utf8 s.
Proof.
  intros Hs. apply utf8_ascii. eapply all_bytes_impl; [|exact Hs].
  intros c Hc%plain_ascii. apply Z.ltb_lt. lia.
Qed.

Lemma plain_code c : 32 <= code c < 127 → code c ≠ 92 → code c ≠ 34 → plain_char c = true.
Proof.
  intros Hc H1 H2. unfold plain_char, between.
  rewrite (proj2 (Z.leb_le _ _)), (proj2 (Z.leb_le _ _)) by lia.
  assert (c ≠ "\"%char ∧ c ≠ "034"%char) as [H3 H4] by (split; intros ->; by apply H1 || by apply H2).
  by rewrite (proj2 (Ascii.eqb_neq _ _) H3), (proj2 (Ascii.eqb_neq _ _) H4).
Qed.

Lemma b64_char_is_plain c : b64_char c = true → plain_char c = true.
Proof.
  unfold b64_char. intros [v Hv]%bool_decide_eq_true. unfold b64_val in Hv.
  apply plain_code; revert Hv; case_goal; bool_prop; intros; try done; lia.
Qed.

Lemma hex_digit_plain n : 0 <= n < 16 → plain_char (hex_digit n) = true.
Proof.
  intros Hn. unfold hex_digit.
  destruct (Z.ltb_spec n 10); apply plain_code; rewrite code_chr by lia; lia.
Qed.

Lemma hex_encode_plain s : all_bytes plain_char (hex_encode s) = true.
Proof.
  induction s as [|c s IH]; [done|]. pose proof (code_range c).
  cbn [hex_encode all_bytes]. rewrite !hex_digit_plain by div_lia. exact IH.
Qed.

Lemma computePathID_plain a b : all_bytes plain_char (computePathID a b) = true.
Proof.
  rewrite computePathID_ordered, all_bytes_app. apply andb_true_iff. split; [done|].
  eapply all_bytes_impl; [|apply RawURLEncode_alphabet]. apply b64_char_is_plain.
Qed.
