(* ===== verification/DiscoveryTheorems.v ===== *)
(** * Properties of the discovery document

    A peer that learns the protocol from the published document alone is
    accepted: the example halves and the example envelope, read out of the
    document, pass the relay's own checks, and the AEAD vector opens. *)

From S2P Require Import Prelude GoStrings GoTime Codec Sha256 Json Http Storage Sql StoreSpec.
From S2P Require Import Patterns Replay Crypto Mailbox MailboxSpec Pairflow PairflowKeys.
From S2P Require Import MailboxTheorems Document Discovery DiscoverySpec.

Local Open Scope Z_scope.

(** ** Reading the document *)

Definition json_get (k : string) (j : gojson) : option gojson :=
  match j with
  | GStruct kvs | GMap kvs => snd <$> find (λ kv, String.eqb (fst kv) k) kvs
  | _ => None
  end.

Definition json_path (ks : list string) (j : gojson) : gojson :=
  foldl (λ j k, default GNull (json_get k j)) j ks.

Definition json_str (j : gojson) (k : string) : string :=
  match json_get k j with Some (GStr s) => s | _ => ""%string end.

(** The half a peer assembles from a published wire_json. *)
Definition read_half (j : gojson) : half :=
  let f := json_str j in
  MkHalf (f "nexus_id") (f "sig_alg") (f "pubkey") (f "dh_alg") (f "dh_pubkey") (f "endpoint")
    (f "nonce") (f "ts") (f "self_sig") "".

Definition read_hex (j : gojson) (k : string) : string := default ""%string (hex_decode (json_str j k)).

Section Theorems.
Context `{Ed25519Laws} `{AeadLaws}.

Definition alice : PrivateKey := NewKeyFromSeed (Repeat (String "000" "") 32).
Definition bob : PrivateKey := NewKeyFromSeed (Repeat (String "001" "") 32).

Lemma initKeys_ok :
  initKeys = Some (MkKeys (RawURLEncode (Public alice)) alice (RawURLEncode (Public bob))).
Proof. reflexivity. Qed.

Definition exampleRaw : string := default ""%string (StdDecode exampleCiphertextB64).

Lemma example_ciphertext :
  decodeB64URL exampleCiphertextB64 = Some exampleRaw ∧
  exampleCiphertextSHA256Hex = Some (hex_encode (sha256 exampleRaw)).
Proof. by split; vm_compute. Qed.

(** Nothing of the vector panics, and what it publishes opens. *)
Lemma computeAEAD_ok ks :
  ∃ a, computeAEADExample ks = Some a ∧
    gcm_Open (default "" (hex_decode (SymKeyHex a)))%string (default "" (hex_decode (NonceHex a)))%string
      (default "" (hex_decode (CiphertextWithTagHex a)))%string
      (default "" (hex_decode (AADHex a)))%string = Some (Plaintext a) ∧
    hex_decode (WireCiphertextHex a) = decodeB64URL (WireCiphertextB64 a) ∧
    (∃ wire, hex_decode (WireCiphertextHex a) = Some wire ∧ AEADSHA256Hex a = hex_encode (sha256 wire) ∧
       wire = default "" (hex_decode (NonceHex a)) +:+ default "" (hex_decode (CiphertextWithTagHex a))) ∧
    hex_decode (AADHex a) = Some (AEADPathID a +:+ AEADMsgID a) ∧
    AEADPathID a = derivePathID (alicePubB64u ks) (bobPubB64u ks).
Proof.
  unfold computeAEADExample.
  destruct (ecdh_small 1) as [ka Ea]; [lia|]. destruct (ecdh_small 2) as [kb Eb]; [lia|].
  change (mustECDHFromHex exampleAlicePrivHex)
    with (ecdh_NewPrivateKey (Repeat (String "000" "") 31 +:+ String (chr 1) "")).
  change (mustECDHFromHex exampleBobPrivHex)
    with (ecdh_NewPrivateKey (Repeat (String "000" "") 31 +:+ String (chr 2) "")).
  rewrite Ea, Eb. cbn [mbind option_bind].
  destruct (ECDH_total ka kb) as [shared ->]. cbn [mbind option_bind].
  destruct (hkdf_length shared (Repeat (String "000" "") 32) exampleAEADInfo 32) as (key & -> & Hkey); [done|].
  cbn [mbind option_bind].
  set (aad := _ +:+ _). set (nonce := default ""%string (hex_decode exampleAEADNonceHex)).
  change (hex_decode exampleAEADNonceHex) with (Some nonce). cbn [mbind option_bind].
  change (negb (len nonce =? exampleNonceSize)) with false. cbv iota.
  destruct (gcm_total key nonce exampleAEADPlaintext aad) as [ct Ect];
    [unfold len; rewrite Hkey; done|done|done|].
  rewrite Ect. cbn [mbind option_bind]. eexists. split; [reflexivity|]. cbn.
  rewrite !hex_decode_encode, decodeB64URL_encode. cbn.
  split; [by apply gcm_Open_Seal|]. split; [done|]. split; [by eexists|]. done.
Qed.

Lemma initValues_ok :
  ∃ v, initValues = Some v ∧
    v_keys v = MkKeys (RawURLEncode (Public alice)) alice (RawURLEncode (Public bob)) ∧
    v_digest v = hex_encode (sha256 exampleRaw) ∧
    computeAEADExample (v_keys v) = Some (v_aead v).
Proof.
  unfold initValues. rewrite initKeys_ok, (proj2 example_ciphertext). cbn [mbind option_bind].
  destruct (computeAEAD_ok (MkKeys (RawURLEncode (Public alice)) alice (RawURLEncode (Public bob))))
    as (a & E & _).
  rewrite E. cbn [mbind option_bind]. eexists. split; [reflexivity|]. done.
Qed.

(** *** The halves *)

Lemma self_sig_verifies k m h :
  pubkeyRaw h = Public k → SelfSig h = RawURLEncode (Sign k m) →
  (if isEmpty (DhPubkey h) then canonicalBytesV1 h else canonicalBytesV2 h) = m →
  verifySelfSig h = true.
Proof.
  intros Hk Hs Hm. unfold verifySelfSig. rewrite Hs, decodeB64URL_encode, Sign_length.
  change (negb (SignatureSize =? SignatureSize)) with false. cbv iota.
  rewrite Hk. destruct (isEmpty (DhPubkey h)); cbn [negb]; rewrite Hm; apply Sign_verifies.
Qed.

(** A half with a key of ours parses when its other fields do. *)
Lemma parseHalf_ok h k :
  Pubkey h = RawURLEncode (Public k) → SigAlg h = "ed25519"%string →
  forallb (λ f, negb (isEmpty f)) [NexusID h; Nonce h; HTs h; SelfSig h] = true →
  len (NexusID h) <= 256 → len (Endpoint h) <= 1024 →
  (DhAlg h = ""%string ∧ DhPubkey h = ""%string ∨
   isEmpty (DhAlg h) = false ∧ isEmpty (DhPubkey h) = false ∧ len (DhAlg h) <= 32 ∧
     len (DhPubkey h) <= 256 ∧ is_Some (decodeB64URL (DhPubkey h))) →
  parseHalf h = inl (set_pubkeyRaw (Public k) h).
Proof.
  intros Hk Ha Hf Hid Hend Hdh. unfold parseHalf.
  cbn [forallb] in Hf. rewrite !andb_true_iff, !negb_true_iff in Hf.
  destruct Hf as (-> & -> & -> & -> & _).
  assert (isEmpty (Pubkey h) = false) as ->.
  { rewrite Hk. apply isEmpty_len. pose proof (RawURLEncode_length (Public k)) as L.
    rewrite Public_length in L. unfold len. rewrite L. done. }
  rewrite Ha. cbn [isEmpty String.eqb orb].
  rewrite (proj2 (Z.ltb_ge _ _) Hid), (proj2 (Z.ltb_ge _ _) Hend). cbn [negb].
  rewrite Hk, decodeB64URL_encode, Public_length. cbn [negb Z.eqb].
  destruct Hdh as [[E1 E2]|(E1 & E2 & L1 & L2 & [raw Hraw])].
  - cbn [DhAlg DhPubkey set_pubkeyRaw]. by rewrite E1, E2.
  - cbn [DhAlg DhPubkey set_pubkeyRaw]. rewrite E1, E2. cbn [negb orb].
    by rewrite (proj2 (Z.ltb_ge _ _) L1), (proj2 (Z.ltb_ge _ _) L2), Hraw.
Qed.

Lemma signature_nonempty k m : isEmpty (RawURLEncode (Sign k m)) = false.
Proof.
  apply isEmpty_len. pose proof (RawURLEncode_length (Sign k m)) as L.
  rewrite Sign_length in L. unfold len. rewrite L. done.
Qed.

(** The half read from the document at [path], parsed. *)
Definition accepted_half (v : Values) (id : string) (version : string) : Prop :=
  let j := json_path ["examples"; "pair_half"; version; "wire_json"]%string (marshal (New v id)) in
  ∃ h, parseHalf (read_half j) = inl h ∧ verifySelfSig h = true ∧
    (if isEmpty (DhPubkey h) then canonicalBytesV1 h else canonicalBytesV2 h) =
      json_str (json_path ["examples"; "pair_half"; version]%string (marshal (New v id)))
        "self_sig_preimage_lf_separated".

Lemma published_halves v id :
  v_keys v = MkKeys (RawURLEncode (Public alice)) alice (RawURLEncode (Public bob)) →
  accepted_half v id "v2_current" ∧ accepted_half v id "v1_deprecated".
Proof.
  intros Hk. unfold accepted_half.
  change (read_half (json_path ["examples"; "pair_half"; "v2_current"; "wire_json"]%string (marshal (New v id))))
    with (MkHalf exampleNexusID "ed25519" (alicePubB64u (v_keys v)) exampleDhAlg exampleAliceDhPubB64u
            exampleEndpoint exampleNonce exampleTs (examplePreimageSigV2 v) "").
  change (read_half (json_path ["examples"; "pair_half"; "v1_deprecated"; "wire_json"]%string (marshal (New v id))))
    with (MkHalf exampleNexusID "ed25519" (alicePubB64u (v_keys v)) "" ""
            exampleEndpoint exampleNonce exampleTs (examplePreimageSigV1 v) "").
  unfold examplePreimageSigV1, examplePreimageSigV2, signPreimage.
  rewrite Hk. cbn [alicePubB64u alicePrivKey].
  split; (eexists; split;
    [apply (parseHalf_ok _ alice); try done;
       [cbn [forallb SelfSig]; rewrite signature_nonempty; reflexivity|]|]).
  - right. by repeat split; try (by eexists).
  - split; [apply (self_sig_verifies alice (examplePreimageV2 v)); try done|];
      (transitivity (examplePreimageV2 v); [|done]);
      unfold examplePreimageV2; by rewrite Hk.
  - by left.
  - split; [apply (self_sig_verifies alice (examplePreimageV1 v)); try done|];
      (transitivity (examplePreimageV1 v); [|done]);
      unfold examplePreimageV1; by rewrite Hk.
Qed.

(** *** The envelope *)

Definition example_env : OuterEnvelope :=
  MkOuterEnvelope "1" exampleMsgID exampleTs (computePathID (Public alice) (Public bob))
    (hex_encode (sha256 exampleRaw)) exampleCiphertextB64.

Lemma exampleOuter_canonical v :
  v_keys v = MkKeys (RawURLEncode (Public alice)) alice (RawURLEncode (Public bob)) →
  v_digest v = hex_encode (sha256 exampleRaw) →
  exampleOuterCanonical v = canonicalJSON example_env.
Proof.
  intros Hk Hd. unfold exampleOuterCanonical, buildExampleOuter.
  rewrite Hk, Hd. cbn [alicePubB64u bobPubB64u]. rewrite derivePathID_computes.
  unfold canonicalJSON, encode_object, canonical_members. cbn [members_to example_env Version MsgID Ts
    PathID CiphertextSHA256 Ciphertext]. unfold quote_to.
  rewrite !escape_plain by first [done | apply hex_encode_plain | apply computePathID_plain].
  unfold Join, member. rewrite !app_assoc_s. reflexivity.
Qed.

Lemma example_env_utf8 : outer_utf8 example_env.
Proof.
  constructor; apply plain_utf8; first [done | apply hex_encode_plain | apply computePathID_plain].
Qed.

(** The body and the signature header a peer sends, read from the document. *)
Definition published_put (v : Values) (id : string) (r : Request) : Prop :=
  let j := json_path ["examples"; "outer_envelope"]%string (marshal (New v id)) in
  ReadAllLimited r (Z.shiftl 2 20) = Some (json_str j "canonical_json_with_lf_for_readability") ∧
  HeaderGet (Header r) "X-Nexus-Signature" = json_str j "x_nexus_signature_header_value".

Definition published_path (v : Values) (id : string) : string :=
  json_str (json_path ["examples"; "path_id_derivation"]%string (marshal (New v id))) "path_id".

Lemma published_envelope v id s r now paired :
  v_keys v = MkKeys (RawURLEncode (Public alice)) alice (RawURLEncode (Public bob)) →
  v_digest v = hex_encode (sha256 exampleRaw) →
  published_put v id r → tsInWindow exampleTs now = true →
  s_pairs s !! published_path v id = Some paired →
  p_RequesterPubkey paired = alicePubB64u (v_keys v) → p_SigAlg paired = "ed25519"%string →
  @acceptable EdVerifier s r (published_path v id) now paired (exampleOuterCanonical v)
    example_env (alicePubB64u (v_keys v)).
Proof.
  intros Hk Hd [Hb Hh] Hts Hp Hreq Halg.
  change (json_str _ _) with (exampleOuterCanonical v) in Hb.
  change (json_str _ _) with (exampleOuterSig v) in Hh.
  assert (published_path v id = computePathID (Public alice) (Public bob)) as Hpath.
  { change (published_path v id) with (examplePathID v). unfold examplePathID. rewrite Hk.
    apply derivePathID_computes. }
  constructor; try done.
  - rewrite (exampleOuter_canonical v) by done. apply unmarshal_canonical, example_env_utf8.
  - unfold validEnvelopeSchema. cbn [example_env Version MsgID Ts PathID CiphertextSHA256 Ciphertext].
    assert (String.eqb (hex_encode (sha256 exampleRaw)) "" = false) as -> by (vm_compute; reflexivity).
    rewrite computePathID_ordered. reflexivity.
  - exists exampleRaw. split; [apply example_ciphertext|done].
  - rewrite Hh. unfold exampleOuterSig, signCanonical.
    rewrite (exampleOuter_canonical v) by done. rewrite Hk. cbn [alicePrivKey alicePubB64u].
    unfold Identify, EdVerifier. rewrite Halg. cbn [negb String.eqb].
    pose proof (signature_nonempty alice (canonicalJSON example_env)) as Hne. unfold isEmpty in Hne.
    rewrite Hne, decodeB64URL_encode, Sign_length. cbn [negb Z.eqb SignatureSize].
    rewrite Hreq, Hk. cbn [alicePubB64u identify_halves].
    rewrite decodeB64URL_encode, Public_length. cbn.
    by rewrite Sign_verifies.
  - rewrite Hk. cbn [alicePubB64u].
    pose proof (RawURLEncode_length (Public alice)) as L. rewrite Public_length in L.
    intros E. rewrite E in L. done.
  - by left.
Qed.

(** The published AEAD vector opens.  The key, nonce and associated data read
    out of the document open the published ciphertext to the published plaintext;
    the associated data are the path id and the message id; the wire ciphertext is
    the nonce before the sealed text, in hex as in base64, with the published
    hash; and the path id is the one the relay computes for the two keys. *)
Definition aead_opens (v : Values) (id : string) : Prop :=
    let j := json_path ["examples"; "aead_vector"]%string (marshal (New v id)) in
    let nonce := read_hex j "nonce_hex_12_bytes" in
    let sealed := read_hex j "ciphertext_with_tag_hex" in
    let wire := nonce +:+ sealed in
    gcm_Open (read_hex j "derived_aes256gcm_key_hex_32_bytes") nonce sealed
      (read_hex j "aad_hex_path_id_concat_msg_id_utf8") = Some (json_str j "plaintext") ∧
    read_hex j "aad_hex_path_id_concat_msg_id_utf8" = json_str j "path_id" +:+ json_str j "msg_id" ∧
    read_hex j "wire_ciphertext_hex_nonce_then_aead_output" = wire ∧
    decodeB64URL (json_str j "wire_ciphertext_base64url") = Some wire ∧
    json_str j "ciphertext_sha256_hex" = hex_encode (sha256 wire) ∧
    json_str j "path_id" = computePathID (Public alice) (Public bob) ∧
    json_str j "path_id" = published_path v id.

Theorem aead_vector_opens (id : string) : ∃ v, initValues = Some v ∧ aead_opens v id.
Proof.
  destruct initValues_ok as (v & Ev & Hk & _ & Ha). exists v. split; [exact Ev|]. unfold aead_opens.
  destruct (computeAEAD_ok (v_keys v)) as (a & Ea & Hopen & Hb64 & (wire & Hwire & Hsha & Ew) & Haad & Hpath).
  assert (v_aead v = a) as <- by congruence.
  assert (AEADPathID (v_aead v) = computePathID (Public alice) (Public bob)) as Hid.
  { rewrite Hpath, Hk. apply derivePathID_computes. }
  cbv zeta. split_and!.
  - exact Hopen.
  - change (default ""%string (hex_decode (AADHex (v_aead v))) =
      AEADPathID (v_aead v) +:+ AEADMsgID (v_aead v)). by rewrite Haad.
  - change (default ""%string (hex_decode (WireCiphertextHex (v_aead v))) =
      default ""%string (hex_decode (NonceHex (v_aead v))) +:+
      default ""%string (hex_decode (CiphertextWithTagHex (v_aead v)))). by rewrite Hwire.
  - change (decodeB64URL (WireCiphertextB64 (v_aead v)) =
      Some (default ""%string (hex_decode (NonceHex (v_aead v))) +:+
        default ""%string (hex_decode (CiphertextWithTagHex (v_aead v))))).
    by rewrite <- Hb64, Hwire, Ew.
  - change (AEADSHA256Hex (v_aead v) = hex_encode (sha256
      (default ""%string (hex_decode (NonceHex (v_aead v))) +:+
        default ""%string (hex_decode (CiphertextWithTagHex (v_aead v)))))). by rewrite Hsha, Ew.
  - exact Hid.
  - exact Hpath.
Qed.

(** C38: the published examples pass the relay's own checks.  The process
    computes them without a panic; the halves read out of the document, of both
    versions, parse and carry a self-signature over the published preimage; and a
    PUT of the published envelope with the published signature, to the published
    path id of a pair whose requester is the published key, within the replay
    window of its timestamp, is acceptable.  The published AEAD vector opens to its
    published plaintext, and its encodings, hash and path id agree. *)
Theorem published_examples_accepted (id : string) :
  ∃ v, initValues = Some v ∧ accepted_half v id "v2_current" ∧ accepted_half v id "v1_deprecated" ∧
    aead_opens v id ∧
    ∀ s r now paired,
      published_put v id r → tsInWindow exampleTs now = true →
      s_pairs s !! published_path v id = Some paired →
      p_RequesterPubkey paired = json_str (json_path ["examples"; "test_keys"]%string (marshal (New v id)))
                                   "alice_ed25519_pubkey_base64url" →
      p_SigAlg paired = "ed25519"%string →
      ∃ body env sender, @acceptable EdVerifier s r (published_path v id) now paired body env sender.
Proof.
  destruct initValues_ok as (v & Ev & Hk & Hd & _). exists v. split; [exact Ev|].
  destruct (published_halves v id Hk) as [Hv2 Hv1]. split; [exact Hv2|]. split; [exact Hv1|]. split.
  { destruct (aead_vector_opens id) as (v' & Ev' & Ha). congruence. }
  intros s r now paired Hput Hts Hp Hreq Halg. do 3 eexists. by apply published_envelope.
Qed.

End Theorems.

(** ** Witnesses *)

Module Demo.

(** A signature that anybody can make, and a cipher that hides nothing: enough
    for the laws. *)
Definition fit (n : nat) (s : string) : string := take_bytes n (s +:+ Repeat "0" n).
Definition tag (pk m : string) : string := sha256 (pk +:+ m) +:+ sha256 (m +:+ pk).

#[export] Instance toy_verify : Ed25519 := λ pk m sig, String.eqb sig (tag pk m).

#[export] Instance toy_keys : Ed25519Keys := {
  PrivateKey := string;
  NewKeyFromSeed s := s;
  Public k := sha256 k;
  Sign k m := tag (sha256 k) m
}.

#[export] Instance toy_laws : Ed25519Laws.
Proof.
  split; intros k; simpl.
  - unfold len, PublicKeySize. by rewrite length_sha256.
  - intros m. unfold len, tag, SignatureSize. by rewrite length_app_s, !length_sha256.
  - intros m. unfold ed25519_Verify, toy_verify. apply String.eqb_refl.
Qed.

#[export] Instance toy_suite : AeadSuite := {
  ECDHKey := string;
  ecdh_NewPrivateKey := Some;
  ecdh_PublicKey k := k;
  ECDH k p := Some (sha256 (ordered k p));
  hkdf_read secret salt info n := if (Z.of_nat n <=? hkdfLimit)%Z then Some (Repeat "k" n) else None;
  gcm_Seal key nonce pt aad :=
    if (len pt <=? gcmLimit)%Z then Some (sha256 (key +:+ nonce +:+ aad +:+ pt) +:+ pt) else None;
  gcm_Open key nonce ct aad :=
    let pt := drop_bytes 32 ct in
    if String.eqb (take_bytes 32 ct) (sha256 (key +:+ nonce +:+ aad +:+ pt)) then Some pt else None
}.

Lemma take_bytes_app a b : take_bytes (String.length a) (a +:+ b) = a.
Proof.
  induction a as [|c a IH]; simpl; [by destruct b|]. by rewrite IH.
Qed.

Lemma toy_opens key nonce pt aad :
  gcm_Open key nonce (sha256 (key +:+ nonce +:+ aad +:+ pt) +:+ pt) aad = Some pt.
Proof.
  unfold gcm_Open, toy_suite. set (t := sha256 (key +:+ nonce +:+ aad +:+ pt)).
  pose proof (drop_bytes_app t pt) as D. pose proof (take_bytes_app t pt) as T.
  assert (String.length t = 32%nat) as L by apply length_sha256. rewrite L in D, T.
  rewrite D, T. cbv zeta. unfold t. by rewrite String.eqb_refl.
Qed.

#[export] Instance toy_suite_laws : AeadLaws.
Proof.
  split; simpl; try (by eauto).
  - intros k k'. by rewrite ordered_sym.
  - intros _ _ _ n Hn%Z.leb_le. rewrite Hn. eexists. split; [reflexivity|]. clear Hn. induction n as [|n IH]; [done|].
    cbn [Repeat]. by rewrite length_app_s, IH.
  - intros key nonce pt aad _ _ Hn%Z.leb_le. rewrite Hn. by eexists.
  - intros key nonce pt aad ct. destruct (_ <=? _)%Z; [|done]. intros [= <-]. apply toy_opens.
Qed.

End Demo.

Section Witnesses.
Import Demo.

Lemma published_examples_accepted_witness :
  ∃ v, initValues = Some v ∧ accepted_half v "relay" "v2_current".
Proof.
  destruct (published_examples_accepted "relay") as (v & Ev & H2 & _). exists v.
  split; [exact Ev|exact H2].
Defined.

Lemma aead_vector_opens_witness :
  ∃ v, initValues = Some v ∧
    let j := json_path ["examples"; "aead_vector"]%string (marshal (New v "relay")) in
    json_str j "path_id" = computePathID (Public alice) (Public bob).
Proof.
  destruct (aead_vector_opens "relay") as (v & Ev & _ & _ & _ & _ & _ & Hp & _). exists v.
  split; [exact Ev|exact Hp].
Defined.

End Witnesses.
