(* ===== verification/Effects.v ===== *)
(** * What a program may do

    [does ok n p]: the program [p] executes at most [n] statements and clock or
    id readings, whatever they answer, and every one of them is allowed by [ok].
    Such a program ends, and what the allowed statements preserve it preserves in
    every interleaving. *)

From S2P Require Import Prelude GoStrings GoTime Http Storage Sql SQLite SQLiteRefines Sched.

Local Open Scope nat_scope.

(** A permission on statements. *)
Abbreviation permission := (∀ X : Type, Stmt X → Prop).

Fixpoint does {A} (ok : permission) (n : nat) (p : Prog A) {struct p} : Prop :=
  match p with
  | Ret _ => True
  | Vis s k =>
      match n with
      | O => False
      | S n => ok _ s ∧ ∀ x, does ok n (k x)
      end
  end.

Definition anything : permission := λ _ _, True.

Section does.
Context (ok : permission).

Lemma does_le {A} n m (p : Prog A) : n <= m → does ok n p → does ok m p.
Proof.
  revert n m. induction p as [a|X s k IH]; intros n m Hle Hd; [done|].
  destruct n as [|n]; [done|]. destruct m as [|m]; [lia|].
  destruct Hd as [Ho Hk]. split; [done|]. intros x. apply (IH x n m); [lia|apply Hk].
Qed.

Lemma does_bind {A B} n m (p : Prog A) (f : A → Prog B) :
  does ok n p → (∀ a, does ok m (f a)) → does ok (n + m) (bind p f).
Proof.
  revert n. induction p as [a|X s k IH]; intros n Hp Hf.
  - simpl. apply (does_le m); [lia|apply Hf].
  - destruct n as [|n]; [done|]. destruct Hp as [Ho Hk]. split; [done|].
    intros x. by apply IH.
Qed.

(** The same with the bound in one piece. *)
Lemma does_then {A B} n N (p : Prog A) (f : A → Prog B) :
  n <= N → does ok n p → (∀ a, does ok (N - n) (f a)) → does ok N (bind p f).
Proof.
  intros Hle Hp Hf. replace N with (n + (N - n)) by lia. by apply does_bind.
Qed.

(** ** Running *)

(** The statements and readings a run has made. *)
Definition spent (w : World) : nat := w_ticks w + w_ids w + w_stmts w.

Lemma spent_exec {X} e (s : Stmt X) w : spent (snd (exec e s w)) = S (spent w).
Proof.
  assert (∀ Y (f : DB → sqlres Y * DB), spent (snd (sql e w f)) = S (spent w)) as Hsql.
  { intros Y f. unfold sql, spent. destruct (env_fault _ _); simpl; [lia|].
    destruct (f (w_db w)); simpl; lia. }
  destruct s; try apply Hsql; unfold spent; simpl; lia.
Qed.

Lemma run_spends {A} e n (p : Prog A) w : does ok n p → spent (snd (run e p w)) <= spent w + n.
Proof.
  revert n w. induction p as [a|X s k IH]; intros n w Hd; simpl; [lia|].
  destruct n as [|n]; [done|]. destruct Hd as [_ Hk].
  pose proof (spent_exec e s w) as Hs. destruct (exec e s w) as [x w']; simpl in *.
  specialize (IH x n w' (Hk x)). lia.
Qed.

(** ** Interleaving *)

Lemma does_wp {A} I G n (p : Prog A) d :
  (∀ X (s : Stmt X) d x d', ok X s → I d → stmt_step s d x d' → I d' ∧ G d d') →
  does ok n p → I d → wp I G p (λ _ _, True) d.
Proof.
  intros Hstep. revert n d. induction p as [a|X s k IH]; intros n d Hd Hi; [done|].
  destruct n as [|n]; [done|]. destruct Hd as [Ho Hk]. intros x d' Hs.
  destruct (Hstep X s d x d' Ho Hi Hs) as [Hi' Hg]. split; [done|]. split; [done|].
  intros d'' _ Hi''. by apply (IH x n).
Qed.

End does.

Lemma does_weaken {A} (ok ok' : permission) n (p : Prog A) :
  (∀ X (s : Stmt X), ok X s → ok' X s) → does ok n p → does ok' n p.
Proof.
  intros Hok. revert n. induction p as [a|X s k IH]; intros n Hd; [done|].
  destruct n as [|n]; [done|]. destruct Hd as [Ho Hk]. split; [by apply Hok|].
  intros x. apply IH, Hk.
Qed.

(** ** Draining

    A pool that accepts no new programs. *)

Lemma does_serve {A} ok n (p : Prog A) : does ok n p → does ok n (serve p).
Proof. intros H. apply (does_then ok n n); [done|done|done]. Qed.

Definition closed : Prog unit → Prop := λ _, False.

(** The programs of a pool with the statements each has left. *)
Abbreviation budgets ns ts := (Forall2 (λ n (p : Prog unit), does anything n p) ns ts).

Lemma budget_sum (ns ms : list nat) n :
  sum_list (ns ++ n :: ms) = n + (sum_list ns + sum_list ms).
Proof. rewrite sum_list_with_app. simpl. lia. Qed.

Lemma closed_step c c' ns :
  pool_step closed c c' → budgets ns (snd c) →
  length (snd c') = length (snd c) ∧
  ∃ ns', budgets ns' (snd c') ∧ S (sum_list ns') = sum_list ns.
Proof.
  intros [X s k x d d' before rest Hs|d ts p []] Hb; simpl in *. split; [by rewrite !length_app|].
  apply Forall2_app_inv_r in Hb as (ns1 & ns2 & H1 & H2 & ->).
  inversion H2 as [|n p ns3 ? Hn Hr]; subst. destruct n as [|n]; [done|].
  exists (ns1 ++ n :: ns3). split; [|rewrite !budget_sum; lia].
  apply Forall2_app; [done|]. constructor; [apply Hn|done].
Qed.

Lemma closed_steps n c c' ns :
  nsteps (pool_step closed) n c c' → budgets ns (snd c) →
  length (snd c') = length (snd c) ∧ n <= sum_list ns.
Proof.
  intros H. revert ns. induction H as [c|n c1 c2 c3 Hs _ IH]; intros ns Hb; [split; [done|lia]|].
  destruct (closed_step _ _ _ Hs Hb) as (Hl & ns' & Hb' & E). destruct (IH ns' Hb') as [Hl' Hn].
  split; [congruence|lia].
Qed.

(** A statement can always be executed. *)
Lemma stmt_total (e : Env) `{!DriverOK e} {X} (s : Stmt X) d : ∃ x d', stmt_step s d x d'.
Proof.
  destruct (exec e s (MkWorld d 0 0 0)) as [x w'] eqn:Hx.
  exists x, (w_db w'), e, (MkWorld d 0 0 0), w'. by split_and!.
Qed.

(** A program in progress can take a step. *)
Lemma closed_progress (e : Env) `{!DriverOK e} d ts :
  (∃ c', pool_step closed (d, ts) c') ∨ ts = replicate (length ts) (Ret tt).
Proof.
  induction ts as [|p ts [[c' Hc]|E]]; [by right| |].
  - left. inversion Hc as [X s k x d1 d' before rest Hs|? ? ? []]; subst.
    exists (d', (p :: before) ++ k x :: rest). by apply (PoolStep _ _ _ _ _ _ _ (p :: before)).
  - destruct p as [[]|X s k]; [right; by rewrite E at 1|]. left.
    destruct (stmt_total e s d) as (x & d' & Hx).
    exists (d', [] ++ k x :: ts). by apply (PoolStep _ _ _ _ _ _ _ []).
Qed.

(** Every drain ends with all programs finished. *)
Lemma closed_finishes (e : Env) `{!DriverOK e} d ts ns :
  budgets ns ts → ∃ d', rtc (pool_step closed) (d, ts) (d', replicate (length ts) (Ret tt)).
Proof.
  remember (sum_list ns) as m eqn:Em. revert d ts ns Em.
  induction m as [m IH] using lt_wf_ind. intros d ts ns -> Hb.
  destruct (closed_progress e d ts) as [[[d' ts'] Hc]|E].
  - destruct (closed_step _ _ _ Hc Hb) as (Hl & ns' & Hb' & E). simpl in Hl.
    destruct (IH (sum_list ns') ltac:(lia) d' ts' ns' eq_refl Hb') as [d'' Hr].
    exists d''. rewrite <- Hl. by eapply rtc_l.
  - exists d. by rewrite <- E.
Qed.

(** Every program of a pool has a budget when all tasks have. *)
Lemma pool_budgets task N d0 c :
  (∀ p, task p → does anything N p) → rtc (pool_step task) (d0, []) c →
  Forall (does anything N) (snd c).
Proof.
  intros Ht. revert c. apply rtc_ind_r; [constructor|]. intros c1 c2 _ Hs H.
  destruct Hs as [X s k x d d' before rest Hs|d ts p Hp]; simpl in *.
  - apply Forall_app in H as [H1 H2]. inversion H2 as [|? ? Hv Hr]; subst.
    apply Forall_app. split; [done|]. constructor; [|done].
    destruct N as [|N]; [done|]. apply (does_le _ N); [lia|apply Hv].
  - constructor; [by apply Ht|done].
Qed.

(** A program that runs alone to its end. *)
Lemma run_steps (e : Env) `{!DriverOK e} task (p : Prog unit) w ts :
  rtc (pool_step task) (w_db w, p :: ts) (w_db (snd (run e p w)), Ret tt :: ts).
Proof.
  revert w. induction p as [[]|X s k IH]; intros w; [done|]. simpl.
  destruct (exec e s w) as [x w'] eqn:Hx. eapply rtc_l; [|apply IH].
  apply (PoolStep _ _ _ _ _ _ _ []). exists e, w, w'. split_and!; [apply _|done|exact Hx|done].
Qed.

(** Follows a program: its statements are allowed by computation or [auto], its
    branches are all taken. *)
Ltac methods :=
  first [ progress cbn [InsertEnvelope ListEnvelopes DeleteEnvelopesByMsgID DeleteEnvelopesOlderThan
    InsertPairRequest GetPairRequest ListPendingPairRequests UpdatePairRequestStatus
    ExpirePendingRequests InsertPair GetPair SQLite
    sqlite_InsertEnvelope sqlite_ListEnvelopes sqlite_DeleteEnvelopesByMsgID
    sqlite_DeleteEnvelopesOlderThan sqlite_InsertPairRequest sqlite_GetPairRequest
    sqlite_ListPendingPairRequests sqlite_UpdatePairRequestStatus sqlite_ExpirePendingRequests
    sqlite_InsertPair sqlite_GetPair bind call]
        | progress unfold sqlite_DeleteEnvelopesByMsgID ].

Lemma does_step {X A} (ok : permission) n (s : Stmt X) (k : X → Prog A) :
  ok _ s → (∀ x, does ok n (k x)) → does ok (S n) (Vis s k).
Proof. done. Qed.

(** The branches of the first match of a program. *)
Ltac branch p :=
  lazymatch p with
  | bind ?p _ => branch p
  | match ?x with _ => _ end => destruct x
  end.

Ltac follow :=
  repeat first
    [ match goal with |- does _ _ (Ret _) => exact I end
    | methods
    | progress cbv zeta
    | match goal with
      | |- does _ (S _) (Vis _ _) => apply does_step; [try (exact I); try done | intros ?]
      | |- does _ _ ?p => branch p
      end ].

(** Programs whose statements are known. *)
Create HintDb does.

Ltac known := eapply does_le; [| eauto with does]; lia.
