(* ===== verification/Relay.v ===== *)
(** * The relay binary

    cmd/interchange/main.go: the two muxes, the health and landing pages, the
    rate limits of the public listener, and what each listener runs.  The flags are
    in [CommandLine], the recovery from panics in [Recovery], servers, signal and
    shutdown in [Process]. *)

From S2P Require Import Prelude GoStrings GoTime Http Trim Storage Sql SQLite Crypto Mailbox Pairflow.
From S2P Require Import Sweep Sched Middleware Mux Discovery.

Local Open Scope Z_scope.

(** ** Pages *)

(** [landing.Handler]; the text of the page is in [Landing]. *)
Definition landingHandler (pageHTML : string) (r : Request) : Response :=
  if negb (String.eqb (Path r) "/") then HttpNotFound
  else if negb (String.eqb (Method r) MethodGet)
  then HttpErrorWith [("Allow", "GET")]%string "method not allowed" StatusMethodNotAllowed
  else
    MkResponse StatusOK
      [("Content-Type", "text/html; charset=utf-8");
       ("Cache-Control", "public, max-age=3600");
       ("Content-Security-Policy",
         "default-src 'none'; " +:+ "style-src 'unsafe-inline' https://fonts.googleapis.com; " +:+
         "font-src https://fonts.gstatic.com; " +:+ "img-src 'self' data:; " +:+
         "frame-ancestors 'none'");
       ("X-Content-Type-Options", "nosniff");
       ("Referrer-Policy", "no-referrer")]%string
      (BText pageHTML).

Definition healthOK : Response := MkResponse StatusOK [] (BText "ok").

(** /health on the public mux; the tailnet's answers every method. *)
Definition publicHealth (r : Request) : Response :=
  if negb (String.eqb (Method r) MethodGet)
  then HttpErrorWith [("Allow", "GET")]%string "method not allowed" StatusMethodNotAllowed
  else healthOK.

(** ** Replies *)

(** What a listener answers: a response, or a redirect to a path (with the query
    of the request). *)
Inductive Reply : Type :=
| Replied (resp : Response)
| RedirectedTo (path query : string).

(** A mux of programs, as a program. *)
Definition serveMux (mux : list (string * (Request → Prog Response))) (r : Request)
    (escaped : string) : Prog Reply :=
  match ServeMux mux r escaped with
  | MuxServe h => let! resp := h r in Ret (Replied resp)
  | MuxRedirect path => Ret (RedirectedTo path (RawQuery r))
  | MuxNotFound => Ret (Replied HttpNotFound)
  | MuxBadRequest =>
      Ret (Replied (MkResponse StatusBadRequest [("Connection", "close")]%string (BText "")))
  end.

Section Relay.
Context `{Ed : Ed25519} `{Keys : Ed25519Keys} `{Suite : AeadSuite} `{Bucket : TokenBucket}.

(** A number of tokens per second, as a fraction. *)
Context (perSecond : Z → Z → Rate).

(** The flags -id and -owner-secret, the page, and what discovery computed. *)
Context (interchangeID ownerSecret pageHTML : string) (values : Values).

Definition static (h : Request → Response) : Request → Prog Response := λ r, Ret (h r).

Definition publicMux : list (string * (Request → Prog Response)) :=
  [("/"%string, static (landingHandler pageHTML));
   (DiscoveryPath, static (DiscoveryHandler values interchangeID));
   ("/health"%string, static publicHealth);
   ("/mailbox/"%string, Mailbox.dispatch);
   ("/pair/"%string, dispatchPublic)].

Definition tailnetMux : list (string * (Request → Prog Response)) :=
  [("/pair/"%string, dispatchOwner ownerSecret);
   ("/health"%string, static (λ _, healthOK))].

Definition rateCfg : RateLimitConfig :=
  withDefaults
    (MkRateLimitConfig (MkRateRule (perSecond 5 1) 10)
       [MkRouteRule MethodPost "/pair/request" (MkRateRule (perSecond 5 60) 5);
        MkRouteRule MethodPut "/mailbox/" (MkRateRule (perSecond 1 1) 60);
        MkRouteRule MethodGet "/mailbox/" (MkRateRule (perSecond 2 1) 120)]
       0 0 true).

(** A request on the public listener: the answer 429, or the program that
    answers it, and the buckets after it. *)
Definition publicHandler (r : Request) (escaped remoteAddr : string) (now now' : Time)
    (buckets : gmap string (gmap string bucket)) :
    (Response + Prog Reply) * gmap string (gmap string bucket) :=
  RateLimit rateCfg (λ r, serveMux publicMux r escaped) r remoteAddr now now' buckets.

(** A request on the tailnet listener. *)
Definition tailnetHandler (r : Request) (escaped : string) : Prog Reply :=
  serveMux tailnetMux r escaped.

(** ** The process *)

(** What goroutines a listener and the sweeper start. *)
Inductive public_task : Prog unit → Prop :=
| PublicRequest r escaped remoteAddr now now' buckets p :
    (publicHandler r escaped remoteAddr now now' buckets).1 = inr p → public_task (serve p).

Inductive tailnet_task : Prog unit → Prop :=
| TailnetRequest r escaped : tailnet_task (serve (tailnetHandler r escaped)).

Inductive sweep_task : Prog unit → Prop :=
| SweepOnce isCanceled c : sweep_task (serve (Once isCanceled c)).

(** What the public handler runs. *)
Lemma publicHandler_runs r escaped remoteAddr now now' buckets p :
  (publicHandler r escaped remoteAddr now now' buckets).1 = inr p → p = serveMux publicMux r escaped.
Proof.
  unfold publicHandler. rewrite (proj1 (RateLimit_allow _ _ _ _ _ _ _)).
  destruct (allow _ _ _ _ _ _ _).1; by intros [= <-].
Qed.

End Relay.
