(* ===== verification/Listeners.v ===== *)
(** * What the listeners do

    The statements a request of each listener and a sweep may execute, and how
    many; what they do to pairs and requests; that a drain ends. *)

From S2P Require Import Prelude GoStrings GoTime Http Trim Storage Sql SQLite SQLiteRefines Crypto.
From S2P Require Import Mailbox Pairflow Sweep Sched Concurrent Middleware Mux Discovery Effects Relay.

(** ** The public permission

    A public request inserts requests as pending, marks overdue pending requests
    expired, and otherwise writes envelopes only. *)
Definition fresh_row (r : RequestRow) : Prop :=
  rr_status r = StatusPending ∧ rr_path_id r = None ∧ rr_owner_json r = None.

Definition public_stmt : permission := λ X s,
  match s with
  | SqlUpdateStatus _ _ _ _ _ | SqlInsertPair _ _ => False
  | SqlInsertRequest _ row => fresh_row row
  | SqlExpire to from _ => to = StatusExpired ∧ from = StatusPending
  | _ => True
  end.

Section programs.
Context `{Ed : Ed25519} `{V : Verifier}.

Lemma public_put r pathID : does public_stmt 4 (put r pathID).
Proof. unfold put. follow. Qed.

Lemma public_get r pathID : does public_stmt 2 (get r pathID).
Proof. unfold get. follow. Qed.

Lemma public_ack r pathID : does public_stmt 3 (ack r pathID).
Proof. unfold ack. follow. Qed.

Lemma public_create r : does public_stmt 4 (createRequest r).
Proof. unfold createRequest. follow. Qed.

Lemma public_status id : does public_stmt 1 (getRequestStatus id).
Proof. unfold getRequestStatus. follow. Qed.

#[local] Hint Resolve public_put public_get public_ack public_create public_status : does.

Lemma public_mailbox r : does public_stmt 4 (Mailbox.dispatch r).
Proof. unfold Mailbox.dispatch. follow; known. Qed.

Lemma public_pairing r : does public_stmt 6 (dispatchPublic r).
Proof. unfold dispatchPublic. follow; known. Qed.

Lemma public_sweep isCanceled c : does public_stmt 3 (Once isCanceled c).
Proof. unfold Once. follow. Qed.

(** ** The owner's programs, by number *)

Lemma does_approveInsert id raw h owner : does anything 5 (approveInsert id raw h owner).
Proof. unfold approveInsert. follow. Qed.

Lemma does_deny id : does anything 2 (deny id).
Proof. unfold deny. follow. Qed.

Lemma does_listPending r : does anything 1 (listPending r).
Proof. unfold listPending. follow. Qed.

#[local] Hint Resolve does_approveInsert does_deny does_listPending : does.

Lemma does_approve r id : does anything 7 (approve r id).
Proof. unfold approve, approvePending, approveResolved. follow; known. Qed.

#[local] Hint Resolve does_approve : does.

Lemma does_owner secret r : does anything 9 (dispatchOwner secret r).
Proof. unfold dispatchOwner. follow; known. Qed.

End programs.

(** ** What the public permission leaves *)

Definition expired_row (r : RequestRow) : RequestRow := with_status StatusExpired None None r.

(** How a request may look when no owner had a hand in it. *)
Definition unapproved (before : option RequestRow) (after : option RequestRow) : Prop :=
  match before, after with
  | Some r, Some r' => r' = r ∨ rr_status r = StatusPending ∧ r' = expired_row r
  | Some _, None => False
  | None, Some r' => ∃ r, fresh_row r ∧ (r' = r ∨ r' = expired_row r)
  | None, None => True
  end.

Record untouched (d d' : DB) : Prop := Untouched {
  u_pairs : pairs d' = pairs d;
  u_requests : ∀ id, unapproved (pair_requests d !! id) (pair_requests d' !! id)
}.

Lemma unapproved_refl o : unapproved o o.
Proof. destruct o; [by left|done]. Qed.

Lemma unapproved_trans o1 o2 o3 : unapproved o1 o2 → unapproved o2 o3 → unapproved o1 o3.
Proof.
  destruct o1 as [r1|], o2 as [r2|], o3 as [r3|]; simpl; try done.
  - intros [-> | [Hs ->]] [-> | [Hs' ->]]; auto.
  - intros (r & Hr & [-> | ->]) [-> | [Hs' ->]]; exists r; split; auto.
Qed.

#[export] Instance untouched_preorder : PreOrder untouched.
Proof.
  split.
  - intros d. split; [done|]. intros id. apply unapproved_refl.
  - intros d1 d2 d3 [P1 R1] [P2 R2]. split; [congruence|]. intros id. by eapply unapproved_trans.
Qed.

Lemma untouched_envelopes d t : untouched d (set_envelopes t d).
Proof. split; [done|]. intros id. apply unapproved_refl. Qed.

Lemma untouched_expire d cutoff : untouched d (snd (expire StatusExpired StatusPending cutoff d)).
Proof.
  split; [done|]. intros id. simpl. rewrite lookup_fmap.
  destruct (pair_requests d !! id) as [r|]; [|done]. simpl. unfold expire_row.
  destruct (decide _) as [[Hs _]|]; [by right|by left].
Qed.

Lemma untouched_insert d id row :
  fresh_row row → pair_requests d !! id = None →
  untouched d (set_requests (<[id := row]> (pair_requests d)) d).
Proof.
  intros Hf Hn. split; [done|]. intros id'. simpl. destruct (decide (id = id')) as [<-|Hne].
  - rewrite Hn, lookup_insert_eq. exists row. auto.
  - rewrite lookup_insert_ne by done. apply unapproved_refl.
Qed.

Lemma untouched_sql {X} {s : Stmt (sqlres X)} {d x d'} (f : DB → sqlres X * DB) :
  stmt_step s d x d' → (∀ e w, exec e s w = sql e w f) → (∀ d, untouched d (f d).2) → untouched d d'.
Proof.
  intros Hs Hx Hf. destruct (step_sql s f d x d' Hx Hs) as [[_ ->]|[-> _]]; [apply Hf|reflexivity].
Qed.

Lemma untouched_step_insert {R} {s : Stmt (sqlres unit)} {d x d'} column k (row : R)
    (t : DB → gmap string R) (put : gmap string R → DB → DB) :
  stmt_step s d x d' →
  (∀ e w, exec e s w = sql e w (λ d, insert_row e column k (t d) (λ m, put m d) row d)) →
  (t d !! k = None → untouched d (put (<[k := row]> (t d)) d)) → untouched d d'.
Proof.
  intros Hs Hx Hp. destruct (step_insert s column k row t put d x d' Hx Hs) as [(_ & Hn & ->)|[-> _]];
    [by apply Hp|reflexivity].
Qed.

(** One permitted statement. *)
Lemma public_step {X} (s : Stmt X) d x d' : public_stmt X s → stmt_step s d x d' → untouched d d'.
Proof.
  intros Hok Hs. destruct s; try done.
  - destruct Hs as (e & w & w' & _ & <- & [= _ <-] & <-). reflexivity.
  - destruct Hs as (e & w & w' & _ & <- & [= _ <-] & <-). reflexivity.
  - eapply (untouched_step_insert _ _ _ envelopes set_envelopes Hs); [intros; reflexivity|].
    intros _. apply untouched_envelopes.
  - refine (untouched_sql (λ d, (inr (select_envelopes path_id direction since limit d), d)) Hs _ _);
      [done|intros d0; reflexivity].
  - refine (untouched_sql (λ d, let '(n, d) := delete_envelopes path_id ids d in (inr n, d)) Hs _ _);
      [done|intros d0; apply untouched_envelopes].
  - refine (untouched_sql (λ d, let '(n, d) := delete_older cutoff d in (inr n, d)) Hs _ _);
      [done|intros d0; apply untouched_envelopes].
  - eapply (untouched_step_insert _ _ _ pair_requests set_requests Hs); [intros; reflexivity|].
    by apply untouched_insert.
  - refine (untouched_sql (λ d, (inr (pair_requests d !! request_id), d)) Hs _ _);
      [done|intros d0; reflexivity].
  - refine (untouched_sql (λ d, (inr (select_by_status status d), d)) Hs _ _);
      [done|intros d0; reflexivity].
  - destruct Hok as [-> ->].
    refine (untouched_sql (λ d, let '(n, d) := expire StatusExpired StatusPending cutoff d in (inr n, d))
              Hs _ _); [done|intros d0; apply untouched_expire].
  - refine (untouched_sql (λ d, (inr (pairs d !! path_id), d)) Hs _ _); [done|intros d0; reflexivity].
Qed.

(** ** Requests of the listeners *)

Lemma does_serveMux ok n mux r escaped :
  (∀ p h, (p, h) ∈ mux → does ok n (h r)) → does ok n (serveMux mux r escaped).
Proof.
  intros Hm. unfold serveMux. destruct (ServeMux mux r escaped) as [h| | |] eqn:E; try done.
  destruct (ServeMux_in _ _ _ _ E) as [p Hp].
  apply (does_then ok n n); [done|by apply (Hm p)|done].
Qed.

Section listeners.
Context `{Ed : Ed25519} `{Keys : Ed25519Keys} `{Suite : AeadSuite} `{Bucket : TokenBucket}.
Context (perSecond : Z → Z → Rate) (interchangeID ownerSecret pageHTML : string) (values : Values).

Lemma public_request r escaped : does public_stmt 6 (serveMux (publicMux interchangeID pageHTML values) r escaped).
Proof.
  apply does_serveMux. intros p h Hh. unfold publicMux in Hh.
  repeat (apply elem_of_cons in Hh as [[= -> ->]|Hh]; [try done|]).
  - apply (does_le _ 4); [lia|apply public_mailbox].
  - apply public_pairing.
  - by apply elem_of_nil in Hh.
Qed.

Lemma tailnet_request r escaped : does anything 9 (tailnetHandler ownerSecret r escaped).
Proof.
  apply does_serveMux. intros p h Hh. unfold tailnetMux in Hh.
  repeat (apply elem_of_cons in Hh as [[= -> ->]|Hh]; [try done|]).
  - apply does_owner.
  - by apply elem_of_nil in Hh.
Qed.

(** Without the owner's secret a tailnet request runs nothing. *)
Lemma tailnet_refused r escaped :
  ownerAuthorized ownerSecret r = false → does public_stmt 0 (tailnetHandler ownerSecret r escaped).
Proof.
  intros Hu. apply does_serveMux. intros p h Hh. unfold tailnetMux in Hh.
  repeat (apply elem_of_cons in Hh as [[= -> ->]|Hh]; [try done|]).
  - unfold dispatchOwner. by rewrite Hu.
  - by apply elem_of_nil in Hh.
Qed.

Abbreviation public_task := (public_task perSecond interchangeID pageHTML values).
Abbreviation tailnet_task := (tailnet_task ownerSecret).

(** Everything a relay runs. *)
Definition process_task (p : Prog unit) : Prop := public_task p ∨ tailnet_task p ∨ sweep_task p.

(** The same without an owner: tailnet requests lack the secret. *)
Inductive ownerless_task : Prog unit → Prop :=
| OwnerlessPublic p : public_task p → ownerless_task p
| OwnerlessTailnet r escaped :
    ownerAuthorized ownerSecret r = false →
    ownerless_task (serve (tailnetHandler ownerSecret r escaped))
| OwnerlessSweep p : sweep_task p → ownerless_task p.

Lemma does_public_task p : public_task p → does public_stmt 6 p.
Proof.
  intros [r escaped a now now' buckets q Hq]. apply publicHandler_runs in Hq as ->.
  apply does_serve, public_request.
Qed.

Lemma does_sweep_task p : sweep_task p → does public_stmt 3 p.
Proof. intros [isCanceled c]. apply does_serve. by apply public_sweep. Qed.

Lemma does_process_task p : process_task p → does anything 9 p.
Proof.
  intros [H|[H|H]].
  - apply (does_weaken public_stmt); [done|]. apply (does_le _ 6); [lia|by apply does_public_task].
  - destruct H as [r escaped]. apply does_serve, tailnet_request.
  - apply (does_weaken public_stmt); [done|]. apply (does_le _ 3); [lia|by apply does_sweep_task].
Qed.

Lemma does_ownerless_task p : ownerless_task p → does public_stmt 6 p.
Proof.
  intros [q Hq|r escaped Hu|q Hq].
  - by apply does_public_task.
  - apply (does_le _ 0); [lia|]. by apply does_serve, tailnet_refused.
  - apply (does_le _ 3); [lia|by apply does_sweep_task].
Qed.

Lemma ownerless_safe p : ownerless_task p → safe (λ _, True) untouched p.
Proof.
  intros Hp d _. apply (does_wp public_stmt (λ _, True) untouched 6); [|by apply does_ownerless_task|done].
  intros X s d1 x d2 Ho _ Hs. split; [done|]. by apply (public_step s d1 x d2).
Qed.

End listeners.
