(* ===== verification/Routes.v ===== *)
(** * The routes of the two listeners

    What the muxes of [Relay] answer to a path without escapes. *)

From S2P Require Import Prelude GoStrings Http Trim Storage Sql SQLite Crypto Mailbox Pairflow.
From S2P Require Import Middleware Mux MuxSpec Discovery Relay.

Local Open Scope string_scope.

Section routes.
Context `{Ed : Ed25519} `{Keys : Ed25519Keys} `{Suite : AeadSuite}.
Context (interchangeID ownerSecret pageHTML : string) (values : Values).

Abbreviation publicMux := (publicMux interchangeID pageHTML values).
Abbreviation tailnetMux := (tailnetMux ownerSecret).

(** ** The pattern that serves a path, without its first slash *)

Definition public_entry (t : string) : (list string * bool) * (Request → Prog Response) :=
  if HasPrefix t "mailbox/" then (["mailbox"], true, Mailbox.dispatch)
  else if HasPrefix t "pair/" then (["pair"], true, dispatchPublic)
  else if String.eqb t ".well-known/nexus-interchange"
  then ([".well-known"; "nexus-interchange"], false, static (DiscoveryHandler values interchangeID))
  else if String.eqb t "health" then (["health"], false, static publicHealth)
  else ([], true, static (landingHandler pageHTML)).

Definition tailnet_entry (t : string) : option ((list string * bool) * (Request → Prog Response)) :=
  if HasPrefix t "pair/" then Some (["pair"], true, dispatchOwner ownerSecret)
  else if String.eqb t "health" then Some (["health"], false, static (λ _, healthOK))
  else None.

Lemma public_match t : unescaped t → mux_match publicMux (String "/" t) = Some (public_entry t).
Proof.
  intros Ht. unfold publicMux. cbn [mux_match]. rewrite !path_segments_plain by done.
  change (pattern_of "/") with (@nil string, true).
  change (pattern_of DiscoveryPath) with ([".well-known"; "nexus-interchange"], false).
  change (pattern_of "/health") with (["health"], false).
  change (pattern_of "/mailbox/") with (["mailbox"], true).
  change (pattern_of "/pair/") with (["pair"], true).
  rewrite !matches_subtree, matches_root, !matches_path by (done || by repeat constructor).
  change ("mailbox" +:+ "/") with "mailbox/". change ("pair" +:+ "/") with "pair/".
  change (Join [".well-known"; "nexus-interchange"] "/") with ".well-known/nexus-interchange".
  change (Join ["health"] "/") with "health".
  unfold public_entry. destruct (HasPrefix t "mailbox/") eqn:E1.
  { apply HasPrefix_spec in E1 as [r ->]. reflexivity. }
  destruct (HasPrefix t "pair/") eqn:E2.
  { apply HasPrefix_spec in E2 as [r ->]. reflexivity. }
  destruct (String.eqb_spec t ".well-known/nexus-interchange") as [->|]; [reflexivity|].
  by destruct (String.eqb_spec t "health").
Qed.

Lemma tailnet_match t : unescaped t → mux_match tailnetMux (String "/" t) = tailnet_entry t.
Proof.
  intros Ht. unfold tailnetMux. cbn [mux_match]. rewrite !path_segments_plain by done.
  change (pattern_of "/health") with (["health"], false).
  change (pattern_of "/pair/") with (["pair"], true).
  rewrite !matches_subtree, !matches_path by (done || by repeat constructor).
  change ("pair" +:+ "/") with "pair/". change (Join ["health"] "/") with "health".
  unfold tailnet_entry. destruct (HasPrefix t "pair/") eqn:E1.
  { apply HasPrefix_spec in E1 as [r ->]. reflexivity. }
  by destruct (String.eqb_spec t "health").
Qed.

(** ** The slash of a subtree *)

(** A path with a slash behind, after its prefix was found: the prefix is all of
    the path, or more than one segment. *)
Lemma slash_prefix w t r :
  t +:+ "/" = (w +:+ "/") +:+ r → t = w ∨ ∃ r', t = w +:+ String "/" r'.
Proof.
  revert t. induction w as [|c w IH]; intros t.
  - rewrite app_nil_l_s. destruct t as [|a t]; [by left|]. rewrite !app_cons_s. intros [= -> _]. right.
    by exists t.
  - rewrite !app_cons_s. destruct t as [|a t]; [destruct w; rewrite ?app_cons_s; by intros [=]|].
    rewrite app_cons_s. intros [= -> E]. destruct (IH t E) as [->|[r' ->]]; [by left|right]. by exists r'.
Qed.

Lemma exact_slash w t r :
  no_byte "/" w = true → t +:+ "/" = (w +:+ "/") +:+ r → t ≠ w →
  exact_match ([w], true) (String "/" t +:+ "/") = false.
Proof. intros Hw E Hne. destruct (slash_prefix w t r E) as [->|[r' ->]]; [done|]. by apply exact_subtree. Qed.

Lemma no_slash_path t p : HasSuffix p "/" = false → String.eqb (t +:+ "/") p = false.
Proof.
  intros Hp. apply String.eqb_neq. intros E. pose proof (HasSuffix_slash t) as H. by rewrite E, Hp in H.
Qed.

Lemma public_slash r t :
  unescaped t →
  slash_redirect publicMux r (String "/" t) =
    if String.eqb t "mailbox" || String.eqb t "pair" then Some (cleanPath (Path r) +:+ "/") else None.
Proof.
  intros Ht. unfold slash_redirect. change (String "/" t +:+ "/") with (String "/" (t +:+ "/")).
  rewrite !public_match by (unfold no_byte in *; rewrite ?all_bytes_app, ?Ht; done). cbn [from_option].
  destruct (String.eqb_spec t "mailbox") as [->|H1]; [reflexivity|].
  destruct (String.eqb_spec t "pair") as [->|H2]; [reflexivity|]. cbn [orb].
  assert (exact_match (fst (public_entry (t +:+ "/"))) (String "/" (t +:+ "/")) = false) as ->;
    [|by destruct (_ || _)].
  change (String "/" (t +:+ "/")) with (String "/" t +:+ "/"). unfold public_entry.
  destruct (HasPrefix (t +:+ "/") "mailbox/") eqn:E1.
  { apply HasPrefix_spec in E1 as [s E1]. by apply (exact_slash _ _ s). }
  destruct (HasPrefix (t +:+ "/") "pair/") eqn:E2.
  { apply HasPrefix_spec in E2 as [s E2]. by apply (exact_slash _ _ s). }
  rewrite !no_slash_path by done. apply exact_root.
Qed.

Lemma tailnet_slash r t :
  unescaped t →
  slash_redirect tailnetMux r (String "/" t) =
    if String.eqb t "pair" then Some (cleanPath (Path r) +:+ "/") else None.
Proof.
  intros Ht. unfold slash_redirect. change (String "/" t +:+ "/") with (String "/" (t +:+ "/")).
  rewrite !tailnet_match by (unfold no_byte in *; rewrite ?all_bytes_app, ?Ht; done).
  destruct (String.eqb_spec t "pair") as [->|H2]; [reflexivity|].
  assert (from_option (λ m, exact_match (fst m) (String "/" (t +:+ "/"))) false
            (tailnet_entry (t +:+ "/")) = false) as ->; [|by destruct (_ || _)].
  change (String "/" (t +:+ "/")) with (String "/" t +:+ "/"). unfold tailnet_entry.
  destruct (HasPrefix (t +:+ "/") "pair/") eqn:E2.
  { apply HasPrefix_spec in E2 as [s E2]. by apply (exact_slash _ _ s). }
  by rewrite !no_slash_path by done.
Qed.

(** ** What a listener answers *)

(** The answer of a mux to a path it knows the entry of. *)
Lemma serveMux_plain (mux : list (string * (Request → Prog Response))) r t redirect :
  unescaped (Path r) → Method r ≠ MethodConnect → Path r ≠ "*" → cleanPath (Path r) = String "/" t →
  slash_redirect mux r (String "/" t) = redirect →
  serveMux mux r (Path r) =
    match redirect with
    | Some to => Ret (RedirectedTo to (RawQuery r))
    | None =>
        if negb (String.eqb (String "/" t) (Path r)) then Ret (RedirectedTo (String "/" t) (RawQuery r))
        else match mux_match mux (String "/" t) with
             | Some (_, h) => let! resp := h r in Ret (Replied resp)
             | None => Ret (Replied HttpNotFound)
             end
    end.
Proof.
  intros Hp Hm Hs Hc Hr. unfold serveMux, ServeMux.
  apply String.eqb_neq in Hm, Hs. rewrite Hs, Hm, Hc, Hr.
  destruct redirect; [done|]. destruct (negb _); [done|]. by destruct (mux_match _ _) as [[??]|].
Qed.
End routes.
