(* ===== verification/LandingTheorems.v ===== *)
(** * Properties of the landing page *)

From S2P Require Import Prelude GoStrings Http Trim Storage Sql Crypto Pairflow Middleware Mux MuxSpec.
From S2P Require Import Document Discovery Samples DiscoveryTheorems Relay Routes Landing.

Local Open Scope string_scope.

(** Elements that load nothing and run nothing. *)
Definition harmless : list string :=
  ["!doctype"; "html"; "head"; "meta"; "title"; "link"; "style"; "body"; "div"; "span"; "dl"; "dt"; "dd"; "a";
   "svg"; "defs"; "radialGradient"; "linearGradient"; "stop"; "clipPath"; "filter"; "feGaussianBlur";
   "g"; "line"; "circle"; "rect"; "polygon"].

Definition sourceRepository : string := "https://github.com/CarriedWorldUniverse/interchange".

(** A tag loads nothing but what the policy admits. *)
Definition tag_closed (csp : string) (ids : list string) (tag : string) : Prop :=
  tag_name tag ∈ harmless ∧
  Forall (λ kv : string * string, HasPrefix kv.1 "on" = false ∧ kv.1 ∉ ["src"; "style"; "srcset"; "action"] ∧
            Forall (λ u, u ∈ ids) (css_urls 0 kv.2)) (attrs tag) ∧
  (attr "rel" tag = "stylesheet" → admits csp "style-src" (attr "href" tag) = true) ∧
  (tag_name tag = "a" → HasPrefix tag "/" = false → attr "href" tag ∈ [DiscoveryPath; sourceRepository]).

#[export] Instance tag_closed_dec csp ids tag : Decision (tag_closed csp ids tag).
Proof. unfold tag_closed. apply _. Defined.

Definition csp_of (resp : Response) : string :=
  match find (λ kv, String.eqb kv.1 "Content-Security-Policy") (RespHeader resp) with
  | Some kv => kv.2
  | None => ""
  end.

(** The fragments the page names. *)
Definition fragments : list string := map (λ t, "#" +:+ attr "id" t) (tags pageHTML).

Lemma page_tags csp :
  csp = csp_of (landingHandler pageHTML (MkRequest MethodGet "/" "" ∅ "" false)) →
  Forall (tag_closed csp fragments) (tags pageHTML).
Proof. intros ->. apply (bool_decide_unpack _). by vm_compute. Qed.

Section Theorems.
Context `{Ed : Ed25519} `{Keys : Ed25519Keys} `{Suite : AeadSuite}.

Lemma listens_root r interchangeID page (values : Values) :
  Path r = "/" → Method r = MethodGet →
  serveMux (publicMux interchangeID page values) r (Path r) =
    let! resp := Ret (landingHandler page r) in Ret (Replied resp).
Proof.
  intros Hp Hm.
  assert (unescaped (Path r)) as Hu by by rewrite Hp.
  assert (Method r ≠ MethodConnect) as Hc by by rewrite Hm.
  assert (Path r ≠ "*") as Hs by by rewrite Hp.
  assert (cleanPath (Path r) = String "/" "") as Hcl by by rewrite Hp.
  rewrite (serveMux_plain _ r "" _ Hu Hc Hs Hcl (public_slash _ _ _ r "" eq_refl)), Hp, public_match by done.
  reflexivity.
Qed.

(** C18: the landing page.  GET / of the public listener answers the same page in
    every deployment, whatever its id and its keys.  Its tags nest; it holds no
    element that runs or embeds anything and no event handler; the style sheet it
    links, its inline style and the images of that style are what its own content
    security policy admits, and every fragment it refers to is in it; the policy
    admits no script at all; its two links lead to the discovery document and to the
    source repository; besides the discovery document it names none of the paths of
    the relay: not /health, not /mailbox and not /pair.  It does name the release. *)
Theorem landing_page_is_closed (r : Request) :
  Path r = "/" → Method r = MethodGet →
  ∃ resp, (∀ interchangeID (values : Values),
     serveMux (publicMux interchangeID pageHTML values) r (Path r) = let! resp := Ret resp in Ret (Replied resp)) ∧
  Status resp = 200%Z ∧ RespBody resp = BText pageHTML ∧
  nested [] (tags pageHTML) = true ∧
  Forall (tag_closed (csp_of resp) fragments) (tags pageHTML) ∧
  Forall (λ style, admits_inline (csp_of resp) "style-src" = true ∧
     Forall (λ u, admits (csp_of resp) "img-src" u = true) (css_urls 0 style)) (styles pageHTML) ∧
  (∀ url, admits (csp_of resp) "script-src" url = false) ∧ admits_inline (csp_of resp) "script-src" = false ∧
  Forall (λ s, Contains pageHTML s = false) ["carried-world"; "/health"; "/mailbox"; "/pair"; "interchange_id"; "<script"] ∧
  Contains pageHTML "<dt>release</dt><dd>0.0.3" = true.
Proof.
  intros Hp Hm. exists (landingHandler pageHTML r). split; [intros; by apply listens_root|].
  assert (landingHandler pageHTML r = landingHandler pageHTML (MkRequest MethodGet "/" "" ∅ "" false)) as ->.
  { unfold landingHandler. by rewrite Hp, Hm. }
  split_and!; [done|done|by vm_compute|by apply page_tags| |done|by vm_compute| |by vm_compute];
    apply (bool_decide_unpack _); by vm_compute.
Qed.

End Theorems.

Section Witness.
#[local] Existing Instance Samples.toyEd.
#[local] Existing Instance DiscoveryTheorems.Demo.toy_keys.
#[local] Existing Instance DiscoveryTheorems.Demo.toy_suite.

Let request : Request := MkRequest MethodGet "/" "" ∅ "" false.

Lemma landing_page_is_closed_witness :
  ∃ resp, Status resp = 200%Z ∧ RespBody resp = BText pageHTML.
Proof.
  destruct (landing_page_is_closed request eq_refl eq_refl) as (resp & _ & Hs & Hb & _).
  exists resp. split; [exact Hs|exact Hb].
Defined.

End Witness.
