(* ===== verification/ListenerTheorems.v ===== *)
(** * Properties of the relay's listeners *)

From S2P Require Import Prelude GoStrings GoTime Http Trim Storage Sql SQLite SQLiteRefines Crypto.
From S2P Require Import Mailbox Pairflow Sweep Sched Middleware MiddlewareTheorems Mux MuxSpec.
From S2P Require Import Document Discovery DiscoveryTheorems Effects Relay Listeners Routes Samples.

Local Open Scope Z_scope.

Section Theorems.
Context `{Ed : Ed25519} `{Keys : Ed25519Keys} `{Suite : AeadSuite} `{Bucket : TokenBucket}.
Context (perSecond : Z → Z → Rate) (interchangeID ownerSecret pageHTML : string) (values : Values).

(** C6: nothing but the owner's secret on the tailnet listener makes a pair.
    Whatever requests the public listener takes and the tailnet listener takes
    without the configured secret, whenever sweeps run, in every interleaving and
    with any driver failures: no pair appears, changes or disappears, no request
    disappears, a request changes only by expiring, and a new one is pending or
    expired and names no pair and no owner half. *)
Theorem only_the_owner_approves (d0 : DB) (c : pool) :
  rtc (pool_step (ownerless_task perSecond interchangeID ownerSecret pageHTML values)) (d0, []) c →
  pairs (fst c) = pairs d0 ∧
  (∀ id r, pair_requests d0 !! id = Some r →
     pair_requests (fst c) !! id = Some r ∨
     rr_status r = StatusPending ∧
     pair_requests (fst c) !! id = Some (with_status StatusExpired None None r)) ∧
  (∀ id r, pair_requests d0 !! id = None → pair_requests (fst c) !! id = Some r →
     (rr_status r = StatusPending ∨ rr_status r = StatusExpired) ∧
     rr_path_id r = None ∧ rr_owner_json r = None).
Proof.
  intros Hr. eapply (pool_invariant (λ _, True) untouched) in Hr; [|apply ownerless_safe|done].
  destruct Hr as [_ [Hp Hq]]. split; [done|]. split; intros id r Hr.
  - specialize (Hq id). rewrite Hr in Hq. simpl in Hq.
    destruct (pair_requests (fst c) !! id) as [r'|]; [|done].
    destruct Hq as [-> | [Hs ->]]; [by left|by right].
  - intros Hr'. specialize (Hq id). rewrite Hr, Hr' in Hq.
    destruct Hq as (r0 & (Hs & Hpath & Howner) & [-> | ->]); [by auto|].
    simpl. split; [by right|]. by rewrite Hpath, Howner.
Qed.

(** A drain ends.  Once the listeners accept no more requests, the programs in
    progress, however interleaved and whatever fails, take at most nine more
    statements each; they can always go on to the end; and when nothing can go on,
    all of them have finished. *)
Theorem relay_drains (d0 : DB) (c : pool) :
  rtc (pool_step (process_task perSecond interchangeID ownerSecret pageHTML values)) (d0, []) c →
  (∀ n c', nsteps (pool_step closed) n c c' → (n <= 9 * length (snd c))%nat) ∧
  (∃ d', rtc (pool_step closed) c (d', replicate (length (snd c)) (Ret tt))) ∧
  (∀ c', rtc (pool_step closed) c c' → (¬ ∃ c'', pool_step closed c' c'') →
     snd c' = replicate (length (snd c)) (Ret tt)).
Proof.
  intros Hr. eapply (pool_budgets _ 9) in Hr; [|apply does_process_task].
  assert (budgets (replicate (length (snd c)) 9%nat) (snd c)) as Hb.
  { induction Hr; constructor; done. }
  split_and!.
  - intros n c' Hn. destruct (closed_steps _ _ _ _ Hn Hb) as [_ Hle].
    rewrite sum_list_replicate in Hle. lia.
  - destruct c as [d ts]. by apply (closed_finishes calm d ts _ Hb).
  - intros c' Hc Hstuck. apply rtc_nsteps in Hc as [n Hn].
    destruct (closed_steps _ _ _ _ Hn Hb) as [Hl _]. destruct c' as [d' ts'].
    destruct (closed_progress calm d' ts') as [?|E]; [done|]. simpl in *. congruence.
Qed.

(** Paths without escapes. *)
Lemma plain_routes (r : Request) :
  Method r ≠ MethodConnect → unescaped (Path r) → Path r ≠ "*"%string →
  let q := cleanPath (Path r) in
  let redirect to : Prog Reply := Ret (RedirectedTo to (RawQuery r)) in
  let answer (p : Prog Response) := let! resp := p in Ret (Replied resp) in
  serveMux (publicMux interchangeID pageHTML values) r (Path r) =
    (if String.eqb q "/mailbox" || String.eqb q "/pair" then redirect (q +:+ "/")
     else if negb (String.eqb q (Path r)) then redirect q
     else if HasPrefix q "/mailbox/" then answer (Mailbox.dispatch r)
     else if HasPrefix q "/pair/" then answer (dispatchPublic r)
     else answer (Ret
       (if String.eqb q "/.well-known/nexus-interchange" then DiscoveryHandler values interchangeID r
        else if String.eqb q "/health" then publicHealth r
        else if String.eqb q "/" then landingHandler pageHTML r
        else HttpNotFound))) ∧
  tailnetHandler ownerSecret r (Path r) =
    (if String.eqb q "/pair" then redirect (q +:+ "/")
     else if negb (String.eqb q (Path r)) then redirect q
     else if HasPrefix q "/pair/" then answer (dispatchOwner ownerSecret r)
     else answer (Ret (if String.eqb q "/health" then healthOK else HttpNotFound))).
Proof.
  intros Hm Hp Hs q redirect answer. destruct (cleanPath_rooted _ Hp) as (t & Hq & Ht).
  subst q. rewrite Hq. split.
  - rewrite (serveMux_plain _ _ t _ Hp Hm Hs Hq (public_slash _ _ _ r t Ht)), Hq, public_match by done.
    change (String.eqb (String "/" t) "/mailbox") with (String.eqb t "mailbox").
    change (String.eqb (String "/" t) "/pair") with (String.eqb t "pair").
    destruct (_ || _); [done|]. destruct (negb _) eqn:E; [done|].
    apply negb_false_iff, String.eqb_eq in E. unfold public_entry.
    change (HasPrefix (String "/" t) "/mailbox/") with (HasPrefix t "mailbox/").
    change (HasPrefix (String "/" t) "/pair/") with (HasPrefix t "pair/").
    destruct (HasPrefix t "mailbox/"); [done|]. destruct (HasPrefix t "pair/"); [done|].
    change (String.eqb (String "/" t) "/.well-known/nexus-interchange")
      with (String.eqb t ".well-known/nexus-interchange").
    change (String.eqb (String "/" t) "/health") with (String.eqb t "health").
    destruct (String.eqb t ".well-known/nexus-interchange"); [done|].
    destruct (String.eqb t "health"); [done|]. unfold static, landingHandler. rewrite <- E.
    by destruct (String.eqb (String "/" t) "/").
  - unfold tailnetHandler.
    rewrite (serveMux_plain _ _ t _ Hp Hm Hs Hq (tailnet_slash _ r t Ht)), Hq, tailnet_match by done.
    change (String.eqb (String "/" t) "/pair") with (String.eqb t "pair").
    destruct (String.eqb t "pair"); [done|]. destruct (negb _); [done|]. unfold tailnet_entry.
    change (HasPrefix (String "/" t) "/pair/") with (HasPrefix t "pair/").
    change (String.eqb (String "/" t) "/health") with (String.eqb t "health").
    destruct (HasPrefix t "pair/"); [done|]. by destruct (String.eqb t "health").
Qed.

(** C14: the routes.  A path without escapes is answered by exactly one handler: on
    the public listener the mailbox mux under /mailbox/, the requester's half of
    pairing under /pair/, discovery, health, the page at /, and 404 elsewhere; on
    the tailnet listener the owner's half of pairing under /pair/, health, and 404
    elsewhere.  A path that is not clean is redirected to its clean form, and a
    subtree without its slash to the subtree.  A path with escapes reaches a handler
    only when the path that handler reads is one it is registered for. *)
Theorem listener_routes (r : Request) :
  Method r ≠ MethodConnect →
  (unescaped (Path r) → Path r ≠ "*"%string →
   let q := cleanPath (Path r) in
   let redirect to : Prog Reply := Ret (RedirectedTo to (RawQuery r)) in
   let answer (p : Prog Response) := let! resp := p in Ret (Replied resp) in
   serveMux (publicMux interchangeID pageHTML values) r (Path r) =
     (if String.eqb q "/mailbox" || String.eqb q "/pair" then redirect (q +:+ "/")
      else if negb (String.eqb q (Path r)) then redirect q
      else if HasPrefix q "/mailbox/" then answer (Mailbox.dispatch r)
      else if HasPrefix q "/pair/" then answer (dispatchPublic r)
      else answer (Ret
        (if String.eqb q "/.well-known/nexus-interchange" then DiscoveryHandler values interchangeID r
         else if String.eqb q "/health" then publicHealth r
         else if String.eqb q "/" then landingHandler pageHTML r
         else HttpNotFound))) ∧
   tailnetHandler ownerSecret r (Path r) =
     (if String.eqb q "/pair" then redirect (q +:+ "/")
      else if negb (String.eqb q (Path r)) then redirect q
      else if HasPrefix q "/pair/" then answer (dispatchOwner ownerSecret r)
      else answer (Ret (if String.eqb q "/health" then healthOK else HttpNotFound)))) ∧
  (∀ mux escaped h, mux ∈ [publicMux interchangeID pageHTML values; tailnetMux ownerSecret] →
     PathUnescape escaped = Some (Path r) → ServeMux mux r escaped = MuxServe h →
     ∃ p, (p, h) ∈ mux ∧ under p (Path r)).
Proof.
  intros Hm. split; [by apply plain_routes|]. intros mux escaped h Hmux Hu. apply ServeMux_under; [|done..].
  rewrite !elem_of_cons, elem_of_nil in Hmux. destruct Hmux as [->|[->|[]]]; repeat constructor.
Qed.

End Theorems.

(** ** Witnesses *)

Section Witnesses.
Import MiddlewareTheorems.Demo.
#[local] Existing Instance DiscoveryTheorems.Demo.toy_keys.
#[local] Existing Instance DiscoveryTheorems.Demo.toy_suite.

(** Nanoseconds per token. *)
Definition demoRate (tokens seconds : Z) : Rate := seconds * Second / tokens.

Definition demoValues : Values :=
  MkValues (MkKeys "" "" "") "" (MkAEADExample "" "" "" "" "" "" "" "" "" "" "" "" "" "" "" "" "" "" "").

(** A requester posts its half. *)
Definition demo_request : Prog Reply := serveMux (publicMux "relay" "" demoValues) create_alice "/pair/request".

Lemma demo_admitted :
  (publicHandler demoRate "relay" "" demoValues create_alice "/pair/request" "10.0.0.1:99" noon noon ∅).1
  = inr demo_request.
Proof. reflexivity. Qed.

Definition after_request : DB := w_db (snd (Sql.run calm (serve demo_request) start)).

Lemma only_the_owner_approves_witness :
  pairs after_request = ∅ ∧
  (rr_status <$> pair_requests after_request !! request_id1) = Some StatusPending.
Proof.
  split; [|vm_compute; reflexivity].
  refine (proj1 (only_the_owner_approves demoRate "relay" "secret" "" demoValues empty_db
    (after_request, [Ret tt]) _)).
  eapply rtc_l; [|apply (run_steps calm _ (serve demo_request) start [])].
  apply PoolSpawn, OwnerlessPublic. by eapply PublicRequest, demo_admitted.
Defined.

Lemma relay_drains_witness :
  ∃ d, rtc (pool_step closed) (empty_db, [serve demo_request]) (d, [Ret tt]).
Proof.
  refine (proj1 (proj2 (relay_drains demoRate "relay" "secret" "" demoValues empty_db
    (empty_db, [serve demo_request]) _))).
  eapply rtc_l; [|apply rtc_refl].
  apply PoolSpawn. left. by eapply PublicRequest, demo_admitted.
Defined.

Lemma listener_routes_witness :
  serveMux (publicMux "relay" "" demoValues) create_alice "/pair/request" =
    (let! resp := dispatchPublic create_alice in Ret (Replied resp)).
Proof.
  exact (proj1 (proj1 (listener_routes "relay" "secret" "" demoValues create_alice ltac:(discriminate)) eq_refl
    ltac:(discriminate))).
Defined.

End Witnesses.
