(* ===== verification/Contract.v ===== *)
(** * The published contract and the one that is served

    A peer reads the endpoints and the limits out of the discovery document.  This
    file shows that the public listener serves each advertised endpoint with its
    handler, that the owner's endpoints, advertised as null, are not there, and which
    of the published limits and rules the handlers enforce. *)

From S2P Require Import Prelude GoStrings GoTime Codec Sha256 Http Trim Storage Sql SQLite Json JsonText JsonRead Patterns Replay Crypto.
From S2P Require Import Mailbox MailboxTheorems Pairflow PairflowKeys Middleware Mux MuxSpec.
From S2P Require Import Samples Document Discovery DiscoverySpec DiscoveryTheorems Relay Routes ListenerTheorems.

Local Open Scope string_scope.

(** ** Paths of plain segments *)

(** A segment that a mux leaves as it is. *)
Definition segment (s : string) : Prop := s ≠ "" ∧ element s ∧ unescaped s.

Lemma clean_go_id acc segs : Forall segment segs → clean_go acc segs = (reverse acc ++ segs)%list.
Proof.
  intros Hs. revert acc. induction Hs as [|s segs (Hne & [[Hd Hdd] _] & _) _ IH]; intros acc; simpl.
  - by rewrite app_nil_r.
  - rewrite (proj2 (String.eqb_neq _ _) Hne), (proj2 (String.eqb_neq _ _) Hd),
      (proj2 (String.eqb_neq _ _) Hdd). cbn [orb]. by rewrite IH, reverse_cons, <- app_assoc.
Qed.

Lemma rev_app_acc a b c : String.rev_app a (b +:+ c) = String.rev_app a b +:+ c.
Proof. revert b. induction a as [|x a IH]; intros b; [done|]. simpl. by rewrite <- IH. Qed.

Lemma HasSuffix_spec s p : HasSuffix s p = true → ∃ q, s = q +:+ p.
Proof.
  unfold HasSuffix. intros [r Hr]%HasPrefix_spec. exists (String.rev r).
  rewrite <- (rev_involutive s), Hr. unfold String.rev. rewrite rev_app_s.
  change (String.rev_app (String.rev_app p "") "") with (String.rev (String.rev p)).
  rewrite rev_involutive, <- rev_app_acc. done.
Qed.

Lemma last_segment segs : segs ≠ [] → Forall segment segs → HasSuffix (Join segs "/") "/" = false.
Proof.
  intros Hne Hs. apply not_true_is_false. intros [q Hq]%HasSuffix_spec.
  assert (Split (Join segs "/") "/" = segs) as Hsp.
  { apply Split_Join; [done|]. eapply Forall_impl; [exact Hs|]. by intros ? (_ & [_ ?] & _). }
  rewrite Hq in Hsp. rewrite Split_snoc in Hsp by done.
  rewrite <- Hsp in Hs. apply Forall_app in Hs as [_ Hs]. inversion Hs as [|? ? [Hx _] _]. done.
Qed.

Lemma cleanPath_segments segs :
  segs ≠ [] → Forall segment segs → cleanPath (String "/" (Join segs "/")) = String "/" (Join segs "/").
Proof.
  intros Hne Hs. unfold cleanPath.
  rewrite (HasPrefix_app "/" (Join segs "/") : HasPrefix (String "/" (Join segs "/")) "/" = true).
  unfold CleanRooted. rewrite Split_rooted.
  assert (Split (Join segs "/") "/" = segs) as ->.
  { apply Split_Join; [done|]. eapply Forall_impl; [exact Hs|]. by intros ? (_ & [_ ?] & _). }
  cbn [clean_go String.eqb orb]. rewrite clean_go_id by done. cbn [reverse app].
  destruct (HasSuffix (String "/" (Join segs "/")) "/") eqn:E; [|done].
  apply HasSuffix_spec in E as [q Hq]. destruct q as [|a q].
  { rewrite app_nil_l_s in Hq. injection Hq as Hj. destruct segs as [|w segs]; [done|].
    apply Forall_cons in Hs as [[Hw _] _]. by destruct w, segs. }
  rewrite app_cons_s in Hq. injection Hq as _ Hq.
  pose proof (last_segment segs Hne Hs) as H. by rewrite Hq, HasSuffix_slash in H.
Qed.

(** Tokens of the wire patterns are segments. *)
Lemma match_classes_bytes (q : ascii → bool) cs s :
  Forall (λ p : ascii → bool, ∀ c, p c = true → q c = true) cs → match_classes cs s = true → all_bytes q s = true.
Proof.
  intros Hcs. revert s. induction Hcs as [|p cs Hp _ IH]; intros [|c s]; simpl; try done.
  intros [Hc Hs]%andb_true_iff. by rewrite (Hp c Hc), (IH s Hs).
Qed.

Lemma token_segment s : s ≠ "" → all_bytes path_id_char s = true → segment s.
Proof.
  intros Hne Hs. assert (∀ c, path_id_char c = false → no_byte c s = true) as Hno.
  { intros c Hc. unfold no_byte. eapply all_bytes_impl; [|exact Hs]. intros a Ha.
    destruct (Ascii.eqb_spec a c); [congruence|done]. }
  repeat split; [done| | |by apply Hno..]; intros ->; by vm_compute in Hs.
Qed.

Lemma lower_hex_token c : lower_hex_digit c = true → path_id_char c = true.
Proof. unfold lower_hex_digit, path_id_char, between. intros H. bool_prop. revert H. case_goal; bool_prop; lia || done. Qed.

Lemma pathID_segment id : pathIDRegex id = true → segment id.
Proof.
  intros (r & -> & _ & Hr)%pathIDRegex_iff. apply token_segment; [done|].
  by rewrite all_bytes_app, Hr.
Qed.

Lemma uuid_segment id : uuidRegex id = true → segment id.
Proof.
  intros Hid. apply token_segment; [by intros ->|].
  apply (match_classes_bytes path_id_char _ _) in Hid; [done|].
  unfold hexes, dash, one. repeat (apply Forall_app; split);
    first [by apply Forall_replicate, lower_hex_token
          |constructor; [by intros c <-%Ascii.eqb_eq|done]].
Qed.

(** ** Reading the document *)

Definition json_int (j : gojson) (k : string) : Z :=
  match json_get k j with Some (GInt n) => n | _ => 0%Z end.

(** The method and the path an advertised endpoint asks for, its parameter filled
    in and its query left out. *)
Definition advertised (text param : string) : string * string :=
  match CutByte text " " with
  | Some (m, target) =>
      let path := match CutByte target "?" with Some (p, _) => p | None => target end in
      (m, Join (map (λ s, if HasPrefix s ":" then param else s) (Split path "/")) "/")
  | None => ("", "")
  end.

(** A request to an endpoint of the document. *)
Definition asks (j : gojson) (r : Request) (name param : string) : Prop :=
  (Method r, Path r) = advertised (json_str (json_path ["endpoints"] j) name) param.

(** A handler of the pairing mux, after the expiry both muxes start with. *)
Definition expiring `{Storage.Storage} (p : Prog Response) : Prog Response :=
  let! now := call Now in let! _ := ExpirePendingRequests now in p.

Definition answered (p : Prog Response) : Prog Reply := let! resp := p in Ret (Replied resp).

(** A request with another query. *)
Definition with_query (query : string) (r : Request) : Request :=
  MkRequest (Method r) (Path r) query (Header r) (BodyData r) (BodyErr r).

Lemma take_bytes_all n s : (String.length s <= n)%nat → take_bytes n s = s.
Proof.
  revert n. induction s as [|c s IH]; intros [|n] H; simpl in *; try done; [lia|]. by rewrite IH by lia.
Qed.

Lemma ReadAllLimited_cut r n :
  (0 <= n)%Z → BodyErr r = false → ReadAllLimited r n = Some (take_bytes (Z.to_nat n) (BodyData r)).
Proof.
  intros Hn E. unfold ReadAllLimited. rewrite E. destruct (Z.leb_spec n (len (BodyData r))) as [H|H]; [done|].
  rewrite take_bytes_all; [done|]. unfold len in H. lia.
Qed.

Section Contract.
Context `{Ed : Ed25519} `{Keys : Ed25519Keys} `{Suite : AeadSuite}.
Context (interchangeID pageHTML : string) (values : Values).

Abbreviation document := (marshal (New values interchangeID)).

(** What the public listener does with a request. *)
Abbreviation listens r := (serveMux (publicMux interchangeID pageHTML values) r (Path r)).

Lemma listens_segments r segs :
  segs ≠ [] → Forall segment segs → Path r = String "/" (Join segs "/") → Method r ≠ MethodConnect →
  String.eqb (Join segs "/") "mailbox" || String.eqb (Join segs "/") "pair" = false →
  listens r = answered (snd (public_entry interchangeID pageHTML values (Join segs "/")) r).
Proof.
  intros Hne Hs Hp Hm Hsub. assert (unescaped (Join segs "/")) as Ht.
  { apply Join_no_byte; [done|]. eapply Forall_impl; [exact Hs|]. by intros ? (_ & _ & ?). }
  pose proof (cleanPath_segments segs Hne Hs) as Hc.
  rewrite <- Hp in Hc at 1. assert (unescaped (Path r)) as Hu by by rewrite Hp.
  assert (Path r ≠ "*") as Hstar by by rewrite Hp.
  rewrite (serveMux_plain _ r _ _ Hu Hm Hstar Hc (public_slash _ _ _ r _ Ht)).
  rewrite Hsub, Hp, String.eqb_refl, public_match by done. cbn [negb].
  by destruct (public_entry _ _ _ _) as [[] h].
Qed.

Lemma asks_at r name param m p :
  asks document r name param →
  advertised (json_str (json_path ["endpoints"] document) name) param = (m, p) → Method r = m ∧ Path r = p.
Proof. unfold asks. intros H E. rewrite E in H. by injection H. Qed.

(** The pairing mux below its prefix. *)
Lemma dispatchPublic_create r :
  Path r = "/pair/request" → Method r = MethodPost → dispatchPublic r = expiring (createRequest r).
Proof. intros Hp Hm. unfold dispatchPublic, expiring. by rewrite Hp, Hm. Qed.

Lemma dispatchPublic_requests r t :
  Path r = "/pair/requests/" +:+ t →
  dispatchPublic r = expiring
    (match Split t "/" with
     | [id] => if negb (isEmpty id) && String.eqb (Method r) MethodGet then getRequestStatus id else Ret HttpNotFound
     | _ => Ret HttpNotFound
     end).
Proof.
  intros Hp. unfold dispatchPublic, expiring. rewrite Hp.
  change ("/pair/requests/" +:+ t) with ("/pair/" +:+ ("requests" +:+ String "/" t)).
  rewrite TrimPrefix_app, Split_app by done.
  assert (String.eqb ("requests" +:+ String "/" t) ("/pair/" +:+ ("requests" +:+ String "/" t)) = false) as ->.
  { apply String.eqb_neq. intros E. apply (f_equal String.length) in E. rewrite !length_app_s in E.
    simpl in E. lia. }
  pose proof (Split_nonempty t "/"). destruct (Split t "/") as [|id [|? ?]]; done.
Qed.

Lemma segment_split id : segment id → Split id "/" = [id] ∧ isEmpty id = false.
Proof. intros (Hne & [_ Hs] & _). split; [by apply Split_no_sep|]. by destruct id. Qed.

(** The public listener below a subtree of one segment, and at a path of its own. *)
Lemma listens_mailbox r segs :
  segs ≠ [] → Forall segment segs → Path r = "/mailbox/" +:+ Join segs "/" → Method r ≠ MethodConnect →
  listens r = answered (Mailbox.dispatch r).
Proof.
  intros Hne Hs Hp Hm. rewrite (listens_segments r ("mailbox" :: segs)); [|done| |by destruct segs|done|by destruct segs].
  - destruct segs as [|w segs]; [done|]. change (Join ("mailbox" :: w :: segs) "/") with ("mailbox/" +:+ Join (w :: segs) "/").
    unfold public_entry. by rewrite HasPrefix_app.
  - by constructor.
Qed.

Lemma listens_pair r segs :
  segs ≠ [] → Forall segment segs → Path r = "/pair/" +:+ Join segs "/" → Method r ≠ MethodConnect →
  listens r = answered (dispatchPublic r).
Proof.
  intros Hne Hs Hp Hm. rewrite (listens_segments r ("pair" :: segs)); [|done| |by destruct segs|done|by destruct segs].
  - destruct segs as [|w segs]; [done|]. change (Join ("pair" :: w :: segs) "/") with ("pair/" +:+ Join (w :: segs) "/").
    unfold public_entry. destruct (HasPrefix ("pair/" +:+ _) "mailbox/") eqn:E; [|by rewrite HasPrefix_app].
    by apply HasPrefix_spec in E as [x E].
  - by constructor.
Qed.

(** The text a GET is answered with reads as the document. *)
Definition sends_document (r : Request) : Prop :=
  ∃ text doc, RespBody (DiscoveryHandler values interchangeID r) = BText text ∧
    tree document = Some doc ∧ Parse text = Some doc.

Lemma document_sent r : Method r = MethodGet → sends_document r.
Proof.
  intros Hm. assert (∃ doc, tree document = Some doc) as [doc Hd] by (eexists; reflexivity).
  destruct (MarshalIndent_Parse "" document doc eq_refl Hd) as (text & Ht & Hp).
  { assert (depth document = 5%nat) as -> by (vm_compute; reflexivity). done. }
  exists text, doc. split; [|exact (conj Hd Hp)]. unfold DiscoveryHandler, discoveryBody. by rewrite Hm, Ht.
Qed.

(** Each advertised endpoint, at its own path and method. *)
Lemma endpoints_served r pathID id :
  pathIDRegex pathID = true → uuidRegex id = true →
  (asks document r "discovery" "" → listens r = answered (Ret (DiscoveryHandler values interchangeID r)) ∧
     sends_document r) ∧
  (asks document r "health" "" → listens r = answered (Ret healthOK)) ∧
  (asks document r "put" pathID → listens r = answered (put r pathID)) ∧
  (asks document r "pull" pathID → listens r = answered (get r pathID)) ∧
  (asks document r "ack" pathID → listens r = answered (ack r pathID)) ∧
  (asks document r "pair_request" "" → listens r = answered (expiring (createRequest r))) ∧
  (asks document r "pair_status" id → listens r = answered (expiring (getRequestStatus id))).
Proof.
  intros Hp Hid. pose proof (pathID_segment _ Hp) as Sp. pose proof (uuid_segment _ Hid) as Si.
  destruct (dispatch_at _ EdVerifier r pathID Hp) as (Dput & Dget & Dack).
  split_and!; intros H.
  - apply (asks_at _ _ _ "GET" "/.well-known/nexus-interchange") in H as [Hm Hr]; [|reflexivity]. split.
    + rewrite (listens_segments r [".well-known"; "nexus-interchange"]); [done|done| |done|by rewrite Hm|done].
      by repeat constructor.
    + by apply document_sent.
  - apply (asks_at _ _ _ "GET" "/health") in H as [Hm Hr]; [|reflexivity].
    rewrite (listens_segments r ["health"]); [|done|by repeat constructor|done|by rewrite Hm|done].
    change (answered (Ret (publicHealth r)) = answered (Ret healthOK)). unfold publicHealth. by rewrite Hm.
  - apply (asks_at _ _ _ "PUT" ("/mailbox/" +:+ pathID)) in H as [Hm Hr]; [|reflexivity].
    rewrite (listens_mailbox r [pathID]); [|done|by constructor|done|by rewrite Hm]. by rewrite Dput.
  - apply (asks_at _ _ _ "GET" ("/mailbox/" +:+ pathID)) in H as [Hm Hr]; [|reflexivity].
    rewrite (listens_mailbox r [pathID]); [|done|by constructor|done|by rewrite Hm]. by rewrite Dget.
  - apply (asks_at _ _ _ "POST" ("/mailbox/" +:+ pathID +:+ "/ack")) in H as [Hm Hr]; [|reflexivity].
    rewrite (listens_mailbox r [pathID; "ack"]); [|done|constructor; [exact Sp|by repeat constructor]|done|by rewrite Hm]. by rewrite Dack.
  - apply (asks_at _ _ _ "POST" "/pair/request") in H as [Hm Hr]; [|reflexivity].
    rewrite (listens_pair r ["request"]); [|done|by repeat constructor|done|by rewrite Hm].
    by rewrite dispatchPublic_create.
  - apply (asks_at _ _ _ "GET" ("/pair/requests/" +:+ id)) in H as [Hm Hr]; [|reflexivity].
    rewrite (listens_pair r ["requests"; id]); [|done|apply Forall_cons; split; [by repeat constructor|by constructor]|done|by rewrite Hm].
    rewrite (dispatchPublic_requests r id) by done. destruct (segment_split id Si) as [-> ->]. by rewrite Hm.
Qed.

(** The owner's endpoints are not on the public listener. *)
Lemma owner_endpoint_absent r id verb :
  segment id → segment verb → Path r = "/pair/requests/" +:+ id +:+ "/" +:+ verb → Method r ≠ MethodConnect →
  listens r = answered (expiring (Ret HttpNotFound)).
Proof.
  intros Si Sv Hp Hm. pose proof (proj2 (proj1 (proj2 Si))) as Ni. pose proof (proj2 (proj1 (proj2 Sv))) as Nv.
  rewrite (listens_pair r ["requests"; id; verb]); [|done| |done|done].
  - rewrite (dispatchPublic_requests r (id +:+ String "/" verb)) by done.
    by rewrite Split_app, (Split_no_sep verb) by done.
  - by repeat (apply Forall_cons; split; [first [done|by repeat constructor]|]).
Qed.

(** *** Sizes *)

Lemma canonicalJSON_length env :
  Forall (λ s, all_bytes plain_char s = true)
    [Ciphertext env; CiphertextSHA256 env; MsgID env; PathID env; Ts env; Version env] →
  len (canonicalJSON env) = (86 + len (Ciphertext env) + len (CiphertextSHA256 env) + len (MsgID env) +
    len (PathID env) + len (Ts env) + len (Version env))%Z.
Proof.
  intros H. repeat (apply Forall_cons in H as [? H]).
  unfold canonicalJSON, encode_object, canonical_members, members_to, quote_to.
  rewrite !escape_plain by done. unfold len.
  repeat (simpl String.length; rewrite length_app_s). simpl String.length. lia.
Qed.

(** C15: where the discovery document and the public listener agree, and where they
    do not.  They agree on: each of the seven endpoints it advertises, its parameter
    filled in with a well-formed id, is answered there by the handler of that
    endpoint, and the text of the document reads as the document; the owner's
    endpoints are null in the document, and their paths answer 404 there for any
    method; the replay window, for timestamps less than 2^63 ns (292 years) ahead of
    the clock; the lifetime of a new request; an algorithm that is not published is
    refused; and an envelope around a ciphertext of the published size, with 256 KiB
    to spare, is read in full.  They do not on: the size, since a body is cut at
    twice the published size only; and the signature of an ack, which the document
    says covers path and query: what an ack does does not depend on its query. *)
Theorem contract_is_served (r : Request) :
  let j := document in
  let limits := json_path ["limits"] j in
  (∀ pathID id, pathIDRegex pathID = true → uuidRegex id = true →
     (asks j r "discovery" "" → listens r = answered (Ret (DiscoveryHandler values interchangeID r)) ∧
        sends_document r) ∧
     (asks j r "health" "" → listens r = answered (Ret healthOK)) ∧
     (asks j r "put" pathID → listens r = answered (put r pathID)) ∧
     (asks j r "pull" pathID → listens r = answered (get r pathID)) ∧
     (asks j r "ack" pathID → listens r = answered (ack r pathID)) ∧
     (asks j r "pair_request" "" → listens r = answered (expiring (createRequest r))) ∧
     (asks j r "pair_status" id → listens r = answered (expiring (getRequestStatus id)))) ∧
  (∀ name id verb, (name, verb) ∈ [("pair_approve", "approve"); ("pair_deny", "deny")] →
     json_get name (json_path ["endpoints"] j) = Some GNull ∧
     (uuidRegex id = true → Path r = "/pair/requests/" +:+ id +:+ "/" +:+ verb → Method r ≠ MethodConnect →
      listens r = answered (expiring (Ret HttpNotFound)))) ∧
  (∀ ts t now, parse_ts ts = Some t → (t - now < 2 ^ 63)%Z →
     tsInWindow ts now = true ↔ (Z.abs (now - t) <= json_int limits "replay_window_seconds" * Second)%Z) ∧
  requestTTL = (json_int (json_path ["pairing"] j) "request_ttl_hours" * Hour)%Z ∧
  (∀ h h', parseHalf h = inl h' → ∃ algs,
     json_get "algorithms" (json_path ["crypto"; "signing"] j) = Some (GList algs) ∧ GStr (SigAlg h') ∈ algs) ∧
  (∀ env raw, Ciphertext env = RawURLEncode raw → (len raw <= json_int limits "body_max_bytes" + 262144)%Z →
     Forall (λ s, all_bytes plain_char s = true ∧ (len s <= 64)%Z)
       [CiphertextSHA256 env; MsgID env; PathID env; Ts env; Version env] →
     BodyData r = canonicalJSON env → BodyErr r = false →
     ReadAllLimited r (Z.shiftl 2 20) = Some (canonicalJSON env)) ∧
  (BodyErr r = false →
     ReadAllLimited r (Z.shiftl 2 20) =
       Some (take_bytes (Z.to_nat (2 * json_int limits "body_max_bytes")) (BodyData r))) ∧
  (∀ pathID query,
     Contains (json_str (json_path ["crypto"; "signing"] j) "what_is_signed")
       "ack: POST /mailbox/:pathId/ack signs path+query" = true ∧
     Contains (json_str (json_path ["auth"] j) "note") "POST /mailbox/:pathId/ack signs path+query" = true ∧
     ack (with_query query r) pathID = ack r pathID).
Proof.
  cbv zeta. split_and!.
  - intros pathID id. apply endpoints_served.
  - intros name id verb Hn. assert (segment verb) as Sv.
    { repeat (apply elem_of_cons in Hn as [[= -> ->]|Hn]; [by repeat split|]). by apply elem_of_nil in Hn. }
    split; [|intros Hid%uuid_segment Hp Hm; by apply (owner_endpoint_absent r id verb)].
    repeat (apply elem_of_cons in Hn as [[= -> ->]|Hn]; [reflexivity|]). by apply elem_of_nil in Hn.
  - intros ts t now Hts Hlt. rewrite tsInWindow_iff, Hts.
    change (json_int _ _) with 300%Z. unfold fresh, overflows, replayWindow, Minute.
    split; [intros (t' & [= <-] & [H|H]); lia|intros H; exists t; split; [done|left; lia]].
  - reflexivity.
  - intros h h' (raw & Hv & ->)%parseHalf_valid. exists [GStr "ed25519"]. split; [reflexivity|].
    change (SigAlg (set_pubkeyRaw raw h)) with (SigAlg h). rewrite (v_SigAlg _ _ Hv). by left.
  - intros env raw Hc Hlen Hf Hb He. change (json_int _ _) with 1048576%Z in Hlen.
    repeat (apply Forall_cons in Hf as [[? ?] Hf]). rewrite <- Hb. apply ReadAllLimited_short; [|done].
    pose proof (RawURLEncode_length raw) as L. rewrite Hb, canonicalJSON_length, Hc.
    + change (Z.shiftl 2 20) with 2097152%Z. unfold len in *. revert L. Z.to_euclidean_division_equations. lia.
    + rewrite Hc. apply Forall_cons. split; [|by repeat constructor].
      eapply all_bytes_impl; [|apply RawURLEncode_alphabet]. apply b64_char_is_plain.
  - change (json_int _ _) with 1048576%Z. by apply (ReadAllLimited_cut r 2097152).
  - intros pathID query. split; [vm_compute; reflexivity|]. split; [vm_compute; reflexivity|]. reflexivity.
Qed.

End Contract.

Section Witness.
Import MiddlewareTheorems.Demo.
#[local] Existing Instance DiscoveryTheorems.Demo.toy_keys.
#[local] Existing Instance DiscoveryTheorems.Demo.toy_suite.

Let document : gojson := marshal (New demoValues "relay").
Let listens (r : Request) : Prog Reply := serveMux (publicMux "relay" "" demoValues) r (Path r).

(** The sample requests are the ones the document asks for. *)
Lemma contract_is_served_witness :
  asks document Samples.post_message "put" Samples.pathAB ∧
  listens Samples.post_message = answered (put Samples.post_message Samples.pathAB) ∧
  asks document Samples.create_alice "pair_request" "" ∧
  listens Samples.create_alice = answered (expiring (createRequest Samples.create_alice)).
Proof.
  pose proof (contract_is_served "relay" "" demoValues Samples.post_message) as (H & _).
  pose proof (contract_is_served "relay" "" demoValues Samples.create_alice) as (H' & _).
  destruct (H Samples.pathAB Samples.request_id1) as (_ & _ & Hput & _); [reflexivity..|].
  destruct (H' Samples.pathAB Samples.request_id1) as (_ & _ & _ & _ & _ & Hc & _); [reflexivity..|].
  split; [reflexivity|]. split; [apply Hput; reflexivity|]. split; [reflexivity|apply Hc; reflexivity].
Defined.

End Witness.
