(* ===== verification/Process.v ===== *)
(** * The running relay

    cmd/interchange/main.go from the listeners to the end of the process: the two
    http.Servers and their connections, the sweeper's goroutine, the limiter's
    eviction loop, the signal, and the shutdown in [main].  One step of the process
    is one step of one goroutine; SQL statements are atomic, as in [Sched]. *)

From S2P Require Import Prelude GoStrings GoTime Http Trim Crypto CommandLine Middleware.
From S2P Require Import Storage Sql SQLite SQLiteRefines Mailbox Pairflow Sweep Sched Mux Discovery Relay.

Local Open Scope Z_scope.

(** ** State *)

(** A connection that waits for a request, or runs a handler. *)
Inductive Conn : Type :=
| Idle
| Busy (p : Prog unit).

Inductive ServerStatus : Type := NotListening | Listening | ShutDown.

Record HttpServer : Type := MkHttpServer {
  hs_status : ServerStatus;
  hs_conns : list Conn
}.

(** The goroutine of [sw.Run]: in its [select], in [Once], or over. *)
Inductive Sweeper : Type :=
| SweeperWaits
| Sweeps (p : Prog unit)
| SweeperReturned.

(** Where [main] is: at the signal, in the two calls of Shutdown, at
    [sweepWG.Wait], after its deferred calls; the exits of the process, by the end
    of [main] and by [log.Fatalf]. *)
Inductive Main : Type :=
| AwaitsSignal
| DrainsPublic
| DrainsTailnet
| AwaitsSweeper
| MainReturned
| Exited
| Crashed.

Section Process.
Context `{Ed : Ed25519} `{Keys : Ed25519Keys} `{Suite : AeadSuite} `{Bucket : TokenBucket}.
Context (perSecond : Z → Z → Rate) (flags : Flags) (pageHTML : string) (values : Values).
Context (isCanceled : error → bool).

Abbreviation Buckets := (gmap string (gmap string bucket)).

(** The contexts of the two drains are their deadlines, [None] before they are made;
    [ps_stop] is the closed channel of the limiter. *)
Record Process : Type := MkProcess {
  ps_main : Main;
  ps_public : HttpServer;
  ps_tailnet : HttpServer;
  ps_pubCtx : option Time;
  ps_tailCtx : option Time;
  ps_sweeper : Sweeper;
  ps_buckets : Buckets;
  ps_evicting : bool;
  ps_stop : bool;
  ps_db : DB;
  ps_closed : bool;
  ps_clock : Time;
  ps_signalled : bool
}.

Definition newProcess (d : DB) (t : Time) : Process :=
  MkProcess AwaitsSignal (MkHttpServer NotListening []) (MkHttpServer NotListening []) None None
    SweeperWaits ∅ true false d false t false.

Inductive Listener : Type := Public | Tailnet.

#[export] Instance Listener_dec : EqDecision Listener.
Proof. solve_decision. Defined.

Definition server (l : Listener) (s : Process) : HttpServer :=
  match l with Public => ps_public s | Tailnet => ps_tailnet s end.

Definition context (l : Listener) (s : Process) : option Time :=
  match l with Public => ps_pubCtx s | Tailnet => ps_tailCtx s end.

Abbreviation status l s := (hs_status (server l s)).
Abbreviation conns l s := (hs_conns (server l s)).

Definition set_main (m : Main) (s : Process) : Process :=
  MkProcess m (ps_public s) (ps_tailnet s) (ps_pubCtx s) (ps_tailCtx s) (ps_sweeper s)
    (ps_buckets s) (ps_evicting s) (ps_stop s) (ps_db s) (ps_closed s) (ps_clock s)
    (ps_signalled s).

Definition set_server (l : Listener) (h : HttpServer) (s : Process) : Process :=
  MkProcess (ps_main s)
    (match l with Public => h | Tailnet => ps_public s end)
    (match l with Public => ps_tailnet s | Tailnet => h end)
    (ps_pubCtx s) (ps_tailCtx s) (ps_sweeper s) (ps_buckets s) (ps_evicting s) (ps_stop s)
    (ps_db s) (ps_closed s) (ps_clock s) (ps_signalled s).

Definition set_status (l : Listener) (st : ServerStatus) (s : Process) : Process :=
  set_server l (MkHttpServer st (conns l s)) s.

Definition set_conns (l : Listener) (cs : list Conn) (s : Process) : Process :=
  set_server l (MkHttpServer (status l s) cs) s.

Definition set_sweeper (w : Sweeper) (s : Process) : Process :=
  MkProcess (ps_main s) (ps_public s) (ps_tailnet s) (ps_pubCtx s) (ps_tailCtx s) w (ps_buckets
    s) (ps_evicting s) (ps_stop s) (ps_db s) (ps_closed s) (ps_clock s) (ps_signalled s).

Definition set_buckets (b : Buckets) (s : Process) : Process :=
  MkProcess (ps_main s) (ps_public s) (ps_tailnet s) (ps_pubCtx s) (ps_tailCtx s) (ps_sweeper s)
    b (ps_evicting s) (ps_stop s) (ps_db s) (ps_closed s) (ps_clock s) (ps_signalled s).

Definition set_evicting (b : bool) (s : Process) : Process :=
  MkProcess (ps_main s) (ps_public s) (ps_tailnet s) (ps_pubCtx s) (ps_tailCtx s) (ps_sweeper s)
    (ps_buckets s) b (ps_stop s) (ps_db s) (ps_closed s) (ps_clock s) (ps_signalled s).

Definition set_database (d : DB) (s : Process) : Process :=
  MkProcess (ps_main s) (ps_public s) (ps_tailnet s) (ps_pubCtx s) (ps_tailCtx s) (ps_sweeper s)
    (ps_buckets s) (ps_evicting s) (ps_stop s) d (ps_closed s) (ps_clock s) (ps_signalled s).

Definition set_clock (t : Time) (s : Process) : Process :=
  MkProcess (ps_main s) (ps_public s) (ps_tailnet s) (ps_pubCtx s) (ps_tailCtx s) (ps_sweeper s)
    (ps_buckets s) (ps_evicting s) (ps_stop s) (ps_db s) (ps_closed s) t (ps_signalled s).

Definition set_signalled (b : bool) (s : Process) : Process :=
  MkProcess (ps_main s) (ps_public s) (ps_tailnet s) (ps_pubCtx s) (ps_tailCtx s) (ps_sweeper s)
    (ps_buckets s) (ps_evicting s) (ps_stop s) (ps_db s) (ps_closed s) (ps_clock s) b.

(** ** Operations *)

Definition drainWindow : Duration := 10 * Second.

(** [Shutdown] with a new context: the listener closes at once. *)
Definition beginDrain (l : Listener) (s : Process) : Process :=
  let s := set_status l ShutDown s in
  let deadline := Some (ps_clock s + drainWindow) in
  MkProcess (match l with Public => DrainsPublic | Tailnet => DrainsTailnet end)
    (ps_public s) (ps_tailnet s)
    (match l with Public => deadline | Tailnet => ps_pubCtx s end)
    (match l with Public => ps_tailCtx s | Tailnet => deadline end)
    (ps_sweeper s) (ps_buckets s) (ps_evicting s) (ps_stop s) (ps_db s) (ps_closed s)
    (ps_clock s) (ps_signalled s).

(** [rateShutdown()] *)
Definition stopLimiter (s : Process) : Process :=
  MkProcess AwaitsSweeper (ps_public s) (ps_tailnet s) (ps_pubCtx s) (ps_tailCtx s) (ps_sweeper
    s) (ps_buckets s) (ps_evicting s) true (ps_db s) (ps_closed s) (ps_clock s) (ps_signalled s).

(** The deferred calls of [main]; the last is [store.Close]. *)
Definition returnMain (s : Process) : Process :=
  MkProcess MainReturned (ps_public s) (ps_tailnet s) (ps_pubCtx s) (ps_tailCtx s) (ps_sweeper
    s) (ps_buckets s) (ps_evicting s) (ps_stop s) (ps_db s) true (ps_clock s) (ps_signalled s).

Definition sweepConfig : Config := defaults (MkConfig (f_sweepInterval flags) (f_envelopeMaxAge flags)).

(** A request on a waiting connection of the public listener, between the others. *)
Definition servePublic (before after : list Conn) (r : Request) (escaped remoteAddr : string)
    (now now' : Time) (s : Process) : Process :=
  let '(res, buckets) :=
    publicHandler perSecond (f_interchangeID flags) pageHTML values r escaped remoteAddr now now' (ps_buckets s) in
  set_buckets buckets
    match res with
    | inl _ => s
    | inr p => set_conns Public (before ++ Busy (serve p) :: after) s
    end.

Definition serveTailnet (before after : list Conn) (r : Request) (escaped : string) (s : Process) : Process :=
  set_conns Tailnet (before ++ Busy (serve (tailnetHandler (f_ownerSecret flags) r escaped)) :: after) s.

(** A statement on the database, which fails when it is closed. *)
Definition db_step (closed : bool) {X} (stmt : Stmt X) (d : DB) (x : X) (d' : DB) : Prop :=
  if closed
  then d' = d ∧ ∃ e w w', DriverOK e ∧ (∀ n, is_Some (env_fault e n)) ∧ w_db w = d ∧ exec e stmt w = (x, w')
  else stmt_step stmt d x d'.

(** ** Steps *)

(** A program in progress, and the process with another in its place. *)
Inductive runs_at (s : Process) : Prog unit → (Prog unit → Process) → Prop :=
| RunsConn l before after p :
    conns l s = before ++ Busy p :: after →
    runs_at s p (λ q, set_conns l (before ++ Busy q :: after) s)
| RunsSweep p :
    ps_sweeper s = Sweeps p → runs_at s p (λ q, set_sweeper (Sweeps q) s).

(** A call of Shutdown returns. *)
Definition drained (l : Listener) (s : Process) : Prop :=
  conns l s = [] ∨ ∃ deadline, context l s = Some deadline ∧ deadline <= ps_clock s.

Inductive main_step (s : Process) : Process → Prop :=
| MainSignalled :
    ps_main s = AwaitsSignal → ps_signalled s = true → main_step s (beginDrain Public s)
| MainPublicDrained :
    ps_main s = DrainsPublic → drained Public s → main_step s (beginDrain Tailnet s)
| MainTailnetDrained :
    ps_main s = DrainsTailnet → drained Tailnet s → main_step s (stopLimiter s)
| MainSweeperReturned :
    ps_main s = AwaitsSweeper → ps_sweeper s = SweeperReturned → main_step s (returnMain s)
| MainExits :
    ps_main s = MainReturned → main_step s (set_main Exited s).

Inductive conn_step (s : Process) : Process → Prop :=
| ConnAccepted l :
    status l s = Listening → conn_step s (set_conns l (Idle :: conns l s) s)
| ConnClosed l before after :
    conns l s = before ++ Idle :: after → conn_step s (set_conns l (before ++ after) s)
| ConnPublic before after r escaped remoteAddr now now' :
    conns Public s = before ++ Idle :: after →
    conn_step s (servePublic before after r escaped remoteAddr now now' s)
| ConnTailnet before after r escaped :
    conns Tailnet s = before ++ Idle :: after →
    conn_step s (serveTailnet before after r escaped s)
| ConnAnswered l before after :
    conns l s = before ++ Busy (Ret tt) :: after →
    (* kept alive until the server shuts down *)
    conn_step s (set_conns l (before ++ (match status l s with ShutDown => [] | _ => [Idle] end) ++ after) s).

Inductive sweeper_step (s : Process) : Process → Prop :=
| SweeperTick :
    ps_sweeper s = SweeperWaits →
    sweeper_step s (set_sweeper (Sweeps (serve (Once isCanceled sweepConfig))) s)
| SweeperSwept : ps_sweeper s = Sweeps (Ret tt) → sweeper_step s (set_sweeper SweeperWaits s)
| SweeperCanceled :
    ps_sweeper s = SweeperWaits → ps_signalled s = true →
    sweeper_step s (set_sweeper SweeperReturned s).

Inductive evict_step (s : Process) : Process → Prop :=
| EvictTick now :
    ps_evicting s = true →
    evict_step s (set_buckets (evict (rateCfg perSecond) now (ps_buckets s)) s)
| EvictReturned :
    ps_evicting s = true → ps_stop s = true → evict_step s (set_evicting false s).

Inductive any_step (s : Process) : Process → Prop :=
| StepTime t : ps_clock s <= t → any_step s (set_clock t s)
| StepSignal : any_step s (set_signalled true s)
| StepListens l : status l s = NotListening → any_step s (set_status l Listening s)
| StepServeFails l : status l s ≠ ShutDown → any_step s (set_main Crashed s)
| StepStatement X (stmt : Stmt X) k fill x d :
    runs_at s (Vis stmt k) fill → db_step (ps_closed s) stmt (ps_db s) x d →
    any_step s (set_database d (fill (k x)))
| StepMain s' : main_step s s' → any_step s s'
| StepConn s' : conn_step s s' → any_step s s'
| StepSweeper s' : sweeper_step s s' → any_step s s'
| StepEvict s' : evict_step s s' → any_step s s'.

(** The process ends with [main], and with a fatal error. *)
Definition alive (s : Process) : Prop := ps_main s ≠ Exited ∧ ps_main s ≠ Crashed.

Definition step (s s' : Process) : Prop := alive s ∧ any_step s s'.

(** States of the process from a database and a time of the clock. *)
Definition reachable (d : DB) (t : Time) (s : Process) : Prop := rtc step (newProcess d t) s.

End Process.

Abbreviation status l s := (hs_status (server l s)).
Abbreviation conns l s := (hs_conns (server l s)).
