(* ===== verification/ProcessSpec.v ===== *)
(** * Lemmas on the running relay

    What the setters leave alone, the programs in progress, and that every step of
    the process keeps the invariant of the tables and the bound of the limiter. *)

From S2P Require Import Prelude GoStrings GoTime Http Trim Crypto CommandLine Middleware.
From S2P Require Import Storage Sql SQLite SQLiteRefines Mailbox Pairflow Sweep Sched Concurrent Mux MuxSpec.
From S2P Require Import Discovery Effects Relay Listeners Process.

Local Open Scope Z_scope.

(** A conforming driver that fails every statement changes nothing. *)
Lemma failing_exec {X} e (stmt : Stmt X) w x w' :
  (∀ n, is_Some (env_fault e n)) → exec e stmt w = (x, w') → w_db w' = w_db w.
Proof.
  intros Hf H. destruct (Hf (w_stmts w)) as [msg Hm].
  destruct stmt; cbn [exec] in H; unfold sql in H; rewrite ?Hm in H; by injection H as _ <-.
Qed.

(** So it is a statement like any other. *)
Lemma db_step_stmt closed {X} (stmt : Stmt X) d x d' :
  db_step closed stmt d x d' → stmt_step stmt d x d'.
Proof.
  destruct closed; [|done]. intros (-> & e & w & w' & Hd & Hf & <- & Hx).
  exists e, w, w'. split_and!; [done..|]. by apply (failing_exec e stmt w x).
Qed.

Lemma db_step_open closed {X} (stmt : Stmt X) d x d' :
  closed = false → stmt_step stmt d x d' → db_step closed stmt d x d'.
Proof. by intros ->. Qed.

Section Spec.
Context `{Ed : Ed25519} `{Keys : Ed25519Keys} `{Suite : AeadSuite} `{Bucket : TokenBucket}.
Context (perSecond : Z → Z → Rate) (flags : Flags) (pageHTML : string) (values : Values).
Context (isCanceled : error → bool).

Implicit Type s : Process.

(** ** Programs in progress *)

Definition conn_all (P : Prog unit → Prop) (c : Conn) : Prop :=
  match c with Idle => True | Busy p => P p end.

Definition sweeper_all (P : Prog unit → Prop) (w : Sweeper) : Prop :=
  match w with Sweeps p => P p | _ => True end.

(** Every program of a process. *)
Record everywhere (P : Prog unit → Prop) s : Prop := Everywhere {
  ev_conns : ∀ l, Forall (conn_all P) (conns l s);
  ev_sweeper : sweeper_all P (ps_sweeper s)
}.

Lemma everywhere_mono (P Q : Prog unit → Prop) s : (∀ p, P p → Q p) → everywhere P s → everywhere Q s.
Proof.
  intros HPQ [Hc Hw]. split.
  - intros l. eapply Forall_impl; [apply Hc|]. intros [|p]; [done|apply HPQ].
  - destruct (ps_sweeper s); [done|by apply HPQ|done].
Qed.

Lemma everywhere_conns P l cs s :
  everywhere P s → Forall (conn_all P) cs → everywhere P (set_conns l cs s).
Proof. intros [Hc Hw] Hcs. split; [|done]. intros l'. pose proof (Hc l'). by destruct l, l'. Qed.

Lemma everywhere_sweeper P w s : everywhere P s → sweeper_all P w → everywhere P (set_sweeper w s).
Proof. intros [Hc Hw] Hp. split; [|done]. intros l. pose proof (Hc l). by destruct l. Qed.

(** Changes of the rest. *)
Lemma everywhere_same P s s' :
  (∀ l, conns l s' = conns l s) → ps_sweeper s' = ps_sweeper s → everywhere P s → everywhere P s'.
Proof. intros Hc Hw [H1 H2]. split; [intros l; by rewrite Hc|by rewrite Hw]. Qed.

Lemma everywhere_at P s p fill :
  runs_at s p fill → everywhere P s → P p ∧ ∀ q, P q → everywhere P (fill q).
Proof.
  intros [l before after p0 E|p0 E] He.
  - pose proof (ev_conns _ _ He l) as Hl. rewrite E in Hl.
    apply Forall_app in Hl as [Hb Ha]. inversion Ha as [|? ? Hp Hr]; subst. split; [done|].
    intros q Hq. apply everywhere_conns; [done|]. apply Forall_app. split; [done|]. by constructor.
  - pose proof (ev_sweeper _ _ He) as Hw. rewrite E in Hw. split; [done|].
    intros q Hq. by apply everywhere_sweeper.
Qed.

(** ** The programs started *)

(** What requests and sweeps start satisfies a property of programs. *)
Record starts (P : Prog unit → Prop) : Prop := Starts {
  st_ret : P (Ret tt);
  st_public : ∀ p, public_task perSecond (f_interchangeID flags) pageHTML values p → P p;
  st_tailnet : ∀ r escaped, P (serve (tailnetHandler (f_ownerSecret flags) r escaped));
  st_sweep : P (serve (Once isCanceled (sweepConfig flags)))
}.

Lemma cut_conns P s l before c after :
  everywhere P s → conns l s = before ++ c :: after →
  Forall (conn_all P) before ∧ Forall (conn_all P) after.
Proof.
  intros [Hc _] E. specialize (Hc l). rewrite E in Hc. apply Forall_app in Hc as [Hb Ha].
  split; [done|]. by inversion Ha.
Qed.

Lemma everywhere_conn_step P s s' :
  starts P → everywhere P s → conn_step perSecond flags pageHTML values s s' → everywhere P s'.
Proof.
  intros HP He [l Hl|l before after E|before after r escaped a now now' E|before after r escaped E|l before after E].
  - apply everywhere_conns; [done|]. constructor; [done|apply He].
  - destruct (cut_conns _ _ _ _ _ _ He E). apply everywhere_conns; [done|]. by apply Forall_app.
  - destruct (cut_conns _ _ _ _ _ _ He E) as [Hb Ha]. unfold servePublic.
    destruct (publicHandler _ _ _ _ _ _ _ _ _ _) as [[resp|p] b] eqn:Hp; [by apply (everywhere_same P s)|].
    apply (everywhere_same P (set_conns Public (before ++ Busy (serve p) :: after) s)); [by intros []|done|].
    apply everywhere_conns; [done|]. apply Forall_app. split; [done|]. constructor; [|done].
    apply (st_public _ HP), (PublicRequest _ _ _ _ r escaped a now now' (ps_buckets s)). by rewrite Hp.
  - destruct (cut_conns _ _ _ _ _ _ He E) as [Hb Ha]. apply everywhere_conns; [done|].
    apply Forall_app. split; [done|]. constructor; [apply (st_tailnet _ HP)|done].
  - destruct (cut_conns _ _ _ _ _ _ He E) as [Hb Ha]. apply everywhere_conns; [done|].
    apply Forall_app. split; [done|]. apply Forall_app. split; [|done]. by destruct (status l s); repeat constructor.
Qed.

Lemma everywhere_main_step P s s' : everywhere P s → main_step s s' → everywhere P s'.
Proof. intros He []; apply (everywhere_same P s); try done; by intros []. Qed.

Lemma everywhere_sweeper_step P s s' :
  starts P → everywhere P s → sweeper_step flags isCanceled s s' → everywhere P s'.
Proof. intros HP He []; (apply everywhere_sweeper; [done|]); by try apply (st_sweep _ HP). Qed.

Lemma everywhere_evict_step P s s' : everywhere P s → evict_step perSecond s s' → everywhere P s'.
Proof. intros He []; apply (everywhere_same P s); try done; by intros []. Qed.

(** ** What every step keeps *)

Abbreviation step := (step perSecond flags pageHTML values isCanceled).
Abbreviation stable := (stable db_inv guarantee).
Abbreviation limits := (rateCfg perSecond).

Record kept (d0 : DB) s : Prop := Kept {
  k_inv : db_inv (ps_db s);
  k_guarantee : guarantee d0 (ps_db s);
  k_programs : everywhere (stable (ps_db s)) s;
  k_buckets : bounded limits (ps_buckets s)
}.

(** A mux whose handlers are safe. *)
Lemma runs_serveMux mux r escaped d :
  (∀ p h, (p, h) ∈ mux → wp db_inv guarantee (h r) (λ _ _, True) d) →
  wp db_inv guarantee (serveMux mux r escaped) (λ _ _, True) d.
Proof.
  intros Hm. unfold serveMux. destruct (ServeMux mux r escaped) as [h| | |] eqn:E; try done.
  destruct (ServeMux_in _ _ _ _ E) as [p Hp]. apply wp_bind.
  eapply wp_mono; [|by apply (Hm p)]. done.
Qed.

Lemma starts_stable d : starts (stable d).
Proof.
  split.
  - by intros d' _ _.
  - intros p [r escaped a now now' buckets q Hq]. apply publicHandler_runs in Hq as ->.
    apply stable_safe. intros d' Hi. apply wp_serve, runs_serveMux. intros q h Hh. unfold publicMux in Hh.
    repeat (apply elem_of_cons in Hh as [[= -> ->]|Hh]; [try done|]).
    + by apply runs_mailbox.
    + by apply runs_public.
    + by apply elem_of_nil in Hh.
  - intros r escaped. apply stable_safe. intros d' Hi. apply wp_serve, runs_serveMux. intros q h Hh.
    unfold tailnetMux in Hh. repeat (apply elem_of_cons in Hh as [[= -> ->]|Hh]; [try done|]).
    + by apply runs_owner.
    + by apply elem_of_nil in Hh.
  - apply stable_safe. intros d' Hi. by apply wp_serve, runs_Once.
Qed.

(** *** The tables and the buckets of a step *)

Lemma runs_at_db s p fill q : runs_at s p fill → ps_db (fill q) = ps_db s ∧ ps_buckets (fill q) = ps_buckets s.
Proof. by intros []. Qed.

Lemma main_step_same s s' : main_step s s' → ps_db s' = ps_db s ∧ ps_buckets s' = ps_buckets s.
Proof. by intros []. Qed.

Lemma sweeper_step_same s s' :
  sweeper_step flags isCanceled s s' → ps_db s' = ps_db s ∧ ps_buckets s' = ps_buckets s.
Proof. by intros []. Qed.

Lemma publicHandler_bounded r escaped a now now' b :
  bounded limits b →
  bounded limits (publicHandler perSecond (f_interchangeID flags) pageHTML values r escaped a now now' b).2.
Proof.
  intros Hb. unfold publicHandler. rewrite (proj2 (RateLimit_allow _ _ _ _ _ _ _)).
  apply allow_bounded; [done|apply matchRule_id|done].
Qed.

Lemma conn_step_db s s' :
  conn_step perSecond flags pageHTML values s s' → bounded limits (ps_buckets s) →
  ps_db s' = ps_db s ∧ bounded limits (ps_buckets s').
Proof.
  intros [|l before after E|before after r escaped a now now' E|before after r escaped E|l before after E] Hb; try done.
  pose proof (publicHandler_bounded r escaped a now now' _ Hb) as H. unfold servePublic.
  by destruct (publicHandler _ _ _ _ _ _ _ _ _ _) as [[resp|p] b].
Qed.

Lemma evict_step_db s s' :
  evict_step perSecond s s' → bounded limits (ps_buckets s) →
  ps_db s' = ps_db s ∧ bounded limits (ps_buckets s').
Proof. intros [] Hb; split; [done|by apply evict_bounded|done..]. Qed.

(** Steps that execute no statement. *)
Lemma kept_quietly d0 s s' :
  ps_db s' = ps_db s → bounded limits (ps_buckets s') → everywhere (stable (ps_db s)) s' →
  kept d0 s → kept d0 s'.
Proof. intros Hd Hb He [H1 H2 H3 H4]. split; by rewrite ?Hd. Qed.

Lemma kept_step d0 s s' : kept d0 s → step s s' → kept d0 s'.
Proof.
  intros Hk [_ Hs]. pose proof Hk as [Hi Hg Hp Hb]. destruct Hs as
    [t Ht| |l Hl|l Hl|X stmt k fill x d Hr Hd|s' Hm|s' Hc|s' Hw|s' He].
  - apply (kept_quietly d0 s); [done..| |done]. by apply (everywhere_same _ s); [intros []|..].
  - apply (kept_quietly d0 s); [done..| |done]. by apply (everywhere_same _ s); [intros []|..].
  - apply (kept_quietly d0 s); [done..| |done]. by apply (everywhere_same _ s); [intros []; destruct l|..].
  - apply (kept_quietly d0 s); [done..| |done]. by apply (everywhere_same _ s); [intros []|..].
  - destruct (everywhere_at _ _ _ _ Hr Hp) as [Hv Hf].
    destruct (stable_step _ _ stmt k _ x d Hi Hv (db_step_stmt _ _ _ _ _ Hd)) as (Hi' & Hg' & Hk').
    split; [done|by etransitivity| |].
    + apply (everywhere_same _ (fill (k x)) (set_database d (fill (k x)))); [by intros []|done|].
      change (ps_db (set_database d (fill (k x)))) with d.
      destruct (everywhere_at (stable d) _ _ _ Hr) as [_ Hf']; [|by apply Hf'].
      apply (everywhere_mono (stable (ps_db s))); [|done]. intros p. by apply (stable_later _ _ (ps_db s)).
    + change (bounded limits (ps_buckets (fill (k x)))). by rewrite (proj2 (runs_at_db _ _ _ (k x) Hr)).
  - destruct (main_step_same _ _ Hm) as [Ed' Eb]. apply (kept_quietly d0 s); [done|by rewrite Eb| |done].
    by apply (everywhere_main_step _ s).
  - destruct (conn_step_db _ _ Hc Hb) as [Ed' Eb]. apply (kept_quietly d0 s); [done..| |done].
    apply (everywhere_conn_step _ s); [apply starts_stable|done..].
  - destruct (sweeper_step_same _ _ Hw) as [Ed' Eb]. apply (kept_quietly d0 s); [done|by rewrite Eb| |done].
    apply (everywhere_sweeper_step _ s); [apply starts_stable|done..].
  - destruct (evict_step_db _ _ He Hb) as [Ed' Eb]. apply (kept_quietly d0 s); [done..| |done].
    by apply (everywhere_evict_step _ s).
Qed.

Abbreviation reachable := (reachable perSecond flags pageHTML values isCanceled).

Lemma reachable_kept d t s : db_inv d → reachable d t s → kept d s.
Proof.
  intros Hi. revert s. apply rtc_ind_r.
  - split; [done|reflexivity| |].
    + split; [intros []; constructor|done].
    + intros id m Hm. exact (False_ind _ (lookup_empty_Some id m Hm)).
  - intros s1 s2 _ Hs Hk. by apply (kept_step d s1).
Qed.

End Spec.
