(* ===== verification/Shutdown.v ===== *)
(** * The order and the end of a shutdown

    Where the process stands at each point of [main], what a step other than one of
    [main] leaves as it is, and how the programs in progress come to their end. *)

From S2P Require Import Prelude GoStrings GoTime Http Trim Crypto CommandLine Middleware.
From S2P Require Import Storage Sql SQLite SQLiteRefines Mailbox Pairflow Sweep Sched Concurrent Mux MuxSpec Samples.
From S2P Require Import Discovery Effects Relay Listeners Process ProcessSpec.

Local Open Scope Z_scope.

Section Shutdown.
Context `{Ed : Ed25519} `{Keys : Ed25519Keys} `{Suite : AeadSuite} `{Bucket : TokenBucket}.
Context (perSecond : Z → Z → Rate) (flags : Flags) (pageHTML : string) (values : Values).
Context (isCanceled : error → bool).

Implicit Type s : Process.

Abbreviation step := (step perSecond flags pageHTML values isCanceled).
Abbreviation any_step := (any_step perSecond flags pageHTML values isCanceled).
Abbreviation reachable := (reachable perSecond flags pageHTML values isCanceled).

(** ** Where [main] is *)

Abbreviation up l s := (status l s ≠ ShutDown).
Abbreviation down l s := (status l s = ShutDown).

Definition ordered s : Prop :=
  match ps_main s with
  | AwaitsSignal => up Public s ∧ up Tailnet s ∧ ps_pubCtx s = None ∧ ps_tailCtx s = None ∧ ps_closed s = false
  | DrainsPublic =>
      ps_signalled s = true ∧ down Public s ∧ up Tailnet s ∧ is_Some (ps_pubCtx s) ∧
      ps_tailCtx s = None ∧ ps_closed s = false
  | DrainsTailnet =>
      ps_signalled s = true ∧ down Public s ∧ down Tailnet s ∧ is_Some (ps_tailCtx s) ∧
      drained Public s ∧ ps_closed s = false
  | AwaitsSweeper =>
      ps_signalled s = true ∧ (∀ l, down l s ∧ drained l s) ∧ ps_stop s = true ∧ ps_closed s = false
  | MainReturned | Exited =>
      ps_signalled s = true ∧ (∀ l, down l s ∧ drained l s) ∧ ps_stop s = true ∧
      ps_sweeper s = SweeperReturned ∧ ps_closed s = true
  | Crashed => up Tailnet s ∧ ps_closed s = false
  end.

(** What the other goroutines leave as it is. *)
Record frame s s' : Prop := Frame {
  f_main : ps_main s' = ps_main s;
  f_signalled : ps_signalled s = true → ps_signalled s' = true;
  f_down l : down l s' ↔ down l s;
  f_drained l : down l s → drained l s → drained l s';
  f_context l : context l s' = context l s;
  f_stop : ps_stop s' = ps_stop s;
  f_closed : ps_closed s' = ps_closed s;
  f_sweeper : ps_sweeper s = SweeperReturned → ps_sweeper s' = SweeperReturned
}.

Lemma frame_ordered s s' : frame s s' → ordered s → ordered s'.
Proof.
  intros [Hm Hs Hd Hr Hc Hst Hcl Hw]. pose proof (Hc Public) as Hp. pose proof (Hc Tailnet) as Ht.
  simpl in Hp, Ht. unfold ordered. rewrite Hm, Hp, Ht, Hst, Hcl.
  destruct (ps_main s); setoid_rewrite Hd; naive_solver.
Qed.

Lemma frame_conns l cs s :
  (down l s → conns l s = [] → cs = []) → frame s (set_conns l cs s).
Proof.
  intros Hcs. split; try done.
  - intros l'. by destruct l, l'.
  - intros l' Hd [E|(dl & Hc & Hle)]; [|right; exists dl; by destruct l, l'].
    left. destruct (decide (l = l')) as [->|Hne]; [|by destruct l, l'].
    transitivity cs; [by destruct l'|by apply Hcs].
Qed.

Lemma frame_busy l before c after cs s :
  conns l s = before ++ c :: after → frame s (set_conns l cs s).
Proof. intros E. apply frame_conns. rewrite E. intros _ H. by destruct before. Qed.

Lemma frame_refl s : frame s s.
Proof. by split. Qed.

Lemma frame_trans s s' s'' : frame s s' → frame s' s'' → frame s s''.
Proof.
  intros [M1 S1 D1 R1 C1 T1 L1 W1] [M2 S2 D2 R2 C2 T2 L2 W2].
  split; try congruence; auto.
  - intros l. by rewrite D2.
  - intros l Hd Hr. apply R2; [by apply D1|auto].
Qed.

Lemma frame_any s s' : any_step s s' → main_step s s' ∨ (∃ l, up l s ∧ s' = set_main Crashed s) ∨ frame s s'.
Proof.
  intros [t Ht| |l Hl|l Hl|X stmt k fill x d Hr Hd|s1 Hm|s1 Hc|s1 Hw|s1 He];
    [ | | |right; left; by exists l| |by left| | | ]; right; right.
  - split; try done.
    intros l _ [E|(dl & Hc & Hle)]; [left; by destruct l|right]. exists dl.
    split; [by destruct l|]. simpl. lia.
  - by split.
  - split; try done.
    + intros l'. destruct (decide (l = l')) as [->|Hne]; [|by destruct l, l'].
      rewrite Hl. by destruct l'.
    + intros l' Hd [E|H]; [left; by destruct l, l'|right; by destruct l, l'].
  - apply (frame_trans s (fill (k x))); [|by split].
    destruct Hr as [l before after p E|p E]; [by eapply frame_busy|].
    split; try done; congruence.
  - destruct Hc; [apply frame_conns; congruence|by eapply frame_busy| |by eapply frame_busy..].
    unfold servePublic. destruct (publicHandler _ _ _ _ _ _ _ _ _ _) as [[resp|p] b]; [by split|].
    apply (frame_trans s (set_conns Public (before ++ Busy (serve p) :: after) s)); [by eapply frame_busy|].
    by split.
  - destruct Hw as [E|E|E]; split; try done; simpl; congruence.
  - by destruct He; split.
Qed.

Lemma main_step_ordered s s' : main_step s s' → ordered s → ordered s'.
Proof.
  intros [Hm Hs|Hm Hd|Hm Hd|Hm Hw|Hm] Ho; unfold ordered in *; rewrite Hm in Ho; cbn.
  - destruct Ho as (Hp & Ht & Hc & Hc' & Hcl). by eauto 10.
  - destruct Ho as (Hs & Hp & Ht & Hc & Hc' & Hcl). by eauto 10.
  - destruct Ho as (Hs & Hp & Ht & Hc & Hp' & Hcl). split_and!; try done. by intros [].
  - destruct Ho as (Hs & Hd & Hst & Hcl). done.
  - done.
Qed.

Lemma ordered_step s s' : step s s' → ordered s → ordered s'.
Proof.
  intros [[Ha Ha'] Hs] Ho. destruct (frame_any s s' Hs) as [Hm|[(l & Hl & ->)|Hf]].
  - by apply (main_step_ordered s).
  - unfold ordered in *. cbn. destruct (ps_main s); try done.
    + by destruct Ho as (_ & Ht & _ & _ & Hc).
    + by destruct Ho as (_ & _ & Ht & _ & _ & Hc).
    + destruct Ho as (_ & Hp & Ht & _). by destruct l.
    + destruct Ho as (_ & Hd & _). by destruct (Hd l).
    + destruct Ho as (_ & Hd & _). by destruct (Hd l).
  - by apply (frame_ordered s).
Qed.

Lemma reachable_ordered d t s : reachable d t s → ordered s.
Proof.
  revert s. apply rtc_ind_r; [done|]. intros s1 s2 _ Hs Ho. by apply (ordered_step s1).
Qed.

(** ** To the end of the programs *)

Lemma set_conns_id l s : set_conns l (conns l s) s = s.
Proof. by destruct l, s as [? [] []]. Qed.

Lemma set_database_id s : set_database (ps_db s) s = s.
Proof. by destruct s. Qed.

Lemma set_sweeper_id s : set_sweeper (ps_sweeper s) s = s.
Proof. by destruct s. Qed.

Lemma set_conns_again l cs cs' d d' s :
  set_database d' (set_conns l cs' (set_database d (set_conns l cs s))) = set_database d' (set_conns l cs' s).
Proof. by destruct l. Qed.

(** A place where a program executes its statements. *)
Definition place (at_ : DB → Prog unit → Process) : Prop :=
  ∀ X (stmt : Stmt X) k d x d', stmt_step stmt d x d' → step (at_ d (Vis stmt k)) (at_ d' (k x)).

Lemma place_finishes at_ p d :
  place at_ →
  ∃ m d', nsteps step m (at_ d p) (at_ d' (Ret tt)) ∧ ∀ n, does anything n p → (m <= n)%nat.
Proof.
  intros Hat. revert d. induction p as [[]|X stmt k IH]; intros d.
  - exists 0%nat, d. split; [constructor|intros; lia].
  - destruct (stmt_total calm stmt d) as (x & d1 & Hx). destruct (IH x d1) as (m & d2 & Hr & Hm).
    exists (S m), d2. split; [econstructor; [by apply Hat|done]|]. intros [|n] Hd; [done|].
    destruct Hd as [_ Hk]. specialize (Hm n (Hk x)). lia.
Qed.

(** The place of a connection's handler, and that of the sweep. *)
Lemma conn_place l cs s :
  alive s → ps_closed s = false →
  place (λ d p, set_database d (set_conns l (Busy p :: cs) s)).
Proof.
  intros Ha Ho X stmt k d x d' Hx. split; [done|].
  rewrite <- (set_conns_again l (Busy (Vis stmt k) :: cs) _ d d').
  apply (StepStatement _ _ _ _ _ _ _ stmt k
    (λ q, set_conns l (Busy q :: cs) (set_database d (set_conns l (Busy (Vis stmt k) :: cs) s)))).
  - apply (RunsConn _ l [] cs). by destruct l.
  - apply db_step_open; [exact Ho|exact Hx].
Qed.

Lemma sweep_place s :
  alive s → ps_closed s = false → place (λ d p, set_database d (set_sweeper (Sweeps p) s)).
Proof.
  intros Ha Ho X stmt k d x d' Hx. split; [done|].
  apply (StepStatement _ _ _ _ _ (set_database d (set_sweeper (Sweeps (Vis stmt k)) s)) _ stmt k
    (λ q, set_sweeper (Sweeps q) (set_database d (set_sweeper (Sweeps (Vis stmt k)) s)))).
  - by apply RunsSweep.
  - apply db_step_open; [exact Ho|exact Hx].
Qed.

(** A connection of a server that has shut down closes after its answer. *)
Lemma answered l cs d s :
  alive s → down l s →
  step (set_database d (set_conns l (Busy (Ret tt) :: cs) s)) (set_database d (set_conns l cs s)).
Proof.
  intros Ha Hd. split; [done|].
  pose proof (ConnAnswered perSecond flags pageHTML values
    (set_database d (set_conns l (Busy (Ret tt) :: cs) s)) l [] cs) as H.
  assert (status l (set_database d (set_conns l (Busy (Ret tt) :: cs) s)) = ShutDown) as Hs by by destruct l.
  rewrite Hs in H.
  apply StepConn. destruct l; by apply H.
Qed.

(** The connections of a server that has shut down come to their end. *)
Lemma finish_conns l cs s :
  alive s → ps_closed s = false → down l s → conns l s = cs →
  ∃ d, rtc step s (set_database d (set_conns l [] s)).
Proof.
  intros Ha Ho Hd. revert s Ha Ho Hd. induction cs as [|c cs IH]; intros s Ha Ho Hd E.
  - exists (ps_db s). rewrite <- E, set_conns_id, set_database_id. done.
  - assert (∃ d, rtc step s (set_database d (set_conns l cs s))) as [d Hr].
    { destruct c as [|p].
      - exists (ps_db s). apply rtc_once. split; [done|].
        replace (set_database (ps_db s) (set_conns l cs s)) with (set_conns l cs s) by by destruct l, s.
        by apply StepConn, (ConnClosed _ _ _ _ _ l [] cs).
      - destruct (place_finishes _ p (ps_db s) (conn_place l cs s Ha Ho)) as (m & d & Hr & _).
        exists d. cbv beta in Hr. rewrite <- E, set_conns_id, set_database_id in Hr.
        etrans; [by eapply rtc_nsteps_2|]. by apply rtc_once, answered. }
    destruct (IH (set_database d (set_conns l cs s))) as [d' Hr'];
      [done..|by destruct l|by destruct l|].
    exists d'. rewrite set_conns_again in Hr'. by etrans.
Qed.

(** ** To the end of the sweeper *)

(** A sweep in progress has at most three statements and readings left. *)
Definition sweep_budget s : Prop := sweeper_all (does anything 3) (ps_sweeper s).

Lemma sweep_budget_step s s' : step s s' → sweep_budget s → sweep_budget s'.
Proof.
  unfold sweep_budget. intros [_ Hs] Hb.
  destruct Hs as [t Ht| |l Hl|l Hl|X stmt k fill x d Hr Hd|s1 Hm|s1 Hc|s1 Hw|s1 He]; try done.
  - remember (Vis stmt k) as q eqn:Eq. destruct Hr as [l before after p E|p E]; [done|].
    rewrite E, Eq in Hb. simpl in Hb. destruct Hb as [_ Hk].
    by apply (does_le _ 2); [lia|].
  - by destruct Hm.
  - destruct Hc; try done. unfold servePublic.
    by destruct (publicHandler _ _ _ _ _ _ _ _ _ _) as [[resp|p] b].
  - destruct Hw; try done. apply (does_weaken public_stmt); [done|]. by apply does_serve, public_sweep.
  - by destruct He.
Qed.

Lemma reachable_budget d t s : reachable d t s → sweep_budget s.
Proof. revert s. apply rtc_ind_r; [done|]. intros s1 s2 _ Hs Hb. by apply (sweep_budget_step s1). Qed.

Lemma finish_sweeper s :
  alive s → ps_closed s = false → ps_signalled s = true →
  ∃ m d, nsteps step m s (set_database d (set_sweeper SweeperReturned s)) ∧ (sweep_budget s → (m <= 5)%nat).
Proof.
  intros Ha Ho Hs. unfold sweep_budget.
  assert (∀ d, step (set_database d (set_sweeper SweeperWaits s)) (set_database d (set_sweeper SweeperReturned s)))
    as Hc by (intros d; split; [done|]; apply StepSweeper;
      exact (SweeperCanceled _ _ (set_database d (set_sweeper SweeperWaits s)) eq_refl Hs)).
  destruct (ps_sweeper s) as [|p|] eqn:E.
  - exists 1%nat, (ps_db s). split; [|lia]. apply nsteps_once.
    specialize (Hc (ps_db s)). by rewrite <- E, set_sweeper_id, set_database_id in Hc.
  - destruct (place_finishes _ p (ps_db s) (sweep_place s Ha Ho)) as (m & d & Hr & Hm). cbv beta in Hr.
    rewrite <- E, set_sweeper_id, set_database_id in Hr. exists (m + 2)%nat, d. split.
    + eapply nsteps_trans; [exact Hr|]. econstructor; [|apply nsteps_once, Hc].
      split; [done|]. apply StepSweeper.
      exact (SweeperSwept _ _ (set_database d (set_sweeper (Sweeps (Ret tt)) s)) eq_refl).
    + intros Hb. specialize (Hm 3%nat Hb). lia.
  - exists 0%nat, (ps_db s). split; [|lia]. rewrite <- E, set_sweeper_id, set_database_id. constructor.
Qed.

(** ** To the end of the process *)

(** The process can end with every request answered, in no time. *)
Definition ends_well s : Prop :=
  ∃ s', rtc step s s' ∧ ps_main s' = Exited ∧ (∀ l, conns l s' = []) ∧ ps_clock s' = ps_clock s.

(** It can end within so many steps. *)
Definition ends_soon (n : nat) s : Prop :=
  ∃ m s', (m <= n)%nat ∧ nsteps step m s s' ∧ ps_main s' = Exited.

Lemma ends_well_after s s1 : rtc step s s1 → ps_clock s1 = ps_clock s → ends_well s1 → ends_well s.
Proof. intros Hr Hc (s' & Hr' & ? & ? & ?). exists s'. split_and!; [by etrans|done..|congruence]. Qed.

Lemma ends_soon_after n s s1 : step s s1 → ends_soon n s1 → ends_soon (S n) s.
Proof. intros Hs (m & s' & ? & ? & ?). exists (S m), s'. split; [lia|]. split; [by econstructor|done]. Qed.

Lemma joins s :
  ps_main s = AwaitsSweeper → ps_sweeper s = SweeperReturned →
  nsteps step 2 s (set_main Exited (returnMain s)).
Proof.
  intros Hm Hw. apply (nsteps_l _ _ _ (returnMain s)).
  - split; [by unfold alive; rewrite Hm|]. by apply StepMain, MainSweeperReturned.
  - apply nsteps_once. split; [done|]. by apply StepMain, MainExits.
Qed.

Lemma from_AwaitsSweeper s :
  ps_main s = AwaitsSweeper → ps_signalled s = true → (∀ l, down l s) → ps_closed s = false →
  ends_well s ∧ (sweep_budget s → ends_soon 7 s).
Proof.
  intros Hm Hs Hd Ho. assert (alive s) as Ha by (unfold alive; by rewrite Hm). split.
  - destruct (finish_conns Public _ s Ha Ho (Hd Public) eq_refl) as [d1 H1].
    set (s1 := set_database d1 (set_conns Public [] s)) in *.
    destruct (finish_conns Tailnet _ s1 Ha Ho (Hd Tailnet) eq_refl) as [d2 H2].
    set (s2 := set_database d2 (set_conns Tailnet [] s1)) in *.
    destruct (finish_sweeper s2 Ha Ho Hs) as (m & d3 & H3 & _).
    exists (set_main Exited (returnMain (set_database d3 (set_sweeper SweeperReturned s2)))).
    split_and!; [|done|by intros []|done].
    etrans; [exact H1|]. etrans; [exact H2|]. etrans; [by eapply rtc_nsteps_2|].
    eapply rtc_nsteps_2, joins; done.
  - intros Hb. destruct (finish_sweeper s Ha Ho Hs) as (m & d & Hr & Hle).
    exists (m + 2)%nat, (set_main Exited (returnMain (set_database d (set_sweeper SweeperReturned s)))).
    split; [specialize (Hle Hb); lia|]. split; [|done].
    eapply nsteps_trans; [exact Hr|]. by apply joins.
Qed.

(** A drain whose window is over returns. *)
Lemma waits n s l s1 dl :
  alive s → context l s = Some dl → main_step (set_clock (Z.max dl (ps_clock s)) s) s1 →
  ends_soon n s1 → ends_soon (S (S n)) s.
Proof.
  intros Ha Hc Hm He. apply (ends_soon_after _ _ (set_clock (Z.max dl (ps_clock s)) s)).
  - split; [done|]. apply StepTime. lia.
  - apply (ends_soon_after _ _ s1); [|done]. split; [done|by apply StepMain].
Qed.

Lemma window_over l s dl : context l s = Some dl → drained l (set_clock (Z.max dl (ps_clock s)) s).
Proof. intros Hc. right. exists dl. split; [by destruct l|]. simpl. lia. Qed.

Lemma from_DrainsTailnet s :
  ps_main s = DrainsTailnet → ps_signalled s = true → (∀ l, down l s) → is_Some (ps_tailCtx s) →
  ps_closed s = false → ends_well s ∧ (sweep_budget s → ends_soon 9 s).
Proof.
  intros Hm Hs Hd [dl Hc] Ho. assert (alive s) as Ha by (unfold alive; by rewrite Hm). split.
  - destruct (finish_conns Tailnet _ s Ha Ho (Hd Tailnet) eq_refl) as [d Hr].
    set (s1 := set_database d (set_conns Tailnet [] s)) in *.
    apply (ends_well_after s (stopLimiter s1)); [|done|by apply from_AwaitsSweeper; [| |intros l; specialize (Hd l); by destruct l|]].
    eapply rtc_r; [exact Hr|]. split; [done|]. apply StepMain, MainTailnetDrained; [done|by left].
  - intros Hb. apply (waits _ _ Tailnet (stopLimiter (set_clock (Z.max dl (ps_clock s)) s)) dl);
      [done|done|apply MainTailnetDrained; [done|by apply window_over]|].
    by apply from_AwaitsSweeper; [| |intros l; specialize (Hd l); by destruct l|..].
Qed.

Lemma from_DrainsPublic s :
  ps_main s = DrainsPublic → ps_signalled s = true → down Public s → is_Some (ps_pubCtx s) →
  ps_closed s = false → ends_well s ∧ (sweep_budget s → ends_soon 11 s).
Proof.
  intros Hm Hs Hd [dl Hc] Ho. assert (alive s) as Ha by (unfold alive; by rewrite Hm). split.
  - destruct (finish_conns Public _ s Ha Ho Hd eq_refl) as [d Hr].
    set (s1 := set_database d (set_conns Public [] s)) in *.
    apply (ends_well_after s (beginDrain Tailnet s1)); [|done|
      by apply from_DrainsTailnet; [| |intros []|eexists|]].
    eapply rtc_r; [exact Hr|]. split; [done|]. apply StepMain, MainPublicDrained; [done|by left].
  - intros Hb. apply (waits _ _ Public (beginDrain Tailnet (set_clock (Z.max dl (ps_clock s)) s)) dl);
      [done|done|apply MainPublicDrained; [done|by apply window_over]|].
    by apply from_DrainsTailnet; [| |intros []|eexists|..].
Qed.

Lemma from_AwaitsSignal s :
  ps_main s = AwaitsSignal → ps_signalled s = true → ps_closed s = false →
  ends_well s ∧ (sweep_budget s → ends_soon 12 s).
Proof.
  intros Hm Hs Ho. assert (step s (beginDrain Public s)) as Hr.
  { split; [unfold alive; by rewrite Hm|]. by apply StepMain, MainSignalled. }
  split.
  - apply (ends_well_after s (beginDrain Public s)); [by apply rtc_once|done|].
    by apply from_DrainsPublic; [| | |eexists|].
  - intros Hb. apply (ends_soon_after _ _ (beginDrain Public s)); [done|].
    by apply from_DrainsPublic; [| | |eexists|..].
Qed.

Lemma ends_soon_le n m s : (n <= m)%nat → ends_soon n s → ends_soon m s.
Proof. intros Hle (k & s' & ? & ?). exists k, s'. split; [lia|done]. Qed.

Lemma shutdown_from s :
  ordered s → sweep_budget s → ps_signalled s = true → ps_main s ≠ Crashed →
  (ps_closed s = false → ends_well s) ∧ ends_soon 12 s.
Proof.
  intros Ho Hb Hs Hc. unfold ordered in Ho. destruct (ps_main s) eqn:Hm; [..|done].
  - destruct Ho as (_ & _ & _ & _ & Hcl). destruct (from_AwaitsSignal s); auto.
  - destruct Ho as (_ & Hd & _ & Hx & _ & Hcl). destruct (from_DrainsPublic s) as [H1 H2]; [done..|].
    split; [done|]. apply (ends_soon_le 11); [lia|auto].
  - destruct Ho as (_ & Hd & Hd' & Hx & _ & Hcl).
    destruct (from_DrainsTailnet s) as [H1 H2]; [done|done|by intros l; destruct l|done..|].
    split; [done|]. apply (ends_soon_le 9); [lia|auto].
  - destruct Ho as (_ & Hd & _ & Hcl).
    destruct (from_AwaitsSweeper s) as [H1 H2]; [done|done|intros l; apply (Hd l)|done|].
    split; [done|]. apply (ends_soon_le 7); [lia|auto].
  - destruct Ho as (_ & _ & _ & _ & Hcl). split; [by rewrite Hcl|].
    exists 1%nat, (set_main Exited s). split; [lia|]. split; [|done].
    apply nsteps_once. split; [unfold alive; by rewrite Hm|]. by apply StepMain, MainExits.
  - destruct Ho as (_ & _ & _ & _ & Hcl). split; [by rewrite Hcl|].
    exists 0%nat, s. split; [lia|]. split; [constructor|done].
Qed.

(** *** Deadlines *)

(** A listener shuts down with a window of its own, the tailnet's after the public's
    drain; a deadline that is set stays. *)
Lemma shuts_down l s s' :
  step s s' → ordered s → up l s → down l s' →
  ps_signalled s = true ∧ context l s' = Some (ps_clock s + drainWindow) ∧
  (l = Tailnet → down Public s ∧ drained Public s).
Proof.
  intros [_ Hs] Ho Hu Hd. destruct (frame_any s s' Hs) as [Hm|[(l' & Hl & ->)|Hf]].
  - unfold ordered in Ho. destruct Hm as [Hm H|Hm H|Hm H|Hm H|Hm]; rewrite Hm in Ho; try done.
    + by destruct l; [|destruct Ho as (_ & Ho & _)].
    + destruct Ho as (Hsig & Hp & Ht & _). by destruct l.
  - by destruct l.
  - by apply (f_down _ _ Hf) in Hd.
Qed.

Lemma deadline_stays l dl s s' :
  step s s' → ordered s → context l s = Some dl → context l s' = Some dl.
Proof.
  intros [_ Hs] Ho Hc. destruct (frame_any s s' Hs) as [Hm|[(l' & Hl & ->)|Hf]].
  - unfold ordered in Ho. destruct Hm as [Hm H|Hm H|Hm H|Hm H|Hm]; rewrite Hm in Ho; try (by destruct l).
    + destruct Ho as (_ & _ & Hp & Ht & _). destruct l; simpl in *; congruence.
    + destruct Ho as (_ & _ & _ & _ & Ht & _). destruct l; simpl in *; congruence.
  - by destruct l.
  - by rewrite (f_context _ _ Hf).
Qed.

(** A program that meets a closed database outlived a drain window. *)
Lemma closed_late s p fill :
  ordered s → runs_at s p fill → ps_closed s = true →
  ∃ l dl, context l s = Some dl ∧ dl <= ps_clock s ∧ conns l s ≠ [].
Proof.
  intros Ho Hr Hcl. unfold ordered in Ho.
  assert ((∀ l, drained l s) ∧ ps_sweeper s = SweeperReturned) as [Hd Hw].
  { destruct (ps_main s); rewrite Hcl in Ho; naive_solver. }
  destruct Hr as [l before after p E|p E]; [|congruence].
  destruct (Hd l) as [E'|(dl & Hc & Hle)]; [rewrite E in E'; by destruct before|].
  exists l, dl. split_and!; [done..|]. rewrite E. by destruct before.
Qed.

End Shutdown.
