(* ===== verification/ProcessTheorems.v ===== *)
(** * Properties of the relay process

    From the listeners to the end of the process: the tables and the limiter in
    every state, the order of a shutdown, and that a shutdown ends. *)

From S2P Require Import Prelude GoStrings GoTime Http Trim Crypto CommandLine Middleware MiddlewareTheorems.
From S2P Require Import Storage Sql SQLite SQLiteRefines Mailbox Pairflow Sweep Sched Concurrent Mux MuxSpec.
From S2P Require Import Samples Discovery DiscoveryTheorems Effects Relay Listeners ListenerTheorems.
From S2P Require Import Process ProcessSpec Shutdown.

Local Open Scope Z_scope.

Section Theorems.
Context `{Ed : Ed25519} `{Keys : Ed25519Keys} `{Suite : AeadSuite} `{Bucket : TokenBucket}.
Context (perSecond : Z → Z → Rate) (flags : Flags) (pageHTML : string) (values : Values).
Context (isCanceled : error → bool).

Abbreviation step := (step perSecond flags pageHTML values isCanceled).
Abbreviation reachable := (reachable perSecond flags pageHTML values isCanceled).

(** C2: the tables and the limiter of the running process.  In every state, from
    the first connection to the exit, whatever requests arrive on both listeners,
    sweeps and evictions run, statements fail and the signal comes, in every
    interleaving: the invariant of the three tables holds; active pairs stay as they
    are, no request disappears, and a request that is approved, denied or expired
    never changes again; each rule of the limiter has at most 50000 buckets; and
    both tickers have a positive period, for any flags. *)
Theorem process_keeps_tables (d0 : DB) (t : Time) (s : Process) :
  db_inv d0 → reachable d0 t s →
  db_inv (ps_db s) ∧
  (∀ k p, pairs d0 !! k = Some p → pairs (ps_db s) !! k = Some p) ∧
  (∀ k r, pair_requests d0 !! k = Some r →
     ∃ r', pair_requests (ps_db s) !! k = Some r' ∧
       rr_requester_json r' = rr_requester_json r ∧ rr_target_nexus_id r' = rr_target_nexus_id r ∧
       (rr_status r ≠ StatusPending → r' = r) ∧
       rr_status r' ∈ [rr_status r; StatusApproved; StatusDenied; StatusExpired]) ∧
  (∀ id m, ps_buckets s !! id = Some m → Z.of_nat (size m) <= 50000) ∧
  evictPeriod (rateCfg perSecond) = Some (5 * Minute) ∧ 0 < Interval (sweepConfig flags).
Proof.
  intros Hi Hr. destruct (reachable_kept _ _ _ _ _ _ _ _ Hi Hr) as [Hk [Hp Hq] _ Hb].
  split_and!; [done|done| | |done|].
  - intros k r Hk0. destruct (Hq k r Hk0) as (r' & Hr' & [->|(Hs & Hs' & _ & _ & Hj & Ht)]).
    + exists r. split_and!; try done. by left.
    + exists r'. split_and!; try done. by right.
  - intros id m Hm. apply (Hb id m Hm).
  - unfold sweepConfig, defaults. simpl. destruct (Z.leb_spec (f_sweepInterval flags) 0); [done|lia].
Qed.

(** C3: a shutdown is in order.  A listener closes only after the signal, the
    tailnet's only when the public server has no connection left or its window is
    over, and each with a window of ten seconds of its own that never changes.  The
    database is closed last: then both servers have shut down and each has no
    connection left or has had its window, the sweeper has returned and the limiter
    is told to stop; so a statement that meets the closed database belongs to a
    request that outlived a window.  [main] exits after closing it; a fatal error of
    a listener exits before the tailnet server shuts down. *)
Theorem shutdown_in_order (d0 : DB) (t : Time) (s : Process) :
  reachable d0 t s →
  (∀ s' l, step s s' → status l s ≠ ShutDown → status l s' = ShutDown →
     ps_signalled s = true ∧ context l s' = Some (ps_clock s + 10 * Second) ∧
     (l = Tailnet → status Public s = ShutDown ∧
        (conns Public s = [] ∨ ∃ dl, context Public s = Some dl ∧ dl <= ps_clock s))) ∧
  (∀ s' l dl, step s s' → context l s = Some dl → context l s' = Some dl) ∧
  (ps_closed s = true →
     ps_signalled s = true ∧ ps_sweeper s = SweeperReturned ∧ ps_stop s = true ∧
     ∀ l, status l s = ShutDown ∧
       (conns l s = [] ∨ ∃ dl, context l s = Some dl ∧ dl <= ps_clock s)) ∧
  (∀ p fill, runs_at s p fill → ps_closed s = true →
     ∃ l dl, context l s = Some dl ∧ dl <= ps_clock s ∧ conns l s ≠ []) ∧
  (ps_main s = Exited → ps_closed s = true) ∧
  (ps_main s = Crashed → ps_closed s = false ∧ status Tailnet s ≠ ShutDown).
Proof.
  intros Hr. apply reachable_ordered in Hr as Ho. split_and!.
  - intros s' l Hs Hu Hd. by apply (shuts_down _ _ _ _ _ l s s' Hs Ho Hu Hd).
  - intros s' l dl Hs. by apply (deadline_stays _ _ _ _ _ l dl s s' Hs Ho).
  - intros Hc. unfold ordered in Ho. destruct (ps_main s); rewrite Hc in Ho; naive_solver.
  - intros p fill Hp Hc. by apply (closed_late perSecond s p fill Ho).
  - intros Hm. unfold ordered in Ho. rewrite Hm in Ho. naive_solver.
  - intros Hm. unfold ordered in Ho. rewrite Hm in Ho. naive_solver.
Qed.

(** C4: a shutdown ends.  From every state after the signal that no fatal error of a
    listener has ended, [main] can exit within twelve steps whatever the requests in
    progress do, the two windows included; and as long as the database is open it
    can exit with every request answered and no connection left, before any window
    is over. *)
Theorem shutdown_ends (d0 : DB) (t : Time) (s : Process) :
  reachable d0 t s → ps_signalled s = true → ps_main s ≠ Crashed →
  (∃ n s', (n <= 12)%nat ∧ nsteps step n s s' ∧ ps_main s' = Exited) ∧
  (ps_closed s = false →
   ∃ s', rtc step s s' ∧ ps_main s' = Exited ∧ (∀ l, conns l s' = []) ∧ ps_clock s' = ps_clock s).
Proof.
  intros Hr Hs Hc. destruct (shutdown_from perSecond flags pageHTML values isCanceled s) as [H1 H2]; [..|done].
  - by apply reachable_ordered in Hr.
  - by apply reachable_budget in Hr.
  - done.
  - done.
Qed.

End Theorems.

(** ** Witnesses *)

Section Witnesses.
Import MiddlewareTheorems.Demo.
#[local] Existing Instance DiscoveryTheorems.Demo.toy_keys.
#[local] Existing Instance DiscoveryTheorems.Demo.toy_suite.

Definition demoFlags : Flags :=
  MkFlags ":8443" "127.0.0.1:8444" "relay" ":memory:" 0 Hour "secret" false.

Let noCancel : error → bool := λ _, false.
Let steps := step demoRate demoFlags "" demoValues noCancel.
Let states := reachable demoRate demoFlags "" demoValues noCancel empty_db noon.

(** A requester's connection is accepted, its request arrives, then the signal. *)
Definition listening : Process := set_status Public Listening (newProcess empty_db noon).
Definition accepted : Process := set_conns Public [Idle] listening.
Definition in_progress : Process :=
  servePublic demoRate demoFlags "" demoValues [] [] create_alice "/pair/request" "10.0.0.1:99" noon noon accepted.
Definition signalled : Process := set_signalled true in_progress.
Definition draining : Process := beginDrain Public signalled.

Lemma in_progress_busy : ∃ p, conns Public in_progress = [Busy p].
Proof. by eexists. Qed.

Lemma signalled_reachable : states signalled.
Proof.
  unfold states. eapply rtc_l; [split; [done|]; by apply (StepListens _ _ _ _ _ _ Public)|].
  eapply rtc_l; [split; [done|]; by apply StepConn, (ConnAccepted _ _ _ _ _ Public)|].
  eapply rtc_l; [split; [done|]; by apply StepConn, (ConnPublic _ _ _ _ _ [] [] create_alice "/pair/request" "10.0.0.1:99" noon noon)|].
  apply rtc_once. split; [done|]. apply StepSignal.
Qed.

Lemma drains : steps signalled draining.
Proof. split; [done|]. by apply StepMain, MainSignalled. Qed.

Lemma draining_reachable : states draining.
Proof. eapply rtc_r; [apply signalled_reachable|apply drains]. Qed.

Lemma process_keeps_tables_witness :
  (∃ p, conns Public draining = [Busy p]) ∧ db_inv (ps_db draining) ∧
  Interval (sweepConfig demoFlags) = Hour ∧ 0 < Interval (sweepConfig demoFlags).
Proof.
  pose proof (process_keeps_tables demoRate demoFlags "" demoValues noCancel empty_db noon draining
    db_inv_empty draining_reachable) as (Hi & _ & _ & _ & _ & Hp).
  split; [exact in_progress_busy|]. split; [exact Hi|]. split; [reflexivity|exact Hp].
Defined.

Lemma shutdown_in_order_witness :
  ps_signalled signalled = true ∧ context Public draining = Some (noon + 10 * Second).
Proof.
  pose proof (shutdown_in_order demoRate demoFlags "" demoValues noCancel empty_db noon signalled
    signalled_reachable) as [H _].
  destruct (H draining Public drains) as (Hs & Hc & _); [discriminate|reflexivity|].
  split; [exact Hs|exact Hc].
Defined.

Lemma shutdown_ends_witness :
  ∃ s, rtc steps draining s ∧ ps_main s = Exited ∧ (∀ l, conns l s = []) ∧ ps_clock s = noon.
Proof.
  refine (proj2 (shutdown_ends demoRate demoFlags "" demoValues noCancel empty_db noon draining
    draining_reachable _ _) _); [reflexivity|discriminate|reflexivity].
Defined.

End Witnesses.
